(* ===== verification/_CoqProject ===== *)
-Q . S2P
Prelude.v
Aes.v
Fips197.v
Layout.v
Iface.v
Mem.v
Sha.v
Hmac.v
Blake2b.v
Argon2.v
Cipher.v
Luks1.v
Luks2.v
LuksVol.v
Config.v
Disk.v
Fat.v
Menu.v
Passphrase.v
BootCount.v
LoaderEntry.v
Ext4.v
Elf.v
Linux.v
Efi.v
Windows.v
Handover.v
Scan.v
Console.v
Uefi.v
Shell.v
Boot.v
Bios.v
Structs.v
EfiAbi.v
Tests.v
