(* ===== verification/Prelude.v ===== *)
(** * SakuruBoot: verification library

    SakuruBoot is a boot loader with two editions that share most of their code: an UEFI
    application and a BIOS second stage.  It finds kernels on FAT and ext4 volumes, shows
    a menu, unlocks encrypted volumes and hands over to ViOS, Linux, Windows or the UEFI
    shell.  This library models its C code in Rocq and proves what the parts promise.
    This file is its root: the documentation, and the generic definitions and lemmas
    everything else uses.

    ** The parts, their files and what is proved

    Cryptography ([crypto/]).
    - [Aes]: [aes.c].  Key expansion and block cipher on byte lists; decryption undoes
      encryption; the key schedule recurrence; the S-box as inversion in GF(2^8).
      [Fips197]: FIPS 197 over the field of polynomials and the state matrix, and that
      [aes.c] computes it for 128-bit and 256-bit keys.
    - [Sha]: [sha.c].  The streaming contexts of SHA-1, SHA-256 and SHA-512 compute FIPS
      180-4's function of the whole message, however it is cut.
    - [Hmac]: [hmac.c], [pbkdf2.c], against the interface [StreamHash] of [Iface]: RFC 2104
      and RFC 2898, independence of uninitialised buffers, termination.
    - [Blake2b]: [blake2b.c]; [Argon2]: [argon2.c].  RFC 7693's hash, H', the indices and
      memory safety of the fill, and where the initial hash leaves RFC 9106.
    - [Cipher]: [cipher.c], against an interface for block ciphers.  XTS and CBC on sectors.

    Encrypted volumes ([luks/]).
    - [Luks1], [Luks2], [LuksVol]: [luks1.c], [luks2.c], [luks_vol.c].  Anti-forensic merge,
      base64, the JSON lookup, soundness of unlocking (success only with a key whose digest
      is the stored one), reading a volume as its plaintext image; where the payload
      offset is really read from.

    Shared services ([common/]).
    - [Mem]: [mem.c] on a byte-addressed memory, equality up to extension.
    - [Config]: [config.c].  The parser is total and leaves a well-formed table; printing
      and parsing is the identity; adding kernels; what the documented syntax comes to.
    - [Menu]: [menu.c].  Rendering as the list of console calls; the key loop as a
      refinement of an abstract transition system; the default is booted after the
      timeout.
    - [Passphrase]: [passphrase.c], a refinement of a line editor that leaves nothing behind.
    - [BootCount]: [bootcount.c], [efivar.c] and their use around the menu, against the
      interface [NvStore] of the variable services with its laws.
    - [LoaderEntry]: [loader_entry.c], the .conf files of [/loader/entries].
    - [Console]: the two consoles and [serial.c]; see below.

    Volumes.
    - [Disk]: [bios/stage2/disk.c], an instance of the interface [BlockDev] of [Iface].
    - [Fat]: [bios/stage2/fat.c] against [BlockDev].  Lookup is one scan of the cluster
      chain's entries, files are read back exactly, every search ends even on cyclic chains.
    - [Ext4]: [uefi/ext4.c].  The three back ends give the same bytes; extent lookup; a file
      is read back exactly by its path; directories; mounting through LUKS.

    Operating systems ([os/]).
    - [Elf]: [elf_loader.c], [vios.c].  What loading leaves in memory, page reservation.
    - [Linux]: [linux.c], command line and memory layout.  [Windows]: [windows.c], the
      search for the boot manager and the choice of the partition.
    - [Handover]: the loaders' BIOS build over [Fat] and its static buffers, and the
      assembly of [vios_boot], [linux_boot] and [windows_boot] as instruction lists over a
      register file: where each jump goes, whichever register the compiler chose.

    The UEFI application ([uefi/uefi_loader.c]).
    - [Efi]: paths and [read_file].  [Scan]: the search of all volumes; every entry of the
      table stays bound to the file system it was found on.
    - [Console]: [con_puts] and the printers of numbers, colours, keys; also the VGA screen
      and keyboard of the BIOS edition (the screen refines an endless terminal) and the
      debug port.
    - [Uefi]: the steps of [uefi_main].  The boot volume, the whole table, the passphrase
      loop, the choice of the loader (an encrypted entry is never loaded without being
      unlocked), frame buffer, ACPI pointer, memory map.
    - [Shell]: [launch_uefi_shell].  Device paths, boot options, what may take over.
    - [Boot]: [uefi_main] and [efi_main] as a whole.  The firmware is one record, a run is
      its outcome, the variables afterwards and the list of what was seen.  A run left
      alone ends in the default entry's kernel ([unattended_boot]); a kernel is entered
      only in order ([uefi_main_enters]); every attempt is counted first
      ([uefi_main_counts]); and the unlocking code is never reached
      ([uefi_main_ignores_luks]).

    Layouts and the firmware's interface.
    - [Layout]: C types as data (integers, arrays, structures packed or not), size,
      alignment and offsets by the rules of the ABI; a member that is written is read back
      and every disjoint one keeps its value.
    - [Structs]: the structures the sources declare for what they read from disks and
      images.  The numeric offsets of [Fat], [Bios], [Windows], [Elf] and [Luks1] are those
      of the members; the stores of [Linux.set_header] change four members only.
    - [EfiAbi]: [uefi/efi.h], every table and protocol with the offsets of the
      specification, the GUIDs in their bytes, colours and status codes.
    - [Tests]: the repository's unit tests evaluated on the model, and where they
      and the code disagree.

    The BIOS edition ([bios/stage2/main.c]).
    - [Bios]: partition table, discovery through [Fat], the main function through loading
      and the jump; why it never reaches its menu.

    ** How code is modelled

    A C integer of width w is the Z it denotes, wrapped explicitly where it can leave its
    range ([u8], [u16], [u32], [u64], [i32]).  Buffers are lists of Z; a C string is the
    list before its terminator ([cstr]).  A function that can run into behaviour C leaves
    undefined (an access outside an object above all) returns [option], and the outer
    [None] is that case; failures the code reports are an inner [option], a status or a
    constructor.  Static and uninitialised memory that a result may depend on is an
    argument, so a theorem about all its values is independence of it.  State that calls
    share is passed explicitly: the driver's buffers and handle pool in [Fat], the
    sector buffer in [LuksVol], the table with the contexts in [Scan], memory in [Elf] and
    [Linux].  Output is the list of calls made, keyboards are the list of what successive
    polls deliver.

    The firmware (UEFI protocols and services, BIOS interrupts) is a parameter: functions
    for what opening, reading, loading or enumerating gives, with laws only where the code
    relies on documented behaviour ([NvLaws], [BlockDevImage], [bios_serves]).

    ** Loops and fuel

    Loops over data are structural.  The others take fuel that the definitions compute
    from the data so that it is never the reason for a result: the length of the text
    (parsers, [con_puts], [conf_lines]: each turn consumes a character), the cluster limit
    of the volume plus one ([find_loop], [enum_loop]: the code counts the same visits),
    the length of the path (walks), the length of the memory ([dp_length]: nodes advance; a node of size
    0 loops in C and is [None]).  Totality is proved where it is claimed: [config_parse_total],
    [find_in_dir_terminates], [con_puts_decodes], [argon2_memory_safe], [unlock_outcome].

    ** Not modelled

    The assembly files (the first stage, the second stage's mode switches) and the linker
    script; the build and the documentation's site.  Debug output is not among the events
    of a run.  Of the jumps only what the C files write inline is modelled, not what the
    kernel does.  Timing: pauses are not represented except as the polls between them.
    Of the services a protocol declares, the position of the pointer is modelled; what a
    call of it does is a parameter of the code that makes it, and a service nothing calls
    has no other counterpart. *)

From stdpp Require Export base tactics option numbers list list_numbers strings sets.
From Stdlib Require Export ZArith Lia.
From Stdlib Require Export Btauto.

Declare Scope boot_scope.
Delimit Scope boot_scope with boot.

Open Scope Z_scope.

(** ** Machine integers

    A C unsigned integer of width [w] is the [Z] it denotes; each operation of
    the source that can leave the range wraps explicitly. *)

Definition wrap (w x : Z) : Z := x mod 2 ^ w.
Abbreviation u8 := (wrap 8).
Abbreviation u16 := (wrap 16).
Abbreviation u32 := (wrap 32).
Abbreviation u64 := (wrap 64).

(** Two's complement reading of a 32-bit value, C's [int]. *)
Definition i32 (x : Z) : Z := (x + 2 ^ 31) mod 2 ^ 32 - 2 ^ 31.

Abbreviation zlen l := (Z.of_nat (length l)).

Infix "<<" := Z.shiftl (at level 34, left associativity) : boot_scope.
Infix ">>" := Z.shiftr (at level 34, left associativity) : boot_scope.
Infix ".^" := Z.lxor (at level 45, left associativity) : boot_scope.
Infix ".&" := Z.land (at level 42, left associativity) : boot_scope.
Infix ".|" := Z.lor (at level 48, left associativity) : boot_scope.
Open Scope boot_scope.

Create HintDb word discriminated.
Create Rewrite HintDb len.

Lemma wrap_range w x : 0 <= w -> 0 <= wrap w x < 2 ^ w.
Proof. intros. apply Z.mod_pos_bound. lia. Qed.

Lemma wrap_small w x : 0 <= x < 2 ^ w -> wrap w x = x.
Proof. apply Z.mod_small. Qed.

Lemma wrap_wrap w x : wrap w (wrap w x) = wrap w x.
Proof. apply Zmod_mod. Qed.

Lemma wrap_land w x : 0 <= w -> wrap w x = x .& Z.ones w.
Proof. intros. unfold wrap. by rewrite Z.land_ones. Qed.

Lemma wrap_testbit w x i :
  0 <= w -> Z.testbit (wrap w x) i = (i <? w) && Z.testbit x i.
Proof.
  intros Hw. destruct (Z.ltb_spec i w).
  - unfold wrap. by rewrite Z.mod_pow2_bits_low.
  - unfold wrap. by rewrite Z.mod_pow2_bits_high.
Qed.

Lemma i32_testbit x i : i < 32 -> Z.testbit (i32 x) i = Z.testbit x i.
Proof.
  intros Hi. rewrite <- (Z.mod_pow2_bits_low (i32 x) 32), <- (Z.mod_pow2_bits_low x 32) by lia.
  f_equal. unfold i32. rewrite Zminus_mod_idemp_l. f_equal. lia.
Qed.

Lemma i32_range x : - 2 ^ 31 <= i32 x < 2 ^ 31.
Proof. unfold i32, wrap. pose proof (Z.mod_pos_bound (x + 2 ^ 31) (2 ^ 32)). lia. Qed.

Lemma i32_small x : - 2 ^ 31 <= x < 2 ^ 31 -> i32 x = x.
Proof. intros. unfold i32. rewrite Z.mod_small; lia. Qed.

Lemma wrap_lxor w x y : 0 <= w -> wrap w (x .^ y) = wrap w x .^ wrap w y.
Proof.
  intros. apply Z.bits_inj'; intros i Hi.
  rewrite Z.lxor_spec, !wrap_testbit, Z.lxor_spec by lia.
  by destruct (i <? w), (Z.testbit x i), (Z.testbit y i).
Qed.

Lemma lxor_range w x y :
  0 <= w -> 0 <= x < 2 ^ w -> 0 <= y < 2 ^ w -> 0 <= x .^ y < 2 ^ w.
Proof.
  intros Hw Hx Hy.
  rewrite <- (wrap_small w x), <- (wrap_small w y), <- wrap_lxor by done.
  by apply wrap_range.
Qed.

Lemma lxor_cancel_r x y : (x .^ y) .^ y = x.
Proof. by rewrite Z.lxor_assoc, Z.lxor_nilpotent, Z.lxor_0_r. Qed.

Lemma lor_shiftl_add a b n :
  0 <= n -> 0 <= b < 2 ^ n -> (a << n) .| b = a * 2 ^ n + b.
Proof.
  intros Hn Hb.
  rewrite <- Z.shiftl_mul_pow2 by lia.
  symmetry. rewrite Z.add_nocarry_lxor.
  - apply Z.bits_inj'; intros i Hi. rewrite Z.lxor_spec, Z.lor_spec.
    rewrite Z.shiftl_spec by lia. destruct (Z.ltb_spec i n).
    + by rewrite Z.testbit_neg_r, xorb_false_l by lia.
    + rewrite <- (wrap_small n b), wrap_testbit by lia.
      replace (i <? n) with false by lia. by rewrite xorb_false_r, orb_false_r.
  - apply Z.bits_inj'; intros i Hi. rewrite Z.land_spec, Z.bits_0.
    rewrite Z.shiftl_spec by lia. destruct (Z.ltb_spec i n).
    + by rewrite Z.testbit_neg_r by lia.
    + rewrite <- (wrap_small n b), wrap_testbit by lia.
      replace (i <? n) with false by lia. by rewrite andb_false_r.
Qed.

Lemma shiftr_div x n : 0 <= n -> x >> n = x / 2 ^ n.
Proof. apply Z.shiftr_div_pow2. Qed.

Lemma wrap_le_trans w v x : 0 <= v <= w -> wrap v (wrap w x) = wrap v x.
Proof.
  intros. apply Z.bits_inj'; intros i Hi. rewrite !wrap_testbit by lia.
  destruct (Z.ltb_spec i v); [|done]. by replace (i <? w) with true by lia.
Qed.

#[export] Hint Resolve wrap_range lxor_range : word.

(** Side conditions about ranges and bytes. *)
Ltac word := solve [ done | lia | auto with word ].

(** Linear goals with quotients and remainders by constants. *)
Ltac div_lia := Z.to_euclidean_division_equations; lia.

(** ** Bytes *)

Definition is_byte (b : Z) : Prop := 0 <= b < 256.
Abbreviation bytes l := (Forall is_byte l).

#[export] Instance is_byte_dec b : Decision (is_byte b).
Proof. unfold is_byte. apply _. Defined.

Lemma is_byte_u8 x : is_byte (u8 x).
Proof. by apply (wrap_range 8). Qed.

Lemma is_byte_lxor x y : is_byte x -> is_byte y -> is_byte (x .^ y).
Proof. by apply (lxor_range 8). Qed.

Lemma u8_byte x : is_byte x -> u8 x = x.
Proof. by apply (wrap_small 8). Qed.

Lemma zeros_bytes n : bytes (repeat 0 n).
Proof. induction n; constructor; [done|apply IHn]. Qed.

#[export] Hint Resolve zeros_bytes is_byte_u8 is_byte_lxor u8_byte : word.

Lemma byte_testbit_high x i : is_byte x -> 8 <= i -> Z.testbit x i = false.
Proof. intros Hx Hi. rewrite <- (u8_byte x Hx), wrap_testbit by lia. by replace (i <? 8) with false by lia. Qed.

(** Exhaustive checking over the 256 byte values. *)
Definition all_bytes : list Z := seqZ 0 256.

Lemma byte_exhaust (P : Z -> bool) :
  forallb P all_bytes = true -> forall b, is_byte b -> P b = true.
Proof.
  intros H b Hb. rewrite forallb_forall in H. apply H.
  apply list_elem_of_In, elem_of_seqZ. unfold is_byte in Hb. lia.
Qed.

(** ** Lists indexed by a C integer *)

Definition nthZ (l : list Z) (i : Z) : Z := nth (Z.to_nat i) l 0.

Lemma nthZ_lookup l i : 0 <= i < zlen l -> l !! Z.to_nat i = Some (nthZ l i).
Proof.
  intros. unfold nthZ. rewrite nth_lookup.
  destruct (lookup_lt_is_Some_2 l (Z.to_nat i)) as [x ->]; [lia|done].
Qed.

Lemma nthZ_byte l i : bytes l -> is_byte (nthZ l i).
Proof.
  intros Hl. unfold nthZ. rewrite nth_lookup.
  destruct (l !! Z.to_nat i) as [x|] eqn:E; [|by unfold is_byte].
  by eapply Forall_lookup_1 in E.
Qed.

#[export] Hint Resolve nthZ_byte : word.

(** Bounds-checked access: [None] is an access outside the object, which C
    leaves undefined. *)
Definition getb (l : list Z) (i : Z) : option Z :=
  if decide (0 <= i) then l !! Z.to_nat i else None.

Definition sub (l : list Z) (off n : Z) : option (list Z) :=
  if decide (0 <= off /\ 0 <= n /\ off + n <= zlen l)
  then Some (take (Z.to_nat n) (drop (Z.to_nat off) l)) else None.

Lemma sub_length l off n r : sub l off n = Some r -> zlen r = n.
Proof.
  unfold sub. case_decide as H; [|done]. intros [= <-].
  rewrite length_take, length_drop. lia.
Qed.

Lemma sub_skip a b off n : zlen a <= off -> sub (a ++ b) off n = sub b (off - zlen a) n.
Proof.
  intros H. unfold sub. rewrite length_app. repeat case_decide; try lia; [|done]. f_equal. f_equal.
  rewrite drop_app_ge by lia. f_equal. lia.
Qed.

Lemma sub_here a b n : zlen a = n -> sub (a ++ b) 0 n = Some a.
Proof.
  intros <-. unfold sub. rewrite decide_True by (rewrite length_app; lia).
  rewrite drop_0, take_app_length' by lia. done.
Qed.

Lemma getb_skip a b i : zlen a <= i -> getb (a ++ b) i = getb b (i - zlen a).
Proof.
  intros H. unfold getb. rewrite !decide_True by lia. rewrite lookup_app_r by lia. f_equal. lia.
Qed.

(** ** Pointwise exclusive or of byte buffers *)

Definition xor_bytes (a b : list Z) : list Z := zip_with Z.lxor a b.

Lemma xor_bytes_length a b : length (xor_bytes a b) = (length a `min` length b)%nat.
Proof. apply length_zip_with. Qed.

Lemma xor_bytes_bytes a b : bytes a -> bytes b -> bytes (xor_bytes a b).
Proof.
  intros Ha Hb. revert b Hb. induction Ha; intros b [|]; simpl; auto with word.
Qed.

Lemma xor_bytes_cancel a b : (length a <= length b)%nat -> xor_bytes (xor_bytes a b) b = a.
Proof.
  revert b. induction a as [|x a IH]; intros [|y b]; simpl; try (by auto || lia).
  intros. rewrite lxor_cancel_r. f_equal. apply IH. lia.
Qed.

Lemma xor_bytes_comm a b : xor_bytes a b = xor_bytes b a.
Proof.
  revert b. induction a as [|x a IH]; intros [|y b]; simpl; try done.
  by rewrite Z.lxor_comm, IH.
Qed.

Lemma xor_bytes_assoc a b c : xor_bytes (xor_bytes a b) c = xor_bytes a (xor_bytes b c).
Proof.
  revert b c. induction a as [|x a IH]; intros [|y b] [|z c]; simpl; try done.
  by rewrite Z.lxor_assoc, IH.
Qed.

#[export] Hint Resolve xor_bytes_bytes : word.

(** ** Little-endian and big-endian encodings *)

Fixpoint le_bytes (n : nat) (v : Z) : list Z :=
  match n with
  | O => []
  | S k => u8 v :: le_bytes k (v >> 8)
  end.

Definition le_val (l : list Z) : Z := foldr (fun b v => (v << 8) .| b) 0 l.

Lemma le_bytes_length n v : length (le_bytes n v) = n.
Proof. revert v. induction n; intros; simpl; auto. Qed.

Lemma le_bytes_bytes n v : bytes (le_bytes n v).
Proof. revert v. induction n; intros; constructor; auto with word. Qed.

Lemma le_val_cons b l : is_byte b -> le_val (b :: l) = b + 256 * le_val l.
Proof.
  intros. unfold le_val. simpl. rewrite lor_shiftl_add; unfold is_byte in *; [|lia..]. lia.
Qed.

Lemma le_val_bound l : bytes l -> 0 <= le_val l < 2 ^ (8 * zlen l).
Proof.
  induction 1 as [|b l Hb Hl IH]; [done|].
  rewrite le_val_cons by done. simpl length. rewrite Nat2Z.inj_succ, Z.mul_succ_r.
  rewrite Z.pow_add_r by lia. unfold is_byte in Hb. lia.
Qed.

Lemma le_val_le_bytes n v : le_val (le_bytes n v) = wrap (8 * Z.of_nat n) v.
Proof.
  revert v. induction n as [|n IH]; intros v.
  { simpl. unfold wrap. by rewrite Z.mod_1_r. }
  cbn [le_bytes]. rewrite le_val_cons, IH, shiftr_div by word. unfold wrap.
  replace (8 * Z.of_nat (S n)) with (8 + 8 * Z.of_nat n) by lia.
  rewrite Z.pow_add_r by lia. change (2 ^ 8) with 256.
  rewrite Z.rem_mul_r by lia. lia.
Qed.

Lemma le_bytes_le_val l : bytes l -> le_bytes (length l) (le_val l) = l.
Proof.
  induction 1 as [|b l Hb Hl IH]; [done|].
  rewrite le_val_cons by done. cbn [length le_bytes]. rewrite shiftr_div by lia.
  unfold wrap, is_byte in *. change (2 ^ 8) with 256. f_equal.
  - rewrite Z.mul_comm, Z_mod_plus_full. by apply Z.mod_small.
  - rewrite Z.mul_comm, Z.div_add, Z.div_small by lia. by rewrite Z.add_0_l.
Qed.

Definition be_bytes (n : nat) (v : Z) : list Z := rev (le_bytes n v).
Definition be_val (l : list Z) : Z := le_val (rev l).

Lemma be_bytes_length n v : length (be_bytes n v) = n.
Proof. unfold be_bytes. by rewrite length_rev, le_bytes_length. Qed.

Lemma be_bytes_bytes n v : bytes (be_bytes n v).
Proof. apply Forall_rev, le_bytes_bytes. Qed.

Lemma be_val_be_bytes n v : be_val (be_bytes n v) = wrap (8 * Z.of_nat n) v.
Proof. unfold be_val, be_bytes. by rewrite rev_involutive, le_val_le_bytes. Qed.

#[export] Hint Resolve le_bytes_bytes be_bytes_bytes : word.
#[export] Hint Rewrite le_bytes_length be_bytes_length : len.

(** The shift-and-or form of a big-endian read. *)
Lemma be32_shifts a b c d :
  (a << 24) .| (b << 16) .| (c << 8) .| d = be_val [a; b; c; d].
Proof.
  unfold be_val, le_val. cbn [rev app foldr].
  rewrite Z.shiftl_0_l, Z.lor_0_l, !Z.shiftl_lor, !Z.shiftl_shiftl by lia. done.
Qed.

Lemma be_val_bound l : bytes l -> 0 <= be_val l < 2 ^ (8 * zlen l).
Proof. intros. unfold be_val. rewrite <- length_rev. by apply le_val_bound, Forall_rev. Qed.

(** ** Splitting a buffer into blocks *)

Fixpoint blocks_of (n k : nat) (l : list Z) : list (list Z) :=
  match k with
  | O => []
  | S k' => take n l :: blocks_of n k' (drop n l)
  end.

Lemma blocks_of_app n k j a b :
  length a = (k * n)%nat -> blocks_of n (k + j) (a ++ b) = blocks_of n k a ++ blocks_of n j b.
Proof.
  revert a. induction k as [|k IH]; intros a Ha; simpl in *.
  { by apply nil_length_inv in Ha as ->. }
  rewrite take_app_le, drop_app_le by lia. f_equal. apply IH. rewrite length_drop. lia.
Qed.

Lemma blocks_of_take n k l : blocks_of n k (take (k * n) l) = blocks_of n k l.
Proof.
  revert l. induction k as [|k IH]; intros l; [done|]. cbn [blocks_of].
  rewrite take_take. f_equal; [f_equal; lia|].
  rewrite skipn_firstn_comm. replace (S k * n - n)%nat with (k * n)%nat by lia. apply IH.
Qed.

(** ** C strings

    A [char *] that points at a NUL-terminated string is the list of the bytes
    before the terminator; advancing the pointer is [tail], [*p] is [deref]. *)

Abbreviation nonzero l := (Forall (fun c => c <> 0) l).

Definition deref (p : list Z) : Z := hd 0 p.

Fixpoint cstr (b : list Z) : list Z :=
  match b with
  | [] => []
  | c :: b' => if c =? 0 then [] else c :: cstr b'
  end.

(** The rest of a string after a loop that skips the characters satisfying [f], and the
    characters skipped. *)
Fixpoint skip_while (f : Z -> bool) (l : list Z) : list Z :=
  match l with [] => [] | c :: l' => if f c then skip_while f l' else l end.

Fixpoint take_while (f : Z -> bool) (l : list Z) : list Z :=
  match l with [] => [] | c :: l' => if f c then c :: take_while f l' else [] end.

Lemma take_while_app f a c rest : Forall (fun x => f x = true) a -> f c = false -> take_while f (a ++ c :: rest) = a.
Proof.
  intros Ha Hc. induction Ha as [|x a Hx Ha IH]; cbn [app take_while]; [by rewrite Hc|]. by rewrite Hx, IH.
Qed.

Lemma skip_while_app f a c rest : Forall (fun x => f x = true) a -> f c = false -> skip_while f (a ++ c :: rest) = c :: rest.
Proof.
  intros Ha Hc. induction Ha as [|x a Hx Ha IH]; cbn [app skip_while]; [by rewrite Hc|]. by rewrite Hx, IH.
Qed.

Lemma take_skip_while f l : take_while f l ++ skip_while f l = l.
Proof. induction l as [|c l IH]; [done|]. cbn. destruct (f c); [|done]. cbn. by rewrite IH. Qed.

Lemma skip_while_length f l : (length (skip_while f l) <= length l)%nat.
Proof. induction l as [|c l IH]; cbn; [lia|]. destruct (f c); cbn; lia. Qed.

Lemma skip_while_all f a rest : Forall (fun x => f x = true) a -> skip_while f (a ++ rest) = skip_while f rest.
Proof. intros Ha. induction Ha as [|x a Hx Ha IH]; [done|]. cbn [app skip_while]. by rewrite Hx. Qed.

Lemma take_while_Forall f l : Forall (fun x => f x = true) (take_while f l).
Proof. induction l as [|c l IH]; cbn; [constructor|]. destruct (f c) eqn:E; by constructor. Qed.

Lemma take_while_id f l : Forall (fun x => f x = true) l -> take_while f l = l.
Proof. induction 1 as [|c l Hc Hl IH]; [done|]. cbn. by rewrite Hc, IH. Qed.

Lemma take_while_nonzero f l : nonzero l -> nonzero (take_while f l).
Proof. induction 1 as [|c l Hc Hl IH]; cbn; [constructor|]. destruct (f c); by constructor. Qed.

Lemma skip_while_nonzero f l : nonzero l -> nonzero (skip_while f l).
Proof. induction 1 as [|c l Hc Hl IH]; cbn; [constructor|]. destruct (f c); [done|by constructor]. Qed.

(** A string literal of the source. *)
Definition cs (s : String.string) : list Z :=
  map (fun c => Z.of_N (Ascii.N_of_ascii c)) (String.list_ascii_of_string s).

#[global] Arguments cs s%_string.

Definition chr (s : String.string) : Z := deref (cs s).
#[global] Arguments chr s%_string.

Lemma cstr_nonzero b : nonzero (cstr b).
Proof.
  induction b as [|c b IH]; simpl; [constructor|].
  destruct (Z.eqb_spec c 0); by constructor.
Qed.

Lemma cstr_id b : nonzero b -> cstr b = b.
Proof.
  induction 1 as [|c b Hc Hb IH]; simpl; [done|].
  apply Z.eqb_neq in Hc. by rewrite Hc, IH.
Qed.

Lemma cstr_app0 a b : nonzero a -> cstr (a ++ 0 :: b) = a.
Proof.
  induction 1 as [|c a Hc Ha IH]; simpl; [done|].
  apply Z.eqb_neq in Hc. by rewrite Hc, IH.
Qed.

Lemma cstr_length b : (length (cstr b) <= length b)%nat.
Proof. induction b as [|c b IH]; simpl; [lia|]. destruct (c =? 0); simpl; lia. Qed.

(** ** Decimal digits *)

Definition is_digit (c : Z) : bool := (48 <=? c) && (c <=? 57).

(** The digits of [n], most significant first, as characters; [k] bounds their number. *)
Fixpoint dec_digits (k : nat) (n : Z) (acc : list Z) : list Z :=
  match k with
  | O => acc
  | S k' => if n =? 0 then acc else dec_digits k' (n / 10) (48 + n mod 10 :: acc)
  end.

Definition show_dec (n : Z) : list Z := if n =? 0 then [48] else dec_digits 20 n [].

(** Value of a string of decimal digits. *)
Definition dec_val (l : list Z) : Z := foldl (fun t c => t * 10 + (c - 48)) 0 l.

Lemma dec_val_snoc l c : dec_val (l ++ [c]) = dec_val l * 10 + (c - 48).
Proof. unfold dec_val. by rewrite foldl_snoc. Qed.

Lemma dec_digits_app k n acc : dec_digits k n acc = dec_digits k n [] ++ acc.
Proof.
  revert n acc. induction k as [|k IH]; intros; simpl; [done|].
  destruct (n =? 0); [done|]. rewrite IH, (IH _ [_]). by rewrite <- app_assoc.
Qed.

Lemma dec_digits_val k n : 0 <= n < 10 ^ Z.of_nat k -> dec_val (dec_digits k n []) = n.
Proof.
  revert n. induction k as [|k IH]; intros n Hn; simpl dec_digits.
  { change (10 ^ Z.of_nat 0) with 1 in Hn. unfold dec_val; simpl. lia. }
  destruct (Z.eqb_spec n 0) as [->|Hn0]; [done|].
  rewrite dec_digits_app, dec_val_snoc, IH.
  - pose proof (Z.div_mod n 10). lia.
  - rewrite Nat2Z.inj_succ, Z.pow_succ_r in Hn by lia.
    split; [apply Z.div_pos; lia|]. apply Z.div_lt_upper_bound; lia.
Qed.

Lemma dec_digits_digits k n : 0 <= n -> Forall (fun c => is_digit c = true) (dec_digits k n []).
Proof.
  revert n. induction k as [|k IH]; intros n Hn; simpl; [constructor|].
  destruct (n =? 0); [constructor|]. rewrite dec_digits_app. apply Forall_app. split.
  - apply IH, Z.div_pos; lia.
  - constructor; [|constructor]. unfold is_digit.
    pose proof (Z.mod_pos_bound n 10). lia.
Qed.

Lemma show_dec_val n : 0 <= n < 2 ^ 64 -> dec_val (show_dec n) = n.
Proof.
  intros. unfold show_dec. destruct (Z.eqb_spec n 0) as [->|]; [done|].
  apply dec_digits_val. change (10 ^ Z.of_nat 20) with 100000000000000000000. lia.
Qed.

Lemma show_dec_digits n : 0 <= n -> Forall (fun c => is_digit c = true) (show_dec n).
Proof.
  intros. unfold show_dec. destruct (n =? 0); [by repeat constructor|].
  by apply dec_digits_digits.
Qed.

(** Digits accumulated with an operation that only differs past [B]. *)
Lemma dec_fold_wrap (w : Z -> Z) (B : Z) (Hw : forall x, 0 <= x < B -> w x = x) v n :
  Forall (fun c => is_digit c = true) v -> 0 <= n -> foldl (fun t c => t * 10 + (c - 48)) n v < B ->
  foldl (fun t c => w (t * 10 + (c - 48))) n v = foldl (fun t c => t * 10 + (c - 48)) n v.
Proof.
  intros Hv. revert n. induction Hv as [|c v Hc Hv IH]; intros n Hn Hlt; [done|]. cbn [foldl] in *.
  assert (forall v n, Forall (fun c => is_digit c = true) v -> 0 <= n ->
    n <= foldl (fun t c => t * 10 + (c - 48)) n v) as Hmono.
  { clear. induction v as [|c v IH]; intros n Hv Hn; [done|]. cbn [foldl].
    apply Forall_cons in Hv as [Hc Hv]. unfold is_digit in Hc. specialize (IH (n * 10 + (c - 48)) Hv ltac:(lia)). lia. }
  unfold is_digit in Hc. specialize (Hmono v (n * 10 + (c - 48)) Hv ltac:(lia)). rewrite Hw by lia. apply IH; lia.
Qed.

(** ** Arrays filled from left to right

    The C loops that fill [w[i]] from earlier elements append to the list of the
    elements written so far. *)

Definition fill (f : list Z -> Z -> Z) (init : list Z) (m : Z) : list Z :=
  foldl (fun w i => w ++ [f w i]) init (seqZ (zlen init) m).

Lemma nthZ_app_l a b i : 0 <= i < zlen a -> nthZ (a ++ b) i = nthZ a i.
Proof. intros. unfold nthZ. apply app_nth1. lia. Qed.

Lemma nthZ_snoc a x i : i = zlen a -> nthZ (a ++ [x]) i = x.
Proof. intros ->. unfold nthZ. rewrite app_nth2 by lia. by replace (_ - _)%nat with 0%nat by lia. Qed.

Lemma nthZ_take l n i : 0 <= i < n -> nthZ (take (Z.to_nat n) l) i = nthZ l i.
Proof.
  intros. unfold nthZ. rewrite !nth_lookup, lookup_take_lt by lia. done.
Qed.

Lemma fill_succ f init m :
  0 <= m -> fill f init (m + 1) = fill f init m ++ [f (fill f init m) (zlen init + m)].
Proof.
  intros. unfold fill. rewrite seqZ_app, foldl_app by lia. by rewrite (seqZ_cons _ 1) by lia.
Qed.

Lemma fill_length f init m : 0 <= m -> zlen (fill f init m) = zlen init + m.
Proof.
  intros Hm. pattern m. apply natlike_ind; [..|done].
  - unfold fill. rewrite seqZ_nil by lia. simpl. lia.
  - intros x Hx IH. unfold Z.succ. rewrite fill_succ, length_app by done. simpl. lia.
Qed.

Lemma fill_prefix f init m i :
  0 <= m -> 0 <= i < zlen init -> nthZ (fill f init m) i = nthZ init i.
Proof.
  intros Hm Hi. revert m Hm. apply natlike_ind.
  - unfold fill. by rewrite seqZ_nil by lia.
  - intros x Hx IH. unfold Z.succ. rewrite fill_succ, nthZ_app_l by (try rewrite fill_length; lia).
    done.
Qed.

Lemma fill_take f init m k :
  0 <= k <= m -> take (Z.to_nat (zlen init + k)) (fill f init m) = fill f init k.
Proof.
  intros [Hk Hkm]. assert (exists d, m = k + d /\ 0 <= d) as (d & -> & Hd) by (exists (m - k); lia).
  clear Hkm. revert d Hd. apply natlike_ind.
  - rewrite Z.add_0_r. apply take_ge. pose proof (fill_length f init k). lia.
  - intros x Hx IH. unfold Z.succ. rewrite Z.add_assoc, fill_succ, take_app_le; [done| |lia].
    pose proof (fill_length f init (k + x)). lia.
Qed.

(** Every element past the initial ones is computed from those before it. *)
Lemma fill_nth f init m i :
  zlen init <= i < zlen init + m ->
  nthZ (fill f init m) i = f (take (Z.to_nat i) (fill f init m)) i.
Proof.
  intros Hi. pose proof (fill_take f init m (i - zlen init)) as Ht.
  pose proof (fill_take f init m (i - zlen init + 1)) as Ht1.
  replace (zlen init + (i - zlen init)) with i in Ht by lia. rewrite Ht by lia.
  rewrite <- (nthZ_take _ (i + 1)) by lia.
  replace (i + 1) with (zlen init + (i - zlen init + 1)) by lia.
  rewrite Ht1, fill_succ by lia.
  pose proof (fill_length f init (i - zlen init)).
  rewrite nthZ_snoc by lia. f_equal. lia.
Qed.

Lemma fill_Forall (P : Z -> Prop) f init m :
  0 <= m -> Forall P init ->
  (forall w i, Forall P w -> zlen init <= i < zlen init + m -> zlen w = i -> P (f w i)) ->
  Forall P (fill f init m).
Proof.
  intros Hm Hi Hf. assert (forall k, 0 <= k -> k <= m -> Forall P (fill f init k)) as H; [|auto with lia].
  apply (natlike_ind (fun k => k <= m -> Forall P (fill f init k))).
  - intros _. unfold fill. by rewrite seqZ_nil by lia.
  - intros x Hx IH Hle. unfold Z.succ. rewrite fill_succ by done.
    apply Forall_app. split; [apply IH; lia|]. constructor; [|constructor].
    apply Hf; [apply IH; lia|lia|by apply fill_length].
Qed.

Lemma foldl_length {A B} (f : list A -> B -> list A) l s :
  (forall s x, length (f s x) = length s) -> length (foldl f s l) = length s.
Proof. intros H. revert s. induction l; intros; [done|]. cbn [foldl]. by rewrite IHl. Qed.

Lemma flat_map_const_length {A} (f : A -> list Z) k l :
  (forall x, length (f x) = k) -> length (flat_map f l) = (k * length l)%nat.
Proof. intros H. induction l; simpl; [lia|]. rewrite length_app, H, IHl. lia. Qed.

Lemma flat_map_bytes {A} (f : A -> list Z) l : (forall x, bytes (f x)) -> bytes (flat_map f l).
Proof. intros H. induction l; simpl; [constructor|]. by apply Forall_app. Qed.

(** ** Loops whose body can fail

    [None] is the failure of the model: an access outside an object, or another
    behaviour C leaves undefined. *)

Fixpoint foldlO {A B} (f : A -> B -> option A) (a : A) (l : list B) : option A :=
  match l with
  | [] => Some a
  | x :: l' => match f a x with Some a' => foldlO f a' l' | None => None end
  end.

(** A loop invariant also shows that no turn fails. *)
Lemma foldlO_inv {A B} (P : A -> Prop) (f : A -> B -> option A) l a :
  P a -> (forall a x, x ∈ l -> P a -> exists a', f a x = Some a' /\ P a') ->
  exists a', foldlO f a l = Some a' /\ P a'.
Proof.
  revert a. induction l as [|x l IH]; intros a Ha Hf; [by exists a|]. cbn [foldlO].
  destruct (Hf a x) as (a1 & -> & Ha1); [set_solver|done|]. apply IH; [done|].
  intros a2 y Hy. apply Hf. set_solver.
Qed.

(** A loop none of whose turns fails is the fold of the values. *)
Lemma foldlO_foldl {A B} (f : A -> B -> option A) (g : A -> B -> A) l a :
  (forall a x, x ∈ l -> f a x = Some (g a x)) -> foldlO f a l = Some (foldl g a l).
Proof.
  revert a. induction l as [|x l IH]; intros a Hf; [done|]. cbn [foldlO foldl].
  rewrite Hf by set_solver. apply IH. intros. apply Hf. set_solver.
Qed.

(** A turn that fails from every state makes the loop fail. *)
Lemma foldlO_stuck {A B} (f : A -> B -> option A) l a x :
  x ∈ l -> (forall a, f a x = None) -> foldlO f a l = None.
Proof.
  intros Hx Hf. revert a. induction l as [|y l IH]; intros a; [set_solver|]. cbn [foldlO].
  destruct (f a y) as [a'|] eqn:E; [|done]. apply elem_of_cons in Hx as [-> | Hx]; [by rewrite Hf in E|].
  by apply IH.
Qed.

(** What every successful turn preserves holds at the end of a successful loop. *)
Lemma foldlO_Some {A B} (P : A -> Prop) (f : A -> B -> option A) l a a' :
  (forall a x a', x ∈ l -> P a -> f a x = Some a' -> P a') -> P a -> foldlO f a l = Some a' -> P a'.
Proof.
  revert a. induction l as [|x l IH]; intros a Hf Ha; cbn [foldlO]; [by intros [= <-]|].
  destruct (f a x) as [a1|] eqn:E; [|done]. apply IH; [|eapply Hf; [|done..]; set_solver].
  intros. eapply Hf; [|done..]. set_solver.
Qed.
