(* ===== verification/Aes.v ===== *)
(** * Aes: the AES block cipher of [crypto/aes.c]

    The S-boxes, the arithmetic of GF(2^8), the key schedule and the two block
    functions, with the theorem that decryption inverts encryption. *)

From S2P Require Import Prelude.

(** ** Tables *)

Definition SBOX : list Z :=
  [0x63; 0x7c; 0x77; 0x7b; 0xf2; 0x6b; 0x6f; 0xc5; 0x30; 0x01; 0x67; 0x2b; 0xfe; 0xd7; 0xab; 0x76;
   0xca; 0x82; 0xc9; 0x7d; 0xfa; 0x59; 0x47; 0xf0; 0xad; 0xd4; 0xa2; 0xaf; 0x9c; 0xa4; 0x72; 0xc0;
   0xb7; 0xfd; 0x93; 0x26; 0x36; 0x3f; 0xf7; 0xcc; 0x34; 0xa5; 0xe5; 0xf1; 0x71; 0xd8; 0x31; 0x15;
   0x04; 0xc7; 0x23; 0xc3; 0x18; 0x96; 0x05; 0x9a; 0x07; 0x12; 0x80; 0xe2; 0xeb; 0x27; 0xb2; 0x75;
   0x09; 0x83; 0x2c; 0x1a; 0x1b; 0x6e; 0x5a; 0xa0; 0x52; 0x3b; 0xd6; 0xb3; 0x29; 0xe3; 0x2f; 0x84;
   0x53; 0xd1; 0x00; 0xed; 0x20; 0xfc; 0xb1; 0x5b; 0x6a; 0xcb; 0xbe; 0x39; 0x4a; 0x4c; 0x58; 0xcf;
   0xd0; 0xef; 0xaa; 0xfb; 0x43; 0x4d; 0x33; 0x85; 0x45; 0xf9; 0x02; 0x7f; 0x50; 0x3c; 0x9f; 0xa8;
   0x51; 0xa3; 0x40; 0x8f; 0x92; 0x9d; 0x38; 0xf5; 0xbc; 0xb6; 0xda; 0x21; 0x10; 0xff; 0xf3; 0xd2;
   0xcd; 0x0c; 0x13; 0xec; 0x5f; 0x97; 0x44; 0x17; 0xc4; 0xa7; 0x7e; 0x3d; 0x64; 0x5d; 0x19; 0x73;
   0x60; 0x81; 0x4f; 0xdc; 0x22; 0x2a; 0x90; 0x88; 0x46; 0xee; 0xb8; 0x14; 0xde; 0x5e; 0x0b; 0xdb;
   0xe0; 0x32; 0x3a; 0x0a; 0x49; 0x06; 0x24; 0x5c; 0xc2; 0xd3; 0xac; 0x62; 0x91; 0x95; 0xe4; 0x79;
   0xe7; 0xc8; 0x37; 0x6d; 0x8d; 0xd5; 0x4e; 0xa9; 0x6c; 0x56; 0xf4; 0xea; 0x65; 0x7a; 0xae; 0x08;
   0xba; 0x78; 0x25; 0x2e; 0x1c; 0xa6; 0xb4; 0xc6; 0xe8; 0xdd; 0x74; 0x1f; 0x4b; 0xbd; 0x8b; 0x8a;
   0x70; 0x3e; 0xb5; 0x66; 0x48; 0x03; 0xf6; 0x0e; 0x61; 0x35; 0x57; 0xb9; 0x86; 0xc1; 0x1d; 0x9e;
   0xe1; 0xf8; 0x98; 0x11; 0x69; 0xd9; 0x8e; 0x94; 0x9b; 0x1e; 0x87; 0xe9; 0xce; 0x55; 0x28; 0xdf;
   0x8c; 0xa1; 0x89; 0x0d; 0xbf; 0xe6; 0x42; 0x68; 0x41; 0x99; 0x2d; 0x0f; 0xb0; 0x54; 0xbb; 0x16].

Definition RSBOX : list Z :=
  [0x52; 0x09; 0x6a; 0xd5; 0x30; 0x36; 0xa5; 0x38; 0xbf; 0x40; 0xa3; 0x9e; 0x81; 0xf3; 0xd7; 0xfb;
   0x7c; 0xe3; 0x39; 0x82; 0x9b; 0x2f; 0xff; 0x87; 0x34; 0x8e; 0x43; 0x44; 0xc4; 0xde; 0xe9; 0xcb;
   0x54; 0x7b; 0x94; 0x32; 0xa6; 0xc2; 0x23; 0x3d; 0xee; 0x4c; 0x95; 0x0b; 0x42; 0xfa; 0xc3; 0x4e;
   0x08; 0x2e; 0xa1; 0x66; 0x28; 0xd9; 0x24; 0xb2; 0x76; 0x5b; 0xa2; 0x49; 0x6d; 0x8b; 0xd1; 0x25;
   0x72; 0xf8; 0xf6; 0x64; 0x86; 0x68; 0x98; 0x16; 0xd4; 0xa4; 0x5c; 0xcc; 0x5d; 0x65; 0xb6; 0x92;
   0x6c; 0x70; 0x48; 0x50; 0xfd; 0xed; 0xb9; 0xda; 0x5e; 0x15; 0x46; 0x57; 0xa7; 0x8d; 0x9d; 0x84;
   0x90; 0xd8; 0xab; 0x00; 0x8c; 0xbc; 0xd3; 0x0a; 0xf7; 0xe4; 0x58; 0x05; 0xb8; 0xb3; 0x45; 0x06;
   0xd0; 0x2c; 0x1e; 0x8f; 0xca; 0x3f; 0x0f; 0x02; 0xc1; 0xaf; 0xbd; 0x03; 0x01; 0x13; 0x8a; 0x6b;
   0x3a; 0x91; 0x11; 0x41; 0x4f; 0x67; 0xdc; 0xea; 0x97; 0xf2; 0xcf; 0xce; 0xf0; 0xb4; 0xe6; 0x73;
   0x96; 0xac; 0x74; 0x22; 0xe7; 0xad; 0x35; 0x85; 0xe2; 0xf9; 0x37; 0xe8; 0x1c; 0x75; 0xdf; 0x6e;
   0x47; 0xf1; 0x1a; 0x71; 0x1d; 0x29; 0xc5; 0x89; 0x6f; 0xb7; 0x62; 0x0e; 0xaa; 0x18; 0xbe; 0x1b;
   0xfc; 0x56; 0x3e; 0x4b; 0xc6; 0xd2; 0x79; 0x20; 0x9a; 0xdb; 0xc0; 0xfe; 0x78; 0xcd; 0x5a; 0xf4;
   0x1f; 0xdd; 0xa8; 0x33; 0x88; 0x07; 0xc7; 0x31; 0xb1; 0x12; 0x10; 0x59; 0x27; 0x80; 0xec; 0x5f;
   0x60; 0x51; 0x7f; 0xa9; 0x19; 0xb5; 0x4a; 0x0d; 0x2d; 0xe5; 0x7a; 0x9f; 0x93; 0xc9; 0x9c; 0xef;
   0xa0; 0xe0; 0x3b; 0x4d; 0xae; 0x2a; 0xf5; 0xb0; 0xc8; 0xeb; 0xbb; 0x3c; 0x83; 0x53; 0x99; 0x61;
   0x17; 0x2b; 0x04; 0x7e; 0xba; 0x77; 0xd6; 0x26; 0xe1; 0x69; 0x14; 0x63; 0x55; 0x21; 0x0c; 0x7d].

Definition RCON : list Z :=
  [0x00; 0x01; 0x02; 0x04; 0x08; 0x10; 0x20; 0x40; 0x80; 0x1b; 0x36].

(** ** Arithmetic in GF(2^8) *)

Definition xtime (a : Z) : Z := u8 ((a << 1) .^ (if a >> 7 =? 0 then 0 else 0x1b)).

(** One turn of the loop of [gmul], on its variables [(b, r, p)]. *)
Definition gmul_step (st : Z * Z * Z) : Z * Z * Z :=
  let '(b, r, p) := st in
  (b >> 1, if b .& 1 =? 0 then r else r .^ p, xtime p).

Definition gmul (a b : Z) : Z :=
  let '(_, r, _) := Nat.iter 8 gmul_step (b, 0, a) in r.

(** ** Key schedule *)

Definition sub_word (w : Z) : Z :=
  (nthZ SBOX ((w >> 24) .& 0xff) << 24) .| (nthZ SBOX ((w >> 16) .& 0xff) << 16)
  .| (nthZ SBOX ((w >> 8) .& 0xff) << 8) .| nthZ SBOX (w .& 0xff).

Definition rot_word (w : Z) : Z := u32 (w << 8) .| (w >> 24).

Definition bytes_to_word (b : list Z) : Z :=
  (nthZ b 0 << 24) .| (nthZ b 1 << 16) .| (nthZ b 2 << 8) .| nthZ b 3.

(** [AES_CTX]: the round keys written by the key schedule, and the number of rounds. *)
Record AES_CTX := { rk : list Z; nr : Z }.

(** The word the expansion loop stores in [ctx->rk[i]], from the words [w]
    written before it. *)
Definition expand_word (nk : Z) (w : list Z) (i : Z) : Z :=
  let t := nthZ w (i - 1) in
  let t :=
    if i mod nk =? 0 then sub_word (rot_word t) .^ (nthZ RCON (i / nk) << 24)
    else if (nk >? 6) && (i mod nk =? 4) then sub_word t
    else t in
  nthZ w (i - nk) .^ t.

Definition aes_init_enc (key : list Z) (key_len : Z) : AES_CTX :=
  let nk := key_len / 4 in
  let n := if nk =? 4 then 10 else 14 in
  let tot := (n + 1) * 4 in
  let first := map (fun i => bytes_to_word (drop (Z.to_nat (i * 4)) key)) (seqZ 0 nk) in
  {| rk := fill (expand_word nk) first (tot - nk); nr := n |}.

Definition aes_init_dec (key : list Z) (key_len : Z) : AES_CTX := aes_init_enc key key_len.

(** ** The round transformations, on the 16-byte state *)

(** [s[i] = v] on the state array. *)
Definition set (i : nat) (v : Z) (s : list Z) : list Z := <[i := v]> s.
Definition get (s : list Z) (i : nat) : Z := nth i s 0.

(** [add_rk(s, rk + off)]. *)
Definition add_rk_col (k : list Z) (off : nat) (s : list Z) (c : nat) : list Z :=
  let w := nth (off + c)%nat k 0 in
  let s := set (c * 4 + 0) (get s (c * 4 + 0) .^ u8 (w >> 24)) s in
  let s := set (c * 4 + 1) (get s (c * 4 + 1) .^ u8 (w >> 16)) s in
  let s := set (c * 4 + 2) (get s (c * 4 + 2) .^ u8 (w >> 8)) s in
  set (c * 4 + 3) (get s (c * 4 + 3) .^ u8 w) s.

Definition add_rk (k : list Z) (off : nat) (s : list Z) : list Z :=
  foldl (add_rk_col k off) s (seq 0 4).

Definition sub_bytes (s : list Z) : list Z := map (nthZ SBOX) s.

Definition shift_rows (s : list Z) : list Z :=
  let t := get s 1 in
  let s := set 1 (get s 5) s in let s := set 5 (get s 9) s in
  let s := set 9 (get s 13) s in let s := set 13 t s in
  let t := get s 2 in let s := set 2 (get s 10) s in let s := set 10 t s in
  let t := get s 6 in let s := set 6 (get s 14) s in let s := set 14 t s in
  let t := get s 15 in
  let s := set 15 (get s 11) s in let s := set 11 (get s 7) s in
  let s := set 7 (get s 3) s in set 3 t s.

Definition mix_column (s : list Z) (c : nat) : list Z :=
  let a := get s (c * 4) in let b := get s (c * 4 + 1) in
  let cc := get s (c * 4 + 2) in let d := get s (c * 4 + 3) in
  let s := set (c * 4) (xtime a .^ xtime b .^ b .^ cc .^ d) s in
  let s := set (c * 4 + 1) (a .^ xtime b .^ xtime cc .^ cc .^ d) s in
  let s := set (c * 4 + 2) (a .^ b .^ xtime cc .^ xtime d .^ d) s in
  set (c * 4 + 3) (xtime a .^ a .^ b .^ cc .^ xtime d) s.

Definition mix_columns (s : list Z) : list Z := foldl mix_column s (seq 0 4).

Definition inv_sub_bytes (s : list Z) : list Z := map (nthZ RSBOX) s.

Definition inv_shift_rows (s : list Z) : list Z :=
  let t := get s 13 in
  let s := set 13 (get s 9) s in let s := set 9 (get s 5) s in
  let s := set 5 (get s 1) s in let s := set 1 t s in
  let t := get s 2 in let s := set 2 (get s 10) s in let s := set 10 t s in
  let t := get s 6 in let s := set 6 (get s 14) s in let s := set 14 t s in
  let t := get s 3 in
  let s := set 3 (get s 7) s in let s := set 7 (get s 11) s in
  let s := set 11 (get s 15) s in set 15 t s.

Definition inv_mix_column (s : list Z) (c : nat) : list Z :=
  let a := get s (c * 4) in let b := get s (c * 4 + 1) in
  let cc := get s (c * 4 + 2) in let d := get s (c * 4 + 3) in
  let s := set (c * 4) (gmul 0x0e a .^ gmul 0x0b b .^ gmul 0x0d cc .^ gmul 0x09 d) s in
  let s := set (c * 4 + 1) (gmul 0x09 a .^ gmul 0x0e b .^ gmul 0x0b cc .^ gmul 0x0d d) s in
  let s := set (c * 4 + 2) (gmul 0x0d a .^ gmul 0x09 b .^ gmul 0x0e cc .^ gmul 0x0b d) s in
  set (c * 4 + 3) (gmul 0x0b a .^ gmul 0x0d b .^ gmul 0x09 cc .^ gmul 0x0e d) s.

Definition inv_mix_columns (s : list Z) : list Z := foldl inv_mix_column s (seq 0 4).

(** ** Block encryption and decryption *)

Definition enc_round (ctx : AES_CTX) (s : list Z) (rd : nat) : list Z :=
  let s := shift_rows (sub_bytes s) in
  let s := if Z.of_nat rd <? nr ctx then mix_columns s else s in
  add_rk (rk ctx) (rd * 4) s.

(** [aes_encrypt_block]: the 16 bytes of [in] are copied to the state first, so
    [in] and [out] may be the same buffer. *)
Definition aes_encrypt_block (ctx : AES_CTX) (inp : list Z) : list Z :=
  foldl (enc_round ctx) (add_rk (rk ctx) 0 (take 16 inp)) (seq 1 (Z.to_nat (nr ctx))).

Definition dec_round (ctx : AES_CTX) (s : list Z) (rd : nat) : list Z :=
  let s := inv_sub_bytes (inv_shift_rows s) in
  let s := add_rk (rk ctx) (rd * 4) s in
  if (0 <? rd)%nat then inv_mix_columns s else s.

Definition aes_decrypt_block (ctx : AES_CTX) (inp : list Z) : list Z :=
  foldl (dec_round ctx) (add_rk (rk ctx) (Z.to_nat (nr ctx) * 4) (take 16 inp))
    (rev (seq 0 (Z.to_nat (nr ctx)))).

#[global] Arguments xtime : simpl never.
#[global] Arguments gmul : simpl never.
#[global] Arguments enc_round : simpl never.
#[global] Arguments dec_round : simpl never.
#[global] Arguments add_rk : simpl never.
#[global] Arguments mix_columns : simpl never.
#[global] Arguments inv_mix_columns : simpl never.

(** ** The state as sixteen bytes *)

Definition state (s : list Z) : Prop := length s = 16%nat /\ bytes s.

(** Split a list of known length into its elements. *)
Ltac split_list s H :=
  repeat (destruct s as [|? s]; [try discriminate H | try discriminate H]);
  try discriminate H; clear H.

Definition round_key (k : list Z) (off : nat) : list Z :=
  flat_map (fun c => let w := nth (off + c)%nat k 0 in
                     [u8 (w >> 24); u8 (w >> 16); u8 (w >> 8); u8 w]) (seq 0 4).

Lemma round_key_state k off : state (round_key k off).
Proof. split; [done|]. unfold round_key. simpl. auto 20 with word. Qed.

Lemma add_rk_xor k off s :
  length s = 16%nat -> add_rk k off s = xor_bytes s (round_key k off).
Proof. intros H. split_list s H. reflexivity. Qed.

Lemma add_rk_state k off s : state s -> state (add_rk k off s).
Proof.
  intros [Hl Hb]. destruct (round_key_state k off) as [Hl' Hb'].
  rewrite add_rk_xor by done. split; [rewrite xor_bytes_length, Hl; done|word].
Qed.

Lemma add_rk_involutive k off s : state s -> add_rk k off (add_rk k off s) = s.
Proof.
  intros Hs. pose proof (add_rk_state k off s Hs) as [Hl _]. destruct Hs as [Hl0 _].
  rewrite !add_rk_xor in * by done. apply xor_bytes_cancel. by rewrite Hl0.
Qed.

(** ** Substitution *)

Lemma SBOX_bytes : bytes SBOX.
Proof. by apply (bool_decide_unpack _). Qed.

Lemma RSBOX_SBOX b : is_byte b -> nthZ RSBOX (nthZ SBOX b) = b.
Proof.
  intros Hb. apply Z.eqb_eq. revert b Hb. apply byte_exhaust. by vm_compute.
Qed.

Lemma sub_bytes_state s : state s -> state (sub_bytes s).
Proof.
  intros [Hl Hb]. split; [by unfold sub_bytes; rewrite length_map|].
  apply Forall_fmap, Forall_true. intros. apply nthZ_byte, SBOX_bytes.
Qed.

Lemma inv_sub_bytes_sub s : bytes s -> inv_sub_bytes (sub_bytes s) = s.
Proof.
  unfold inv_sub_bytes, sub_bytes. rewrite map_map.
  induction 1; simpl; [done|]. f_equal; [by apply RSBOX_SBOX|done].
Qed.

(** ** Row shifts *)

Lemma shift_rows_state s : state s -> state (shift_rows s).
Proof.
  intros [Hl Hb]. split_list s Hl. split; [done|]. cbn.
  rewrite !Forall_cons in *. intuition.
Qed.

Lemma inv_shift_rows_shift s : state s -> inv_shift_rows (shift_rows s) = s.
Proof. intros [Hl _]. split_list s Hl. reflexivity. Qed.

Lemma inv_shift_rows_state s : state s -> state (inv_shift_rows s).
Proof.
  intros [Hl Hb]. split_list s Hl. split; [done|]. cbn.
  rewrite !Forall_cons in *. intuition.
Qed.

(** ** Column mixing

    Both column maps are linear over GF(2^8); every row of [mix_column] is the
    first one with the column rotated, so one identity on four bytes is enough. *)

Lemma land_1_testbit x : (x .& 1 =? 0) = negb (Z.testbit x 0).
Proof.
  change 1 with (Z.ones 1). rewrite Z.land_ones, <- Z.bit0_mod by lia.
  by destruct (Z.testbit x 0).
Qed.

Lemma gmul_step_lxor n x y r1 r2 p :
  Nat.iter n gmul_step (x .^ y, r1 .^ r2, p) =
  (fst (fst (Nat.iter n gmul_step (x, r1, p))) .^ fst (fst (Nat.iter n gmul_step (y, r2, p))),
   snd (fst (Nat.iter n gmul_step (x, r1, p))) .^ snd (fst (Nat.iter n gmul_step (y, r2, p))),
   snd (Nat.iter n gmul_step (x, r1, p))) /\
  snd (Nat.iter n gmul_step (x, r1, p)) = snd (Nat.iter n gmul_step (y, r2, p)).
Proof.
  induction n as [|n IH]; [done|]. rewrite !Nat.iter_succ.
  destruct (Nat.iter n gmul_step (x, r1, p)) as [[bx rx] px].
  destruct (Nat.iter n gmul_step (y, r2, p)) as [[by' ry] py].
  simpl in IH. destruct IH as [-> ->]. unfold gmul_step; simpl. split; [|done].
  rewrite !land_1_testbit, Z.lxor_spec, Z.shiftr_lxor. f_equal. f_equal.
  destruct (Z.testbit bx 0), (Z.testbit by' 0); simpl; try done;
    apply Z.bits_inj'; intros i Hi; rewrite !Z.lxor_spec; btauto.
Qed.

Lemma gmul_lxor c x y : gmul c (x .^ y) = gmul c x .^ gmul c y.
Proof.
  unfold gmul. pose proof (gmul_step_lxor 8 x y 0 0 c) as [H _].
  change (0 .^ 0) with 0 in H. rewrite H.
  by destruct (Nat.iter 8 gmul_step (x, 0, c)) as [[??]?], (Nat.iter 8 gmul_step (y, 0, c)) as [[??]?].
Qed.

Lemma xtime_gmul a : is_byte a -> xtime a = gmul 2 a.
Proof. intros Ha. apply Z.eqb_eq. revert a Ha. apply byte_exhaust. by vm_compute. Qed.

Lemma xtime_byte a : is_byte (xtime a).
Proof. apply is_byte_u8. Qed.

(** Reorder an exclusive or: both sides agree bit by bit. *)
Ltac lxor_ac := apply Z.bits_inj'; intros ??; rewrite !Z.lxor_spec; btauto.

Definition mix_row (a b c d : Z) : Z := xtime a .^ xtime b .^ b .^ c .^ d.
Definition inv_mix_row (a b c d : Z) : Z :=
  gmul 0x0e a .^ gmul 0x0b b .^ gmul 0x0d c .^ gmul 0x09 d.

Lemma inv_mix_coeffs x : is_byte x ->
  gmul 14 (xtime x) .^ gmul 11 x .^ gmul 13 x .^ gmul 9 (xtime x) .^ gmul 9 x = x /\
  gmul 14 (xtime x) .^ gmul 14 x .^ gmul 11 (xtime x) .^ gmul 13 x .^ gmul 9 x = 0 /\
  gmul 14 x .^ gmul 11 (xtime x) .^ gmul 11 x .^ gmul 13 (xtime x) .^ gmul 9 x = 0 /\
  gmul 14 x .^ gmul 11 x .^ gmul 13 (xtime x) .^ gmul 13 x .^ gmul 9 (xtime x) = 0.
Proof.
  intros Hx. rewrite <- !Z.eqb_eq. rewrite <- !andb_true_iff.
  revert x Hx. apply byte_exhaust. by vm_compute.
Qed.

Lemma inv_mix_row_mix a b c d :
  is_byte a -> is_byte b -> is_byte c -> is_byte d ->
  inv_mix_row (mix_row a b c d) (mix_row b c d a) (mix_row c d a b) (mix_row d a b c) = a.
Proof.
  intros Ha Hb Hc Hd.
  destruct (inv_mix_coeffs a Ha) as (Ea & _), (inv_mix_coeffs b Hb) as (_ & Eb & _),
    (inv_mix_coeffs c Hc) as (_ & _ & Ec & _), (inv_mix_coeffs d Hd) as (_ & _ & _ & Ed).
  unfold inv_mix_row, mix_row. rewrite !gmul_lxor.
  match type of Ea with ?x = _ => match type of Eb with ?y = _ =>
  match type of Ec with ?z = _ => match type of Ed with ?w = _ =>
    transitivity (x .^ y .^ z .^ w); [lxor_ac|]
  end end end end.
  by rewrite Ea, Eb, Ec, Ed, !Z.lxor_0_r.
Qed.

(** The rows of a column as the source writes them are rotations of the first. *)
Lemma mix_column_rows a b c d :
  [xtime a .^ xtime b .^ b .^ c .^ d; a .^ xtime b .^ xtime c .^ c .^ d;
   a .^ b .^ xtime c .^ xtime d .^ d; xtime a .^ a .^ b .^ c .^ xtime d] =
  [mix_row a b c d; mix_row b c d a; mix_row c d a b; mix_row d a b c].
Proof. unfold mix_row. repeat (apply (f_equal2 cons); [lxor_ac|]); done. Qed.

Lemma inv_mix_column_rows a b c d :
  [gmul 0x0e a .^ gmul 0x0b b .^ gmul 0x0d c .^ gmul 0x09 d;
   gmul 0x09 a .^ gmul 0x0e b .^ gmul 0x0b c .^ gmul 0x0d d;
   gmul 0x0d a .^ gmul 0x09 b .^ gmul 0x0e c .^ gmul 0x0b d;
   gmul 0x0b a .^ gmul 0x0d b .^ gmul 0x09 c .^ gmul 0x0e d] =
  [inv_mix_row a b c d; inv_mix_row b c d a; inv_mix_row c d a b; inv_mix_row d a b c].
Proof. unfold inv_mix_row. repeat (apply (f_equal2 cons); [lxor_ac|]); done. Qed.

Definition on_columns (f : Z -> Z -> Z -> Z -> list Z) (s : list Z) : list Z :=
  flat_map (fun c => f (get s (c * 4)) (get s (c * 4 + 1)) (get s (c * 4 + 2)) (get s (c * 4 + 3)))
    (seq 0 4).

Lemma mix_columns_spec s : length s = 16%nat ->
  mix_columns s = on_columns (fun a b c d =>
    [mix_row a b c d; mix_row b c d a; mix_row c d a b; mix_row d a b c]) s.
Proof.
  intros Hl. split_list s Hl. unfold on_columns. cbn [seq flat_map].
  rewrite <- !mix_column_rows. reflexivity.
Qed.

Lemma inv_mix_columns_spec s : length s = 16%nat ->
  inv_mix_columns s = on_columns (fun a b c d =>
    [inv_mix_row a b c d; inv_mix_row b c d a; inv_mix_row c d a b; inv_mix_row d a b c]) s.
Proof.
  intros Hl. split_list s Hl. unfold on_columns. cbn [seq flat_map].
  rewrite <- !inv_mix_column_rows. reflexivity.
Qed.

Lemma mix_row_byte a b c d :
  is_byte a -> is_byte b -> is_byte c -> is_byte d -> is_byte (mix_row a b c d).
Proof. intros. unfold mix_row. repeat apply is_byte_lxor; auto using xtime_byte. Qed.

Lemma mix_columns_state s : state s -> state (mix_columns s).
Proof.
  intros [Hl Hb]. rewrite mix_columns_spec by done. split_list s Hl.
  split; [done|]. cbn. rewrite !Forall_cons in *. intuition auto using mix_row_byte.
Qed.

Lemma inv_mix_columns_mix s : state s -> inv_mix_columns (mix_columns s) = s.
Proof.
  intros [Hl Hb]. rewrite mix_columns_spec by done.
  rewrite inv_mix_columns_spec by reflexivity. split_list s Hl.
  cbn [on_columns seq flat_map get nth Nat.mul Nat.add app].
  rewrite !Forall_cons in Hb. destruct_and!. by rewrite !inv_mix_row_mix.
Qed.

(** ** Rounds *)

Lemma enc_round_state ctx s rd : state s -> state (enc_round ctx s rd).
Proof.
  intros Hs. unfold enc_round. apply add_rk_state.
  destruct (_ <? _); [apply mix_columns_state|]; by apply shift_rows_state, sub_bytes_state.
Qed.

Lemma enc_rounds_state ctx l s : state s -> state (foldl (enc_round ctx) s l).
Proof. revert s. induction l as [|rd l IH]; simpl; auto using enc_round_state. Qed.

(** The state [aes_decrypt_block] holds before its round [rd]. *)
Definition unkeyed (ctx : AES_CTX) (s : list Z) : list Z := shift_rows (sub_bytes s).

Lemma dec_round_undo ctx s rd :
  (0 < rd < Z.to_nat (nr ctx))%nat -> state s ->
  dec_round ctx (unkeyed ctx (enc_round ctx s rd)) rd = unkeyed ctx s.
Proof.
  intros Hrd Hs. pose proof (enc_round_state ctx s rd Hs) as [_ Hb].
  unfold dec_round, unkeyed at 1.
  rewrite inv_shift_rows_shift by auto using sub_bytes_state, enc_round_state.
  rewrite inv_sub_bytes_sub by done. unfold enc_round.
  replace (Z.of_nat rd <? nr ctx) with true by lia.
  replace (0 <? rd)%nat with true by (symmetry; apply Nat.ltb_lt; lia).
  rewrite add_rk_involutive by auto using mix_columns_state, shift_rows_state, sub_bytes_state.
  by apply inv_mix_columns_mix, shift_rows_state, sub_bytes_state.
Qed.

Lemma dec_rounds_undo ctx n s : (n < Z.to_nat (nr ctx))%nat -> state s ->
  foldl (dec_round ctx)
    (unkeyed ctx (foldl (enc_round ctx) (add_rk (rk ctx) 0 s) (seq 1 n))) (rev (seq 0 (S n))) = s.
Proof.
  intros Hn Hs. pose proof (add_rk_state (rk ctx) 0 s Hs) as Hs0.
  induction n as [|n IH].
  - cbn [seq rev app foldl]. unfold dec_round, unkeyed. cbn [Nat.mul Nat.ltb Nat.leb].
    rewrite inv_shift_rows_shift by auto using sub_bytes_state.
    rewrite inv_sub_bytes_sub by apply Hs0. by apply add_rk_involutive.
  - rewrite (seq_S (S n)), rev_app_distr. cbn [rev app foldl Nat.add].
    rewrite seq_S, foldl_snoc. cbn [Nat.add].
    rewrite dec_round_undo by (auto using enc_rounds_state; lia). apply IH. lia.
Qed.

Lemma aes_dec_enc ctx inp : state inp -> aes_decrypt_block ctx (aes_encrypt_block ctx inp) = inp.
Proof.
  intros Hs. pose proof Hs as [Hlen Hb].
  unfold aes_decrypt_block, aes_encrypt_block. rewrite (take_ge inp) by lia.
  pose proof (enc_rounds_state ctx (seq 1 (Z.to_nat (nr ctx))) _ (add_rk_state (rk ctx) 0 _ Hs)) as He.
  rewrite (take_ge _ 16) by (destruct He; lia).
  destruct (Z.to_nat (nr ctx)) as [|n] eqn:En; [by apply add_rk_involutive|].
  rewrite seq_S, foldl_snoc. unfold enc_round at 1. cbn [Nat.add].
  rewrite (proj2 (Z.ltb_ge (Z.of_nat (S n)) (nr ctx))) by lia.
  rewrite add_rk_involutive
    by auto using shift_rows_state, sub_bytes_state, enc_rounds_state, add_rk_state.
  apply (dec_rounds_undo ctx n inp); [lia|done].
Qed.

Lemma aes_encrypt_state ctx inp : state inp -> state (aes_encrypt_block ctx inp).
Proof.
  intros Hs. unfold aes_encrypt_block. rewrite (take_ge inp) by (destruct Hs; lia).
  apply enc_rounds_state, add_rk_state, Hs.
Qed.

(** Decryption of one block inverts its encryption, for every key schedule
    and number of rounds: the direct inverse cipher of [aes_decrypt_block] undoes
    every round of [aes_encrypt_block] in the opposite order. *)
Theorem aes_decrypt_encrypt (ctx : AES_CTX) (inp : list Z)
    (Hlen : length inp = 16%nat) (Hb : bytes inp) :
  aes_decrypt_block ctx (aes_encrypt_block ctx inp) = inp.
Proof. by apply aes_dec_enc. Qed.

Lemma aes_decrypt_encrypt_witness :
  let ctx := aes_init_enc (seqZ 0 32) 32 in
  aes_decrypt_block ctx (aes_encrypt_block ctx (seqZ 7 16)) = seqZ 7 16.
Proof.
  apply (aes_decrypt_encrypt (aes_init_enc (seqZ 0 32) 32) (seqZ 7 16)).
  - reflexivity.
  - apply (bool_decide_unpack _). vm_compute. exact I.
Defined.

(** ** The S-boxes

    The table is the one FIPS 197 defines: inversion in GF(2^8) followed by an
    affine map. *)

Definition gf_inv (x : Z) : Z :=
  default 0 (list_find (fun y => gmul x y = 1) all_bytes ≫= fun p => Some (snd p)).

Definition rotl8 (x k : Z) : Z := u8 (x << k) .| (x >> (8 - k)).

Definition sbox_spec (x : Z) : Z :=
  let y := gf_inv x in
  y .^ rotl8 y 1 .^ rotl8 y 2 .^ rotl8 y 3 .^ rotl8 y 4 .^ 0x63.

(** The S-box tables are the FIPS 197 substitution: [SBOX] is the affine image of
    the inverse in GF(2^8) (computed with the source's own [gmul]), and [RSBOX] is its
    inverse permutation, on all 256 bytes. *)
Theorem sbox_algebraic (b : Z) (Hb : is_byte b) :
  nthZ SBOX b = sbox_spec b /\ (b <> 0 -> gmul b (gf_inv b) = 1) /\
  nthZ RSBOX (nthZ SBOX b) = b /\ nthZ SBOX (nthZ RSBOX b) = b.
Proof.
  cut ((nthZ SBOX b =? sbox_spec b) && ((b =? 0) || (gmul b (gf_inv b) =? 1)) &&
    (nthZ RSBOX (nthZ SBOX b) =? b) && (nthZ SBOX (nthZ RSBOX b) =? b) = true); [lia|].
  revert b Hb. apply byte_exhaust. by vm_compute.
Qed.

Lemma sbox_algebraic_witness : nthZ SBOX 0x53 = 0xed /\ nthZ SBOX 0x53 = sbox_spec 0x53.
Proof. split; [reflexivity|]. apply (sbox_algebraic 0x53). unfold is_byte. lia. Defined.

(** ** The key schedule *)

Definition word32 (w : Z) : Prop := 0 <= w < 2 ^ 32.

Lemma bytes_to_word_be b : bytes b -> (4 <= length b)%nat ->
  bytes_to_word b = be_val (take 4 b) /\ word32 (bytes_to_word b).
Proof.
  intros Hb Hl.
  assert (bytes_to_word b = be_val (take 4 b)) as ->.
  { do 4 (destruct b as [|? b]; [simpl in Hl; lia|]).
    rewrite firstn_cons, !firstn_cons, firstn_O, <- be32_shifts. reflexivity. }
  split; [done|]. pose proof (be_val_bound (take 4 b)) as H.
  rewrite length_take in H. replace (4 `min` length b)%nat with 4%nat in H by lia.
  by apply H, Forall_take.
Qed.

Lemma sub_word_32 w : word32 (sub_word w).
Proof.
  unfold sub_word. rewrite be32_shifts.
  match goal with |- word32 (be_val ?l) => apply (be_val_bound l) end.
  repeat (constructor; [apply nthZ_byte, SBOX_bytes|]). constructor.
Qed.

Lemma expand_word_32 nk w i : 0 < nk -> nk <= i < 60 ->
  Forall word32 w -> word32 (expand_word nk w i).
Proof.
  assert (forall j l, Forall word32 l -> word32 (nthZ l j)) as Hn.
  { intros j l Hl. unfold nthZ. rewrite nth_lookup. destruct (l !! _) eqn:E; [|by unfold word32].
    by eapply Forall_lookup_1 in E. }
  intros Hnk Hi Hw. unfold expand_word. apply (lxor_range 32); [lia|by apply Hn|].
  destruct (i mod nk =? 0).
  - apply (lxor_range 32); [lia|apply sub_word_32|].
    assert (is_byte (nthZ RCON (i / nk))) as Hr.
    { apply nthZ_byte. by apply (bool_decide_unpack _). }
    rewrite Z.shiftl_mul_pow2 by lia. unfold is_byte in Hr. lia.
  - destruct (_ && _); [apply sub_word_32|by apply Hn].
Qed.

(** Key expansion for 128-bit, 256-bit (and the 512-bit keys the callers pass):
    the schedule starts with the key's big-endian words, has [4 * (nr + 1)] 32-bit
    words, which fit the 60-word array of [AES_CTX], and satisfies the FIPS 197
    recurrence. *)
Theorem aes_init_enc_schedule (key : list Z) (key_len : Z) (i : Z)
    (Hkl : key_len = 16 \/ key_len = 32 \/ key_len = 64)
    (Hlen : zlen key = key_len) (Hb : bytes key) :
  let ctx := aes_init_enc key key_len in
  let w := rk ctx in
  let nk := key_len / 4 in
  nr ctx = (if key_len =? 16 then 10 else 14) /\
  zlen w = 4 * (nr ctx + 1) /\ zlen w <= 60 /\ Forall word32 w /\
  (0 <= i < nk -> nthZ w i = be_val (take 4 (drop (Z.to_nat (4 * i)) key))) /\
  (nk <= i < zlen w ->
   nthZ w i = nthZ w (i - nk) .^
     (if i mod nk =? 0 then sub_word (rot_word (nthZ w (i - 1))) .^ (nthZ RCON (i / nk) << 24)
      else if (nk >? 6) && (i mod nk =? 4) then sub_word (nthZ w (i - 1))
      else nthZ w (i - 1))).
Proof.
  unfold aes_init_enc. cbn zeta. cbn [rk nr].
  set (first := map _ (seqZ 0 (key_len / 4))).
  set (n := if key_len / 4 =? 4 then 10 else 14). set (m := (n + 1) * 4 - key_len / 4).
  assert (n = if key_len =? 16 then 10 else 14) as Hn
    by (destruct Hkl as [->|[->| ->]]; reflexivity).
  assert (4 <= key_len / 4 /\ 0 <= m /\ key_len / 4 + m = (n + 1) * 4 /\ (n + 1) * 4 <= 60 /\
    4 * (key_len / 4) = key_len) as (Hnk & Hm & Hnm & H60 & Hk4)
    by (unfold m; rewrite Hn; destruct Hkl as [->|[->| ->]]; split_and!; by vm_compute).
  assert (zlen first = key_len / 4) as Hf.
  { unfold first. rewrite length_map, length_seqZ. lia. }
  assert (forall j, 0 <= j < key_len / 4 ->
    nthZ first j = be_val (take 4 (drop (Z.to_nat (4 * j)) key)) /\ word32 (nthZ first j)) as Hfirst.
  { intros j Hj. unfold first, nthZ at 1 2. rewrite nth_lookup, list_lookup_fmap.
    rewrite lookup_seqZ_lt by lia. cbn. rewrite Z.add_0_l, Z2Nat.id, (Z.mul_comm j) by lia.
    apply bytes_to_word_be; [by apply Forall_drop|]. rewrite length_drop. lia. }
  rewrite fill_length by done. split_and!; [done|lia|lia| | |].
  - apply fill_Forall; [done| |].
    + apply Forall_lookup_2. intros k x Hx.
      destruct (Hfirst (Z.of_nat k)) as [_ H]; [apply lookup_lt_Some in Hx; lia|].
      unfold nthZ in H. by rewrite nth_lookup, Nat2Z.id, Hx in H.
    + intros. apply expand_word_32; lia || done.
  - intros. rewrite fill_prefix by lia. apply Hfirst. lia.
  - intros. rewrite fill_nth at 1 by lia. unfold expand_word. rewrite !nthZ_take by lia. done.
Qed.

Lemma aes_init_enc_schedule_witness :
  zlen (rk (aes_init_enc (seqZ 0 32) 32)) <= 60 /\
  nthZ (rk (aes_init_enc (seqZ 0 32) 32)) 8 = 0xa573c29f.
Proof.
  split; [|reflexivity].
  apply (aes_init_enc_schedule (seqZ 0 32) 32 8); [right; left; reflexivity|reflexivity|].
  apply (bool_decide_unpack _). vm_compute. exact I.
Defined.

(** FIPS 197, appendix C: the cipher on the published example vectors. *)
Example aes128_fips197 :
  aes_encrypt_block (aes_init_enc (seqZ 0 16) 16) (map (fun i => 17 * i) (seqZ 0 16)) =
  [0x69; 0xc4; 0xe0; 0xd8; 0x6a; 0x7b; 0x04; 0x30; 0xd8; 0xcd; 0xb7; 0x80; 0x70; 0xb4; 0xc5; 0x5a].
Proof. by vm_compute. Qed.

Example aes256_fips197 :
  aes_encrypt_block (aes_init_enc (seqZ 0 32) 32) (map (fun i => 17 * i) (seqZ 0 16)) =
  [0x8e; 0xa2; 0xb7; 0xca; 0x51; 0x67; 0x45; 0xbf; 0xea; 0xfc; 0x49; 0x90; 0x4b; 0x49; 0x60; 0x89].
Proof. by vm_compute. Qed.
