(* ===== verification/Fips197.v ===== *)
(** * Fips197: the cipher of [crypto/aes.c] is the AES of FIPS 197

    The standard's definitions, written over the field of polynomials modulo
    [x^8 + x^4 + x^3 + x + 1] and the four-by-four state matrix, and the theorem
    that [aes_init_enc] and [aes_encrypt_block] compute them. *)

From S2P Require Import Prelude Aes.

Module Fips197.

(** ** The field (FIPS 197, 4.2) *)

(** The product of two polynomials over GF(2), and its remainder modulo [0x11b]. *)
Definition poly_mul (a b : Z) : Z :=
  foldl (fun r i => if Z.testbit b i then r .^ (a << i) else r) 0 (seqZ 0 8).

Definition poly_mod (p : Z) : Z :=
  foldl (fun p i => if Z.testbit p i then p .^ (0x11b << (i - 8)) else p) p (rev (seqZ 8 7)).

Definition gf_mul (a b : Z) : Z := poly_mod (poly_mul a b).

(** The inverse, and 0 for 0. *)
Definition gf_inverse (x : Z) : Z := default 0 (List.find (fun y => gf_mul x y =? 1) all_bytes).

(** ** The transformations (5.1), on the state [s] as a matrix: the cell of row
    [r] and column [c] is byte [r + 4 c] of the block. *)

Definition state_byte (s : list Z) (r c : Z) : Z := nthZ s (r + 4 * c).

Definition matrix (f : Z -> Z -> Z) : list Z :=
  map (fun i => f (i mod 4) (i / 4)) (seqZ 0 16).

(** Bit [i] of the affine image of [y] (5.1.1). *)
Definition affine_bit (y i : Z) : bool :=
  foldl xorb (Z.testbit 0x63 i) (map (fun k => Z.testbit y ((i + k) mod 8)) [0; 4; 5; 6; 7]).

Definition S_box (x : Z) : Z :=
  let y := gf_inverse x in foldr (fun i v => 2 * v + Z.b2z (affine_bit y i)) 0 (seqZ 0 8).

Definition SubBytes (s : list Z) : list Z := matrix (fun r c => S_box (state_byte s r c)).
Definition ShiftRows (s : list Z) : list Z := matrix (fun r c => state_byte s r ((c + r) mod 4)).

Definition MixColumns (s : list Z) : list Z :=
  matrix (fun r c => foldl Z.lxor 0
    (map (fun k => gf_mul (nthZ [2; 3; 1; 1] ((k - r) mod 4)) (state_byte s k c)) (seqZ 0 4))).

Definition AddRoundKey (w : list Z) (round : Z) (s : list Z) : list Z :=
  matrix (fun r c => state_byte s r c .^ nthZ (be_bytes 4 (nthZ w (4 * round + c))) r).

(** [Cipher(in, Nr, w)]. *)
Definition Cipher (w : list Z) (Nr : Z) (inp : list Z) : list Z :=
  let s := AddRoundKey w 0 inp in
  let s := foldl (fun s round => AddRoundKey w round (MixColumns (ShiftRows (SubBytes s))))
             s (seqZ 1 (Nr - 1)) in
  AddRoundKey w Nr (ShiftRows (SubBytes s)).

(** ** Key expansion (5.2) *)

Definition SubWord (w : Z) : Z := be_val (map S_box (be_bytes 4 w)).

Definition RotWord (w : Z) : Z :=
  let b := be_bytes 4 w in be_val (drop 1 b ++ take 1 b).

(** [Rcon[j] = [x^(j-1), 0, 0, 0]]. *)
Definition Rcon (j : Z) : Z := be_val [Nat.iter (Z.to_nat (j - 1)) (gf_mul 2) 1; 0; 0; 0].

Definition temp (nk : Z) (w : list Z) (i : Z) : Z :=
  let t := nthZ w (i - 1) in
  if i mod nk =? 0 then SubWord (RotWord t) .^ Rcon (i / nk)
  else if (6 <? nk) && (i mod nk =? 4) then SubWord t
  else t.

(** The words [w] are the key schedule of [key] for [nk] key words and [Nr] rounds. *)
Record KeyExpansion (key : list Z) (nk Nr : Z) (w : list Z) : Prop := {
  ke_length : zlen w = 4 * (Nr + 1);
  ke_key : forall i, 0 <= i < nk -> nthZ w i = be_val (take 4 (drop (Z.to_nat (4 * i)) key));
  ke_step : forall i, nk <= i < 4 * (Nr + 1) -> nthZ w i = nthZ w (i - nk) .^ temp nk w i }.

(** The standard's own example of 4.2. *)
Example gf_mul_57_83 : gf_mul 0x57 0x83 = 0xc1.
Proof. reflexivity. Qed.

Example S_box_53 : S_box 0x53 = 0xed.
Proof. by vm_compute. Qed.

(** ** The tables and the arithmetic of the source *)

(** The loop of [gmul] is the product in the field, for the coefficients of the inverse
    column map. *)
Lemma gmul_gf_mul b : is_byte b -> Forall (fun a => gmul a b = gf_mul a b) [0x0e; 0x0b; 0x0d; 0x09].
Proof.
  intros Hb. assert (forallb (fun a => gmul a b =? gf_mul a b) [0x0e; 0x0b; 0x0d; 0x09] = true) as H.
  { revert b Hb. apply byte_exhaust. by vm_compute. }
  rewrite forallb_forall in H. apply Forall_forall. intros a Ha%list_elem_of_In. by apply Z.eqb_eq, H.
Qed.

Lemma SBOX_S_box b : is_byte b -> nthZ SBOX b = S_box b.
Proof. intros Hb. apply Z.eqb_eq. revert b Hb. apply byte_exhaust. by vm_compute. Qed.

Lemma gf_mul_1 b : is_byte b -> gf_mul 1 b = b.
Proof. intros Hb. apply Z.eqb_eq. revert b Hb. apply byte_exhaust. by vm_compute. Qed.

Lemma gf_mul_2 b : is_byte b -> gf_mul 2 b = xtime b.
Proof. intros Hb. apply Z.eqb_eq. revert b Hb. apply byte_exhaust. by vm_compute. Qed.

Lemma gf_mul_3 b : is_byte b -> gf_mul 3 b = xtime b .^ b.
Proof. intros Hb. apply Z.eqb_eq. revert b Hb. apply byte_exhaust. by vm_compute. Qed.

#[global] Arguments S_box : simpl never.
#[global] Arguments gf_mul : simpl never.
#[global] Arguments be_bytes : simpl never.

(** ** The transformations agree *)

Lemma matrix_cells f :
  matrix f = [f 0 0; f 1 0; f 2 0; f 3 0; f 0 1; f 1 1; f 2 1; f 3 1;
              f 0 2; f 1 2; f 2 2; f 3 2; f 0 3; f 1 3; f 2 3; f 3 3].
Proof. reflexivity. Qed.

(** A state as its sixteen bytes, and a matrix as its sixteen cells. *)
Ltac cells s H :=
  let Hl := fresh in let Hb := fresh in
  destruct H as [Hl Hb]; split_list s Hl; rewrite !Forall_cons in Hb; destruct_and!;
  rewrite !matrix_cells;
  repeat match goal with |- context [state_byte ?l ?r ?c] =>
    let v := eval cbv in (state_byte l r c) in change (state_byte l r c) with v end.

Lemma SubBytes_spec s : state s -> sub_bytes s = SubBytes s.
Proof. intros H. unfold sub_bytes, SubBytes. cells s H. cbn [map]. by rewrite !SBOX_S_box. Qed.

Lemma ShiftRows_spec s : state s -> shift_rows s = ShiftRows s.
Proof. intros H. unfold ShiftRows. cells s H. reflexivity. Qed.

Lemma MixColumns_spec s : state s -> mix_columns s = MixColumns s.
Proof.
  intros H. rewrite mix_columns_spec by apply H. unfold on_columns, MixColumns, mix_row.
  change (seqZ 0 4) with [0; 1; 2; 3]. cbn [map]. cells s H.
  repeat match goal with |- context [nthZ [2; 3; 1; 1] ?i] =>
    let v := eval cbv in (nthZ [2; 3; 1; 1] i) in change (nthZ [2; 3; 1; 1] i) with v end.
  cbn [seq flat_map app get nth Nat.mul Nat.add foldl].
  rewrite !gf_mul_1, !gf_mul_2, !gf_mul_3, !Z.lxor_0_l by done.
  repeat (apply (f_equal2 cons); [lxor_ac|]); done.
Qed.

Lemma be_bytes_4 w : be_bytes 4 w = [u8 (w >> 24); u8 (w >> 16); u8 (w >> 8); u8 w].
Proof.
  unfold be_bytes. cbn [le_bytes rev app]. by rewrite !Z.shiftr_shiftr by lia.
Qed.

Lemma AddRoundKey_spec w round s : 0 <= round -> state s ->
  add_rk w (Z.to_nat round * 4) s = AddRoundKey w round s.
Proof.
  intros Hr H. rewrite add_rk_xor by apply H. unfold round_key, AddRoundKey.
  assert (forall c, 0 <= c ->
    be_bytes 4 (nthZ w (4 * round + c)) =
    let v := nth (Z.to_nat round * 4 + Z.to_nat c) w 0 in
    [u8 (v >> 24); u8 (v >> 16); u8 (v >> 8); u8 v]) as Hw.
  { intros c Hc. rewrite be_bytes_4. unfold nthZ.
    by replace (Z.to_nat (4 * round + c)) with (Z.to_nat round * 4 + Z.to_nat c)%nat by lia. }
  cells s H. by rewrite !Hw by lia.
Qed.

(** Every transformation keeps the state sixteen bytes. *)
Lemma round_spec w round s : 0 <= round -> state s ->
  add_rk w (Z.to_nat round * 4) (mix_columns (shift_rows (sub_bytes s))) =
    AddRoundKey w round (MixColumns (ShiftRows (SubBytes s))) /\
  add_rk w (Z.to_nat round * 4) (shift_rows (sub_bytes s)) =
    AddRoundKey w round (ShiftRows (SubBytes s)).
Proof.
  intros Hr Hs. pose proof (sub_bytes_state s Hs). pose proof (shift_rows_state _ H).
  rewrite !AddRoundKey_spec by auto using mix_columns_state.
  by rewrite MixColumns_spec, ShiftRows_spec, SubBytes_spec by done.
Qed.

(** ** The rounds agree *)

Section Rounds.
Context (ctx : AES_CTX) (inp : list Z) (Hinp : state inp).

Let start := add_rk (rk ctx) 0 inp.

Lemma rounds_spec n : Z.of_nat n < nr ctx ->
  foldl (enc_round ctx) start (seq 1 n) =
  foldl (fun s round => AddRoundKey (rk ctx) round (MixColumns (ShiftRows (SubBytes s))))
    start (seqZ 1 (Z.of_nat n)).
Proof using Hinp.
  induction n as [|n IH]; intros Hn; [done|].
  rewrite seq_S, foldl_snoc, IH by lia.
  replace (Z.of_nat (S n)) with (Z.of_nat n + 1) by lia.
  rewrite seqZ_app by lia. change (seqZ (1 + Z.of_nat n) 1) with [1 + Z.of_nat n].
  rewrite foldl_snoc, <- IH by lia.
  set (s := foldl (enc_round ctx) start (seq 1 n)).
  assert (state s) as Hs by apply enc_rounds_state, add_rk_state, Hinp.
  unfold enc_round. rewrite (proj2 (Z.ltb_lt _ _)) by lia.
  destruct (round_spec (rk ctx) (1 + Z.of_nat n) s) as [<- _]; [lia|done|].
  by replace (Z.to_nat (1 + Z.of_nat n)) with (1 + n)%nat by lia.
Qed.

Lemma encrypt_is_Cipher : 0 < nr ctx ->
  aes_encrypt_block ctx inp = Cipher (rk ctx) (nr ctx) inp.
Proof using Hinp.
  intros Hn. unfold aes_encrypt_block, Cipher. rewrite (take_ge inp) by (destruct Hinp; lia).
  rewrite <- (AddRoundKey_spec (rk ctx) 0 inp) by done.
  change (Z.to_nat 0 * 4)%nat with 0%nat. fold start.
  replace (Z.to_nat (nr ctx)) with (S (Z.to_nat (nr ctx - 1))) by lia.
  rewrite seq_S, foldl_snoc, rounds_spec by lia. rewrite Z2Nat.id by lia.
  set (s := foldl _ start (seqZ 1 _)).
  assert (state s) as Hs.
  { unfold s. rewrite <- (Z2Nat.id (nr ctx - 1)), <- rounds_spec by lia.
    apply enc_rounds_state, add_rk_state, Hinp. }
  unfold enc_round. rewrite (proj2 (Z.ltb_ge _ _)) by lia.
  destruct (round_spec (rk ctx) (nr ctx) s) as [_ <-]; [lia|done|].
  by replace (Z.to_nat (nr ctx)) with (1 + Z.to_nat (nr ctx - 1))%nat by lia.
Qed.

End Rounds.

(** ** The key schedule agrees *)

Lemma land_0xff x : x .& 0xff = u8 x.
Proof. change 0xff with (Z.ones 8). by rewrite Z.land_ones. Qed.

Lemma SubWord_spec w : sub_word w = SubWord w.
Proof.
  unfold sub_word, SubWord. rewrite be32_shifts, be_bytes_4, !land_0xff. cbn [map].
  by rewrite !SBOX_S_box by apply is_byte_u8.
Qed.

Lemma shifted_byte x n i : 0 <= n ->
  Z.testbit (u8 (x >> n)) i = (0 <=? i) && (i <? 8) && Z.testbit x (i + n).
Proof.
  intros Hn. destruct (Z.leb_spec 0 i); [|by rewrite Z.testbit_neg_r].
  by rewrite wrap_testbit, Z.shiftr_spec by lia.
Qed.

Lemma RotWord_spec w : word32 w -> rot_word w = RotWord w.
Proof.
  intros Hw. unfold rot_word, RotWord. rewrite be_bytes_4. cbn [drop take app].
  rewrite <- be32_shifts. replace (u8 w) with (u8 (w >> 0)) by by rewrite Z.shiftr_0_r.
  apply Z.bits_inj'; intros i Hi.
  rewrite !Z.lor_spec, wrap_testbit, Z.shiftr_spec, !Z.shiftl_spec, !shifted_byte by lia.
  rewrite <- (wrap_small 32 w), !wrap_testbit by done.
  repeat match goal with
  | |- context [?a <=? ?b] => destruct (Z.leb_spec a b); try lia
  | |- context [?a <? ?b] => destruct (Z.ltb_spec a b); try lia
  end; cbn; rewrite ?orb_false_r; try done; try (f_equal; lia); by rewrite Z.testbit_neg_r by lia.
Qed.

Lemma Rcon_spec j : 1 <= j <= 10 -> nthZ RCON j << 24 = Rcon j.
Proof.
  intros Hj. apply Z.eqb_eq.
  assert (forallb (fun j => nthZ RCON j << 24 =? Rcon j) (seqZ 1 10) = true) as H by by vm_compute.
  rewrite forallb_forall in H. apply H, list_elem_of_In, elem_of_seqZ. lia.
Qed.

(** A key has one schedule. *)
Lemma KeyExpansion_unique key nk Nr w w' : 0 < nk ->
  KeyExpansion key nk Nr w -> KeyExpansion key nk Nr w' -> w = w'.
Proof.
  intros Hnk [L K S] [L' K' S']. apply (nth_ext w w' 0 0); [lia|].
  induction n as [n IH] using lt_wf_ind. intros Hn.
  assert (forall i, 0 <= i < Z.of_nat n -> nthZ w i = nthZ w' i) as Hlt
    by (intros i Hi; apply IH; lia).
  cut (nthZ w (Z.of_nat n) = nthZ w' (Z.of_nat n)); [unfold nthZ; by rewrite Nat2Z.id|].
  destruct (Z.lt_ge_cases (Z.of_nat n) nk); [by rewrite K, K' by lia|].
  rewrite S, S' by lia. unfold temp. by rewrite !Hlt by lia.
Qed.

(** [C15] The two functions of [crypto/aes.c] are the AES of FIPS 197 for 128-bit and
    256-bit keys: [aes_init_enc] stores exactly the standard's key schedule, of which
    there is one, [aes_encrypt_block] computes the standard's cipher under it, written over
    the field of polynomials modulo [x^8 + x^4 + x^3 + x + 1] and the state matrix, and
    [aes_decrypt_block] its inverse. *)
Theorem aes_is_fips197 (key : list Z) (key_len : Z) (inp : list Z)
    (Hkl : key_len = 16 \/ key_len = 32) (Hlen : zlen key = key_len) (Hb : bytes key)
    (Hinp : length inp = 16%nat) (Hbi : bytes inp) :
  let ctx := aes_init_enc key key_len in
  let Nk := key_len / 4 in
  let Nr := Nk + 6 in
  KeyExpansion key Nk Nr (rk ctx) /\
  (forall w, KeyExpansion key Nk Nr w ->
     aes_encrypt_block ctx inp = Cipher w Nr inp /\
     aes_decrypt_block ctx (Cipher w Nr inp) = inp).
Proof.
  cbn zeta. assert (key_len = 16 \/ key_len = 32 \/ key_len = 64) as Hkl' by tauto.
  set (ctx := aes_init_enc key key_len).
  assert (nr ctx = key_len / 4 + 6 /\ 4 <= key_len / 4 /\ nr ctx + 1 <= 15 /\
    (4 * (nr ctx + 1) - 1) / (key_len / 4) <= 10) as (Hnr & Hnk & H15 & Hq)
    by (unfold ctx; destruct Hkl as [->| ->]; split_and!; by vm_compute).
  assert (KeyExpansion key (key_len / 4) (key_len / 4 + 6) (rk ctx)) as HK.
  { rewrite <- Hnr.
    pose proof (fun i => aes_init_enc_schedule key key_len i Hkl' Hlen Hb) as H. fold ctx in H.
    cbn zeta in H. destruct (H 0) as (_ & Hl & _ & H32 & _). split; [done|apply H|].
    intros i Hi. destruct (H i) as (_ & _ & _ & _ & _ & ES). rewrite ES by lia. f_equal. unfold temp.
    assert (word32 (nthZ (rk ctx) (i - 1))) as Hw.
    { unfold nthZ. rewrite nth_lookup. destruct (rk ctx !! _) as [v|] eqn:E; [|by unfold word32].
      by eapply Forall_lookup_1 in E. }
    rewrite RotWord_spec, !SubWord_spec by done.
    destruct (Z.eqb_spec (i mod (key_len / 4)) 0) as [E|E].
    - rewrite Rcon_spec; [done|]. split.
      + apply Z.div_le_lower_bound; lia.
      + etransitivity; [|exact Hq]. apply Z.div_le_mono; lia.
    - by rewrite Z.gtb_ltb. }
  split; [exact HK|]. intros w Hw.
  rewrite (KeyExpansion_unique key (key_len / 4) (key_len / 4 + 6) w (rk ctx)) by (done || lia).
  rewrite <- Hnr.
  rewrite <- encrypt_is_Cipher by (done || lia). split; [done|by apply aes_dec_enc].
Qed.

Lemma aes_is_fips197_witness :
  aes_encrypt_block (aes_init_enc (seqZ 0 32) 32) (seqZ 7 16) =
  Cipher (rk (aes_init_enc (seqZ 0 32) 32)) 14 (seqZ 7 16).
Proof.
  destruct (aes_is_fips197 (seqZ 0 32) 32 (seqZ 7 16)) as [HK H].
  - by right.
  - reflexivity.
  - apply (bool_decide_unpack _). vm_compute. exact I.
  - reflexivity.
  - apply (bool_decide_unpack _). vm_compute. exact I.
  - exact (proj1 (H _ HK)).
Defined.

(** A 24-byte key, which no caller's check excludes, gets 14 rounds where AES-192
    has 12. *)
Example aes192_rounds : nr (aes_init_enc (seqZ 0 24) 24) = 14.
Proof. reflexivity. Qed.

End Fips197.
