(* ===== verification/Layout.v ===== *)
(** * Layout: how C lays structures out

    The structures the sources declare, packed or with natural alignment, as values of a
    type of C types; where a member lies; reading and writing a member of an object
    given as its bytes.  Integers are little-endian and as aligned as they are long,
    as on both targets. *)

From S2P Require Import Prelude.

Module Layout.

(** ** Types *)

(** An integer, pointer or enumeration of [n] bytes, an array and a structure. *)
Inductive ctype :=
  | Int (n : Z)
  | Arr (t : ctype) (n : Z)
  | Rec (packed : bool) (fs : list (string * ctype)).

Abbreviation c8 := (Int 1).
Abbreviation c16 := (Int 2).
Abbreviation c32 := (Int 4).
Abbreviation c64 := (Int 8).
(** Pointers and [UINTN] on the 64-bit targets; enumerations are [int]. *)
Abbreviation cptr := (Int 8).
Abbreviation cenum := (Int 4).

Definition round_up (x a : Z) : Z := (x + a - 1) / a * a.

(** Where the next member starts. *)
Definition start (packed : bool) (pos a : Z) : Z := if packed then pos else round_up pos a.

(** Sizes and alignments of the members give where they start and the last one ends. *)
Fixpoint place (packed : bool) (pos : Z) (l : list (Z * Z)) : list Z :=
  match l with
  | [] => []
  | (s, a) :: l => start packed pos a :: place packed (start packed pos a + s) l
  end.

Fixpoint end_of (packed : bool) (pos : Z) (l : list (Z * Z)) : Z :=
  match l with
  | [] => pos
  | (s, a) :: l => end_of packed (start packed pos a + s) l
  end.

Definition max_align (l : list (Z * Z)) : Z := foldr (fun x m => Z.max (snd x) m) 1 l.

(** Size and alignment. *)
Fixpoint size_align (t : ctype) : Z * Z :=
  match t with
  | Int n => (n, n)
  | Arr t n => (n * fst (size_align t), snd (size_align t))
  | Rec packed fs =>
    let l := map (fun f => match f with (_, t) => size_align t end) fs in
    let a := if packed then 1 else max_align l in
    (round_up (end_of packed 0 l) a, a)
  end.

Definition sizeof (t : ctype) : Z := fst (size_align t).
Definition alignof (t : ctype) : Z := snd (size_align t).

(** ** Members *)

(** The members of a structure: name, offset, type. *)
Definition members (packed : bool) (fs : list (string * ctype)) : list (string * (Z * ctype)) :=
  zip_with (fun f o => (fst f, (o, snd f))) fs (place packed 0 (map (fun f => size_align (snd f)) fs)).

Definition find_member (n : string) (l : list (string * (Z * ctype))) : option (Z * ctype) :=
  snd <$> List.find (fun m => bool_decide (fst m = n)) l.

(** A way to a part of an object: through a member or an element. *)
Inductive step := Fld (n : string) | Idx (i : Z).

Definition locate1 (t : ctype) (s : step) : option (Z * ctype) :=
  match t, s with
  | Rec packed fs, Fld n => find_member n (members packed fs)
  | Arr t n, Idx i => if (0 <=? i) && (i <? n) then Some (i * sizeof t, t) else None
  | _, _ => None
  end.

Fixpoint locate (t : ctype) (p : list step) : option (Z * ctype) :=
  match p with
  | [] => Some (0, t)
  | s :: p =>
    '(o, t) ← locate1 t s;
    '(o', t') ← locate t p;
    Some (o + o', t')
  end.

Definition offset_of (t : ctype) (n : string) : option Z := fst <$> locate1 t (Fld n).

(** ** Objects as bytes *)

(** The bytes of a part, and its value when it is an integer. *)
Definition get (t : ctype) (p : list step) (b : list Z) : option (list Z) :=
  '(o, t) ← locate t p; sub b o (sizeof t).

Definition get_int (t : ctype) (p : list step) (b : list Z) : option Z := le_val <$> get t p b.

(** Storing an integer. *)
Definition put_int (t : ctype) (p : list step) (v : Z) (b : list Z) : option (list Z) :=
  '(o, t) ← locate t p;
  _ ← sub b o (sizeof t);
  Some (take (Z.to_nat o) b ++ le_bytes (Z.to_nat (sizeof t)) v ++ drop (Z.to_nat (o + sizeof t)) b).

(** ** Well-formed types *)

Fixpoint wf (t : ctype) : bool :=
  match t with
  | Int n => 0 <? n
  | Arr t n => wf t && (0 <=? n)
  | Rec _ fs => forallb (fun f => match f with (_, t) => wf t end) fs
  end.

(** ** Lemmas *)

(** Induction over the members of structures. *)
Lemma ctype_rect' (P : ctype -> Prop) :
  (forall n, P (Int n)) -> (forall t n, P t -> P (Arr t n)) ->
  (forall packed fs, Forall (fun f => P (snd f)) fs -> P (Rec packed fs)) -> forall t, P t.
Proof.
  intros HI HA HR. fix IH 1. intros [n|t n|packed fs]; [apply HI|apply HA, IH|].
  apply HR. induction fs as [|[x t] fs IHfs]; constructor; [apply IH|done].
Qed.

Lemma round_up_spec x a : 0 < a -> x <= round_up x a < x + a.
Proof.
  intros Ha. unfold round_up.
  pose proof (Z.div_mod (x + a - 1) a ltac:(lia)). pose proof (Z.mod_pos_bound (x + a - 1) a Ha). lia.
Qed.

Lemma round_up_1 x : round_up x 1 = x.
Proof. unfold round_up. rewrite Z.div_1_r. lia. Qed.

Lemma max_align_pos l : 1 <= max_align l.
Proof. unfold max_align. induction l; cbn [foldr]; lia. Qed.

Lemma map_size_align fs : map (fun f : string * ctype => match f with (_, t) => size_align t end) fs = map (fun f => size_align (snd f)) fs.
Proof. apply map_ext. by intros [x t]. Qed.

Lemma size_align_pos t : wf t = true -> 0 <= sizeof t /\ 0 < alignof t.
Proof.
  unfold sizeof, alignof. induction t as [n|t n IH|packed fs IH] using ctype_rect'; cbn [wf size_align fst snd].
  - lia.
  - intros [H Hn%Z.leb_le]%andb_true_iff. destruct (IH H). split; [by apply Z.mul_nonneg_nonneg|done].
  - intros Hfs. rewrite map_size_align. set (l := map _ fs).
    assert (Forall (fun x => 0 <= fst x /\ 0 < snd x) l) as Hl.
    { unfold l. apply Forall_fmap. rewrite forallb_forall in Hfs. apply Forall_forall. intros [x t] Hx.
      rewrite Forall_forall in IH. apply (IH _ Hx). apply (Hfs (x, t)). by apply list_elem_of_In. }
    assert (0 < if packed then 1 else max_align l) as Ha by (pose proof (max_align_pos l); destruct packed; lia).
    split; [|done]. cut (0 <= end_of packed 0 l); [pose proof (round_up_spec (end_of packed 0 l) _ Ha); lia|].
    generalize (Z.le_refl 0). generalize 0 at 2 4. clear -Hl. induction Hl as [|[s a] l [Hs Ha] _ IH]; intros pos Hpos; cbn [end_of]; [done|].
    apply IH. unfold start. pose proof (round_up_spec pos a Ha). cbn in *. destruct packed; lia.
Qed.

(** What sizes and alignments a member's slot starts from. *)
Abbreviation ok := (Forall (fun x : Z * Z => 0 <= fst x /\ 0 < snd x)).

Lemma start_ge packed pos a : 0 < a -> pos <= start packed pos a.
Proof. intros Ha. unfold start. pose proof (round_up_spec pos a Ha). destruct packed; lia. Qed.

Lemma end_of_ge packed l pos : ok l -> pos <= end_of packed pos l.
Proof.
  intros H. revert pos. induction H as [|[s a] l [Hs Ha] _ IH]; intros pos; cbn [end_of]; [lia|].
  cbn [fst snd] in *. pose proof (start_ge packed pos a Ha). specialize (IH (start packed pos a + s)). lia.
Qed.

Lemma place_length packed l pos : length (place packed pos l) = length l.
Proof. revert pos. induction l as [|[s a] l IH]; intros pos; cbn [place length]; [done|]. by rewrite IH. Qed.

(** A member's slot: behind what is before it and in front of the end. *)
Lemma place_bounds packed l pos i o s a : ok l -> place packed pos l !! i = Some o -> l !! i = Some (s, a) ->
  pos <= o /\ o + s <= end_of packed pos l.
Proof.
  intros H. revert pos i. induction H as [|[s0 a0] l [Hs Ha] Hl IH]; intros pos i Ho Hi; [done|].
  cbn [fst snd place end_of] in *. pose proof (start_ge packed pos a0 Ha) as Hp.
  destruct i as [|i]; cbn in Ho, Hi.
  - injection Ho as <-. injection Hi as -> ->. split; [done|]. by apply end_of_ge.
  - destruct (IH _ _ Ho Hi) as (? & ?). split; [lia|done].
Qed.

(** Slots do not overlap. *)
Lemma place_sorted packed l pos i j oi oj s a : ok l -> (i < j)%nat ->
  place packed pos l !! i = Some oi -> l !! i = Some (s, a) -> place packed pos l !! j = Some oj -> oi + s <= oj.
Proof.
  intros H. revert pos i j. induction H as [|[s0 a0] l [Hs Ha] Hl IH]; intros pos i j Hij Hi Hs0 Hj; [done|].
  cbn [fst snd place] in *. destruct j as [|j]; [lia|]. destruct i as [|i]; cbn in Hi, Hs0, Hj.
  - injection Hi as <-. injection Hs0 as -> ->. assert (exists x, l !! j = Some x) as [[s' a'] Hx].
    { apply lookup_lt_is_Some_2. apply lookup_lt_Some in Hj. by rewrite place_length in Hj. }
    by destruct (place_bounds _ _ _ _ _ _ _ Hl Hj Hx).
  - apply (IH (start packed pos a0 + s0) i j); (done || lia).
Qed.

Lemma fs_ok fs : forallb (fun f : string * ctype => match f with (_, t) => wf t end) fs = true ->
  Forall (fun f => wf (snd f) = true) fs /\ ok (map (fun f => size_align (snd f)) fs).
Proof.
  intros H. rewrite forallb_forall in H.
  assert (Forall (fun f => wf (snd f) = true) fs) as Hw.
  { apply Forall_forall. intros [x t] Hx%list_elem_of_In. by apply (H (x, t)). }
  split; [done|]. apply Forall_fmap. eapply Forall_impl; [exact Hw|]. intros [x t] Ht. by apply size_align_pos.
Qed.

Lemma sizeof_Rec packed fs :
  sizeof (Rec packed fs) = round_up (end_of packed 0 (map (fun f => size_align (snd f)) fs)) (alignof (Rec packed fs)).
Proof. unfold sizeof, alignof. cbn [size_align fst snd]. by rewrite map_size_align. Qed.

(** A member of a structure is one of its fields, at its slot. *)
Lemma find_member_Some packed fs n o t : find_member n (members packed fs) = Some (o, t) ->
  exists i, fs !! i = Some (n, t) /\ place packed 0 (map (fun f => size_align (snd f)) fs) !! i = Some o.
Proof.
  unfold find_member. intros ([x [o1 t1]] & [Hin%list_elem_of_In Hn%bool_decide_eq_true]%find_some & [= -> ->])%fmap_Some.
  cbn in Hn. subst x. apply list_elem_of_lookup in Hin as [i Hi]. unfold members in Hi.
  apply lookup_zip_with_Some in Hi as ([x t0] & o0 & [= <- <- <-] & Hf & Hp). by exists i.
Qed.

Lemma locate1_bounds t s o t' : wf t = true -> locate1 t s = Some (o, t') ->
  wf t' = true /\ 0 <= o /\ o + sizeof t' <= sizeof t.
Proof.
  destruct t as [n|t n|packed fs], s as [x|i]; cbn [locate1]; try done.
  - cbn [wf]. intros [Hw Hn%Z.leb_le]%andb_true_iff. destruct (_ && _) eqn:E; [|done]. intros [= <- <-].
    pose proof (size_align_pos t Hw) as [Hs _]. split; [done|]. change (sizeof (Arr t n)) with (n * sizeof t).
    apply andb_true_iff in E as [H0%Z.leb_le H1%Z.ltb_lt]. split; [by apply Z.mul_nonneg_nonneg|].
    pose proof (Z.mul_le_mono_nonneg_r (i + 1) n (sizeof t)). lia.
  - intros [Hw Hok]%fs_ok (i & Hf & Hp)%find_member_Some.
    assert (map (fun f => size_align (snd f)) fs !! i = Some (sizeof t', alignof t')) as Hl.
    { rewrite list_lookup_fmap, Hf. cbn [fmap option_fmap option_map snd]. unfold sizeof, alignof. by rewrite <- surjective_pairing. }
    destruct (place_bounds _ _ _ _ _ _ _ Hok Hp Hl) as (Ho & He).
    split; [by apply (Forall_lookup_1 _ _ _ _ Hw) in Hf|]. split; [done|]. rewrite sizeof_Rec.
    pose proof (round_up_spec (end_of packed 0 (map (fun f => size_align (snd f)) fs)) (alignof (Rec packed fs))) as H.
    etransitivity; [exact He|]. apply H. unfold alignof. cbn [size_align snd]. destruct packed; [lia|].
    pose proof (max_align_pos (map (fun f => match f with (_, t) => size_align t end) fs)). lia.
Qed.

(** A part lies inside its object. *)
Lemma locate_bounds p : forall t o t', wf t = true -> locate t p = Some (o, t') ->
  wf t' = true /\ 0 <= o /\ o + sizeof t' <= sizeof t.
Proof.
  induction p as [|s p IH]; intros t o t' Hw; cbn [locate].
  - intros [= <- <-]. split; [done|lia].
  - intros ([o1 t1] & H1 & ([o2 t2] & H2 & [= <- <-])%bind_Some)%bind_Some.
    destruct (locate1_bounds _ _ _ _ Hw H1) as (Hw1 & ? & ?), (IH _ _ _ Hw1 H2) as (? & ? & ?). split; [done|lia].
Qed.

(** Two ways that part at some step. *)
Fixpoint apart (p q : list step) : Prop :=
  match p, q with
  | Fld x :: p, Fld y :: q => if decide (x = y) then apart p q else True
  | Idx i :: p, Idx j :: q => if decide (i = j) then apart p q else True
  | _, _ => False
  end.

Definition disjoint (o s o' s' : Z) : Prop := o + s <= o' \/ o' + s' <= o.

Lemma locate1_disjoint t s1 s2 o1 t1 o2 t2 : wf t = true -> locate1 t s1 = Some (o1, t1) -> locate1 t s2 = Some (o2, t2) ->
  apart [s1] [s2] \/ s1 <> s2 -> disjoint o1 (sizeof t1) o2 (sizeof t2).
Proof.
  intros Hw H1 H2 Hne. assert (s1 <> s2) as Hs.
  { destruct Hne as [Ha|]; [|done]. intros ->. destruct s2; cbn in Ha; by rewrite decide_True in Ha by done. }
  clear Hne. destruct t as [n|t n|packed fs], s1 as [x|i], s2 as [y|j]; cbn [locate1] in H1, H2; try done.
  - destruct (_ && _) in H1; [|done]. destruct (_ && _) in H2; [|done]. injection H1 as <- <-. injection H2 as <- <-.
    cbn [wf] in Hw. apply andb_true_iff in Hw as [Hw _]. pose proof (size_align_pos t Hw) as [Hz _].
    assert (i <> j) by congruence. unfold disjoint.
    destruct (Z.lt_ge_cases i j); [left; pose proof (Z.mul_le_mono_nonneg_r (i + 1) j (sizeof t))
                                  |right; pose proof (Z.mul_le_mono_nonneg_r (j + 1) i (sizeof t))]; lia.
  - cbn [wf] in Hw. apply fs_ok in Hw as [_ Hok].
    apply find_member_Some in H1 as (i & Hf1 & Hp1), H2 as (j & Hf2 & Hp2).
    assert (forall k n t, fs !! k = Some (n, t) -> map (fun f => size_align (snd f)) fs !! k = Some (sizeof t, alignof t)) as Hl.
    { intros k n t Hk. rewrite list_lookup_fmap, Hk. cbn [fmap option_fmap option_map snd]. unfold sizeof, alignof. by rewrite <- surjective_pairing. }
    destruct (Nat.lt_trichotomy i j) as [Hij|[->|Hij]].
    + left. by apply (place_sorted _ _ _ _ _ _ _ _ _ Hok Hij Hp1 (Hl _ _ _ Hf1) Hp2).
    + congruence.
    + right. by apply (place_sorted _ _ _ _ _ _ _ _ _ Hok Hij Hp2 (Hl _ _ _ Hf2) Hp1).
Qed.

(** Parts of an object reached on ways that part do not overlap. *)
Lemma locate_disjoint p : forall q t o1 t1 o2 t2, wf t = true -> apart p q ->
  locate t p = Some (o1, t1) -> locate t q = Some (o2, t2) -> disjoint o1 (sizeof t1) o2 (sizeof t2).
Proof.
  induction p as [|s1 p IH]; intros [|s2 q] t o1 t1 o2 t2 Hw Ha; try (by destruct Ha); [by destruct s1|]. cbn [locate].
  intros ([oa ta] & Ha1 & ([ob tb] & Hb1 & [= <- <-])%bind_Some)%bind_Some ([oc tc] & Ha2 & ([od td] & Hb2 & [= <- <-])%bind_Some)%bind_Some.
  destruct (locate1_bounds _ _ _ _ Hw Ha1) as (Hwa & ? & ?), (locate1_bounds _ _ _ _ Hw Ha2) as (Hwc & ? & ?).
  destruct (locate_bounds _ _ _ _ Hwa Hb1) as (_ & ? & ?), (locate_bounds _ _ _ _ Hwc Hb2) as (_ & ? & ?).
  assert (s1 = s2 /\ apart p q \/ s1 <> s2) as [[-> Hpq]|Hne].
  { destruct s1 as [x|i], s2 as [y|j]; cbn in Ha; try done; case_decide; subst; auto; right; congruence. }
  - rewrite Ha1 in Ha2. injection Ha2 as <- <-. destruct (IH _ _ _ _ _ _ Hwa Hpq Hb1 Hb2); [left|right]; lia.
  - destruct (locate1_disjoint t s1 s2 _ _ _ _ Hw Ha1 Ha2 (or_intror Hne)); [left|right]; lia.
Qed.

(** ** Reading and writing *)

Lemma sub_splice_same o v b : 0 <= o -> o + zlen v <= zlen b ->
  sub (take (Z.to_nat o) b ++ v ++ drop (Z.to_nat (o + zlen v)) b) o (zlen v) = Some v.
Proof.
  intros Ho Hb. assert (zlen (take (Z.to_nat o) b) = o) as Hl by (rewrite length_take; lia).
  rewrite sub_skip by lia. rewrite Hl, Z.sub_diag. by apply sub_here.
Qed.

Lemma sub_splice_other o v b o' n : 0 <= o -> o + zlen v <= zlen b -> disjoint o (zlen v) o' n ->
  sub (take (Z.to_nat o) b ++ v ++ drop (Z.to_nat (o + zlen v)) b) o' n = sub b o' n.
Proof.
  intros Ho Hb Hd. set (b' := take _ b ++ _).
  assert (zlen b' = zlen b) as Hlen by (unfold b'; rewrite !length_app, length_take, length_drop; lia).
  unfold sub. rewrite Hlen. case_decide as Hr; [|done]. f_equal.
  apply list_eq. intros i. destruct (Nat.lt_ge_cases i (Z.to_nat n)); [|by rewrite !lookup_take_ge by lia].
  rewrite !lookup_take_lt, !lookup_drop by lia. unfold b'. destruct Hd as [Hd|Hd].
  - rewrite lookup_app_r by (rewrite length_take; lia). rewrite lookup_app_r by (rewrite length_take; lia).
    rewrite lookup_drop, length_take. f_equal. lia.
  - rewrite lookup_app_l by (rewrite length_take; lia). by rewrite lookup_take_lt by lia.
Qed.

Lemma put_int_inv t p v b b' : wf t = true -> put_int t p v b = Some b' -> exists o t', locate t p = Some (o, t') /\
  0 <= o /\ 0 <= sizeof t' /\ o + sizeof t' <= zlen b /\ zlen (le_bytes (Z.to_nat (sizeof t')) v) = sizeof t' /\
  b' = take (Z.to_nat o) b ++ le_bytes (Z.to_nat (sizeof t')) v ++ drop (Z.to_nat (o + zlen (le_bytes (Z.to_nat (sizeof t')) v))) b.
Proof.
  intros Hw ([o t'] & Hl & (x & Hs & [= <-])%bind_Some)%bind_Some. exists o, t'.
  destruct (locate_bounds _ _ _ _ Hw Hl) as (Hw' & ? & _). pose proof (size_align_pos t' Hw') as [? _].
  assert (zlen (le_bytes (Z.to_nat (sizeof t')) v) = sizeof t') as E by (rewrite le_bytes_length; lia).
  unfold sub in Hs. case_decide as Hb; [|done]. rewrite E. split_and!; (done || lia).
Qed.

Lemma put_int_length t p v b b' : wf t = true -> put_int t p v b = Some b' -> zlen b' = zlen b.
Proof.
  intros Hw (o & t' & _ & Ho & Hs & Hb & E & ->)%put_int_inv; [|done]. rewrite !length_app, length_take, length_drop. lia.
Qed.

(** What is stored is read back, as wide as the member is. *)
Lemma get_put_same t p v b b' o t' : wf t = true -> put_int t p v b = Some b' -> locate t p = Some (o, t') ->
  get_int t p b' = Some (wrap (8 * sizeof t') v).
Proof.
  intros Hw (o1 & t1 & Hl & Ho & Hs & Hb & E & ->)%put_int_inv Hl'; [|done]. rewrite Hl in Hl'. injection Hl' as -> ->.
  unfold get_int, get. rewrite Hl. cbn [mbind option_bind]. rewrite <- E at 3.
  rewrite sub_splice_same by lia. cbn [fmap option_fmap option_map]. rewrite le_val_le_bytes. do 3 f_equal. lia.
Qed.

(** Nothing else changes. *)
Lemma get_put_other t p q v b b' : wf t = true -> apart p q -> put_int t p v b = Some b' -> get t q b' = get t q b.
Proof.
  intros Hw Ha (o & t' & Hl & Ho & Hs & Hb & E & ->)%put_int_inv; [|done]. unfold get.
  destruct (locate t q) as [[oq tq]|] eqn:Hq; cbn [mbind option_bind]; [|done].
  apply sub_splice_other; [done|lia|]. rewrite E. by apply (locate_disjoint p q t).
Qed.

Lemma get_put_field t f g v b b' : wf t = true -> f <> g -> put_int t [Fld g] v b = Some b' -> get t [Fld f] b' = get t [Fld f] b.
Proof. intros Hw Hfg. apply get_put_other; [done|]. cbn. by rewrite decide_False by congruence. Qed.

(** A member of an object that is long enough is there. *)
Lemma get_is_Some t p o t' b : wf t = true -> locate t p = Some (o, t') -> sizeof t <= zlen b ->
  get t p b = Some (take (Z.to_nat (sizeof t')) (drop (Z.to_nat o) b)).
Proof.
  intros Hw Hl Hb. destruct (locate_bounds _ _ _ _ Hw Hl) as (Hw' & ? & ?). pose proof (size_align_pos t' Hw') as [? _].
  unfold get. rewrite Hl. cbn [mbind option_bind]. unfold sub. rewrite decide_True by lia. done.
Qed.

End Layout.
