(* ===== verification/Iface.v ===== *)
(** * Iface: the interfaces between components

    What one component promises to another, as type classes: the client's
    theorems are proved against the class, the implementation discharges it with
    an instance. *)

From S2P Require Import Prelude.

(** ** Streaming hash functions

    HMAC calls a hash through its context: initialise, absorb, finalise.  The
    interface is indexed by the hash identifier of [crypto/sha.h]. *)

Class StreamHash (id : Z) := {
  sh_ctx : Type;
  sh_init : sh_ctx;
  sh_update : sh_ctx -> list Z -> sh_ctx;
  sh_final : sh_ctx -> list Z;
  sh_block : nat;
  sh_size : nat;
  (** The function computed, on the whole message. *)
  sh_hash : list Z -> list Z;
}.

#[global] Arguments sh_ctx id {_}.
#[global] Arguments sh_init id {_}.
#[global] Arguments sh_update id {_}.
#[global] Arguments sh_final id {_}.
#[global] Arguments sh_block id {_}.
#[global] Arguments sh_size id {_}.
#[global] Arguments sh_hash id {_}.

(** Any division of the message into updates gives the same digest; an update's
    length must leave room for the 32-bit index of its block loop. *)
Class StreamHashLaws (id : Z) `{StreamHash id} := {
  sh_stream (ds : list (list Z)) :
    Forall (fun d => zlen d + Z.of_nat (sh_block id) < 2 ^ 32) ds ->
    sh_final id (foldl (sh_update id) (sh_init id) ds) = sh_hash id (concat ds);
  sh_length m : length (sh_hash id m) = sh_size id;
  sh_bytes m : bytes (sh_hash id m);
  sh_fits : (0 < sh_size id <= sh_block id)%nat;
  sh_block_small : (sh_block id <= 128)%nat;
}.

(** ** Block devices

    The FAT driver reads 512-byte sectors into a buffer it owns.  A read gives the
    status and the buffer afterwards; [None] is a transfer past the end of the
    buffer. *)

Class BlockDev := { dev_read : Z -> Z -> list Z -> option (Z * list Z) }.

(** A device that holds the image [sector] and serves up to 127 sectors at once. *)
Class BlockDevImage (sector : Z -> list Z) `{BlockDev} := {
  sector_length lba : length (sector lba) = 512%nat;
  sector_bytes lba : bytes (sector lba);
  dev_read_image lba count buf :
    0 <= count <= 127 -> count * 512 <= zlen buf ->
    dev_read lba count buf =
      Some (0, flat_map sector (seqZ lba count) ++ drop (Z.to_nat (count * 512)) buf);
}.
