(* ===== verification/Mem.v ===== *)
(** * Mem: physical memory and [common/mem.c]

    Memory is a function from addresses to bytes; a C pointer is a 64-bit address and
    a store gives a new memory.  Two memories are the same when they agree everywhere. *)

From S2P Require Import Prelude.

Module Mem.

Definition mem : Type := Z -> Z.

Definition upd (m : mem) (a v : Z) : mem := fun x => if x =? a then v else m x.

(** [n] bytes from [a] on. *)
Definition load (m : mem) (a n : Z) : list Z := map (fun i => m (a + i)) (seqZ 0 n).

(** The bytes [l] stored from [a] on. *)
Definition write (m : mem) (a : Z) (l : list Z) : mem := fun x => if (a <=? x) && (x <? a + zlen l) then nthZ l (x - a) else m x.

#[export] Instance mem_equiv : Equiv mem := fun m m' => forall x, m x = m' x.

#[export] Instance mem_equivalence : Equivalence (≡@{mem}).
Proof. split; [done|by intros m m' H x|intros m1 m2 m3 H1 H2 x; by rewrite H1]. Qed.

#[export] Instance upd_proper : Proper ((≡) ==> (=) ==> (=) ==> (≡)) upd.
Proof. intros m m' H a ? <- v ? <- x. unfold upd. by rewrite H. Qed.

#[export] Instance load_proper : Proper ((≡) ==> (=) ==> (=) ==> (=)) load.
Proof. intros m m' H a ? <- n ? <-. unfold load. apply map_ext. intros i. apply H. Qed.

(** ** The routines of [common/mem.c]

    [k] is the count still to go; pointers advance modulo 2^64. *)

Fixpoint memset_loop (k : nat) (m : mem) (d c : Z) : mem :=
  match k with O => m | S k' => memset_loop k' (upd m d (u8 c)) (u64 (d + 1)) c end.

Definition memset (m : mem) (dst c n : Z) : mem := memset_loop (Z.to_nat n) m dst c.

Fixpoint copy_up (k : nat) (m : mem) (d s : Z) : mem :=
  match k with O => m | S k' => copy_up k' (upd m d (m s)) (u64 (d + 1)) (u64 (s + 1)) end.

Fixpoint copy_down (k : nat) (m : mem) (d s : Z) : mem :=
  match k with
  | O => m
  | S k' => let d := u64 (d - 1) in let s := u64 (s - 1) in copy_down k' (upd m d (m s)) d s
  end.

Definition memcpy (m : mem) (dst src n : Z) : mem := copy_up (Z.to_nat n) m dst src.

Definition memmove (m : mem) (dst src n : Z) : mem :=
  if dst <? src then copy_up (Z.to_nat n) m dst src
  else copy_down (Z.to_nat n) m (u64 (dst + n)) (u64 (src + n)).

Fixpoint memcmp_loop (k : nat) (m : mem) (p q : Z) : Z :=
  match k with
  | O => 0
  | S k' => if negb (m p =? m q) then m p - m q else memcmp_loop k' m (u64 (p + 1)) (u64 (q + 1))
  end.

Definition memcmp (m : mem) (a b n : Z) : Z := memcmp_loop (Z.to_nat n) m a b.

(** ** What they do *)

(** The region [d, d + n) of a memory replaced by [f]. *)
Definition splat (m : mem) (d n : Z) (f : Z -> Z) : mem := fun x => if (d <=? x) && (x <? d + n) then f (x - d) else m x.

Lemma splat_out m d n f x : x < d \/ d + n <= x -> splat m d n f x = m x.
Proof. intros. unfold splat. destruct (Z.leb_spec d x), (Z.ltb_spec x (d + n)); cbn [andb]; done || lia. Qed.

Lemma splat_in m d n f x : d <= x < d + n -> splat m d n f x = f (x - d).
Proof. intros. unfold splat. destruct (Z.leb_spec d x), (Z.ltb_spec x (d + n)); cbn [andb]; done || lia. Qed.

#[export] Instance splat_proper : Proper ((≡) ==> (=) ==> (=) ==> (=) ==> (≡)) splat.
Proof. intros m m' H d ? <- n ? <- f ? <- x. unfold splat. by rewrite H. Qed.

Lemma write_out m a l x : x < a \/ a + zlen l <= x -> write m a l x = m x.
Proof. intros. unfold write. destruct (Z.leb_spec a x), (Z.ltb_spec x (a + zlen l)); cbn [andb]; done || lia. Qed.

Lemma write_in m a l x : a <= x < a + zlen l -> write m a l x = nthZ l (x - a).
Proof. intros. unfold write. destruct (Z.leb_spec a x), (Z.ltb_spec x (a + zlen l)); cbn [andb]; done || lia. Qed.

#[export] Instance write_proper : Proper ((≡) ==> (=) ==> (=) ==> (≡)) write.
Proof. intros m m' H a ? <- l ? <- x. unfold write. by rewrite H. Qed.

Lemma load_length m a n : 0 <= n -> zlen (load m a n) = n.
Proof. intros. unfold load. rewrite length_map, length_seqZ. lia. Qed.

Lemma load_ext m m' a n : (forall x, a <= x < a + n -> m x = m' x) -> load m a n = load m' a n.
Proof.
  intros H. unfold load. apply map_ext_in. intros i Hi%list_elem_of_In%elem_of_seqZ. apply H. lia.
Qed.

Lemma map_seqZ_shift {A} (f : Z -> A) off b k : map f (seqZ (off + b) k) = map (fun i => f (off + i)) (seqZ b k).
Proof.
  destruct (Z.le_gt_cases k 0); [by rewrite !seqZ_nil by lia|]. revert b. pattern k. apply natlike_ind; [..|lia].
  - intros b. by rewrite !seqZ_nil by lia.
  - intros j Hj IH b. rewrite !(seqZ_cons _ (Z.succ j)) by lia. cbn [map]. f_equal. rewrite Z.pred_succ.
    rewrite <- Z.add_succ_r. apply IH.
Qed.

Lemma load_sub m a n off k : 0 <= off -> 0 <= k -> off + k <= n -> sub (load m a n) off k = Some (load m (a + off) k).
Proof.
  intros. unfold sub. rewrite decide_True by (rewrite load_length by lia; lia). f_equal. unfold load.
  replace n with (off + (k + (n - off - k))) by lia. rewrite !seqZ_app, !map_app by lia.
  rewrite drop_app_length' by (rewrite length_map, length_seqZ; lia).
  rewrite take_app_length' by (rewrite length_map, length_seqZ; lia).
  replace (0 + off) with (off + 0) by lia. rewrite map_seqZ_shift. apply map_ext. intros i. f_equal. lia.
Qed.

Lemma load_write m a l n : zlen l = n -> load (write m a l) a n = l.
Proof.
  intros <-. apply list_eq. intros i. unfold load. rewrite list_lookup_fmap.
  destruct (decide (i < length l)%nat) as [Hi|Hi].
  - rewrite lookup_seqZ_lt by lia. cbn. rewrite write_in by lia. unfold nthZ. rewrite nth_lookup.
    replace (Z.to_nat (a + (0 + Z.of_nat i) - a)) with i by lia. destruct (lookup_lt_is_Some_2 l i Hi) as [y ->]. done.
  - rewrite lookup_seqZ_ge by lia. cbn. symmetry. apply lookup_ge_None. lia.
Qed.

Lemma load_app m a i j : 0 <= i -> 0 <= j -> load m a (i + j) = load m a i ++ load m (a + i) j.
Proof.
  intros. unfold load. rewrite seqZ_app, map_app by lia. f_equal. replace (0 + i) with (i + 0) by lia.
  rewrite map_seqZ_shift. apply map_ext. intros k. f_equal. lia.
Qed.

Lemma memset_spec m d c n : 0 <= d -> 0 <= n -> d + n < 2 ^ 64 -> memset m d c n ≡ splat m d n (fun _ => u8 c).
Proof.
  intros Hd Hn. unfold memset.
  assert (n = Z.of_nat (Z.to_nat n)) as En by lia. generalize dependent (Z.to_nat n). intros k ->. clear Hn.
  revert m d Hd. induction k as [|k IH]; intros m d Hd Hlt x; cbn [memset_loop].
  { by rewrite splat_out by lia. }
  rewrite (wrap_small 64) by lia. rewrite (IH _ (d + 1) ltac:(lia) ltac:(lia) x).
  destruct (decide (d <= x < d + Z.of_nat (S k))).
  - rewrite (splat_in m) by lia. destruct (decide (x = d)) as [->|]; [|by rewrite splat_in by lia].
    rewrite splat_out by lia. unfold upd. by rewrite Z.eqb_refl.
  - rewrite !splat_out by lia. unfold upd. by rewrite (proj2 (Z.eqb_neq x d)) by lia.
Qed.

(** Copying upwards is right unless the source starts below the destination and runs into it. *)
Lemma copy_up_spec k m d s :
  0 <= d -> 0 <= s -> d + Z.of_nat k < 2 ^ 64 -> s + Z.of_nat k < 2 ^ 64 -> (d <= s \/ s + Z.of_nat k <= d) ->
  copy_up k m d s ≡ splat m d (Z.of_nat k) (fun i => m (s + i)).
Proof.
  revert m d s. induction k as [|k IH]; intros m d s Hd Hs Hdn Hsn Hov x; cbn [copy_up].
  { by rewrite splat_out by lia. }
  rewrite !wrap_small by lia. rewrite (IH _ (d + 1) (s + 1) ltac:(lia) ltac:(lia) ltac:(lia) ltac:(lia) ltac:(lia) x).
  destruct (decide (d <= x < d + Z.of_nat (S k))).
  - rewrite (splat_in m) by lia. destruct (decide (x = d)) as [->|].
    + rewrite splat_out by lia. unfold upd. rewrite Z.eqb_refl. f_equal. lia.
    + rewrite splat_in by lia. unfold upd. rewrite (proj2 (Z.eqb_neq _ _)) by lia. f_equal. lia.
  - rewrite !splat_out by lia. unfold upd. by rewrite (proj2 (Z.eqb_neq x d)) by lia.
Qed.

Lemma copy_down_spec k m d s :
  0 <= d -> 0 <= s -> d + Z.of_nat k < 2 ^ 64 -> s + Z.of_nat k < 2 ^ 64 -> (s <= d \/ d + Z.of_nat k <= s) ->
  copy_down k m (d + Z.of_nat k) (s + Z.of_nat k) ≡ splat m d (Z.of_nat k) (fun i => m (s + i)).
Proof.
  revert m. induction k as [|k IH]; intros m Hd Hs Hdn Hsn Hov x; cbn [copy_down].
  { by rewrite splat_out by lia. }
  rewrite !wrap_small by lia.
  replace (d + Z.of_nat (S k) - 1) with (d + Z.of_nat k) by lia. replace (s + Z.of_nat (S k) - 1) with (s + Z.of_nat k) by lia.
  rewrite (IH _ Hd Hs ltac:(lia) ltac:(lia) ltac:(lia) x).
  destruct (decide (d <= x < d + Z.of_nat (S k))).
  - rewrite (splat_in m) by lia. destruct (decide (x = d + Z.of_nat k)) as [->|].
    + rewrite splat_out by lia. unfold upd. rewrite Z.eqb_refl. f_equal. lia.
    + rewrite splat_in by lia. unfold upd. by rewrite (proj2 (Z.eqb_neq _ _)) by lia.
  - rewrite !splat_out by lia. unfold upd. by rewrite (proj2 (Z.eqb_neq x _)) by lia.
Qed.

Lemma memcmp_spec m a b n : 0 <= a -> 0 <= b -> 0 <= n -> a + n < 2 ^ 64 -> b + n < 2 ^ 64 ->
  (memcmp m a b n = 0 <-> load m a n = load m b n) /\
  (memcmp m a b n <> 0 -> exists i, 0 <= i < n /\ load m a i = load m b i /\ memcmp m a b n = m (a + i) - m (b + i)).
Proof.
  intros Ha Hb Hn. unfold memcmp.
  assert (n = Z.of_nat (Z.to_nat n)) as En by lia. generalize dependent (Z.to_nat n). intros k ->. clear Hn.
  revert a b Ha Hb. induction k as [|k IH]; intros a b Ha Hb Han Hbn; cbn [memcmp_loop]; [done|].
  rewrite !wrap_small by lia. destruct (IH (a + 1) (b + 1) ltac:(lia) ltac:(lia) ltac:(lia) ltac:(lia)) as [IH1 IH2].
  assert (forall c j, 0 <= j -> load m c (j + 1) = m c :: load m (c + 1) j) as Hcons.
  { intros c j Hj. unfold load. rewrite seqZ_cons by lia. cbn [map]. rewrite Z.add_0_r. f_equal.
    replace (Z.pred (j + 1)) with j by lia. change (Z.succ 0) with (1 + 0). rewrite map_seqZ_shift.
    apply map_ext. intros i. f_equal. lia. }
  replace (Z.of_nat (S k)) with (Z.of_nat k + 1) by lia. rewrite !Hcons by lia.
  destruct (Z.eqb_spec (m a) (m b)) as [E|E]; cbn [negb].
  - split; [rewrite IH1; rewrite E; split; [by intros ->|by intros [= H]]|].
    intros (i & Hi & Hl & ->)%IH2. exists (i + 1). rewrite !Hcons by lia. rewrite E, Hl. split_and!; [lia..|done|].
    f_equal; f_equal; lia.
  - split; [split; [lia|by intros [= H]]|]. intros _. exists 0. rewrite !Z.add_0_r. split_and!; [lia..|done|done].
Qed.

(** ** Theorems *)

(** Moving memory: for every overlap of source and destination, [memmove] leaves in
    the destination what the source held before, and nothing else changes; [memcpy]
    does the same when the source does not start below the destination and run into it. *)
Theorem memmove_spec (m : mem) (d s n : Z)
    (Hd : 0 <= d) (Hs : 0 <= s) (Hn : 0 <= n) (Hdn : d + n < 2 ^ 64) (Hsn : s + n < 2 ^ 64) :
  memmove m d s n ≡ splat m d n (fun i => m (s + i)) /\
  ((d <= s \/ s + n <= d) -> memcpy m d s n ≡ splat m d n (fun i => m (s + i))).
Proof.
  unfold memmove, memcpy. pose proof (Z2Nat.id n Hn) as En. split.
  - destruct (Z.ltb_spec d s).
    + rewrite copy_up_spec by lia. by rewrite En.
    + rewrite !wrap_small by lia. rewrite <- En at 2 3. rewrite copy_down_spec by lia. by rewrite En.
  - intros. rewrite copy_up_spec by lia. by rewrite En.
Qed.

Lemma memmove_spec_witness :
  load (memmove (fun x => x) 12 10 6) 8 12 = [8; 9; 10; 11; 10; 11; 12; 13; 14; 15; 18; 19].
Proof.
  rewrite (proj1 (memmove_spec (fun x => x) 12 10 6 ltac:(lia) ltac:(lia) ltac:(lia) ltac:(lia) ltac:(lia))). reflexivity.
Defined.
End Mem.
