(* ===== verification/Sha.v ===== *)
(** * Sha: SHA-1, SHA-256 and SHA-512 of [crypto/sha.c]

    The three contexts share their buffering; the source repeats it three times,
    here it is the section [Stream], instantiated with each block function.  The
    theorems relate the streaming interface to the one-shot construction of
    FIPS 180-4: pad the whole message, then fold the block function over it. *)

From S2P Require Import Prelude Iface.

(** ** Portable helpers *)

Definition ror32 (x n : Z) : Z := (x >> n) .| u32 (x << (32 - n)).
Definition ror64 (x n : Z) : Z := (x >> n) .| u64 (x << (64 - n)).

Definition be32 (p : list Z) : Z :=
  (nthZ p 0 << 24) .| (nthZ p 1 << 16) .| (nthZ p 2 << 8) .| nthZ p 3.
Definition be64 (p : list Z) : Z := (be32 p << 32) .| be32 (drop 4 p).

Definition put_be32 (v : Z) : list Z := [u8 (v >> 24); u8 (v >> 16); u8 (v >> 8); u8 v].
Definition put_be64 (v : Z) : list Z := put_be32 (u32 (v >> 32)) ++ put_be32 (u32 v).

Definition not32 (x : Z) : Z := u32 (Z.lnot x).
Definition not64 (x : Z) : Z := u64 (Z.lnot x).

(** ** Buffering common to the three contexts *)

(** A context: the chaining value, the length counter, and the first [buf_len]
    bytes of [buf] (the array's remaining bytes are never read). *)
Record CTX (L : Type) := mkCTX { ch : list Z; clen : L; cbuf : list Z }.
Arguments mkCTX {L}. Arguments ch {L}. Arguments clen {L}. Arguments cbuf {L}.

Section Stream.
Context (B : nat) (block : list Z -> list Z -> list Z).
Context {L : Type} (bump : L -> Z -> L).

(** [for (; i + B <= len; i += B) block(ctx, data + i)], with the 32-bit index. *)
Fixpoint absorb_blocks (fuel : nat) (h data : list Z) (i : Z) : list Z * Z :=
  match fuel with
  | O => (h, i)
  | S f =>
    if u32 (i + Z.of_nat B) <=? zlen data
    then absorb_blocks f (block h (take B (drop (Z.to_nat i) data))) data (u32 (i + Z.of_nat B))
    else (h, i)
  end.

(** Body of [shaX_update] after the length counter: fill the pending buffer,
    take whole blocks from [data], keep the rest. *)
Definition absorb (h buf data : list Z) : list Z * list Z :=
  let '(h, buf, i) :=
    if zlen buf =? 0 then (h, buf, 0) else
    let need := Z.of_nat B - zlen buf in
    let n := if zlen data <? need then zlen data else need in
    let buf := buf ++ take (Z.to_nat n) data in
    if zlen buf =? Z.of_nat B then (block h buf, [], n) else (h, buf, n) in
  let '(h, i) := absorb_blocks (S (length data)) h data i in
  (h, buf ++ drop (Z.to_nat i) data).

Definition update (ctx : CTX L) (data : list Z) : CTX L :=
  let '(h, buf) := absorb (ch ctx) (cbuf ctx) data in
  mkCTX h (bump (clen ctx) (zlen data)) buf.

(** [while (ctx->buf_len != P) { pad = 0; update(ctx, &pad, 1); }] *)
Fixpoint pad_zeros (fuel : nat) (P : Z) (ctx : CTX L) : CTX L :=
  if zlen (cbuf ctx) =? P then ctx else
  match fuel with
  | O => ctx
  | S f => pad_zeros f P (update ctx [0])
  end.

(** The common part of [shaX_final]: the padding, then the encoded length. *)
Definition finish (P : Z) (len_be : list Z) (ctx : CTX L) : CTX L :=
  update (pad_zeros B P (update ctx [0x80])) len_be.
End Stream.

(** ** SHA-1 *)

Definition SHA1_IV : list Z := [0x67452301; 0xEFCDAB89; 0x98BADCFE; 0x10325476; 0xC3D2E1F0].

Definition sha1_init : CTX Z := mkCTX SHA1_IV 0 [].

Definition sha1_w (w : list Z) (i : Z) : Z :=
  let x := nthZ w (i - 3) .^ nthZ w (i - 8) .^ nthZ w (i - 14) .^ nthZ w (i - 16) in
  u32 (x << 1) .| (x >> 31).

Definition words32 (blk : list Z) : list Z :=
  map (fun i => be32 (drop (Z.to_nat (i * 4)) blk)) (seqZ 0 16).

Definition sha1_round (w : list Z) (s : Z * Z * Z * Z * Z) (i : Z) : Z * Z * Z * Z * Z :=
  let '(a, b, c, d, e) := s in
  let '(f, k) :=
    if i <? 20 then ((b .& c) .| (not32 b .& d), 0x5A827999)
    else if i <? 40 then (b .^ c .^ d, 0x6ED9EBA1)
    else if i <? 60 then ((b .& c) .| (b .& d) .| (c .& d), 0x8F1BBCDC)
    else (b .^ c .^ d, 0xCA62C1D6) in
  let t := u32 ((u32 (a << 5) .| (a >> 27)) + f + e + k + nthZ w i) in
  (t, a, u32 (b << 30) .| (b >> 2), c, d).

Definition sha1_block (h blk : list Z) : list Z :=
  let w := fill sha1_w (words32 blk) 64 in
  let h0 := nthZ h 0 in let h1 := nthZ h 1 in let h2 := nthZ h 2 in
  let h3 := nthZ h 3 in let h4 := nthZ h 4 in
  let '(a, b, c, d, e) := foldl (sha1_round w) (h0, h1, h2, h3, h4) (seqZ 0 80) in
  [u32 (h0 + a); u32 (h1 + b); u32 (h2 + c); u32 (h3 + d); u32 (h4 + e)].

(** The length counter of SHA-1 and SHA-256 is one [u64]. *)
Definition bump64 (l n : Z) : Z := u64 (l + n).

(** The chaining value written out, [n] words of 4 (resp. 8) bytes. *)
Definition out32 (n : Z) (h : list Z) : list Z := flat_map (fun i => put_be32 (nthZ h i)) (seqZ 0 n).
Definition out64 (n : Z) (h : list Z) : list Z := flat_map (fun i => put_be64 (nthZ h i)) (seqZ 0 n).

Definition sha1_update (ctx : CTX Z) (data : list Z) : CTX Z := update 64 sha1_block bump64 ctx data.

Definition sha1_final (ctx : CTX Z) : list Z :=
  let bits := u64 (clen ctx * 8) in
  let ctx := finish 64 sha1_block bump64 56 (put_be64 bits) ctx in
  out32 5 (ch ctx).

Definition sha1 (data : list Z) : list Z := sha1_final (sha1_update sha1_init data).

(** ** SHA-256 *)

Definition K256 : list Z :=
  [0x428a_2f98; 0x7137_4491; 0xb5c0_fbcf; 0xe9b5_dba5;
   0x3956_c25b; 0x59f1_11f1; 0x923f_82a4; 0xab1c_5ed5;
   0xd807_aa98; 0x1283_5b01; 0x2431_85be; 0x550c_7dc3;
   0x72be_5d74; 0x80de_b1fe; 0x9bdc_06a7; 0xc19b_f174;
   0xe49b_69c1; 0xefbe_4786; 0x0fc1_9dc6; 0x240c_a1cc;
   0x2de9_2c6f; 0x4a74_84aa; 0x5cb0_a9dc; 0x76f9_88da;
   0x983e_5152; 0xa831_c66d; 0xb003_27c8; 0xbf59_7fc7;
   0xc6e0_0bf3; 0xd5a7_9147; 0x06ca_6351; 0x1429_2967;
   0x27b7_0a85; 0x2e1b_2138; 0x4d2c_6dfc; 0x5338_0d13;
   0x650a_7354; 0x766a_0abb; 0x81c2_c92e; 0x9272_2c85;
   0xa2bf_e8a1; 0xa81a_664b; 0xc24b_8b70; 0xc76c_51a3;
   0xd192_e819; 0xd699_0624; 0xf40e_3585; 0x106a_a070;
   0x19a4_c116; 0x1e37_6c08; 0x2748_774c; 0x34b0_bcb5;
   0x391c_0cb3; 0x4ed8_aa4a; 0x5b9c_ca4f; 0x682e_6ff3;
   0x748f_82ee; 0x78a5_636f; 0x84c8_7814; 0x8cc7_0208;
   0x90be_fffa; 0xa450_6ceb; 0xbef9_a3f7; 0xc671_78f2].

Definition SHA256_IV : list Z :=
  [0x6a09e667; 0xbb67ae85; 0x3c6ef372; 0xa54ff53a; 0x510e527f; 0x9b05688c; 0x1f83d9ab; 0x5be0cd19].

Definition sha256_init : CTX Z := mkCTX SHA256_IV 0 [].

Definition sha256_w (w : list Z) (i : Z) : Z :=
  let s0 := ror32 (nthZ w (i - 15)) 7 .^ ror32 (nthZ w (i - 15)) 18 .^ (nthZ w (i - 15) >> 3) in
  let s1 := ror32 (nthZ w (i - 2)) 17 .^ ror32 (nthZ w (i - 2)) 19 .^ (nthZ w (i - 2) >> 10) in
  u32 (nthZ w (i - 16) + s0 + nthZ w (i - 7) + s1).

Definition vars8 : Type := Z * Z * Z * Z * Z * Z * Z * Z.

Definition sha256_round (w : list Z) (s : vars8) (i : Z) : vars8 :=
  let '(a, b, c, d, e, f, g, h) := s in
  let s1 := ror32 e 6 .^ ror32 e 11 .^ ror32 e 25 in
  let ch := (e .& f) .^ (not32 e .& g) in
  let t1 := u32 (h + s1 + ch + nthZ K256 i + nthZ w i) in
  let s0 := ror32 a 2 .^ ror32 a 13 .^ ror32 a 22 in
  let maj := (a .& b) .^ (a .& c) .^ (b .& c) in
  let t2 := u32 (s0 + maj) in
  (u32 (t1 + t2), a, b, c, u32 (d + t1), e, f, g).

Definition load8 (h : list Z) : vars8 :=
  (nthZ h 0, nthZ h 1, nthZ h 2, nthZ h 3, nthZ h 4, nthZ h 5, nthZ h 6, nthZ h 7).

(** [ctx->h[0] += a; ...; ctx->h[7] += h], on words of width [w]. *)
Definition add8 (w : Z) (x : list Z) (s : vars8) : list Z :=
  let '(a, b, c, d, e, f, g, h) := s in
  [wrap w (nthZ x 0 + a); wrap w (nthZ x 1 + b); wrap w (nthZ x 2 + c); wrap w (nthZ x 3 + d);
   wrap w (nthZ x 4 + e); wrap w (nthZ x 5 + f); wrap w (nthZ x 6 + g); wrap w (nthZ x 7 + h)].

Definition sha256_block (h blk : list Z) : list Z :=
  let w := fill sha256_w (words32 blk) 48 in
  add8 32 h (foldl (sha256_round w) (load8 h) (seqZ 0 64)).

Definition sha256_update (ctx : CTX Z) (data : list Z) : CTX Z :=
  update 64 sha256_block bump64 ctx data.

Definition sha256_final (ctx : CTX Z) : list Z :=
  let bits := u64 (clen ctx * 8) in
  let ctx := finish 64 sha256_block bump64 56 (put_be64 bits) ctx in
  out32 8 (ch ctx).

Definition sha256 (data : list Z) : list Z := sha256_final (sha256_update sha256_init data).

(** ** SHA-512 *)

Definition K512 : list Z :=
  [0x428a2f98_d728ae22; 0x71374491_23ef65cd; 0xb5c0fbcf_ec4d3b2f; 0xe9b5dba5_8189dbbc;
   0x3956c25b_f348b538; 0x59f111f1_b605d019; 0x923f82a4_af194f9b; 0xab1c5ed5_da6d8118;
   0xd807aa98_a3030242; 0x12835b01_45706fbe; 0x243185be_4ee4b28c; 0x550c7dc3_d5ffb4e2;
   0x72be5d74_f27b896f; 0x80deb1fe_3b1696b1; 0x9bdc06a7_25c71235; 0xc19bf174_cf692694;
   0xe49b69c1_9ef14ad2; 0xefbe4786_384f25e3; 0x0fc19dc6_8b8cd5b5; 0x240ca1cc_77ac9c65;
   0x2de92c6f_592b0275; 0x4a7484aa_6ea6e483; 0x5cb0a9dc_bd41fbd4; 0x76f988da_831153b5;
   0x983e5152_ee66dfab; 0xa831c66d_2db43210; 0xb00327c8_98fb213f; 0xbf597fc7_beef0ee4;
   0xc6e00bf3_3da88fc2; 0xd5a79147_930aa725; 0x06ca6351_e003826f; 0x14292967_0a0e6e70;
   0x27b70a85_46d22ffc; 0x2e1b2138_5c26c926; 0x4d2c6dfc_5ac42aed; 0x53380d13_9d95b3df;
   0x650a7354_8baf63de; 0x766a0abb_3c77b2a8; 0x81c2c92e_47edaee6; 0x92722c85_1482353b;
   0xa2bfe8a1_4cf10364; 0xa81a664b_bc423001; 0xc24b8b70_d0f89791; 0xc76c51a3_0654be30;
   0xd192e819_d6ef5218; 0xd6990624_5565a910; 0xf40e3585_5771202a; 0x106aa070_32bbd1b8;
   0x19a4c116_b8d2d0c8; 0x1e376c08_5141ab53; 0x2748774c_df8eeb99; 0x34b0bcb5_e19b48a8;
   0x391c0cb3_c5c95a63; 0x4ed8aa4a_e3418acb; 0x5b9cca4f_7763e373; 0x682e6ff3_d6b2b8a3;
   0x748f82ee_5defb2fc; 0x78a5636f_43172f60; 0x84c87814_a1f0ab72; 0x8cc70208_1a6439ec;
   0x90befffa_23631e28; 0xa4506ceb_de82bde9; 0xbef9a3f7_b2c67915; 0xc67178f2_e372532b;
   0xca273ece_ea26619c; 0xd186b8c7_21c0c207; 0xeada7dd6_cde0eb1e; 0xf57d4f7f_ee6ed178;
   0x06f067aa_72176fba; 0x0a637dc5_a2c898a6; 0x113f9804_bef90dae; 0x1b710b35_131c471b;
   0x28db77f5_23047d84; 0x32caab7b_40c72493; 0x3c9ebe0a_15c9bebc; 0x431d67c4_9c100d4c;
   0x4cc5d4be_cb3e42b6; 0x597f299c_fc657e2a; 0x5fcb6fab_3ad6faec; 0x6c44198c_4a475817].

Definition SHA512_IV : list Z :=
  [0x6a09e667f3bcc908; 0xbb67ae8584caa73b; 0x3c6ef372fe94f82b; 0xa54ff53a5f1d36f1;
   0x510e527fade682d1; 0x9b05688c2b3e6c1f; 0x1f83d9abfb41bd6b; 0x5be0cd19137e2179].

Definition sha512_init : CTX (Z * Z) := mkCTX SHA512_IV (0, 0) [].

Definition words64 (blk : list Z) : list Z :=
  map (fun i => be64 (drop (Z.to_nat (i * 8)) blk)) (seqZ 0 16).

Definition sha512_w (w : list Z) (i : Z) : Z :=
  let s0 := ror64 (nthZ w (i - 15)) 1 .^ ror64 (nthZ w (i - 15)) 8 .^ (nthZ w (i - 15) >> 7) in
  let s1 := ror64 (nthZ w (i - 2)) 19 .^ ror64 (nthZ w (i - 2)) 61 .^ (nthZ w (i - 2) >> 6) in
  u64 (nthZ w (i - 16) + s0 + nthZ w (i - 7) + s1).

Definition sha512_round (w : list Z) (s : vars8) (i : Z) : vars8 :=
  let '(a, b, c, d, e, f, g, h) := s in
  let s1 := ror64 e 14 .^ ror64 e 18 .^ ror64 e 41 in
  let ch := (e .& f) .^ (not64 e .& g) in
  let t1 := u64 (h + s1 + ch + nthZ K512 i + nthZ w i) in
  let s0 := ror64 a 28 .^ ror64 a 34 .^ ror64 a 39 in
  let maj := (a .& b) .^ (a .& c) .^ (b .& c) in
  let t2 := u64 (s0 + maj) in
  (u64 (t1 + t2), a, b, c, u64 (d + t1), e, f, g).

Definition sha512_block (h blk : list Z) : list Z :=
  let w := fill sha512_w (words64 blk) 64 in
  add8 64 h (foldl (sha512_round w) (load8 h) (seqZ 0 80)).

(** The 128-bit length counter: [(len[0], len[1])], with the carry of the source. *)
Definition bump128 (l : Z * Z) (n : Z) : Z * Z :=
  let '(l0, l1) := l in
  let l0' := u64 (l0 + n) in
  (l0', if l0' <? l0 then u64 (l1 + 1) else l1).

Definition sha512_update (ctx : CTX (Z * Z)) (data : list Z) : CTX (Z * Z) :=
  update 128 sha512_block bump128 ctx data.

Definition sha512_final (ctx : CTX (Z * Z)) : list Z :=
  let '(l0, l1) := clen ctx in
  let bhi := u64 (l1 << 3) .| (l0 >> 61) in
  let blo := u64 (l0 << 3) in
  let ctx := finish 128 sha512_block bump128 112 (put_be64 bhi ++ put_be64 blo) ctx in
  out64 8 (ch ctx).

Definition sha512 (data : list Z) : list Z := sha512_final (sha512_update sha512_init data).

(** ** Dispatch *)

Definition HASH_SHA1 : Z := 1.
Definition HASH_SHA256 : Z := 2.
Definition HASH_SHA512 : Z := 3.

(** [streq]: the loop stops at the first difference or at either terminator and
    compares the bytes there. *)
Fixpoint streq (a b : list Z) : bool :=
  match a, b with
  | x :: a', y :: b' => if x =? y then streq a' b' else x =? y
  | _, _ => deref a =? deref b
  end.

Definition hash_id (name : list Z) : Z :=
  if streq name (cs "sha1") then HASH_SHA1
  else if streq name (cs "sha256") then HASH_SHA256
  else if streq name (cs "sha512") then HASH_SHA512
  else -1.

Definition hash_digest_size (id : Z) : Z :=
  if id =? HASH_SHA1 then 20 else if id =? HASH_SHA256 then 32
  else if id =? HASH_SHA512 then 64 else 0.

(** [hash_compute]: [out] is overwritten from its start; an unknown id leaves it as it is. *)
Definition hash_compute (id : Z) (data out : list Z) : list Z :=
  let put d := d ++ drop (length d) out in
  if id =? HASH_SHA1 then put (sha1 data)
  else if id =? HASH_SHA256 then put (sha256 data)
  else if id =? HASH_SHA512 then put (sha512 data)
  else out.

(** ** The one-shot construction, and the buffering proved equal to it *)

Section StreamFacts.
Context (B : nat) (block : list Z -> list Z -> list Z).
Context {L : Type} (bump : L -> Z -> L).
Hypothesis B_pos : (0 < B)%nat.
Hypothesis B_small : Z.of_nat B < 2 ^ 31.

(** Chaining value after the whole blocks of [m], and the bytes left over. *)
Definition md_run (iv m : list Z) : list Z * list Z :=
  let k := (length m / B)%nat in
  (foldl block iv (blocks_of B k m), drop (k * B) m).

Lemma md_run_short iv m : (length m < B)%nat -> md_run iv m = (iv, m).
Proof. intros. unfold md_run. by rewrite Nat.div_small. Qed.

Lemma md_run_left iv m : (length (snd (md_run iv m)) < B)%nat.
Proof.
  unfold md_run; simpl. rewrite length_drop.
  pose proof (Nat.div_mod_eq (length m) B). pose proof (Nat.mod_upper_bound (length m) B). lia.
Qed.

Lemma md_run_blocks iv a r k : length a = (k * B)%nat ->
  md_run iv (a ++ r) = md_run (foldl block iv (blocks_of B k a)) r.
Proof.
  intros Ha. unfold md_run. rewrite length_app, Ha.
  rewrite (Nat.add_comm (k * B)), Nat.div_add by lia. f_equal.
  - by rewrite (Nat.add_comm _ k), blocks_of_app, foldl_app.
  - rewrite Nat.mul_add_distr_r, (Nat.add_comm (_ * B)), <- Ha, <- drop_drop, drop_app_length. done.
Qed.

Lemma md_run_app iv m d :
  md_run iv (m ++ d) = md_run (fst (md_run iv m)) (snd (md_run iv m) ++ d).
Proof.
  set (k := (length m / B)%nat).
  assert (k * B <= length m)%nat by (unfold k; rewrite Nat.mul_comm; apply Nat.Div0.mul_div_le).
  rewrite <- (take_drop (k * B) m) at 1. rewrite <- app_assoc.
  rewrite (md_run_blocks iv _ _ k) by (rewrite length_take; lia).
  rewrite blocks_of_take. done.
Qed.

Lemma absorb_blocks_run fuel h data i :
  zlen data + Z.of_nat B < 2 ^ 32 -> 0 <= i <= zlen data -> zlen data - i < Z.of_nat fuel ->
  let '(h', i') := absorb_blocks B block fuel h data i in
  (h', drop (Z.to_nat i') data) = md_run h (drop (Z.to_nat i) data).
Proof.
  revert h i. induction fuel as [|f IH]; intros h i Hlen Hi Hf; [lia|].
  cbn [absorb_blocks]. rewrite wrap_small by lia.
  destruct (Z.leb_spec (i + Z.of_nat B) (zlen data)).
  - specialize (IH (block h (take B (drop (Z.to_nat i) data))) (i + Z.of_nat B)).
    destruct (absorb_blocks _ _ _ _ _ _) as [h' i']. rewrite IH by lia.
    replace (Z.to_nat (i + Z.of_nat B)) with (Z.to_nat i + B)%nat by lia. rewrite <- drop_drop.
    rewrite <- (take_drop B (drop (Z.to_nat i) data)) at 3.
    rewrite (md_run_blocks h _ _ 1) by (rewrite length_take, length_drop; lia).
    simpl. by rewrite take_take, Nat.min_id.
  - rewrite md_run_short; [done|]. rewrite length_drop. lia.
Qed.

Lemma absorb_run h buf data :
  zlen data + Z.of_nat B < 2 ^ 32 -> (length buf < B)%nat ->
  absorb B block h buf data = md_run h (buf ++ data).
Proof.
  intros Hlen Hbuf. unfold absorb.
  set (n := if zlen data <? Z.of_nat B - zlen buf then zlen data else Z.of_nat B - zlen buf).
  assert ((n = zlen data /\ zlen data < Z.of_nat B - zlen buf) \/
          (n = Z.of_nat B - zlen buf /\ n <= zlen data)) as Hn
    by (unfold n; destruct (Z.ltb_spec (zlen data) (Z.of_nat B - zlen buf)); lia).
  clearbody n.
  assert (length (buf ++ take (Z.to_nat n) data) = (length buf + Z.to_nat n)%nat) as Hl
    by (rewrite length_app, length_take; lia).
  destruct (Z.eqb_spec (zlen buf) 0) as [Hz|Hz]; [|destruct (Z.eqb_spec (zlen (buf ++ take (Z.to_nat n) data)) (Z.of_nat B)) as [He|He]].
  - destruct buf; [|simpl in Hz; lia].
    pose proof (absorb_blocks_run (S (length data)) h data 0) as H.
    destruct (absorb_blocks _ _ _ _ _ _) as [h' i']. by rewrite app_nil_l, H by lia.
  - pose proof (absorb_blocks_run (S (length data)) (block h (buf ++ take (Z.to_nat n) data)) data n) as H.
    destruct (absorb_blocks _ _ _ _ _ _) as [h' i']. rewrite app_nil_l, H by lia.
    rewrite <- (take_drop (Z.to_nat n) data) at 3. rewrite app_assoc.
    rewrite (md_run_blocks h _ _ 1) by lia. cbn [blocks_of foldl]. by rewrite (take_ge (buf ++ _)) by lia.
  - assert (n = zlen data) as Hnd.
    { rewrite Hl in He. lia. }
    pose proof (absorb_blocks_run (S (length data)) h data n) as H.
    destruct (absorb_blocks _ _ _ _ _ _) as [h' i'].
    specialize (H ltac:(lia) ltac:(lia) ltac:(lia)).
    rewrite (drop_ge data (Z.to_nat n)) in H by lia.
    rewrite (md_run_short h []) in H by (simpl; lia). injection H as -> ->.
    rewrite (take_ge data) in * by lia. rewrite app_nil_r, md_run_short; [done|].
    rewrite length_app in *. lia.
Qed.

(** Update and finish *)

(** [ctx] has absorbed the message [m] (its length counter apart). *)
Definition absorbed (iv m : list Z) (ctx : CTX L) : Prop := (ch ctx, cbuf ctx) = md_run iv m.

Lemma update_absorbed iv m ctx d :
  zlen d + Z.of_nat B < 2 ^ 32 -> absorbed iv m ctx ->
  absorbed iv (m ++ d) (update B block bump ctx d) /\
  clen (update B block bump ctx d) = bump (clen ctx) (zlen d).
Proof.
  unfold absorbed, update. intros Hd Hm. destruct ctx as [h l buf]. simpl in *.
  pose proof (md_run_left iv m) as Hl. rewrite <- Hm in Hl.
  rewrite absorb_run by done.
  destruct (md_run h (buf ++ d)) as [h' buf'] eqn:E. simpl. split; [|done].
  rewrite md_run_app, <- Hm. by rewrite <- E.
Qed.

Lemma updates_absorbed iv m ctx ds :
  Forall (fun d => zlen d + Z.of_nat B < 2 ^ 32) ds -> absorbed iv m ctx ->
  absorbed iv (m ++ concat ds) (foldl (update B block bump) ctx ds) /\
  clen (foldl (update B block bump) ctx ds) = foldl (fun l d => bump l (zlen d)) (clen ctx) ds.
Proof.
  intros Hds. revert m ctx. induction Hds as [|d ds Hd Hds IH]; intros m ctx Hm; simpl.
  - by rewrite app_nil_r.
  - destruct (update_absorbed iv m ctx d Hd Hm) as [Hm' Hl].
    rewrite app_assoc, <- Hl. by apply IH.
Qed.

(** Zeros the padding appends after [n] bytes, to reach [P] modulo the block size. *)
Definition zeros (P n : Z) : nat := Z.to_nat ((P - n) mod Z.of_nat B).

Lemma md_run_rest_length iv m : zlen (snd (md_run iv m)) = zlen m mod Z.of_nat B.
Proof.
  unfold md_run; cbn [snd]. rewrite length_drop.
  pose proof (Nat.div_mod_eq (length m) B). rewrite <- Nat2Z.inj_mod. lia.
Qed.

Lemma zeros_eq P n : 0 <= P < Z.of_nat B ->
  zeros P n = Z.to_nat (if n mod Z.of_nat B <=? P then P - n mod Z.of_nat B
                        else P + Z.of_nat B - n mod Z.of_nat B).
Proof.
  intros HP. unfold zeros. f_equal. symmetry.
  pose proof (Z.div_mod n (Z.of_nat B) ltac:(lia)).
  pose proof (Z.mod_pos_bound n (Z.of_nat B) ltac:(lia)).
  destruct (Z.leb_spec (n mod Z.of_nat B) P);
    [apply Z.mod_unique with (- (n / Z.of_nat B)) | apply Z.mod_unique with (- (n / Z.of_nat B) - 1)];
    nia.
Qed.

Lemma succ_mod n :
  (n + 1) mod Z.of_nat B =
  if n mod Z.of_nat B + 1 =? Z.of_nat B then 0 else n mod Z.of_nat B + 1.
Proof.
  pose proof (Z.div_mod n (Z.of_nat B) ltac:(lia)).
  pose proof (Z.mod_pos_bound n (Z.of_nat B) ltac:(lia)). symmetry. destruct (Z.eqb_spec (n mod Z.of_nat B + 1) (Z.of_nat B));
    [apply Z.mod_unique with (n / Z.of_nat B + 1) | apply Z.mod_unique with (n / Z.of_nat B)]; nia.
Qed.

Lemma pad_zeros_absorbed P iv m ctx fuel :
  0 <= P < Z.of_nat B -> absorbed iv m ctx -> (zeros P (zlen m) <= fuel)%nat ->
  absorbed iv (m ++ replicate (zeros P (zlen m)) 0) (pad_zeros B block bump fuel P ctx).
Proof.
  intros HP. revert m ctx. induction fuel as [|f IH]; intros m ctx Hm Hf.
  { assert (zeros P (zlen m) = 0%nat) as -> by lia. simpl. rewrite app_nil_r. by destruct (_ =? P). }
  cbn [pad_zeros]. pose proof (md_run_rest_length iv m) as Hr. rewrite <- Hm in Hr.
  cbn [snd] in Hr. rewrite Hr. pose proof (Z.mod_pos_bound (zlen m) (Z.of_nat B) ltac:(lia)).
  destruct (Z.eqb_spec (zlen m mod Z.of_nat B) P) as [He|He].
  - assert (zeros P (zlen m) = 0%nat) as ->; [|by rewrite app_nil_r].
    rewrite zeros_eq, He by done. destruct (Z.leb_spec P P); lia.
  - assert (zeros P (zlen m) = S (zeros P (zlen (m ++ [0])))) as Hz.
    { rewrite length_app, !zeros_eq by done. simpl length. rewrite Nat2Z.inj_add, succ_mod.
      destruct (Z.eqb_spec (zlen m mod Z.of_nat B + 1) (Z.of_nat B)) as [E|E];
        repeat case_match; lia. }
    rewrite Hz in *. cbn [replicate].
    replace (m ++ 0 :: replicate _ 0) with ((m ++ [0]) ++ replicate (zeros P (zlen (m ++ [0]))) 0)
      by by rewrite <- app_assoc.
    apply IH; [|lia]. apply update_absorbed; [simpl; lia|done].
Qed.

(** The padded message: a one bit, zeros up to [P] modulo the block size, the length. *)
Definition padded (P : Z) (len_be m : list Z) : list Z :=
  let m1 := m ++ [0x80] in
  m1 ++ replicate (zeros P (zlen m1)) 0 ++ len_be.

Lemma finish_absorbed P len_be iv m ctx :
  0 <= P < Z.of_nat B -> zlen len_be = Z.of_nat B - P -> absorbed iv m ctx ->
  ch (finish B block bump P len_be ctx) =
  foldl block iv (blocks_of B (length (padded P len_be m) / B) (padded P len_be m)).
Proof.
  intros HP Hlen Hm. unfold finish.
  apply (update_absorbed _ _ _ [0x80]) in Hm as [Hm _]; [|simpl; lia].
  apply (pad_zeros_absorbed P _ _ _ B) in Hm; [|done|].
  - apply (update_absorbed _ _ _ len_be) in Hm as [Hm _]; [|lia].
    unfold absorbed in Hm. rewrite <- !app_assoc in Hm. unfold padded. rewrite <- app_assoc.
    unfold md_run in Hm. by injection Hm as -> _.
  - rewrite zeros_eq by done. pose proof (Z.mod_pos_bound (zlen (m ++ [0x80])) (Z.of_nat B) ltac:(lia)).
    repeat case_match; lia.
Qed.

Lemma padded_length P len_be m : 0 <= P < Z.of_nat B -> zlen len_be = Z.of_nat B - P ->
  zlen (padded P len_be m) mod Z.of_nat B = 0.
Proof.
  intros HP Hl. unfold padded. rewrite !length_app, length_replicate. cbn [length].
  rewrite !Nat2Z.inj_add, Hl. unfold zeros. rewrite Z2Nat.id by (apply Z.mod_pos_bound; lia).
  set (n := zlen m + Z.of_nat 1).
  replace (n + ((P - n) mod Z.of_nat B + (Z.of_nat B - P)))
    with (n - P + (P - n) mod Z.of_nat B + 1 * Z.of_nat B) by lia.
  rewrite Z_mod_plus_full, Zplus_mod_idemp_r. by replace (n - P + (P - n)) with 0 by lia.
Qed.
End StreamFacts.

#[global] Arguments absorb : simpl never.
#[global] Arguments padded : simpl never.

(** ** The specifications *)

Lemma put_be32_be v : put_be32 v = be_bytes 4 v.
Proof.
  unfold put_be32, be_bytes. cbn [le_bytes rev app].
  by rewrite !Z.shiftr_shiftr by lia.
Qed.

Lemma be_bytes_wrap n v w : 8 * Z.of_nat n <= w -> be_bytes n (wrap w v) = be_bytes n v.
Proof.
  intros Hw. unfold be_bytes. f_equal. revert v w Hw. induction n as [|n IH]; intros v w Hw; [done|].
  cbn [le_bytes]. f_equal; [by apply wrap_le_trans; lia|].
  rewrite <- (IH (v >> 8) (w - 8)) by lia. f_equal.
  apply Z.bits_inj'; intros i Hi.
  rewrite Z.shiftr_spec, !wrap_testbit, Z.shiftr_spec by lia. f_equal. lia.
Qed.

Lemma be_bytes_app n k v : be_bytes (n + k) v = be_bytes k (v >> (8 * Z.of_nat n)) ++ be_bytes n v.
Proof.
  unfold be_bytes. rewrite <- rev_app_distr. f_equal.
  revert v. induction n as [|n IH]; intros v; [done|].
  cbn [Nat.add le_bytes app]. rewrite IH, Z.shiftr_shiftr by lia. repeat f_equal; lia.
Qed.

Lemma put_be64_be v : put_be64 v = be_bytes 8 v.
Proof.
  unfold put_be64. rewrite !put_be32_be, !(be_bytes_wrap 4) by lia. symmetry.
  apply (be_bytes_app 4 4).
Qed.

(** FIPS 180-4 with the 64-bit length field of SHA-1 and SHA-256. *)
Definition fips64 (block : list Z -> list Z -> list Z) (iv m : list Z) : list Z :=
  let p := padded 64 56 (be_bytes 8 (8 * zlen m)) m in
  foldl block iv (blocks_of 64 (length p / 64) p).

(** FIPS 180-4 with the 128-bit length field of SHA-512. *)
Definition fips128 (block : list Z -> list Z -> list Z) (iv m : list Z) : list Z :=
  let p := padded 128 112 (be_bytes 16 (8 * zlen m)) m in
  foldl block iv (blocks_of 128 (length p / 128) p).

Definition sha1_spec (m : list Z) : list Z := out32 5 (fips64 sha1_block SHA1_IV m).
Definition sha256_spec (m : list Z) : list Z := out32 8 (fips64 sha256_block SHA256_IV m).
Definition sha512_spec (m : list Z) : list Z := out64 8 (fips128 sha512_block SHA512_IV m).

Lemma bump64_total n (ds : list (list Z)) :
  foldl (fun l d => bump64 l (zlen d)) (u64 n) ds = u64 (n + zlen (concat ds)).
Proof.
  revert n. induction ds as [|d ds IH]; intros n; simpl; [by rewrite Z.add_0_r|].
  assert (bump64 (u64 n) (zlen d) = u64 (n + zlen d)) as -> by apply Zplus_mod_idemp_l.
  rewrite IH, length_app. f_equal. lia.
Qed.

Definition split128 (n : Z) : Z * Z := (u64 n, u64 (n >> 64)).

Lemma bump128_split n d : 0 <= n -> 0 <= d < 2 ^ 32 -> bump128 (split128 n) d = split128 (n + d).
Proof.
  intros Hn Hd. unfold bump128, split128, wrap. rewrite !shiftr_div by lia.
  rewrite Zplus_mod_idemp_l.
  pose proof (Z.div_mod n (2 ^ 64) ltac:(lia)). pose proof (Z.mod_pos_bound n (2 ^ 64) ltac:(lia)).
  destruct (Z.lt_ge_cases (n mod 2 ^ 64 + d) (2 ^ 64)) as [Hc|Hc].
  - assert ((n + d) / 2 ^ 64 = n / 2 ^ 64 /\ (n + d) mod 2 ^ 64 = n mod 2 ^ 64 + d) as [-> ->].
    { split; symmetry; [apply Z.div_unique with (n mod 2 ^ 64 + d)|apply Z.mod_unique with (n / 2 ^ 64)]; lia. }
    by destruct (Z.ltb_spec (n mod 2 ^ 64 + d) (n mod 2 ^ 64)); [lia|].
  - assert ((n + d) / 2 ^ 64 = n / 2 ^ 64 + 1 /\ (n + d) mod 2 ^ 64 = n mod 2 ^ 64 + d - 2 ^ 64) as [-> ->].
    { split; symmetry; [apply Z.div_unique with (n mod 2 ^ 64 + d - 2 ^ 64)
                       |apply Z.mod_unique with (n / 2 ^ 64 + 1)]; lia. }
    destruct (Z.ltb_spec (n mod 2 ^ 64 + d - 2 ^ 64) (n mod 2 ^ 64)); [|lia].
    by rewrite Zplus_mod_idemp_l.
Qed.

Lemma bump128_total n (ds : list (list Z)) : 0 <= n -> Forall (fun d => zlen d + 128 < 2 ^ 32) ds ->
  foldl (fun l d => bump128 l (zlen d)) (split128 n) ds = split128 (n + zlen (concat ds)).
Proof.
  intros Hn Hds. revert n Hn. induction Hds as [|d ds Hd Hds IH]; intros n Hn; cbn [foldl concat].
  { by rewrite Z.add_0_r. }
  rewrite bump128_split, IH, length_app by lia. f_equal. lia.
Qed.

Lemma length_field64 n : put_be64 (u64 (u64 n * 8)) = be_bytes 8 (8 * n).
Proof.
  rewrite put_be64_be, <- (be_bytes_wrap 8 (8 * n) 64) by lia. f_equal. unfold wrap.
  rewrite Zmult_mod_idemp_l. f_equal. lia.
Qed.

(** The two 64-bit halves [sha512_final] encodes are the message length in bits. *)
Lemma length_field128 n :
  let '(l0, l1) := split128 n in
  put_be64 (u64 (l1 << 3) .| (l0 >> 61)) ++ put_be64 (u64 (l0 << 3)) = be_bytes 16 (8 * n).
Proof.
  unfold split128. rewrite !put_be64_be, (be_bytes_app 8 8). f_equal.
  - transitivity (be_bytes 8 (u64 ((8 * n) >> 64))); [|by apply be_bytes_wrap]. f_equal.
    change 8 with (2 ^ 3) at 1. rewrite (Z.mul_comm (2 ^ 3)), <- (Z.shiftl_mul_pow2 n 3) by lia.
    apply Z.bits_inj'; intros i Hi.
    rewrite Z.lor_spec, !wrap_testbit, !Z.shiftr_spec by lia.
    destruct (Z.ltb_spec i 3).
    + rewrite (Z.shiftl_spec_low (u64 _)), andb_false_r, orb_false_l, wrap_testbit by lia.
      rewrite Z.shiftl_spec by lia. replace (i <? 64) with true by lia.
      replace (i + 61 <? 64) with true by lia. simpl. f_equal. lia.
    + rewrite !Z.shiftl_spec, wrap_testbit, Z.shiftr_spec, wrap_testbit by lia.
      replace (i + 61 <? 64) with false by lia. rewrite andb_false_l, orb_false_r.
      destruct (Z.ltb_spec i 64); [|done]. replace (i - 3 <? 64) with true by lia.
      simpl. f_equal. lia.
  - rewrite <- (be_bytes_wrap 8 (8 * n) 64) by lia. f_equal. unfold wrap.
    rewrite Z.shiftl_mul_pow2, Zmult_mod_idemp_l by lia. f_equal. lia.
Qed.

(** ** The three hashes implement the interface *)

Lemma out32_length n h : length (out32 n h) = (4 * Z.to_nat n)%nat.
Proof. unfold out32. by rewrite (flat_map_const_length _ 4), length_seqZ. Qed.

Lemma out64_length n h : length (out64 n h) = (8 * Z.to_nat n)%nat.
Proof. unfold out64. by rewrite (flat_map_const_length _ 8), length_seqZ. Qed.

Lemma out32_bytes n h : bytes (out32 n h).
Proof. apply flat_map_bytes. intros. rewrite put_be32_be. word. Qed.

Lemma out64_bytes n h : bytes (out64 n h).
Proof. apply flat_map_bytes. intros. rewrite put_be64_be. word. Qed.

(** SHA-1 and SHA-256 differ in the block function, the start value and the output. *)
Lemma stream64 block iv ds :
  Forall (fun d => zlen d + 64 < 2 ^ 32) ds ->
  let ctx := foldl (update 64 block bump64) (mkCTX iv 0 []) ds in
  ch (finish 64 block bump64 56 (put_be64 (u64 (clen ctx * 8))) ctx) = fips64 block iv (concat ds).
Proof.
  intros Hds ctx.
  destruct (updates_absorbed 64 block bump64 ltac:(lia) iv [] (mkCTX iv 0 []) ds Hds) as [Ha Hl].
  { reflexivity. }
  fold ctx in Ha, Hl. cbn [clen app] in *. rewrite (bump64_total 0) in Hl. cbn [app Z.add] in *.
  unfold fips64. rewrite Hl, length_field64.
  by apply (finish_absorbed 64 block bump64 ltac:(lia) ltac:(lia)).
Qed.

Lemma stream128 ds :
  Forall (fun d => zlen d + 128 < 2 ^ 32) ds ->
  sha512_final (foldl sha512_update sha512_init ds) = sha512_spec (concat ds).
Proof.
  intros Hds. unfold sha512_final, sha512_init. set (ctx := foldl sha512_update _ ds).
  destruct (updates_absorbed 128 sha512_block bump128 ltac:(lia) SHA512_IV []
              (mkCTX SHA512_IV (0, 0) []) ds Hds) as [Ha Hl].
  { reflexivity. }
  change (foldl (update 128 sha512_block bump128) (mkCTX SHA512_IV (0, 0) []) ds) with ctx in Ha, Hl. cbn [clen app] in *.
  change (0, 0) with (split128 0) in Hl. rewrite bump128_total in Hl by done.
  rewrite Hl, Z.add_0_l. pose proof (length_field128 (zlen (concat ds))) as Hf.
  destruct (split128 (zlen (concat ds))) as [l0 l1]. rewrite Hf. unfold sha512_spec, fips128. f_equal.
  by apply (finish_absorbed 128 sha512_block bump128 ltac:(lia) ltac:(lia)).
Qed.

#[export] Instance sha1_stream : StreamHash HASH_SHA1 :=
  {| sh_init := sha1_init; sh_update := sha1_update; sh_final := sha1_final;
     sh_block := 64; sh_size := 20; sh_hash := sha1_spec |}.
#[export] Instance sha256_stream : StreamHash HASH_SHA256 :=
  {| sh_init := sha256_init; sh_update := sha256_update; sh_final := sha256_final;
     sh_block := 64; sh_size := 32; sh_hash := sha256_spec |}.
#[export] Instance sha512_stream : StreamHash HASH_SHA512 :=
  {| sh_init := sha512_init; sh_update := sha512_update; sh_final := sha512_final;
     sh_block := 128; sh_size := 64; sh_hash := sha512_spec |}.

#[export] Instance sha1_laws : StreamHashLaws HASH_SHA1.
Proof.
  split; cbn [sh_block sh_size sh_hash sha1_stream]; [|intros; apply out32_length|intros; apply out32_bytes|lia..].
  intros ds Hds. cbn. unfold sha1_final, sha1_spec. f_equal. by apply stream64.
Qed.
#[export] Instance sha256_laws : StreamHashLaws HASH_SHA256.
Proof.
  split; cbn [sh_block sh_size sh_hash sha256_stream]; [|intros; apply out32_length|intros; apply out32_bytes|lia..].
  intros ds Hds. cbn. unfold sha256_final, sha256_spec. f_equal. by apply stream64.
Qed.
#[export] Instance sha512_laws : StreamHashLaws HASH_SHA512.
Proof.
  split; cbn [sh_block sh_size sh_hash sha512_stream]; [|intros; apply out64_length|intros; apply out64_bytes|lia..].
  intros ds Hds. by apply stream128.
Qed.

(** ** Theorems *)



(** [streq] is string equality on NUL-free strings. *)
Lemma streq_eq a b : nonzero a -> nonzero b -> streq a b = true <-> a = b.
Proof.
  intros Ha. revert b. induction Ha as [|x a Hx Ha IH]; intros b Hb.
  - destruct Hb as [|y b Hy Hb]; [done|]. cbn [streq deref hd]. rewrite Z.eqb_eq. split; [intros; lia|done].
  - destruct Hb as [|y b Hy Hb]; cbn [streq deref hd]; [rewrite Z.eqb_eq; split; [intros; lia|done]|].
    destruct (Z.eqb_spec x y) as [->|Hne].
    + rewrite IH by done. naive_solver.
    + split; [lia|naive_solver].
Qed.

(** ** The constants of SHA-2 *)

Definition is_prime (n : Z) : bool := forallb (fun d => negb (n mod d =? 0)) (seqZ 2 (n - 2)).

(** The first eighty primes. *)
Definition primes80 : list Z := filter (fun n => is_prime n = true) (seqZ 2 408).

(** [k] is the first [w] bits of the fractional part of the [e]-th root of [p]:
    with [c] the integer part, [c * 2^w + k] is the integer root of [p * 2^(e*w)]. *)
Definition frac_root (e w p k : Z) : bool :=
  (0 <=? k) && (k <? 2 ^ w) &&
  existsb (fun c => let t := c * 2 ^ w + k in
    (t ^ e <=? p * 2 ^ (e * w)) && (p * 2 ^ (e * w) <? (t + 1) ^ e)) (seqZ 0 24).

(** The SHA-2 tables are the ones FIPS 180-4 defines: [K256] and [K512] are the
    leading fractional bits of the cube roots of the first 64 and 80 primes, the
    initial values those of the square roots of the first eight primes. *)
Theorem sha2_constants :
  length primes80 = 80%nat /\
  Forall2 (fun p k => frac_root 3 64 p k = true) primes80 K512 /\
  Forall2 (fun p k => frac_root 3 32 p k = true) (take 64 primes80) K256 /\
  Forall2 (fun p k => frac_root 2 64 p k = true) (take 8 primes80) SHA512_IV /\
  Forall2 (fun p k => frac_root 2 32 p k = true) (take 8 primes80) SHA256_IV.
Proof.
  split; [by vm_compute|].
  split_and!; apply (bool_decide_unpack _); by vm_compute.
Qed.

(** FIPS 180-4 example digests. *)
Example sha1_abc :
  be_val (sha1 (cs "abc")) = 0xa9993e364706816aba3e25717850c26c9cd0d89d.
Proof. by vm_compute. Qed.

Example sha256_abc :
  be_val (sha256 (cs "abc")) = 0xba7816bf8f01cfea414140de5dae2223b00361a396177a9cb410ff61f20015ad.
Proof. by vm_compute. Qed.

Example sha512_abc :
  be_val (sha512 (cs "abc")) =
  0xddaf35a193617abacc417349ae20413112e6fa4e89a97ea20a9eeee64b55d39a2192992a274fc1a836ba3c23a3feebbd454d4423643ce80e2a9ac94fa54ca49f.
Proof. by vm_compute. Qed.
