(* ===== verification/Hmac.v ===== *)
(** * Hmac: HMAC and PBKDF2 of [crypto/hmac.c] and [crypto/pbkdf2.c]

    The three HMAC functions of the source have one text with three hashes; here
    it is one definition over the interface [StreamHash], and the theorems are
    proved against the interface's laws.  [hmac] is RFC 2104, [pbkdf2] is
    RFC 2898. *)

From S2P Require Import Prelude Iface Sha.

(** ** HMAC *)

(** The key buffer [k], zero padded to the block size. *)
Definition hmac_key (id : Z) `{StreamHash id} (key : list Z) : list Z :=
  let k := if zlen key >? Z.of_nat (sh_block id)
           then sh_final id (sh_update id (sh_init id) key) else key in
  k ++ repeat 0 (sh_block id - length k).

Definition hmac_with (id : Z) `{StreamHash id} (key msg : list Z) : list Z :=
  let k := hmac_key id key in
  let ipad := map (fun b => b .^ 0x36) k in
  let opad := map (fun b => b .^ 0x5c) k in
  let inner := sh_final id (sh_update id (sh_update id (sh_init id) ipad) msg) in
  sh_final id (sh_update id (sh_update id (sh_init id) opad) inner).

Definition hmac_sha1 (key msg : list Z) : list Z := hmac_with HASH_SHA1 key msg.
Definition hmac_sha256 (key msg : list Z) : list Z := hmac_with HASH_SHA256 key msg.
Definition hmac_sha512 (key msg : list Z) : list Z := hmac_with HASH_SHA512 key msg.

(** [out] is overwritten from its start after [msg] has been read, so the two may
    be the same array; an unknown id leaves [out] as it is. *)
Definition hmac (id : Z) (key msg out : list Z) : list Z :=
  let put d := d ++ drop (length d) out in
  if id =? HASH_SHA1 then put (hmac_sha1 key msg)
  else if id =? HASH_SHA256 then put (hmac_sha256 key msg)
  else if id =? HASH_SHA512 then put (hmac_sha512 key msg)
  else out.

(** ** PBKDF2 *)

(** [for (i = 0; i < len; i++) dst[i] ^= src[i]]. *)
Definition xor_buf (dst src : list Z) (len : Z) : list Z :=
  let n := Z.to_nat len in xor_bytes (take n dst) (take n src) ++ drop n dst.

(** One turn of the inner loop, on the arrays [u] and [t]. *)
Definition pbkdf2_iter (hid : Z) (password : list Z) (hlen : Z) (s : list Z * list Z) : list Z * list Z :=
  let '(u, t) := s in
  let u := hmac hid password (take (Z.to_nat hlen) u) u in
  (u, xor_buf t u hlen).

(** The loop over the output blocks; [u] and [t] keep what earlier turns left in
    them, [dk] is what has been written so far.  [None]: out of fuel. *)
Fixpoint pbkdf2_loop (fuel : nat) (hid : Z) (password salt : list Z) (iters : Z)
    (u t : list Z) (blk : Z) (dk : list Z) (dklen : Z) : option (list Z) :=
  if dklen =? 0 then Some dk else
  match fuel with
  | O => None
  | S f =>
    let hlen := hash_digest_size hid in
    let salt_blk := salt ++ put_be32 blk in
    let u := hmac hid password salt_blk u in
    let t := take (Z.to_nat hlen) u ++ drop (Z.to_nat hlen) t in
    let '(u, t) := Nat.iter (Z.to_nat (iters - 1)) (pbkdf2_iter hid password hlen) (u, t) in
    let n := if dklen <? hlen then dklen else hlen in
    pbkdf2_loop f hid password salt iters u t (u32 (blk + 1)) (dk ++ take (Z.to_nat n) t) (dklen - n)
  end.

(** [u0] and [t0] are the 64 uninitialised bytes of the arrays [u] and [t].  [None]
    also when the salt and the counter do not fit in [salt_blk[512]]. *)
Definition pbkdf2 (u0 t0 : list Z) (hid : Z) (password salt : list Z) (iters dklen : Z) : option (list Z) :=
  if zlen salt + 4 >? 512 then None
  else pbkdf2_loop (Z.to_nat dklen) hid password salt iters u0 t0 1 [] dklen.

(** ** The specifications *)

Definition known_hash (id : Z) : Prop := id = HASH_SHA1 \/ id = HASH_SHA256 \/ id = HASH_SHA512.

Definition hash_spec (id : Z) (m : list Z) : list Z :=
  if id =? HASH_SHA1 then sha1_spec m
  else if id =? HASH_SHA256 then sha256_spec m else sha512_spec m.

Definition hash_block (id : Z) : Z := if id =? HASH_SHA512 then 128 else 64.

(** RFC 2104. *)
Definition hmac_rfc2104 (H : list Z -> list Z) (B : nat) (key msg : list Z) : list Z :=
  let k0 := if bool_decide (B < length key)%nat then H key else key in
  let k := k0 ++ repeat 0 (B - length k0) in
  H (map (Z.lxor 0x5c) k ++ H (map (Z.lxor 0x36) k ++ msg)).

Definition hmac_spec (id : Z) : list Z -> list Z -> list Z :=
  hmac_rfc2104 (hash_spec id) (Z.to_nat (hash_block id)).

(** RFC 2898, section 5.2: [U_1 = PRF (P, S || INT (i))], [U_j = PRF (P, U_(j-1))],
    [F = U_1 ^ ... ^ U_c]; for [c = 0] the function below is [U_1]. *)
Fixpoint rfc2898_xor (prf : list Z -> list Z) (c : nat) (u : list Z) : list Z :=
  match c with
  | O => u
  | S c' => xor_bytes u (rfc2898_xor prf c' (prf u))
  end.

Definition rfc2898_F (prf : list Z -> list Z) (salt : list Z) (c i : Z) : list Z :=
  rfc2898_xor prf (Z.to_nat (c - 1)) (prf (salt ++ be_bytes 4 i)).

(** ** HMAC against the interface *)

Section Hmac.
Context (id : Z) `{StreamHashLaws id}.

Lemma sh_stream1 m : zlen m + 128 < 2 ^ 32 ->
  sh_final id (sh_update id (sh_init id) m) = sh_hash id m.
Proof.
  intros. pose proof sh_block_small. rewrite <- (app_nil_r m) at 2.
  apply (sh_stream [m]). repeat constructor. lia.
Qed.

Lemma sh_stream2 a b : zlen a + 128 < 2 ^ 32 -> zlen b + 128 < 2 ^ 32 ->
  sh_final id (sh_update id (sh_update id (sh_init id) a) b) = sh_hash id (a ++ b).
Proof.
  intros. pose proof sh_block_small. rewrite <- (app_nil_r b) at 2.
  apply (sh_stream [a; b]). repeat constructor; lia.
Qed.

Lemma hmac_key_length key : zlen key + 128 < 2 ^ 32 -> length (hmac_key id key) = sh_block id.
Proof.
  intros. pose proof sh_fits. unfold hmac_key. rewrite length_app, repeat_length.
  destruct (Z.gtb_spec (zlen key) (Z.of_nat (sh_block id))); [|lia].
  rewrite sh_stream1, sh_length by done. lia.
Qed.

Lemma hmac_with_rfc key msg : zlen key + 128 < 2 ^ 32 -> zlen msg + 128 < 2 ^ 32 ->
  hmac_with id key msg = hmac_rfc2104 (sh_hash id) (sh_block id) key msg.
Proof.
  intros Hk Hm. pose proof sh_block_small. pose proof sh_fits.
  pose proof (hmac_key_length key Hk). unfold hmac_with, hmac_rfc2104.
  assert (forall x, zlen (map (fun b => b .^ x) (hmac_key id key)) + 128 < 2 ^ 32) as Hp
    by (intros; rewrite length_map; lia).
  rewrite (sh_stream2 _ msg), (sh_stream2 _ (sh_hash id _)) by (try rewrite sh_length; auto; lia).
  assert (hmac_key id key = (if bool_decide (sh_block id < length key)%nat then sh_hash id key else key) ++
    repeat 0 (sh_block id - length (if bool_decide (sh_block id < length key)%nat then sh_hash id key else key)))
    as <-.
  { unfold hmac_key. rewrite sh_stream1 by done. case_bool_decide;
    destruct (Z.gtb_spec (zlen key) (Z.of_nat (sh_block id))); (lia || done). }
  do 2 f_equal; [|do 2 f_equal]; apply map_ext; intros; apply Z.lxor_comm.
Qed.

Lemma hmac_with_length key msg : zlen key + 128 < 2 ^ 32 -> zlen msg + 128 < 2 ^ 32 ->
  length (hmac_with id key msg) = sh_size id.
Proof. intros. rewrite hmac_with_rfc by done. apply sh_length. Qed.
End Hmac.

(** ** Dispatch *)

Lemma hash_spec_length id m : known_hash id -> zlen (hash_spec id m) = hash_digest_size id.
Proof.
  intros [->|[->| ->]]; cbn [hash_spec hash_digest_size Z.eqb Pos.eqb HASH_SHA1 HASH_SHA256 HASH_SHA512].
  - unfold sha1_spec. by rewrite out32_length.
  - unfold sha256_spec. by rewrite out32_length.
  - unfold sha512_spec. by rewrite out64_length.
Qed.

Lemma hmac_spec_length id key msg : known_hash id -> zlen (hmac_spec id key msg) = hash_digest_size id.
Proof. apply hash_spec_length. Qed.

Lemma digest_size_range id : known_hash id -> 20 <= hash_digest_size id <= 64.
Proof. by intros [->|[->| ->]]. Qed.

Lemma hmac_rfc id key msg out : known_hash id -> zlen key + 128 < 2 ^ 32 -> zlen msg + 128 < 2 ^ 32 ->
  hmac id key msg out = hmac_spec id key msg ++ drop (Z.to_nat (hash_digest_size id)) out.
Proof.
  intros Hid Hk Hm. pose proof (hmac_spec_length id key msg Hid) as Hl.
  replace (Z.to_nat (hash_digest_size id)) with (length (hmac_spec id key msg)) by lia.
  destruct Hid as [->|[->| ->]]; unfold hmac;
    [change (HASH_SHA1 =? HASH_SHA1) with true
    |change (HASH_SHA256 =? HASH_SHA1) with false; change (HASH_SHA256 =? HASH_SHA256) with true
    |change (HASH_SHA512 =? HASH_SHA1) with false; change (HASH_SHA512 =? HASH_SHA256) with false;
     change (HASH_SHA512 =? HASH_SHA512) with true]; cbv beta iota zeta.
  - unfold hmac_sha1. by rewrite (hmac_with_rfc HASH_SHA1 key msg Hk Hm).
  - unfold hmac_sha256. by rewrite (hmac_with_rfc HASH_SHA256 key msg Hk Hm).
  - unfold hmac_sha512. by rewrite (hmac_with_rfc HASH_SHA512 key msg Hk Hm).
Qed.

(** ** PBKDF2 *)

Section Pbkdf2.
Context (hid : Z) (password : list Z).
Hypothesis Hid : known_hash hid.
Hypothesis Hpw : zlen password + 128 < 2 ^ 32.

Abbreviation hlen := (Z.to_nat (hash_digest_size hid)).
Abbreviation prf := (hmac_spec hid password).

Lemma prf_length m : length (prf m) = hlen.
Proof using Hid. pose proof (hmac_spec_length hid password m Hid). lia. Qed.

Lemma pbkdf2_iter_spec u ru t rt : length u = hlen -> length t = hlen ->
  pbkdf2_iter hid password (hash_digest_size hid) (u ++ ru, t ++ rt) =
  (prf u ++ ru, xor_bytes t (prf u) ++ rt).
Proof using Hid Hpw.
  intros Hu Ht. pose proof (digest_size_range hid Hid). unfold pbkdf2_iter.
  rewrite hmac_rfc, <- Hu, take_app_length, drop_app_length by (auto; rewrite length_take, length_app; lia).
  unfold xor_buf. rewrite take_app_length' by lia.
  rewrite take_app_length' by (rewrite prf_length; lia). rewrite drop_app_length' by lia. done.
Qed.

Lemma pbkdf2_iters_spec n u ru t rt : length u = hlen -> length t = hlen ->
  exists u', length u' = hlen /\
  Nat.iter n (pbkdf2_iter hid password (hash_digest_size hid)) (u ++ ru, t ++ rt) =
  (u' ++ ru, match n with O => t | S k => xor_bytes t (rfc2898_xor prf k (prf u)) end ++ rt).
Proof using Hid Hpw.
  revert u t. induction n as [|n IH]; intros u t Hu Ht; [by exists u|].
  rewrite Nat.iter_succ_r, pbkdf2_iter_spec by done.
  destruct (IH (prf u) (xor_bytes t (prf u))) as (u' & Hu' & ->).
  { apply prf_length. }
  { rewrite xor_bytes_length, prf_length. lia. }
  exists u'. split; [done|]. do 2 f_equal. destruct n; [done|]. cbn [rfc2898_xor].
  by rewrite xor_bytes_assoc.
Qed.

Lemma rfc2898_F_length salt c i : length (rfc2898_F prf salt c i) = hlen.
Proof using Hid.
  unfold rfc2898_F. generalize (prf_length (salt ++ be_bytes 4 i)). generalize (prf (salt ++ be_bytes 4 i)).
  induction (Z.to_nat (c - 1)) as [|n IH]; intros u Hu; [done|]. cbn [rfc2898_xor].
  rewrite xor_bytes_length, IH by apply prf_length. lia.
Qed.

(** One turn of the outer loop leaves block [blk] of the derived key in [t]. *)
Lemma pbkdf2_block_spec salt iters u t blk :
  zlen salt <= 508 -> (hlen <= length u)%nat -> (hlen <= length t)%nat ->
  let u1 := hmac hid password (salt ++ put_be32 blk) u in
  exists u' ru rt, length u' = hlen /\ (length ru = length u - hlen)%nat /\ (length rt = length t - hlen)%nat /\
  Nat.iter (Z.to_nat (iters - 1)) (pbkdf2_iter hid password (hash_digest_size hid))
    (u1, take hlen u1 ++ drop hlen t) = (u' ++ ru, rfc2898_F prf salt iters blk ++ rt).
Proof using Hid Hpw.
  intros Hs Hu Ht. cbn zeta. rewrite put_be32_be.
  rewrite hmac_rfc by (auto; rewrite length_app, be_bytes_length; lia).
  set (v := prf (salt ++ be_bytes 4 blk)). assert (length v = hlen) as Hv by apply prf_length.
  rewrite (take_app_length' v) by lia.
  destruct (pbkdf2_iters_spec (Z.to_nat (iters - 1)) v (drop hlen u) v (drop hlen t) Hv Hv) as (u' & Hu' & ->).
  exists u', (drop hlen u), (drop hlen t). rewrite !length_drop. split_and!; try done.
  do 2 f_equal. unfold rfc2898_F. fold v. by destruct (Z.to_nat (iters - 1)).
Qed.

Lemma pbkdf2_loop_spec salt iters l fuel u t blk dk dklen :
  zlen salt <= 508 -> (hlen <= length u)%nat -> (hlen <= length t)%nat ->
  0 <= dklen <= Z.of_nat fuel -> 0 <= blk -> blk + dklen < 2 ^ 32 -> dklen <= l * hash_digest_size hid ->
  pbkdf2_loop fuel hid password salt iters u t blk dk dklen =
  Some (dk ++ take (Z.to_nat dklen) (flat_map (rfc2898_F prf salt iters) (seqZ blk l))).
Proof using Hid Hpw.
  intros Hs. revert l u t blk dk dklen.
  induction fuel as [|f IH]; intros l u t blk dk dklen Hu Ht Hd Hb Hbd Hl; cbn [pbkdf2_loop];
    (destruct (Z.eqb_spec dklen 0) as [->|Hd0]; [by rewrite take_0, app_nil_r|]); [lia|].
  pose proof (digest_size_range hid Hid) as Hsz.
  destruct (pbkdf2_block_spec salt iters u t blk Hs Hu Ht) as (u' & ru & rt & Hu' & Hru & Hrt & ->).
  pose proof (rfc2898_F_length salt iters blk) as HF.
  rewrite (seqZ_cons blk) by nia. cbn [flat_map].
  set (n := if dklen <? hash_digest_size hid then dklen else hash_digest_size hid).
  assert (0 < n <= dklen /\ n <= hash_digest_size hid /\ (n < dklen -> n = hash_digest_size hid)) as (Hn & Hn1 & Hn2)
    by (unfold n; destruct (Z.ltb_spec dklen (hash_digest_size hid)); lia).
  rewrite (IH (Z.pred l)); rewrite ?length_app, ?HF; [|try lia..].
  - f_equal. rewrite <- app_assoc. f_equal. rewrite (wrap_small 32) by lia.
    rewrite take_app_le by lia. change (Z.succ blk) with (blk + 1).
    destruct (Z.lt_ge_cases n dklen) as [Hlt|Hge].
    + rewrite (take_ge (rfc2898_F _ _ _ _)) by lia. rewrite (take_app_ge _ _ (Z.to_nat dklen)) by lia.
      do 2 f_equal. lia.
    + assert (n = dklen) as -> by lia. rewrite Z.sub_diag, take_0, app_nil_r. by rewrite take_app_le by lia.
  - apply wrap_range. lia.
  - rewrite wrap_small; lia.
  - assert (1 <= l) by nia. rewrite <- Z.sub_1_r, Z.mul_sub_distr_r, Z.mul_1_l.
    destruct (Z.lt_ge_cases n dklen); [lia|]. assert (1 * hash_digest_size hid <= l * hash_digest_size hid)
      by (apply Z.mul_le_mono_nonneg_r; lia). lia.
Qed.
End Pbkdf2.

(** An unknown hash has digest size 0, so the outer loop never makes progress. *)
Lemma pbkdf2_loop_unknown fuel hid password salt iters u t blk dk dklen :
  ~ known_hash hid -> dklen <> 0 -> 0 <= dklen ->
  pbkdf2_loop fuel hid password salt iters u t blk dk dklen = None.
Proof.
  intros Hid Hd Hd'. revert u t blk dk. induction fuel as [|f IH]; intros u t blk dk;
    cbn [pbkdf2_loop]; destruct (Z.eqb_spec dklen 0); try done.
  assert (hash_digest_size hid = 0) as ->.
  { unfold known_hash, hash_digest_size in *. repeat case_match; lia. }
  destruct (Nat.iter _ _ _) as [u' t']. replace (dklen <? 0) with false by lia. rewrite Z.sub_0_r. apply IH.
Qed.

(** ** Theorems *)

(** [C29] [hmac] writes RFC 2104's HMAC of the message over the start of [out], for
    each of the three hashes and for keys shorter and longer than a block. *)
Theorem hmac_is_rfc2104 (id : Z) (key msg out : list Z)
    (Hid : known_hash id) (Hk : zlen key + 128 < 2 ^ 32) (Hm : zlen msg + 128 < 2 ^ 32) :
  hmac id key msg out = hmac_spec id key msg ++ drop (Z.to_nat (hash_digest_size id)) out /\
  zlen (hmac_spec id key msg) = hash_digest_size id.
Proof. split; [by apply hmac_rfc|by apply hmac_spec_length]. Qed.

Lemma hmac_is_rfc2104_witness :
  hmac HASH_SHA256 (cs "key") (cs "msg") (repeat 0 32) = hmac_spec HASH_SHA256 (cs "key") (cs "msg") ++ [].
Proof.
  apply (hmac_is_rfc2104 HASH_SHA256 (cs "key") (cs "msg") (repeat 0 32)).
  - right; left; reflexivity.
  - reflexivity.
  - reflexivity.
Defined.

(** [C18] [pbkdf2] terminates and yields exactly [dklen] bytes of RFC 2898's derived
    key, whatever the uninitialised scratch arrays hold; an iteration count of 0
    behaves as 1. *)
Theorem pbkdf2_is_rfc2898 (u0 t0 : list Z) (hid : Z) (password salt : list Z) (iters dklen : Z)
    (Hid : known_hash hid) (Hpw : zlen password + 128 < 2 ^ 32) (Hs : zlen salt <= 508)
    (Hu : length u0 = 64%nat) (Ht : length t0 = 64%nat) (Hd : 0 <= dklen < 2 ^ 32 - 1) :
  let hlen := hash_digest_size hid in
  let l := (dklen + hlen - 1) / hlen in
  let dk := take (Z.to_nat dklen) (flat_map (rfc2898_F (hmac_spec hid password) salt iters) (seqZ 1 l)) in
  pbkdf2 u0 t0 hid password salt iters dklen = Some dk /\ zlen dk = dklen.
Proof.
  cbn zeta. pose proof (digest_size_range hid Hid) as Hsz.
  set (hlen := hash_digest_size hid) in *. set (l := (dklen + hlen - 1) / hlen).
  assert (dklen <= l * hlen) as Hl.
  { pose proof (Z.div_mod (dklen + hlen - 1) hlen ltac:(lia)).
    pose proof (Z.mod_pos_bound (dklen + hlen - 1) hlen ltac:(lia)). unfold l. nia. }
  split.
  - unfold pbkdf2. replace (zlen salt + 4 >? 512) with false by lia.
    apply (pbkdf2_loop_spec hid password Hid Hpw salt iters l _ u0 t0 1 [] dklen); fold hlen; lia.
  - assert (0 <= l) by (apply Z.div_pos; lia).
    rewrite length_take, (flat_map_const_length _ (Z.to_nat hlen)), length_seqZ
      by (intros; by apply rfc2898_F_length). nia.
Qed.

Lemma pbkdf2_is_rfc2898_witness :
  let dk := take 20 (flat_map (rfc2898_F (hmac_spec HASH_SHA1 (cs "password")) (cs "salt") 2) (seqZ 1 1)) in
  pbkdf2 (repeat 0 64) (repeat 0 64) HASH_SHA1 (cs "password") (cs "salt") 2 20 = Some dk /\ zlen dk = 20.
Proof.
  apply (pbkdf2_is_rfc2898 (repeat 0 64) (repeat 0 64) HASH_SHA1 (cs "password") (cs "salt") 2 20).
  - left; reflexivity.
  - reflexivity.
  - vm_compute; discriminate.
  - reflexivity.
  - reflexivity.
  - lia.
Defined.

(** With a hash identifier that is not one of the three, for instance the [-1]
    that [hash_id] returns for an unknown name, the digest size is 0 and
    [pbkdf2] never returns, however long it runs. *)
Theorem pbkdf2_unknown_hash_diverges (hid : Z) (password salt u t : list Z) (iters dklen : Z)
    (Hid : ~ known_hash hid) (Hd : 0 < dklen) :
  forall fuel, pbkdf2_loop fuel hid password salt iters u t 1 [] dklen = None.
Proof. intros. apply pbkdf2_loop_unknown; (done || lia). Qed.

Lemma pbkdf2_unknown_hash_diverges_witness :
  hash_id (cs "ripemd160") = -1 /\
  forall fuel, pbkdf2_loop fuel (-1) (cs "pw") (cs "salt") 1000 (repeat 0 64) (repeat 0 64) 1 [] 32 = None.
Proof.
  split; [reflexivity|].
  apply (pbkdf2_unknown_hash_diverges (-1) (cs "pw") (cs "salt") (repeat 0 64) (repeat 0 64) 1000 32).
  - intros [?|[?|?]]; discriminate.
  - lia.
Defined.

(** RFC 6070, test vector 2. *)
Example pbkdf2_rfc6070 :
  option_map be_val (pbkdf2 (repeat 7 64) (repeat 9 64) HASH_SHA1 (cs "password") (cs "salt") 2 20) =
  Some 0xea6c014dc72d6f8ccd1ed92ace1d41f0d8de8957.
Proof. vm_compute. reflexivity. Qed.
