(* ===== verification/Blake2b.v ===== *)
(** * Blake2b: BLAKE2b of [crypto/blake2b.c]

    The context absorbs one byte at a time and compresses a full buffer only when
    another byte arrives, so that the last block is still there for [final].  The
    theorem relates it to RFC 7693's one-shot definition. *)

From S2P Require Import Prelude Sha.

Module Blake2b.

Definition IV : list Z :=
  [0x6a09e667_f3bcc908; 0xbb67ae85_84caa73b; 0x3c6ef372_fe94f82b; 0xa54ff53a_5f1d36f1;
   0x510e527f_ade682d1; 0x9b05688c_2b3e6c1f; 0x1f83d9ab_fb41bd6b; 0x5be0cd19_137e2179].

Definition SIGMA : list (list Z) :=
  [[0;1;2;3;4;5;6;7;8;9;10;11;12;13;14;15];
   [14;10;4;8;9;15;13;6;1;12;0;2;11;7;5;3];
   [11;8;12;0;5;2;15;13;10;14;3;6;7;1;9;4];
   [7;9;3;1;13;12;11;14;2;6;5;10;4;0;15;8];
   [9;0;5;7;2;4;10;15;14;1;11;12;6;8;3;13];
   [2;12;6;10;0;11;8;3;4;13;7;5;15;14;1;9];
   [12;5;1;15;14;13;4;10;0;7;6;3;9;2;8;11];
   [13;11;7;14;12;1;3;9;5;0;15;4;8;6;2;10];
   [6;15;14;9;11;3;0;8;12;2;13;7;1;4;10;5];
   [10;2;8;4;7;6;1;5;15;11;9;14;3;12;13;0];
   [0;1;2;3;4;5;6;7;8;9;10;11;12;13;14;15];
   [14;10;4;8;9;15;13;6;1;12;0;2;11;7;5;3]].

(** [for (i = 7; i >= 0; i--) v = (v << 8) | p[i]]. *)
Definition le64r (p : list Z) : Z :=
  foldl (fun v i => u64 (v << 8) .| nthZ p i) 0 [7; 6; 5; 4; 3; 2; 1; 0].

Definition put_le64 (v : Z) : list Z := le_bytes 8 v.

(** The macro [G(r,i,v[a],v[b],v[c],v[d])]. *)
Definition G (m : list Z) (r i : Z) (a b c d : nat) (v : list Z) : list Z :=
  let get v (k : nat) := nth k v 0 in
  let s := nth (Z.to_nat r) SIGMA [] in
  let v := <[a := u64 (get v a + get v b + nthZ m (nthZ s (2 * i + 0)))]> v in
  let v := <[d := ror64 (get v d .^ get v a) 32]> v in
  let v := <[c := u64 (get v c + get v d)]> v in
  let v := <[b := ror64 (get v b .^ get v c) 24]> v in
  let v := <[a := u64 (get v a + get v b + nthZ m (nthZ s (2 * i + 1)))]> v in
  let v := <[d := ror64 (get v d .^ get v a) 16]> v in
  let v := <[c := u64 (get v c + get v d)]> v in
  <[b := ror64 (get v b .^ get v c) 63]> v.

Definition round (m v : list Z) (r : Z) : list Z :=
  let v := G m r 0 0 4 8 12 v in
  let v := G m r 1 1 5 9 13 v in
  let v := G m r 2 2 6 10 14 v in
  let v := G m r 3 3 7 11 15 v in
  let v := G m r 4 0 5 10 15 v in
  let v := G m r 5 1 6 11 12 v in
  let v := G m r 6 2 7 8 13 v in
  G m r 7 3 4 9 14 v.

(** [blake2b_compress], on the chaining value and the counter [(t[0], t[1])]. *)
Definition blake2b_compress (h : list Z) (t : Z * Z) (blk : list Z) (last : bool) : list Z :=
  let v := h ++ IV in
  let v := <[12%nat := nthZ v 12 .^ fst t]> v in
  let v := <[13%nat := nthZ v 13 .^ snd t]> v in
  let v := if last then <[14%nat := not64 (nthZ v 14)]> v else v in
  let m := map (fun i => le64r (drop (Z.to_nat (i * 8)) blk)) (seqZ 0 16) in
  let v := foldl (round m) v (seqZ 0 12) in
  map (fun i => nthZ h i .^ (nthZ v i .^ nthZ v (8 + i))) (seqZ 0 8).

(** [buf] holds the first [buf_len] bytes of the array; the flags [f] are written
    and never read by the source, and are left out. *)
Record Blake2b_CTX := { h : list Z; t : Z * Z; buf : list Z; out_len : Z }.

(** [t[0] += n; if (t[0] < n) t[1]++]. *)
Definition bump (t : Z * Z) (n : Z) : Z * Z :=
  let t0 := u64 (fst t + n) in
  (t0, if t0 <? n then u64 (snd t + 1) else snd t).

Definition blake2b_init (out_len : Z) (key : list Z) : Blake2b_CTX :=
  let key_len := zlen key in
  {| h := <[0%nat := nthZ IV 0 .^ (0x01010000 .^ u64 (key_len << 8) .^ out_len)]> IV;
     t := (0, 0);
     buf := if key_len =? 0 then [] else key ++ repeat 0 (128 - length key);
     out_len := out_len |}.

(** One turn of the loop of [blake2b_update]. *)
Definition absorb_byte (ctx : Blake2b_CTX) (c : Z) : Blake2b_CTX :=
  let ctx :=
    if zlen (buf ctx) =? 128 then
      let t' := bump (t ctx) 128 in
      {| h := blake2b_compress (h ctx) t' (buf ctx) false; t := t'; buf := []; out_len := out_len ctx |}
    else ctx in
  {| h := h ctx; t := t ctx; buf := buf ctx ++ [c]; out_len := out_len ctx |}.

Definition blake2b_update (ctx : Blake2b_CTX) (inp : list Z) : Blake2b_CTX := foldl absorb_byte ctx inp.

Definition blake2b_final (ctx : Blake2b_CTX) : list Z :=
  let t := bump (t ctx) (zlen (buf ctx)) in
  let b := buf ctx ++ repeat 0 (128 - length (buf ctx)) in
  let h := blake2b_compress (h ctx) t b true in
  take (Z.to_nat (out_len ctx)) (flat_map put_le64 h).

Definition blake2b (inp key : list Z) (out_len : Z) : list Z :=
  blake2b_final (blake2b_update (blake2b_init out_len key) inp).

(** ** RFC 7693 *)

(** Chaining value after the first [n] blocks of [d], none of them the last. *)
Fixpoint chain (h0 d : list Z) (n : nat) : list Z :=
  match n with
  | O => h0
  | S k => blake2b_compress (chain h0 d k) (split128 (128 * Z.of_nat n)) (take 128 (drop (128 * k) d)) false
  end.

(** The key, if any, is a first block of its own; the last block, never empty
    unless the data is, is padded with zeros and counted by its real length. *)
Definition blake2b_spec (nn : Z) (key m : list Z) : list Z :=
  let d := (if zlen key =? 0 then [] else key ++ repeat 0 (128 - length key)) ++ m in
  let n := ((length d - 1) / 128)%nat in
  let h0 := <[0%nat := nthZ IV 0 .^ (0x01010000 .^ u64 (zlen key << 8) .^ nn)]> IV in
  let last := drop (128 * n) d in
  let h := blake2b_compress (chain h0 d n) (split128 (zlen d)) (last ++ repeat 0 (128 - length last)) true in
  take (Z.to_nat nn) (flat_map (le_bytes 8) h).

(** ** The streaming interface *)

Lemma bump_split n d : 0 <= n -> 0 <= d < 2 ^ 32 -> bump (split128 n) d = split128 (n + d).
Proof.
  intros Hn Hd. rewrite <- bump128_split by done. unfold bump, bump128, split128. cbn [fst snd].
  f_equal. set (x := u64 n). assert (0 <= x < 2 ^ 64) as Hx by (apply wrap_range; lia).
  destruct (Z.lt_ge_cases (x + d) (2 ^ 64)).
  - rewrite (wrap_small 64 (x + d)) by lia.
    by rewrite (proj2 (Z.ltb_ge (x + d) d)), (proj2 (Z.ltb_ge (x + d) x)) by lia.
  - replace (u64 (x + d)) with (x + d - 2 ^ 64).
    + by rewrite (proj2 (Z.ltb_lt (x + d - 2 ^ 64) d)), (proj2 (Z.ltb_lt (x + d - 2 ^ 64) x)) by lia.
    + apply Z.mod_unique with 1; lia.
Qed.

Lemma chain_app h0 d x n : (128 * n <= length d)%nat -> chain h0 (d ++ x) n = chain h0 d n.
Proof.
  induction n as [|n IH]; intros Hn; [done|]. cbn [chain]. rewrite IH by lia.
  by rewrite drop_app_le, take_app_le by (rewrite ?length_drop; lia).
Qed.

(** The context has absorbed [d], starting from the chaining value [h0]: [n] whole
    blocks are compressed, the rest, empty only if [d] is, is in the buffer. *)
Definition absorbed (h0 : list Z) (ctx : Blake2b_CTX) (d : list Z) (n : nat) : Prop :=
  h ctx = chain h0 d n /\ t ctx = split128 (128 * Z.of_nat n) /\ buf ctx = drop (128 * n) d /\
  (128 * n <= length d <= 128 * n + 128)%nat /\ (length d = (128 * n)%nat -> n = 0%nat).

Lemma absorb_byte_absorbed h0 ctx d n c :
  absorbed h0 ctx d n -> exists n', absorbed h0 (absorb_byte ctx c) (d ++ [c]) n' /\
  out_len (absorb_byte ctx c) = out_len ctx.
Proof.
  intros (Hh & Ht & Hb & Hl & Hn). unfold absorb_byte.
  destruct (Z.eqb_spec (zlen (buf ctx)) 128) as [E|E]; rewrite Hb, length_drop in E.
  - exists (S n). cbn [h t buf out_len]. split; [|done].
    assert (length d = 128 * S n)%nat as Hd by lia. unfold absorbed. cbn [h t buf].
    rewrite Ht, bump_split, Hh, Hb by lia. split_and!.
    + rewrite chain_app by lia. cbn [chain]. rewrite (take_ge (drop _ _)) by (rewrite length_drop; lia).
      by replace (128 * Z.of_nat n + 128) with (128 * Z.of_nat (S n)) by lia.
    + f_equal. lia.
    + rewrite drop_app_ge, Hd, Nat.sub_diag by lia. done.
    + rewrite length_app. simpl. lia.
    + rewrite length_app. simpl. lia.
    + rewrite length_app. simpl. lia.
  - exists n. cbn [h t buf out_len]. split; [|done]. unfold absorbed. cbn [h t buf].
    rewrite length_app. cbn [length]. rewrite chain_app, drop_app_le, Hb by lia.
    split_and!; try done; lia.
Qed.

Lemma bl_update_absorbed h0 ctx d n m :
  absorbed h0 ctx d n -> exists n', absorbed h0 (blake2b_update ctx m) (d ++ m) n' /\
  out_len (blake2b_update ctx m) = out_len ctx.
Proof.
  revert ctx d n. induction m as [|c m IH]; intros ctx d n Ha.
  { exists n. by rewrite app_nil_r. }
  destruct (absorb_byte_absorbed h0 ctx d n c Ha) as (n1 & Ha1 & Ho1).
  destruct (IH _ _ _ Ha1) as (n' & Ha' & Ho'). exists n'.
  rewrite <- app_assoc in Ha'. split; [done|]. by rewrite <- Ho1.
Qed.

Lemma updates_concat ctx (ds : list (list Z)) :
  foldl blake2b_update ctx ds = blake2b_update ctx (concat ds).
Proof.
  revert ctx. induction ds as [|d ds IH]; intros ctx; [done|].
  cbn [foldl concat]. rewrite IH. unfold blake2b_update. by rewrite foldl_app.
Qed.

Lemma init_absorbed nn key : (length key <= 128)%nat ->
  absorbed (h (blake2b_init nn key)) (blake2b_init nn key) (buf (blake2b_init nn key)) 0.
Proof.
  intros Hk. unfold absorbed, blake2b_init. cbn [h t buf].
  split_and!; try done; [lia|]. destruct (zlen key =? 0); cbn [length]; [lia|].
  rewrite length_app, repeat_length. lia.
Qed.

Lemma final_absorbed h0 ctx d n : absorbed h0 ctx d n ->
  blake2b_final ctx =
  let n := ((length d - 1) / 128)%nat in let last := drop (128 * n) d in
  take (Z.to_nat (out_len ctx)) (flat_map (le_bytes 8)
    (blake2b_compress (chain h0 d n) (split128 (zlen d)) (last ++ repeat 0 (128 - length last)) true)).
Proof.
  intros (Hh & Ht & Hb & Hl & Hn). unfold blake2b_final, put_le64. cbn zeta.
  replace ((length d - 1) / 128)%nat with n; cycle 1.
  { apply Nat.div_unique with (length d - 1 - 128 * n)%nat; lia. }
  rewrite Hh, Ht, Hb, bump_split, length_drop by (rewrite ?length_drop; lia).
  by replace (128 * Z.of_nat n + Z.of_nat (length d - 128 * n)) with (zlen d) by lia.
Qed.

Lemma blake2b_updates nn key (ds : list (list Z)) : (length key <= 128)%nat ->
  blake2b_final (foldl blake2b_update (blake2b_init nn key) ds) = blake2b_spec nn key (concat ds).
Proof.
  intros Hk. rewrite updates_concat.
  destruct (bl_update_absorbed _ _ _ 0 (concat ds) (init_absorbed nn key Hk)) as (n & Ha & Ho).
  rewrite (final_absorbed _ _ _ _ Ha), Ho. reflexivity.
Qed.



Lemma flat_map_le64_length l : length (flat_map (le_bytes 8) l) = (8 * length l)%nat.
Proof. apply flat_map_const_length. intros. apply le_bytes_length. Qed.

Lemma compress_length h t b last : length (blake2b_compress h t b last) = 8%nat.
Proof. unfold blake2b_compress. by rewrite length_map, length_seqZ. Qed.

Lemma blake2b_final_length ctx : 0 <= out_len ctx <= 64 -> zlen (blake2b_final ctx) = out_len ctx.
Proof. intros. unfold blake2b_final, put_le64. rewrite length_take, flat_map_le64_length, compress_length. lia. Qed.

Lemma blake2b_final_bytes ctx : bytes (blake2b_final ctx).
Proof. apply Forall_take, flat_map_bytes. intros. apply le_bytes_bytes. Qed.

Lemma updates_out_len ctx m : out_len (blake2b_update ctx m) = out_len ctx.
Proof.
  unfold blake2b_update. revert ctx. induction m as [|c m IH]; intros; [done|]. cbn [foldl].
  rewrite IH. unfold absorb_byte. by destruct (zlen (buf ctx) =? 128).
Qed.

Lemma blake2b_length inp key n : 0 <= n <= 64 -> zlen (blake2b inp key n) = n.
Proof. intros. unfold blake2b. by rewrite blake2b_final_length; rewrite updates_out_len. Qed.

Lemma blake2b_bytes inp key n : bytes (blake2b inp key n).
Proof. apply blake2b_final_bytes. Qed.

(** [le64r] is the little-endian value of the eight bytes at [p]. *)
Lemma le_fold64 l : bytes l -> (length l <= 8)%nat -> foldr (fun b v => u64 (v << 8) .| b) 0 l = le_val l.
Proof.
  induction 1 as [|b l Hb Hl IH]; [done|]. intros Hlen. cbn [foldr length] in *. rewrite IH by lia.
  rewrite wrap_small; [done|]. pose proof (le_val_bound l Hl).
  assert (2 ^ (8 * zlen l) <= 2 ^ 56) by (apply Z.pow_le_mono_r; lia).
  rewrite Z.shiftl_mul_pow2 by lia. lia.
Qed.

Lemma le64r_val p : bytes p -> le64r p = le_val (map (nthZ p) [0; 1; 2; 3; 4; 5; 6; 7]).
Proof.
  intros Hp. symmetry. etransitivity; [symmetry; apply le_fold64|].
  - repeat constructor; by apply nthZ_byte.
  - cbn [map length]. lia.
  - unfold le64r. cbn [map foldl foldr]. reflexivity.
Qed.

Lemma map_nthZ8 p : length p = 8%nat -> map (nthZ p) [0; 1; 2; 3; 4; 5; 6; 7] = p.
Proof. intros. do 8 (destruct p as [|? p]; [done|]). by destruct p. Qed.

Lemma put_le64_le64r v : 0 <= v < 2 ^ 64 -> le64r (put_le64 v) = v.
Proof.
  intros Hv. rewrite le64r_val by apply le_bytes_bytes.
  rewrite map_nthZ8 by apply le_bytes_length. unfold put_le64.
  rewrite le_val_le_bytes. by apply wrap_small.
Qed.

(** RFC 7693, appendix A. *)
Example blake2b_abc :
  be_val (blake2b (cs "abc") [] 64) =
  0xba80a53f981c4d0d6a2797b69f12f6e94c212f14685ac4b74b12bb6fdbffa2d17d87c5392aab792dc252d5de4533cc9518d38aa8dbf1925ab92386edd4009923.
Proof. vm_compute. reflexivity. Qed.

End Blake2b.
