(* ===== verification/Argon2.v ===== *)
(** * Argon2: the Argon2 of [crypto/argon2.c]

    The memory [B] is a list of 1024-byte blocks; a byte offset is a block index
    times 1024 in 32-bit arithmetic, and an access outside the allocation makes
    the model fail.  The variable-length hash is RFC 9106's; the addressing and the
    permutation are the source's own, and are described as they are. *)

From S2P Require Import Prelude Sha Blake2b.
Import Blake2b.

Module Argon2.

Definition put_le32 (v : Z) : list Z := [u8 v; u8 (v >> 8); u8 (v >> 16); u8 (v >> 24)].

(** ** The variable-length hash *)

(** The extension loop of [H_prime]: [out] is what has been written. *)
Fixpoint H_prime_loop (fuel : nat) (prev out : list Z) (remaining : Z) : list Z :=
  match fuel with
  | O => out
  | S f =>
    if remaining >? 64 then
      let a := blake2b prev [] 64 in H_prime_loop f a (out ++ take 32 a) (remaining - 32)
    else out ++ blake2b prev [] remaining
  end.

Definition H_prime (inp : list Z) (out_len : Z) : list Z :=
  if out_len <=? 64 then
    blake2b_final (blake2b_update (blake2b_update (blake2b_init out_len []) (put_le32 out_len)) inp)
  else
    let a := blake2b_final (blake2b_update (blake2b_update (blake2b_init 64 []) (put_le32 out_len)) inp) in
    H_prime_loop (Z.to_nat out_len) a (take 32 a) (out_len - 32).

(** ** The compression function *)

Definition fBlaMka (x y : Z) : Z :=
  let xy := u32 x * u32 y in u64 (x + y + u64 (xy << 1)).

(** The macro [G_BLAMKA(v[a],v[b],v[c],v[d])]. *)
Definition G_BLAMKA (v : list Z) (a b c d : nat) : list Z :=
  let get v (k : nat) := nth k v 0 in
  let v := <[a := fBlaMka (get v a) (get v b)]> v in
  let v := <[d := ror64 (get v d .^ get v a) 32]> v in
  let v := <[c := fBlaMka (get v c) (get v d)]> v in
  let v := <[b := ror64 (get v b .^ get v c) 24]> v in
  let v := <[a := fBlaMka (get v a) (get v b)]> v in
  let v := <[d := ror64 (get v d .^ get v a) 16]> v in
  let v := <[c := fBlaMka (get v c) (get v d)]> v in
  <[b := ror64 (get v b .^ get v c) 63]> v.

Definition permute_block (v : list Z) : list Z :=
  let v := foldl (fun v i => let j := (i * 2)%nat in
    let v := G_BLAMKA v j (j + 1) (j + 2) (j + 3) in
    let v := G_BLAMKA v (j + 4) (j + 5) (j + 6) (j + 7) in
    let v := G_BLAMKA v (j + 8) (j + 9) (j + 10) (j + 11) in
    G_BLAMKA v (j + 12) (j + 13) (j + 14) (j + 15)) v (seq 0 8) in
  foldl (fun v i =>
    let v := G_BLAMKA v i (i + 8) (i + 16) (i + 24) in
    let v := G_BLAMKA v (i + 32) (i + 40) (i + 48) (i + 56) in
    let v := G_BLAMKA v (i + 64) (i + 72) (i + 80) (i + 88) in
    G_BLAMKA v (i + 96) (i + 104) (i + 112) (i + 120)) v (seq 0 8).

Definition GB_block (x y : list Z) : list Z :=
  let r := map (fun i => le64r (drop (i * 8) x) .^ le64r (drop (i * 8) y)) (seq 0 128) in
  let tmp := permute_block r in
  flat_map (fun i => put_le64 (nth i tmp 0 .^ nth i r 0)) (seq 0 128).

(** ** Reference block index *)

Definition ARGON2_SYNC_POINTS : Z := 4.
Definition ARGON2_BLOCK_SIZE : Z := 1024.
Definition ARGON2_TYPE_D : Z := 0.
Definition ARGON2_TYPE_I : Z := 1.
Definition ARGON2_TYPE_ID : Z := 2.

Definition ref_area (pass slice lane_len index : Z) (same_lane : bool) : Z :=
  let q := lane_len / ARGON2_SYNC_POINTS in
  if pass =? 0 then
    if slice =? 0 then u32 (index - 1)
    else if same_lane then u32 (slice * q + index - 1)
    else u32 (slice * q - (if index =? 0 then 1 else 0))
  else if same_lane then u32 (lane_len - q + index - 1)
  else u32 (lane_len - q - (if index =? 0 then 1 else 0)).

Definition start_pos (pass slice lane_len : Z) : Z :=
  if negb (pass =? 0) then
    if slice =? ARGON2_SYNC_POINTS - 1 then 0 else u32 ((slice + 1) * (lane_len / ARGON2_SYNC_POINTS))
  else 0.

Definition index_alpha (pass slice lane_len index pseudo_rand : Z) (same_lane : bool) : Z :=
  let area := ref_area pass slice lane_len index same_lane in
  let relative_pos := u64 (pseudo_rand * pseudo_rand) >> 32 in
  let relative_pos := u64 (area * relative_pos) >> 32 in
  let start_pos := start_pos pass slice lane_len in
  u32 (u64 (u32 (start_pos + area - 1) - relative_pos) mod lane_len).

(** ** The memory *)

(** Block [i] of [B]: the byte offset [i * 1024] is computed in 32 bits. *)
Definition block_index (i : Z) : nat := Z.to_nat (u32 (u32 i * ARGON2_BLOCK_SIZE) / ARGON2_BLOCK_SIZE).
Definition get_block (B : list (list Z)) (i : Z) : option (list Z) := B !! block_index i.
Definition set_block (B : list (list Z)) (i : Z) (b : list Z) : option (list (list Z)) :=
  if decide (block_index i < length B)%nat then Some (<[block_index i := b]> B) else None.

Record params := {
  password : list Z; salt : list Z; time_cost : Z; memory_kb : Z; parallelism : Z; type : Z; out_len : Z }.

(** The sizes computed at the start: [(segment_length, lane_length, memory_blocks)];
    the division needs [parallelism * 4] to be non-zero in 32 bits. *)
Definition segment_length (p : params) : Z :=
  let m := memory_kb p in
  let m := if m <? u32 (8 * parallelism p) then u32 (8 * parallelism p) else m in
  let s := m / u32 (parallelism p * ARGON2_SYNC_POINTS) in
  if s =? 0 then 1 else s.
Definition lane_length (p : params) : Z := u32 (segment_length p * ARGON2_SYNC_POINTS).
Definition memory_blocks (p : params) : Z := u32 (lane_length p * parallelism p).

(** The initial hash, with the updates in the order of the source. *)
Definition initial_hash (p : params) : list Z :=
  let pb := put_le32 (parallelism p) ++ put_le32 (out_len p) ++ put_le32 (memory_kb p) ++
    put_le32 (time_cost p) ++ put_le32 0x13 ++ put_le32 (u32 (type p)) ++ put_le32 (zlen (password p)) in
  blake2b_final (foldl blake2b_update (blake2b_init 64 [])
    [pb; put_le32 (zlen (password p)); password p; put_le32 (zlen (salt p)); salt p;
     put_le32 0; put_le32 0]).

(** First two blocks of lane [l]. *)
Definition init_lane (p : params) (h0 : list Z) (B : list (list Z)) (l : Z) : option (list (list Z)) :=
  B ← set_block B (l * lane_length p + 0) (H_prime (h0 ++ put_le32 0 ++ put_le32 l) ARGON2_BLOCK_SIZE);
  set_block B (l * lane_length p + 1) (H_prime (h0 ++ put_le32 1 ++ put_le32 l) ARGON2_BLOCK_SIZE).

Definition pseudo_rand (p : params) (prev : list Z) (pass slice lane idx : Z) : Z :=
  if (type p =? ARGON2_TYPE_D) || ((type p =? ARGON2_TYPE_ID) && (pass >=? 1)) ||
     ((type p =? ARGON2_TYPE_ID) && (slice >=? 2))
  then u32 (le64r prev)
  else
    let prand_input := put_le32 pass ++ put_le32 lane ++ put_le32 slice ++ put_le32 (memory_blocks p) ++
      put_le32 (time_cost p) ++ put_le32 (u32 (type p)) ++ put_le32 (idx / 128 + 1) in
    let prand_block := H_prime prand_input ARGON2_BLOCK_SIZE in
    u32 (le64r (drop (Z.to_nat (idx mod 128 * 8)) prand_block)).

(** Body of the innermost loop. *)
Definition fill_block (p : params) (pass slice lane : Z) (B : list (list Z)) (idx : Z) : option (list (list Z)) :=
  let seg_start := u32 (slice * segment_length p) in
  let cur := u32 (seg_start + idx) in
  let prev_idx := if cur =? 0 then u32 (lane_length p - 1) else u32 (cur - 1) in
  prev ← get_block B (u32 (lane * lane_length p) + prev_idx);
  let pr := pseudo_rand p prev pass slice lane idx in
  let ref_lane := if (pass =? 0) && (slice =? 0) then lane else (pr >> 16) mod parallelism p in
  let ref_idx := index_alpha pass slice (lane_length p) idx pr (ref_lane =? lane) in
  ref ← get_block B (u32 (ref_lane * lane_length p) + ref_idx);
  let tmp := GB_block prev ref in
  curr ← get_block B (u32 (lane * lane_length p) + cur);
  set_block B (u32 (lane * lane_length p) + cur) (if pass =? 0 then tmp else xor_bytes curr tmp).

Definition fill_segment (p : params) (pass slice : Z) (B : list (list Z)) (lane : Z) : option (list (list Z)) :=
  let start_idx := if (pass =? 0) && (slice =? 0) then 2 else 0 in
  foldlO (fill_block p pass slice lane) B (seqZ start_idx (segment_length p - start_idx)).

Definition fill_memory (p : params) (B : list (list Z)) : option (list (list Z)) :=
  foldlO (fun B pass =>
    foldlO (fun B slice =>
      foldlO (fill_segment p pass slice) B (seqZ 0 (parallelism p)))
      B (seqZ 0 ARGON2_SYNC_POINTS))
    B (seqZ 0 (time_cost p)).

Definition final_block (p : params) (B : list (list Z)) : option (list Z) :=
  b ← get_block B (u32 (0 * lane_length p + lane_length p - 1));
  foldlO (fun b l =>
    last ← get_block B (u32 (u32 (l * lane_length p) + lane_length p - 1)); Some (xor_bytes b last))
    b (seqZ 1 (parallelism p - 1)).

(** [argon2]: outer [None] for undefined behaviour, inner [None] for the return
    value -1, otherwise the [out_len] bytes written to [out]. *)
Definition argon2 (alloc : Z -> bool) (p : params) : option (option (list Z)) :=
  if u32 (parallelism p * ARGON2_SYNC_POINTS) =? 0 then None else
  let size := u32 (memory_blocks p * ARGON2_BLOCK_SIZE) in
  if negb (alloc size) then Some None else
  let B := repeat (repeat 0 1024) (Z.to_nat (size / ARGON2_BLOCK_SIZE)) in
  let h0 := initial_hash p in
  B ← foldlO (init_lane p h0) B (seqZ 0 (parallelism p));
  B ← fill_memory p B;
  b ← final_block p B;
  Some (Some (H_prime b (out_len p))).

(** ** The variable-length hash is the one of RFC 9106 *)

(** The list [W_1; ...; W_r] of the first 32 bytes of [V_1], [V_2 = H (V_1)], ... *)
Fixpoint hprime_prefix (v : list Z) (r : nat) : list Z :=
  match r with
  | O => []
  | S r' => take 32 v ++ hprime_prefix (blake2b_spec 64 [] v) r'
  end.

Fixpoint hprime_state (v : list Z) (r : nat) : list Z :=
  match r with
  | O => v
  | S r' => hprime_state (blake2b_spec 64 [] v) r'
  end.

(** RFC 9106, section 3.3. *)
Definition hprime_rfc9106 (T : Z) (A : list Z) : list Z :=
  if T <=? 64 then blake2b_spec T [] (le_bytes 4 T ++ A)
  else
    let r := (T + 31) / 32 - 2 in
    let v1 := blake2b_spec 64 [] (le_bytes 4 T ++ A) in
    hprime_prefix v1 (Z.to_nat r) ++ blake2b_spec (T - 32 * r) [] (hprime_state v1 (Z.to_nat r - 1)).

Lemma put_le32_le v : put_le32 v = le_bytes 4 v.
Proof. unfold put_le32. cbn [le_bytes]. by rewrite !Z.shiftr_shiftr by lia. Qed.

Lemma blake2b_one m n : blake2b m [] n = blake2b_spec n [] m.
Proof.
  rewrite <- (app_nil_r m) at 2. apply (blake2b_updates n [] [m]). simpl. lia.
Qed.

Lemma H_prime_first nn T A :
  blake2b_final (blake2b_update (blake2b_update (blake2b_init nn []) (put_le32 T)) A) =
  blake2b_spec nn [] (le_bytes 4 T ++ A).
Proof.
  rewrite put_le32_le. etransitivity; [apply (blake2b_updates nn [] [le_bytes 4 T; A]); simpl; lia|].
  cbn [concat]. by rewrite app_nil_r.
Qed.

(** The loop runs until at most 64 bytes remain. *)
Lemma H_prime_loop_spec k fuel v out m :
  (k < fuel)%nat -> 32 < m <= 64 ->
  H_prime_loop fuel v out (m + 32 * Z.of_nat k) =
  out ++ hprime_prefix (blake2b_spec 64 [] v) k ++ blake2b_spec m [] (hprime_state v k).
Proof.
  revert fuel v out. induction k as [|k IH]; intros [|fuel] v out Hf Hm; try lia; cbn [H_prime_loop].
  - replace (m + 32 * Z.of_nat 0) with m by lia.
    rewrite Z.gtb_ltb, (proj2 (Z.ltb_ge _ _)) by lia. by rewrite blake2b_one.
  - rewrite Z.gtb_ltb, (proj2 (Z.ltb_lt _ _)) by lia. cbv zeta.
    replace (m + 32 * Z.of_nat (S k) - 32) with (m + 32 * Z.of_nat k) by lia.
    rewrite IH, blake2b_one by lia. cbn [hprime_prefix hprime_state]. by rewrite <- !app_assoc.
Qed.

Lemma H_prime_spec T A : 0 < T -> H_prime A T = hprime_rfc9106 T A.
Proof.
  intros HT. unfold H_prime, hprime_rfc9106. rewrite !H_prime_first.
  destruct (Z.leb_spec T 64); [done|]. set (v1 := blake2b_spec 64 [] _).
  set (r := (T + 31) / 32 - 2).
  pose proof (Z.div_mod (T + 31) 32 ltac:(lia)). pose proof (Z.mod_pos_bound (T + 31) 32 ltac:(lia)).
  replace (T - 32) with ((T - 32 * r) + 32 * Z.of_nat (Z.to_nat r - 1)) by lia.
  rewrite H_prime_loop_spec by lia.
  destruct (Z.to_nat r) as [|k] eqn:Ek; [lia|]. cbn [hprime_prefix].
  replace (S k - 1)%nat with k by lia. by rewrite <- app_assoc.
Qed.

Lemma blake2b_spec_length n m : 0 <= n <= 64 -> zlen (blake2b_spec n [] m) = n.
Proof. intros. rewrite <- blake2b_one. by apply blake2b_length. Qed.

Lemma hprime_prefix_length v r : (32 <= length v)%nat -> zlen (hprime_prefix v r) = 32 * Z.of_nat r.
Proof.
  revert v. induction r as [|r IH]; intros v Hv; [done|]. cbn [hprime_prefix].
  pose proof (blake2b_spec_length 64 v ltac:(lia)). rewrite length_app, length_take, Nat2Z.inj_add, IH by lia. lia.
Qed.

Lemma H_prime_length T A : 0 < T -> zlen (H_prime A T) = T.
Proof.
  intros HT. rewrite H_prime_spec by done. unfold hprime_rfc9106.
  destruct (Z.leb_spec T 64); [apply blake2b_spec_length; lia|].
  set (r := (T + 31) / 32 - 2).
  pose proof (Z.div_mod (T + 31) 32 ltac:(lia)). pose proof (Z.mod_pos_bound (T + 31) 32 ltac:(lia)).
  pose proof (blake2b_spec_length 64 (le_bytes 4 T ++ A) ltac:(lia)).
  rewrite length_app, Nat2Z.inj_add, hprime_prefix_length, blake2b_spec_length by lia. lia.
Qed.

(** ** The reference index *)

Lemma relative_range area pr : 0 < area < 2 ^ 32 -> 0 <= pr < 2 ^ 32 ->
  0 <= u64 (area * (u64 (pr * pr) >> 32)) >> 32 < area.
Proof.
  intros Ha Hp. rewrite (wrap_small 64 (pr * pr)) by nia. rewrite !shiftr_div by lia.
  assert (0 <= pr * pr / 2 ^ 32 < 2 ^ 32) as Hr
    by (split; [apply Z.div_pos; nia|apply Z.div_lt_upper_bound; nia]).
  rewrite wrap_small by nia. split; [apply Z.div_pos; nia|apply Z.div_lt_upper_bound; nia].
Qed.

(** A position [area - 1 - r] of the window of [area] blocks that starts at [start_pos]. *)
Lemma index_alpha_window pass slice lane_len index pr same :
  let area := ref_area pass slice lane_len index same in
  let start := start_pos pass slice lane_len in
  0 < area < lane_len -> 0 <= start < lane_len -> lane_len < 2 ^ 31 -> 0 <= pr < 2 ^ 32 ->
  exists r, 0 <= r < area /\ index_alpha pass slice lane_len index pr same = (start + r) mod lane_len.
Proof.
  cbv zeta. intros Ha Hs Hl Hp. unfold index_alpha.
  set (area := ref_area _ _ _ _ _) in *. set (start := start_pos _ _ _) in *.
  pose proof (relative_range area pr ltac:(lia) Hp) as Hr. set (rp := _ >> 32) in *.
  exists (area - 1 - rp). split; [lia|].
  rewrite (wrap_small 32 (start + area - 1)), (wrap_small 64) by lia.
  rewrite wrap_small; [f_equal; lia|].
  pose proof (Z.mod_pos_bound (start + area - 1 - rp) lane_len ltac:(lia)). lia.
Qed.

Lemma ref_area_first slice q index same :
  2 <= q -> 4 * q < 2 ^ 31 -> 0 <= slice < 4 -> 0 <= index < q ->
  (slice = 0 -> same = true /\ 2 <= index) ->
  ref_area 0 slice (4 * q) index same =
  slice * q + (if same then index - 1 else if index =? 0 then -1 else 0) /\
  0 < ref_area 0 slice (4 * q) index same < 4 * q.
Proof.
  intros Hq Hq2 Hs Hi H0. assert (ref_area 0 slice (4 * q) index same =
    u32 (slice * q + (if same then index - 1 else if index =? 0 then -1 else 0))) as ->.
  { unfold ref_area, ARGON2_SYNC_POINTS. change (0 =? 0) with true. cbv iota zeta.
    rewrite (Z.mul_comm 4), Z.div_mul by lia.
    destruct (Z.eqb_spec slice 0) as [->|]; [destruct (H0 eq_refl) as [-> _]; f_equal; lia|].
    destruct same; f_equal; [lia|]. destruct (index =? 0); lia. }
  assert (0 < slice * q + (if same then index - 1 else if index =? 0 then -1 else 0) < 4 * q) as Hr.
  { destruct same; [|destruct (Z.eqb_spec index 0)]; destruct (Z.eq_dec slice 0) as [->|];
      try (destruct (H0 eq_refl); (lia || discriminate)); nia. }
  rewrite wrap_small by lia. done.
Qed.

Lemma ref_area_later pass slice q index same :
  2 <= q -> 4 * q < 2 ^ 31 -> 0 < pass -> 0 <= index < q ->
  ref_area pass slice (4 * q) index same =
  3 * q + (if same then index - 1 else if index =? 0 then -1 else 0) /\
  0 < ref_area pass slice (4 * q) index same < 4 * q.
Proof.
  intros Hq Hq2 Hp Hi. assert (ref_area pass slice (4 * q) index same =
    u32 (3 * q + (if same then index - 1 else if index =? 0 then -1 else 0))) as ->.
  { unfold ref_area, ARGON2_SYNC_POINTS. rewrite (proj2 (Z.eqb_neq pass 0)) by lia. cbv iota zeta.
    rewrite (Z.mul_comm 4), Z.div_mul by lia. destruct same; f_equal; [lia|]. destruct (index =? 0); lia. }
  rewrite wrap_small; destruct same; (destruct (Z.eqb_spec index 0)); lia.
Qed.

Lemma start_pos_later pass slice q : 2 <= q -> 4 * q < 2 ^ 31 -> 0 < pass -> 0 <= slice < 4 ->
  start_pos pass slice (4 * q) = ((slice + 1) * q) mod (4 * q).
Proof.
  intros Hq Hq2 Hp Hs. unfold start_pos, ARGON2_SYNC_POINTS. rewrite (proj2 (Z.eqb_neq pass 0)) by lia.
  cbn [negb]. rewrite (Z.mul_comm 4 q), Z.div_mul by lia. destruct (Z.eqb_spec slice (4 - 1)) as [->|].
  - replace ((4 - 1 + 1) * q) with (q * 4) by lia. by rewrite Z_mod_same_full.
  - rewrite wrap_small, Z.mod_small by nia. done.
Qed.

(** ** Memory safety of the main loop *)

(** Parameters for which no 32-bit size wraps: at least one lane, and less than
    2^22 blocks (4 GiB) of memory. *)
Definition params_ok (p : params) : Prop :=
  1 <= parallelism p /\ 8 * parallelism p < 2 ^ 22 /\ 0 <= memory_kb p < 2 ^ 22 /\ 0 < out_len p.

Lemma sizes p : params_ok p ->
  2 <= segment_length p /\ lane_length p = 4 * segment_length p /\
  memory_blocks p = lane_length p * parallelism p /\ memory_blocks p < 2 ^ 22.
Proof.
  intros (Hp & Hp8 & Hm & _). unfold segment_length, ARGON2_SYNC_POINTS.
  rewrite (wrap_small 32 (8 * _)), (wrap_small 32 (_ * 4)) by lia.
  set (m := if memory_kb p <? 8 * parallelism p then 8 * parallelism p else memory_kb p).
  assert (8 * parallelism p <= m < 2 ^ 22) as Hmm by (unfold m; destruct (Z.ltb_spec (memory_kb p) (8 * parallelism p)); lia).
  set (s := m / (parallelism p * 4)).
  assert (2 <= s /\ s * (parallelism p * 4) <= m) as [Hs Hsm].
  { pose proof (Z.div_mod m (parallelism p * 4) ltac:(lia)).
    pose proof (Z.mod_pos_bound m (parallelism p * 4) ltac:(lia)). fold s in H.
    split; [|lia]. apply Z.div_le_lower_bound; lia. }
  assert (segment_length p = s) as Hseg.
  { unfold segment_length, ARGON2_SYNC_POINTS. rewrite (wrap_small 32 (8 * _)), (wrap_small 32 (_ * 4)) by lia.
    fold m. fold s. by rewrite (proj2 (Z.eqb_neq s 0)) by lia. }
  rewrite (proj2 (Z.eqb_neq s 0)) by lia.
  assert (lane_length p = 4 * s) as Hl
    by (unfold lane_length, ARGON2_SYNC_POINTS; rewrite Hseg, wrap_small; nia).
  assert (memory_blocks p = lane_length p * parallelism p) as Hb
    by (unfold memory_blocks; rewrite wrap_small; nia).
  split_and!; nia.
Qed.

Lemma block_index_small i : 0 <= i < 2 ^ 22 -> block_index i = Z.to_nat i.
Proof.
  intros. unfold block_index, ARGON2_BLOCK_SIZE. rewrite (wrap_small 32 i), wrap_small by lia.
  by rewrite Z.div_mul by lia.
Qed.

Lemma get_block_ok (B : list (list Z)) i : 0 <= i < zlen B -> zlen B <= 2 ^ 22 -> exists b, get_block B i = Some b.
Proof. intros. unfold get_block. rewrite block_index_small by lia. apply lookup_lt_is_Some_2. lia. Qed.

Lemma set_block_ok (B : list (list Z)) i b : 0 <= i < zlen B -> zlen B <= 2 ^ 22 ->
  exists B', set_block B i b = Some B' /\ length B' = length B.
Proof.
  intros. unfold set_block. rewrite block_index_small by lia.
  rewrite decide_True by lia. eexists. split; [done|]. apply length_insert.
Qed.

Section Safety.
Context (p : params).
Hypothesis Hok : params_ok p.

Definition mem_ok (B : list (list Z)) : Prop := zlen B = memory_blocks p.

Lemma lane_block l x : 0 <= l < parallelism p -> 0 <= x < lane_length p ->
  u32 (l * lane_length p) = l * lane_length p /\ 0 <= l * lane_length p + x < memory_blocks p.
Proof using Hok.
  intros. destruct (sizes p Hok) as (? & ? & Hb & ?). rewrite Hb in *.
  split; [apply wrap_small|]; nia.
Qed.

Lemma mem_get B l x : mem_ok B -> 0 <= l < parallelism p -> 0 <= x < lane_length p ->
  exists b, get_block B (u32 (l * lane_length p) + x) = Some b.
Proof using Hok.
  intros HB Hl Hx. destruct (lane_block l x Hl Hx) as [-> Hr]. destruct (sizes p Hok) as (? & ? & ? & ?).
  unfold mem_ok in HB. apply get_block_ok; lia.
Qed.

Lemma mem_set B l x b : mem_ok B -> 0 <= l < parallelism p -> 0 <= x < lane_length p ->
  exists B', set_block B (u32 (l * lane_length p) + x) b = Some B' /\ mem_ok B'.
Proof using Hok.
  intros HB Hl Hx. destruct (lane_block l x Hl Hx) as [-> Hr]. destruct (sizes p Hok) as (? & ? & ? & ?).
  unfold mem_ok in *. destruct (set_block_ok B (l * lane_length p + x) b) as (B' & HB' & Hlen); [lia..|].
  exists B'. rewrite Hlen. done.
Qed.

Lemma index_alpha_lt pass slice index pr same : 0 <= index_alpha pass slice (lane_length p) index pr same < lane_length p.
Proof using Hok.
  destruct (sizes p Hok) as (? & Hl & Hb & ?). destruct Hok as (Hp & _).
  unfold index_alpha. set (x := u64 _).
  pose proof (Z.mod_pos_bound x (lane_length p) ltac:(lia)). rewrite wrap_small by nia. done.
Qed.

Lemma fill_block_ok pass slice lane B idx :
  0 <= pass -> 0 <= slice < 4 -> 0 <= lane < parallelism p -> 0 <= idx < segment_length p -> mem_ok B ->
  exists B', fill_block p pass slice lane B idx = Some B' /\ mem_ok B'.
Proof using Hok.
  intros Hpa Hs Hla Hi HB. destruct (sizes p Hok) as (Hs2 & Hl & Hb & Hm). destruct Hok as (Hp & _).
  unfold fill_block. rewrite (wrap_small 32 (slice * _)) by nia.
  assert (0 <= slice * segment_length p + idx < lane_length p) as Hcur by nia.
  assert (lane_length p < 2 ^ 32) by nia.
  rewrite (wrap_small 32 (_ + idx)) by lia. set (cur := slice * segment_length p + idx) in *.
  set (prev := if cur =? 0 then _ else _).
  assert (0 <= prev < lane_length p) as Hprev.
  { unfold prev. destruct (Z.eqb_spec cur 0); rewrite wrap_small; lia. }
  destruct (mem_get B lane prev HB Hla Hprev) as [b ->]. cbn [mbind option_bind].
  set (pr := pseudo_rand p b pass slice lane idx).
  set (rl := if (pass =? 0) && (slice =? 0) then lane else _).
  assert (0 <= rl < parallelism p) as Hrl.
  { unfold rl. destruct ((pass =? 0) && (slice =? 0)); [done|]. apply Z.mod_pos_bound. lia. }
  destruct (mem_get B rl _ HB Hrl (index_alpha_lt pass slice idx pr (rl =? lane))) as [r ->]. cbn [mbind option_bind].
  destruct (mem_get B lane cur HB Hla Hcur) as [c ->]. cbn [mbind option_bind].
  by apply mem_set.
Qed.

Lemma fill_memory_ok B : mem_ok B -> exists B', fill_memory p B = Some B' /\ mem_ok B'.
Proof using Hok.
  intros HB. unfold fill_memory.
  apply foldlO_inv; [done|]. intros B1 pass Hpass HB1. apply elem_of_seqZ in Hpass.
  apply foldlO_inv; [done|]. intros B2 slice Hslice HB2. apply elem_of_seqZ in Hslice.
  apply foldlO_inv; [done|]. intros B3 lane Hlane HB3. apply elem_of_seqZ in Hlane.
  unfold fill_segment. apply foldlO_inv; [done|]. intros B4 idx Hidx HB4. apply elem_of_seqZ in Hidx.
  unfold ARGON2_SYNC_POINTS in *. apply fill_block_ok; try done; try lia.
  destruct ((pass =? 0) && (slice =? 0)); lia.
Qed.

Lemma init_lanes_ok h0 B : mem_ok B ->
  exists B', foldlO (init_lane p h0) B (seqZ 0 (parallelism p)) = Some B' /\ mem_ok B'.
Proof using Hok.
  intros HB. destruct (sizes p Hok) as (Hs2 & Hl & Hb & Hm).
  apply foldlO_inv; [done|]. intros B1 l Hin HB1. apply elem_of_seqZ in Hin. unfold init_lane.
  destruct (lane_block l 0 ltac:(lia) ltac:(lia)) as [E _]. rewrite <- E.
  destruct (mem_set B1 l 0 (H_prime (h0 ++ put_le32 0 ++ put_le32 l) ARGON2_BLOCK_SIZE) HB1) as (B2 & -> & HB2); [lia..|].
  cbn [mbind option_bind]. apply mem_set; (done || lia).
Qed.

Lemma final_block_ok B : mem_ok B -> exists b, final_block p B = Some b.
Proof using Hok.
  intros HB. destruct (sizes p Hok) as (Hs2 & Hl & Hb & Hm). destruct Hok as (Hp & _).
  assert (forall l, 0 <= l < parallelism p ->
    exists b, get_block B (u32 (u32 (l * lane_length p) + lane_length p - 1)) = Some b) as Hg.
  { intros l Hlr. destruct (lane_block l (lane_length p - 1) Hlr ltac:(lia)) as [E Hr].
    rewrite (wrap_small 32 (_ + _ - 1)) by lia. rewrite <- Z.add_sub_assoc. apply mem_get; (done || lia). }
  unfold final_block. destruct (Hg 0 ltac:(lia)) as [b0 Hb0].
  change (u32 (0 * lane_length p)) with 0 in Hb0. change (0 * lane_length p) with 0. rewrite Hb0.
  cbn [mbind option_bind].
  destruct (foldlO_inv (fun _ => True) (fun b l => last ← get_block B (u32 (u32 (l * lane_length p) + lane_length p - 1));
    Some (xor_bytes b last)) (seqZ 1 (parallelism p - 1)) b0 I) as (b & Hf & _); [|by exists b].
  intros a l Hin _. apply elem_of_seqZ in Hin. destruct (Hg l ltac:(lia)) as [x ->]. by eexists.
Qed.
End Safety.

(** ** Theorems *)

(** [H_prime] is the variable-length hash H' of RFC 9106, section 3.3, and
    writes exactly [out_len] bytes. *)
Theorem H_prime_is_rfc9106 (A : list Z) (T : Z) (HT : 0 < T) :
  H_prime A T = hprime_rfc9106 T A /\ zlen (H_prime A T) = T.
Proof. split; [by apply H_prime_spec|by apply H_prime_length]. Qed.

Lemma H_prime_is_rfc9106_witness : H_prime (cs "salt") 1000 = hprime_rfc9106 1000 (cs "salt") /\
  zlen (H_prime (cs "salt") 1000) = 1000.
Proof. apply (H_prime_is_rfc9106 (cs "salt") 1000). lia. Defined.

(** The reference index is always inside the lane and names a block that is
    already final: in the first pass one before the current position (in the
    same lane not even the previous block), in later passes one of the window of
    blocks that starts after the current segment and ends before the previous
    block; the block being written is never its own reference. *)
Theorem index_alpha_reference (pass slice q index pr : Z) (same : bool)
    (Hq : 2 <= q) (Hq2 : 4 * q < 2 ^ 31) (Hp : 0 <= pass) (Hs : 0 <= slice < 4)
    (Hi : 0 <= index < q) (Hpr : 0 <= pr < 2 ^ 32)
    (H0 : pass = 0 -> slice = 0 -> same = true /\ 2 <= index) :
  let i := index_alpha pass slice (4 * q) index pr same in
  let done_here := if same then index - 1 else if index =? 0 then -1 else 0 in
  0 <= i < 4 * q /\
  (pass = 0 -> i < slice * q + done_here) /\
  (0 < pass -> (i - (slice + 1) * q) mod (4 * q) < 3 * q + done_here).
Proof.
  cbv zeta. destruct (Z.eq_dec pass 0) as [->|Hne].
  - destruct (ref_area_first slice q index same Hq Hq2 Hs Hi (H0 eq_refl)) as [Ea Hr].
    destruct (index_alpha_window 0 slice (4 * q) index pr same Hr ltac:(cbn; lia) Hq2 Hpr) as (r & Hr2 & ->).
    change (start_pos 0 slice (4 * q)) with 0. rewrite Z.add_0_l, Z.mod_small by lia. lia.
  - destruct (ref_area_later pass slice q index same Hq Hq2 ltac:(lia) Hi) as [Ea Hr].
    pose proof (start_pos_later pass slice q Hq Hq2 ltac:(lia) Hs) as Es.
    pose proof (Z.mod_pos_bound ((slice + 1) * q) (4 * q) ltac:(lia)) as Hsr.
    destruct (index_alpha_window pass slice (4 * q) index pr same Hr ltac:(lia) Hq2 Hpr) as (r & Hr2 & ->).
    split; [apply Z.mod_pos_bound; lia|]. split; [lia|]. intros _.
    rewrite Es, Zminus_mod_idemp_l, Zplus_mod_idemp_l || rewrite Es.
    rewrite Zplus_mod_idemp_l, Zminus_mod_idemp_l. replace (_ + r - _) with r by lia. rewrite Z.mod_small; lia.
Qed.

Lemma index_alpha_reference_witness :
  let i := index_alpha 1 3 (4 * 16) 5 0x89abcdef true in
  i = 36 /\ 0 <= i < 4 * 16 /\ (0 < 1 -> (i - (3 + 1) * 16) mod (4 * 16) < 3 * 16 + 4).
Proof.
  destruct (index_alpha_reference 1 3 16 5 0x89abcdef true) as (? & ? & ?); [lia|lia|lia|lia|lia|lia|lia|].
  split; [by vm_compute|]. split; assumption.
Defined.

(** [C19] With at least one lane and less than 4 GiB of memory, [argon2] never
    touches memory outside its allocation, divides by zero or fails for another
    reason than the allocation: it returns -1 if that fails, and otherwise
    terminates with exactly [out_len] bytes. *)
Theorem argon2_memory_safe (alloc : Z -> bool) (p : params) (Hok : params_ok p) :
  let size := memory_blocks p * 1024 in
  if alloc size then exists out, argon2 alloc p = Some (Some out) /\ zlen out = out_len p
  else argon2 alloc p = Some None.
Proof.
  cbv zeta. destruct (sizes p Hok) as (Hs2 & Hl & Hb & Hm). pose proof Hok as (Hp & Hp8 & _ & Hout).
  unfold argon2, ARGON2_SYNC_POINTS, ARGON2_BLOCK_SIZE.
  rewrite (wrap_small 32 (parallelism p * 4)), (wrap_small 32 (memory_blocks p * 1024)) by nia.
  rewrite (proj2 (Z.eqb_neq (parallelism p * 4) 0)) by lia. destruct (alloc _); [|done]. cbn [negb].
  rewrite Z.div_mul by lia. set (B0 := repeat _ _).
  assert (mem_ok p B0) as H0 by (unfold mem_ok, B0; rewrite repeat_length; nia).
  destruct (init_lanes_ok p Hok (initial_hash p) B0 H0) as (B1 & -> & H1). cbn [mbind option_bind].
  destruct (fill_memory_ok p Hok B1 H1) as (B2 & -> & H2). cbn [mbind option_bind].
  destruct (final_block_ok p Hok B2 H2) as (b & ->). cbn [mbind option_bind].
  eexists. split; [done|]. by apply H_prime_length.
Qed.

Definition demo_params : params :=
  {| password := cs "password"; salt := cs "somesalt"; time_cost := 1; memory_kb := 8; parallelism := 1;
     type := ARGON2_TYPE_ID; out_len := 32 |}.

Lemma argon2_memory_safe_witness :
  memory_blocks demo_params * 1024 = 8192 /\
  exists out, argon2 (fun _ => true) demo_params = Some (Some out) /\ zlen out = 32.
Proof.
  split; [reflexivity|]. apply (argon2_memory_safe (fun _ => true) demo_params).
  unfold params_ok. cbn. lia.
Defined.

(** The initial hash absorbs the length of the password twice, once among the
    parameters and once before the password, where RFC 9106 has it once: it is
    the hash of a different string for every input, and on this input gives a
    different [H_0]. *)
Theorem initial_hash_doubles_length (p : params) :
  let rfc := [put_le32 (parallelism p); put_le32 (out_len p); put_le32 (memory_kb p); put_le32 (time_cost p);
    put_le32 0x13; put_le32 (u32 (type p))] in
  let rest := [put_le32 (zlen (password p)); password p; put_le32 (zlen (salt p)); salt p; put_le32 0; put_le32 0] in
  initial_hash p = blake2b_spec 64 [] (concat rfc ++ put_le32 (zlen (password p)) ++ concat rest) /\
  (p = demo_params -> initial_hash p <> blake2b_spec 64 [] (concat rfc ++ concat rest)).
Proof.
  cbv zeta. split.
  - unfold initial_hash. rewrite blake2b_updates by (simpl; lia). cbn [concat].
    rewrite !app_nil_r, <- !app_assoc. reflexivity.
  - intros ->. vm_compute. discriminate.
Qed.

Lemma initial_hash_doubles_length_witness :
  initial_hash demo_params <> blake2b_spec 64 []
    (put_le32 1 ++ put_le32 32 ++ put_le32 8 ++ put_le32 1 ++ put_le32 0x13 ++ put_le32 2 ++
     put_le32 8 ++ cs "password" ++ put_le32 8 ++ cs "somesalt" ++ put_le32 0 ++ put_le32 0).
Proof. exact (proj2 (initial_hash_doubles_length demo_params) eq_refl). Defined.

End Argon2.
