(* ===== verification/Cipher.v ===== *)
(** * Cipher: the disk encryption modes of [crypto/cipher.c]

    XTS-AES and CBC-AES on the block cipher of [Aes].  Sectors are byte lists; the
    functions return the bytes written to [out].  A key is the whole memory object
    it lies in, and a key length that reaches past it, or one the key schedule
    cannot handle, makes the initialisation fail. *)

From S2P Require Import Prelude Aes Sha.

(** ** Mode names *)

Definition CIPHER_XTS : Z := 1.
Definition CIPHER_CBC_PLAIN : Z := 2.
Definition CIPHER_CBC_PLAIN64 : Z := 3.
Definition CIPHER_CBC_ESSIV : Z := 4.

Fixpoint strpfx (s pfx : list Z) : bool :=
  match pfx with
  | [] => true
  | c :: pfx' => if deref s =? c then strpfx (tail s) pfx' else false
  end.

Definition cipher_mode_id (m : list Z) : Z :=
  if strpfx m (cs "xts") then CIPHER_XTS
  else if strpfx m (cs "cbc-essiv") then CIPHER_CBC_ESSIV
  else if strpfx m (cs "cbc-plain64") then CIPHER_CBC_PLAIN64
  else if strpfx m (cs "cbc-plain") then CIPHER_CBC_PLAIN
  else CIPHER_XTS.

(** ** XTS *)

(** The loop of [gf128_mul_x_le] over the bytes of the tweak; returns the last carry. *)
Fixpoint gf128_shift (t : list Z) (carry : Z) : list Z * Z :=
  match t with
  | [] => ([], carry)
  | b :: t' =>
    let next := (b >> 7) .& 1 in
    let '(r, c) := gf128_shift t' next in
    (u8 ((b << 1) .| carry) :: r, c)
  end.

Definition gf128_mul_x_le (t : list Z) : list Z :=
  let '(t, carry) := gf128_shift t 0 in
  if carry =? 0 then t else <[0%nat := nthZ t 0 .^ 0x87]> t.

Record XTS_CTX := { data_ctx : AES_CTX; tweak_ctx : AES_CTX }.

(** [aes_init_enc (ctx, key, key_len)] where [key] points into the object [obj] at
    [off]: it reads [key_len / 4] words, and [i / nk] must stay inside [RCON]. *)
Definition aes_init_at (obj : list Z) (off key_len : Z) : option AES_CTX :=
  let nk := key_len / 4 in
  if (nk =? 4) || ((6 <=? nk) && (nk <=? 60)) then
    key ← sub obj off (4 * nk); Some (aes_init_enc key key_len)
  else None.

Definition xts_init (key : list Z) (key_len : Z) : option XTS_CTX :=
  let half := key_len / 2 in
  d ← aes_init_at key 0 half;
  t ← aes_init_at key half half;
  Some {| data_ctx := d; tweak_ctx := t |}.

Definition aes_crypt_block (ctx : AES_CTX) (decrypt : bool) (b : list Z) : list Z :=
  if decrypt then aes_decrypt_block ctx b else aes_encrypt_block ctx b.

(** The loop of [xts_crypt] over [k] blocks of [inp]. *)
Fixpoint xts_blocks (k : nat) (ctx : XTS_CTX) (tweak inp : list Z) (decrypt : bool) : list Z :=
  match k with
  | O => []
  | S k' =>
    let tmp := xor_bytes (take 16 inp) tweak in
    let tmp := aes_crypt_block (data_ctx ctx) decrypt tmp in
    xor_bytes tmp tweak ++ xts_blocks k' ctx (gf128_mul_x_le tweak) (drop 16 inp) decrypt
  end.

Definition xts_crypt (ctx : XTS_CTX) (sector_num : Z) (inp : list Z) (len : Z) (decrypt : bool) : list Z :=
  let tweak := le_bytes 8 sector_num ++ repeat 0 8 in
  let tweak := aes_encrypt_block (tweak_ctx ctx) tweak in
  xts_blocks (Z.to_nat (len / 16)) ctx tweak inp decrypt.

(** ** CBC *)

(** [essiv_ctx] is [None] while its memory is uninitialised. *)
Record CBC_CTX := { enc_ctx : AES_CTX; dec_ctx : AES_CTX; mode : Z; essiv_ctx : option AES_CTX }.

(** [essiv0] is what the memory of [ctx->essiv_ctx] holds before the call;
    [essiv_hash] whether that pointer is not [NULL]. *)
Definition cbc_init (essiv0 : option AES_CTX) (key : list Z) (key_len mode : Z)
    (essiv_hash : bool) (essiv_hash_len : Z) : option CBC_CTX :=
  e ← aes_init_at key 0 key_len;
  d ← aes_init_at key 0 key_len;
  Some {| enc_ctx := e; dec_ctx := d; mode := mode;
          essiv_ctx :=
            if (mode =? CIPHER_CBC_ESSIV) && essiv_hash && (essiv_hash_len >=? 32)
            then Some (aes_init_enc (sha256 (take (Z.to_nat key_len) key)) 32) else essiv0 |}.

Definition make_cbc_iv (ctx : CBC_CTX) (sector_num : Z) : option (list Z) :=
  if mode ctx =? CIPHER_CBC_PLAIN then Some (le_bytes 4 sector_num ++ repeat 0 12)
  else if mode ctx =? CIPHER_CBC_PLAIN64 then Some (le_bytes 8 sector_num ++ repeat 0 8)
  else if mode ctx =? CIPHER_CBC_ESSIV then
    e ← essiv_ctx ctx; Some (aes_encrypt_block e (le_bytes 8 sector_num ++ repeat 0 8))
  else Some (repeat 0 16).

(** The loop of [cbc_decrypt_sector], [in] and [out] being different buffers. *)
Fixpoint cbc_blocks (k : nat) (ctx : CBC_CTX) (iv inp : list Z) : list Z :=
  match k with
  | O => []
  | S k' =>
    let tmp := aes_decrypt_block (dec_ctx ctx) (take 16 inp) in
    xor_bytes tmp iv ++ cbc_blocks k' ctx (take 16 inp) (drop 16 inp)
  end.

Definition cbc_decrypt_sector (ctx : CBC_CTX) (sector_num : Z) (inp : list Z) (len : Z) : option (list Z) :=
  iv ← make_cbc_iv ctx sector_num; Some (cbc_blocks (Z.to_nat (len / 16)) ctx iv inp).

(** ** Multiplication by x in GF(2^128) *)

(** A tweak read as a polynomial, times [x], modulo [x^128 + x^7 + x^2 + x + 1]. *)
Definition gf_x (v : Z) : Z :=
  if 2 * v <? 2 ^ 128 then 2 * v else (2 * v - 2 ^ 128) .^ 0x87.

Lemma shift_byte b c : is_byte b -> c = 0 \/ c = 1 ->
  u8 ((b << 1) .| c) = 2 * b + c - 256 * ((b >> 7) .& 1) /\ ((b >> 7) .& 1 = 0 \/ (b >> 7) .& 1 = 1).
Proof.
  intros Hb Hc. cut ((u8 ((b << 1) .| c) =? 2 * b + c - 256 * ((b >> 7) .& 1)) &&
    (((b >> 7) .& 1 =? 0) || ((b >> 7) .& 1 =? 1)) = true); [lia|].
  revert b Hb. destruct Hc as [-> | ->]; apply byte_exhaust; by vm_compute.
Qed.

Lemma gf128_shift_spec t carry : bytes t -> carry = 0 \/ carry = 1 ->
  let '(r, c) := gf128_shift t carry in
  length r = length t /\ bytes r /\ (c = 0 \/ c = 1) /\
  le_val r + c * 2 ^ (8 * zlen t) = 2 * le_val t + carry.
Proof.
  intros Ht. revert carry. induction Ht as [|b t Hb Ht IH]; intros carry Hc; cbn [gf128_shift].
  { split_and!; [done|constructor|done|]. simpl. lia. }
  destruct (shift_byte b carry Hb Hc) as [E Hn].
  specialize (IH _ Hn). destruct (gf128_shift t ((b >> 7) .& 1)) as [r c].
  destruct IH as (Hl & Hr & Hc' & Hv). split_and!; [simpl; lia|constructor; auto with word|done|].
  rewrite !le_val_cons, E by word. cbn [length]. rewrite Nat2Z.inj_succ, Z.mul_succ_r, Z.pow_add_r by lia.
  change (2 ^ 8) with 256. lia.
Qed.

Lemma le_val_xor0 b t x : is_byte b -> is_byte x -> le_val ((b .^ x) :: t) = le_val (b :: t) .^ x.
Proof.
  intros Hb Hx. unfold le_val. cbn [foldr]. set (v := foldr _ _ _).
  apply Z.bits_inj'; intros i Hi. rewrite Z.lxor_spec, !Z.lor_spec, Z.lxor_spec.
  destruct (Z.ltb_spec i 8).
  - rewrite Z.shiftl_spec_low by lia. done.
  - rewrite <- (u8_byte x), <- (u8_byte b), !wrap_testbit by word. replace (i <? 8) with false by lia.
    cbn [andb xorb]. by rewrite orb_false_r, xorb_false_r.
Qed.

Lemma gf128_mul_x_val t : state t ->
  state (gf128_mul_x_le t) /\ le_val (gf128_mul_x_le t) = gf_x (le_val t).
Proof.
  intros [Hlen Hb]. unfold gf128_mul_x_le.
  pose proof (gf128_shift_spec t 0 Hb (or_introl eq_refl)) as H.
  destruct (gf128_shift t 0) as [r c]. destruct H as (Hl & Hr & Hc & Hv). rewrite Hlen in *.
  pose proof (le_val_bound r Hr) as Hbd. rewrite Hl in Hbd. change (8 * Z.of_nat 16) with 128 in *. unfold gf_x.
  destruct Hc as [-> | ->]; cbn [Z.eqb].
  - rewrite (proj2 (Z.ltb_lt (2 * le_val t) _)) by lia. split; [done|lia].
  - rewrite (proj2 (Z.ltb_ge (2 * le_val t) _)) by lia. destruct r as [|b r]; [done|].
    change (<[0%nat := _]> (b :: r)) with ((b .^ 0x87) :: r).
    inversion Hr as [|?? Hb0 Hr']. assert (is_byte 0x87) as H87 by done. split.
    + split; [done|]. constructor; [by apply is_byte_lxor|done].
    + rewrite le_val_xor0 by done. f_equal. lia.
Qed.

(** ** XTS *)

(** The tweak of block [j]. *)
Definition xts_tweak (ctx : XTS_CTX) (sector_num : Z) (j : nat) : list Z :=
  Nat.iter j gf128_mul_x_le (aes_encrypt_block (tweak_ctx ctx) (le_bytes 8 sector_num ++ repeat 0 8)).

Lemma iv_state n v : (n <= 16)%nat -> state (le_bytes n v ++ repeat 0 (16 - n)).
Proof.
  intros. split; [rewrite length_app, le_bytes_length, repeat_length; lia|].
  apply Forall_app. split; word.
Qed.

Lemma iter_tweak_state j t : state t ->
  state (Nat.iter j gf128_mul_x_le t) /\ le_val (Nat.iter j gf128_mul_x_le t) = Nat.iter j gf_x (le_val t).
Proof.
  intros Ht. induction j as [|j [IHs IHv]]; [done|]. rewrite !Nat.iter_succ.
  destruct (gf128_mul_x_val _ IHs) as [Hs ->]. by rewrite IHv.
Qed.

Lemma xor_state a b : state a -> state b -> state (xor_bytes a b).
Proof. intros [Ha ?] [Hb ?]. split; [rewrite xor_bytes_length; lia|word]. Qed.

Lemma block_state (l : list Z) k : bytes l -> length l = (16 * S k)%nat -> state (take 16 l).
Proof. intros. split; [rewrite length_take; lia|by apply Forall_take]. Qed.

Lemma add_rk_length k off s : length (add_rk k off s) = length s.
Proof. apply foldl_length. intros. unfold add_rk_col, set. by rewrite !length_insert. Qed.

Lemma dec_round_length ctx s rd : length (dec_round ctx s rd) = length s.
Proof.
  assert (length (add_rk (rk ctx) (rd * 4) (inv_sub_bytes (inv_shift_rows s))) = length s) as H.
  { rewrite add_rk_length. unfold inv_sub_bytes, inv_shift_rows, set. by rewrite length_map, !length_insert. }
  unfold dec_round. case_match; [|done]. unfold inv_mix_columns. rewrite foldl_length; [done|].
  intros. unfold inv_mix_column, set. by rewrite !length_insert.
Qed.

Lemma crypt_length ctx d b : state b -> length (aes_crypt_block ctx d b) = 16%nat.
Proof.
  intros Hb. destruct d; [|apply (aes_encrypt_state ctx b Hb)].
  unfold aes_crypt_block, aes_decrypt_block. rewrite (take_ge b) by (destruct Hb; lia).
  rewrite foldl_length by apply dec_round_length. rewrite add_rk_length. apply Hb.
Qed.

Lemma xts_blocks_length k ctx tweak inp d :
  length inp = (16 * k)%nat -> bytes inp -> state tweak -> length (xts_blocks k ctx tweak inp d) = (16 * k)%nat.
Proof.
  revert tweak inp. induction k as [|k IH]; intros tweak inp Hl Hb Ht; [done|]. cbn [xts_blocks].
  pose proof (block_state inp k Hb Hl) as Hs.
  rewrite length_app, xor_bytes_length, (crypt_length _ d) by by apply xor_state.
  rewrite IH; [destruct Ht; lia|rewrite length_drop; lia|by apply Forall_drop|by apply gf128_mul_x_val].
Qed.

(** Each block of the output depends on the same block of the input only. *)
Lemma xts_blocks_nth k ctx tweak inp d j :
  length inp = (16 * k)%nat -> bytes inp -> state tweak -> (j < k)%nat ->
  take 16 (drop (16 * j) (xts_blocks k ctx tweak inp d)) =
  let t := Nat.iter j gf128_mul_x_le tweak in
  xor_bytes (aes_crypt_block (data_ctx ctx) d (xor_bytes (take 16 (drop (16 * j) inp)) t)) t.
Proof.
  revert tweak inp j. induction k as [|k IH]; intros tweak inp j Hl Hb Ht Hj; [lia|]. cbn [xts_blocks].
  pose proof (block_state inp k Hb Hl) as Hs.
  assert (length (xor_bytes (aes_crypt_block (data_ctx ctx) d (xor_bytes (take 16 inp) tweak)) tweak) = 16%nat) as Hx.
  { rewrite xor_bytes_length, crypt_length by by apply xor_state. destruct Ht; lia. }
  destruct j as [|j].
  - cbn [Nat.mul Nat.iter]. rewrite !drop_0, take_app_le, take_ge by lia. done.
  - replace (16 * S j)%nat with (16 + 16 * j)%nat by lia. rewrite <- !drop_drop, (drop_app_length' _ _ 16) by done.
    rewrite IH; [|rewrite length_drop; lia|by apply Forall_drop|by apply gf128_mul_x_val|lia].
    cbv zeta. by rewrite <- Nat.iter_succ_r.
Qed.

Lemma xts_blocks_inverse k ctx tweak inp :
  length inp = (16 * k)%nat -> bytes inp -> state tweak ->
  xts_blocks k ctx tweak (xts_blocks k ctx tweak inp false) true = inp.
Proof.
  revert tweak inp. induction k as [|k IH]; intros tweak inp Hl Hb Ht.
  { symmetry. apply nil_length_inv. lia. }
  cbn [xts_blocks]. pose proof (block_state inp k Hb Hl) as Hs.
  set (x := xor_bytes (take 16 inp) tweak). assert (state x) as Hx by by apply xor_state.
  pose proof (aes_encrypt_state (data_ctx ctx) x Hx) as He. cbn [aes_crypt_block].
  set (c := aes_encrypt_block (data_ctx ctx) x) in *.
  destruct Ht as [Ht Htb]. destruct He as [He Heb]. destruct Hs as [Hs1 Hs2].
  assert (length (xor_bytes c tweak) = 16%nat) as Hc by (rewrite xor_bytes_length; lia).
  rewrite take_app_length', drop_app_length' by done.
  rewrite IH by (rewrite ?length_drop; (lia || by apply Forall_drop || by apply gf128_mul_x_val)).
  rewrite (xor_bytes_cancel c tweak) by lia. unfold c. rewrite aes_dec_enc by done.
  unfold x. rewrite xor_bytes_cancel by lia. by rewrite take_drop.
Qed.

Lemma first_tweak_state ctx sn : state (aes_encrypt_block (tweak_ctx ctx) (le_bytes 8 sn ++ repeat 0 8)).
Proof. apply aes_encrypt_state, (iv_state 8). lia. Qed.

(** ** CBC *)

(** CBC encryption, the reference the decryption is compared with. *)
Fixpoint cbc_encrypt (k : nat) (ctx : AES_CTX) (iv m : list Z) : list Z :=
  match k with
  | O => []
  | S k' =>
    let c := aes_encrypt_block ctx (xor_bytes (take 16 m) iv) in
    c ++ cbc_encrypt k' ctx c (drop 16 m)
  end.

Lemma cbc_blocks_inverse k ctx iv m :
  length m = (16 * k)%nat -> bytes m -> state iv ->
  cbc_blocks k ctx iv (cbc_encrypt k (dec_ctx ctx) iv m) = m.
Proof.
  revert iv m. induction k as [|k IH]; intros iv m Hl Hb Hiv.
  { symmetry. apply nil_length_inv. lia. }
  cbn [cbc_blocks cbc_encrypt]. pose proof (block_state m k Hb Hl) as Hs.
  set (x := xor_bytes (take 16 m) iv). assert (state x) as Hx by by apply xor_state.
  pose proof (aes_encrypt_state (dec_ctx ctx) x Hx) as He. set (c := aes_encrypt_block (dec_ctx ctx) x) in *.
  destruct He as [He Heb]. destruct Hiv as [Hi Hib]. destruct Hs as [Hs1 Hs2].
  rewrite take_app_length', drop_app_length' by done.
  rewrite IH by (rewrite ?length_drop; (lia || by apply Forall_drop || done)).
  unfold c. rewrite aes_dec_enc by done. unfold x. rewrite xor_bytes_cancel by lia. by rewrite take_drop.
Qed.

Lemma cbc_init_ctx essiv0 key key_len md hash hl ctx :
  cbc_init essiv0 key key_len md hash hl = Some ctx -> enc_ctx ctx = dec_ctx ctx /\ mode ctx = md.
Proof.
  unfold cbc_init. destruct (aes_init_at key 0 key_len); [|done]. cbn [mbind option_bind].
  by intros [= <-].
Qed.

Lemma make_cbc_iv_state ctx sn iv : make_cbc_iv ctx sn = Some iv -> state iv.
Proof.
  unfold make_cbc_iv. repeat case_match; try (intros [= <-]).
  - by apply (iv_state 4); lia.
  - by apply (iv_state 8); lia.
  - destruct (essiv_ctx ctx); [|done]. intros [= <-]. apply aes_encrypt_state, (iv_state 8). lia.
  - by apply (iv_state 0 0); lia.
Qed.

(** ** Theorems *)

(** [C27] XTS: the output has one block per whole input block, and block [j] is the
    block cipher applied between two additions of the tweak [E(sector) * x^j],
    the powers taken in GF(2^128), in the data unit's little-endian reading. *)
Theorem xts_crypt_blocks (ctx : XTS_CTX) (sn : Z) (inp : list Z) (len : Z) (d : bool) (j : nat)
    (Hlen : zlen inp = len) (Hb : bytes inp) (H16 : len mod 16 = 0) (Hj : 16 * (Z.of_nat j + 1) <= len) :
  let out := xts_crypt ctx sn inp len d in
  let t := xts_tweak ctx sn j in
  zlen out = len /\ length t = 16%nat /\
  le_val t = Nat.iter j gf_x
    (le_val (aes_encrypt_block (tweak_ctx ctx) (le_bytes 8 sn ++ repeat 0 8))) /\
  take 16 (drop (16 * j) out) =
    xor_bytes (aes_crypt_block (data_ctx ctx) d (xor_bytes (take 16 (drop (16 * j) inp)) t)) t.
Proof.
  cbv zeta. unfold xts_crypt, xts_tweak. pose proof (first_tweak_state ctx sn) as Ht.
  pose proof (Z.div_mod len 16 ltac:(lia)).
  assert (length inp = 16 * Z.to_nat (len / 16))%nat as Hl by lia.
  destruct (iter_tweak_state j _ Ht) as [[Htl _] Htv]. split_and!; [|done|done|].
  - rewrite xts_blocks_length by done. lia.
  - apply xts_blocks_nth; (done || lia).
Qed.

Definition demo_xts : XTS_CTX :=
  {| data_ctx := aes_init_enc (seqZ 0 32) 32; tweak_ctx := aes_init_enc (seqZ 32 32) 32 |}.

Lemma xts_crypt_blocks_witness :
  take 16 (drop 16 (xts_crypt demo_xts 5 (seqZ 0 32) 32 false)) =
  xor_bytes (aes_crypt_block (data_ctx demo_xts) false (xor_bytes (seqZ 16 16) (xts_tweak demo_xts 5 1)))
    (xts_tweak demo_xts 5 1).
Proof.
  apply (xts_crypt_blocks demo_xts 5 (seqZ 0 32) 32 false 1).
  - reflexivity.
  - apply (bool_decide_unpack _). vm_compute. exact I.
  - reflexivity.
  - lia.
Defined.

(** XTS decryption of a sector undoes its encryption, for every pair of keys and
    every sector number. *)
Theorem xts_roundtrip (ctx : XTS_CTX) (sn : Z) (inp : list Z) (len : Z)
    (Hlen : zlen inp = len) (Hb : bytes inp) (H16 : len mod 16 = 0) :
  xts_crypt ctx sn (xts_crypt ctx sn inp len false) len true = inp.
Proof.
  unfold xts_crypt. pose proof (Z.div_mod len 16 ltac:(lia)).
  apply xts_blocks_inverse; [lia|done|apply first_tweak_state].
Qed.

Lemma xts_roundtrip_witness :
  xts_crypt demo_xts 5 (xts_crypt demo_xts 5 (seqZ 0 48) 48 false) 48 true = seqZ 0 48.
Proof.
  apply (xts_roundtrip demo_xts 5 (seqZ 0 48) 48).
  - reflexivity.
  - apply (bool_decide_unpack _). vm_compute. exact I.
  - reflexivity.
Defined.

(** With a context set up by [cbc_init], [cbc_decrypt_sector] undoes CBC
    encryption under the same key and the sector's initialisation vector. *)
Theorem cbc_decrypts (essiv0 : option AES_CTX) (key : list Z) (key_len md : Z) (hash : bool) (hl : Z)
    (ctx : CBC_CTX) (sn : Z) (iv m : list Z) (len : Z)
    (Hinit : cbc_init essiv0 key key_len md hash hl = Some ctx) (Hiv : make_cbc_iv ctx sn = Some iv)
    (Hlen : zlen m = len) (Hb : bytes m) (H16 : len mod 16 = 0) :
  cbc_decrypt_sector ctx sn (cbc_encrypt (Z.to_nat (len / 16)) (enc_ctx ctx) iv m) len = Some m.
Proof.
  destruct (cbc_init_ctx _ _ _ _ _ _ _ Hinit) as [-> _].
  unfold cbc_decrypt_sector. rewrite Hiv. cbn [mbind option_bind]. f_equal.
  pose proof (Z.div_mod len 16 ltac:(lia)).
  apply cbc_blocks_inverse; [lia|done|by eapply make_cbc_iv_state].
Qed.

Definition demo_cbc : CBC_CTX :=
  {| enc_ctx := aes_init_enc (seqZ 0 32) 32; dec_ctx := aes_init_enc (seqZ 0 32) 32; mode := CIPHER_CBC_PLAIN64;
     essiv_ctx := None |}.

Lemma cbc_decrypts_witness :
  cbc_decrypt_sector demo_cbc 258 (cbc_encrypt 2 (enc_ctx demo_cbc) (2 :: 1 :: repeat 0 14) (seqZ 0 32)) 32 =
  Some (seqZ 0 32).
Proof.
  apply (cbc_decrypts None (seqZ 0 32) 32 CIPHER_CBC_PLAIN64 true 32 demo_cbc 258 (2 :: 1 :: repeat 0 14) (seqZ 0 32) 32).
  - reflexivity.
  - reflexivity.
  - reflexivity.
  - apply (bool_decide_unpack _). vm_compute. exact I.
  - reflexivity.
Defined.

(** The initialisation vectors: [plain] is the sector number modulo 2^32,
    [plain64] the whole number, [essiv] its encryption under the SHA-256 of the
    key; but when [cbc_init] is given no ESSIV hash, or a key shorter than 32
    bytes, the context it uses for [essiv] is whatever its memory held before. *)
Theorem cbc_iv (essiv0 : option AES_CTX) (key : list Z) (key_len md : Z) (hash : bool) (hl sn : Z)
    (ctx : CBC_CTX) (Hinit : cbc_init essiv0 key key_len md hash hl = Some ctx) (Hsn : 0 <= sn < 2 ^ 64) :
  (md = CIPHER_CBC_PLAIN -> exists iv, make_cbc_iv ctx sn = Some iv /\ le_val (take 8 iv) = sn mod 2 ^ 32) /\
  (md = CIPHER_CBC_PLAIN64 -> exists iv, make_cbc_iv ctx sn = Some iv /\ le_val (take 8 iv) = sn) /\
  (md = CIPHER_CBC_ESSIV -> hash = true -> 32 <= hl ->
     make_cbc_iv ctx sn = Some (aes_encrypt_block (aes_init_enc (sha256 (take (Z.to_nat key_len) key)) 32)
       (le_bytes 8 sn ++ repeat 0 8))) /\
  (md = CIPHER_CBC_ESSIV -> hash = false \/ hl < 32 ->
     make_cbc_iv ctx sn = e ← essiv0; Some (aes_encrypt_block e (le_bytes 8 sn ++ repeat 0 8))).
Proof.
  revert Hinit. unfold cbc_init. destruct (aes_init_at key 0 key_len) as [e|]; [|done].
  cbn [mbind option_bind]. intros [= <-]. split_and!.
  - intros ->. eexists. split; [reflexivity|].
    change (take 8 _) with (le_bytes 4 sn ++ repeat 0 4).
    transitivity (le_val (le_bytes 4 sn)); [reflexivity|]. apply le_val_le_bytes.
  - intros ->. eexists. split; [reflexivity|].
    change (take 8 _) with (le_bytes 8 sn). rewrite le_val_le_bytes. by apply wrap_small.
  - intros -> -> Hhl. unfold make_cbc_iv. cbn [mode essiv_ctx].
    by rewrite Z.geb_leb, (proj2 (Z.leb_le _ _) Hhl).
  - intros -> Hh. unfold make_cbc_iv. cbn [mode essiv_ctx]. destruct Hh as [-> | Hh]; [done|].
    rewrite Z.geb_leb, (proj2 (Z.leb_gt _ _) Hh), andb_false_r. done.
Qed.

Lemma cbc_iv_witness :
  exists iv, make_cbc_iv {| enc_ctx := aes_init_enc (seqZ 0 16) 16; dec_ctx := aes_init_enc (seqZ 0 16) 16;
    mode := CIPHER_CBC_PLAIN; essiv_ctx := None |} (2 ^ 32 + 7) = Some iv /\ le_val (take 8 iv) = 7.
Proof.
  apply (cbc_iv None (seqZ 0 16) 16 CIPHER_CBC_PLAIN true 16 (2 ^ 32 + 7)).
  - reflexivity.
  - lia.
  - reflexivity.
Defined.

Example cipher_modes : map cipher_mode_id
  [cs "xts-plain64"; cs "cbc-essiv:sha256"; cs "cbc-plain"; cs "cbc-plain64"; cs "ecb"; []] =
  [CIPHER_XTS; CIPHER_CBC_ESSIV; CIPHER_CBC_PLAIN; CIPHER_CBC_PLAIN64; CIPHER_XTS; CIPHER_XTS].
Proof. reflexivity. Qed.
