(* ===== verification/Luks1.v ===== *)
(** * Luks1: unlocking a LUKS1 volume, [luks/luks1.c]

    [luks1_unlock] reads the header and tries the enabled key slots in order.  The
    device is the callback [read_fn]; the static scratch arrays are explicit state.
    In a result, [None] is behaviour C leaves undefined, for example an access
    outside an array; a failure the code reports is a value. *)

From S2P Require Import Prelude Sha Hmac Aes Cipher.

Module Luks1.

Definition be16r (p : list Z) : Z := (nthZ p 0 << 8) .| nthZ p 1.
Definition be32r (p : list Z) : Z := (nthZ p 0 << 24) .| (nthZ p 1 << 16) .| (nthZ p 2 << 8) .| nthZ p 3.

Definition luks1_probe (buf : list Z) : bool :=
  (nthZ buf 0 =? chr "L") && (nthZ buf 1 =? chr "U") && (nthZ buf 2 =? chr "K") && (nthZ buf 3 =? chr "S") &&
  (nthZ buf 4 =? 0xba) && (nthZ buf 5 =? 0xbe).

(** ** Anti-forensic merge *)

Definition af_xor (dst src : list Z) (len : Z) : list Z := xor_buf dst src len.

Definition af_hash_sector (hash_id sector key_bytes : Z) (data out : list Z) : list Z :=
  hash_compute hash_id (take (Z.to_nat key_bytes) data ++ put_be32 sector) out.

(** One turn of the loop; the stripe's offset [s * key_bytes] is computed in 32 bits. *)
Definition af_step (hash_id : Z) (split : list Z) (key_bytes : Z) (d : list Z) (s : Z) : option (list Z) :=
  blk ← sub split (u32 (s * key_bytes)) key_bytes;
  let d := af_xor d blk key_bytes in
  Some (af_hash_sector hash_id s key_bytes d d).

Definition af_merge (hash_id : Z) (split : list Z) (stripes key_bytes : Z) : option (list Z) :=
  d ← foldlO (af_step hash_id split key_bytes) (repeat 0 64) (seqZ 0 (u32 (stripes - 1)));
  blk ← sub split (u32 (u32 (stripes - 1) * key_bytes)) key_bytes;
  Some (take (Z.to_nat key_bytes) (af_xor d blk key_bytes)).

(** ** Key material *)

(** [buf] with [new] written at [off]. *)
Definition splice (off : Z) (new buf : list Z) : list Z :=
  take (Z.to_nat off) buf ++ new ++ drop (Z.to_nat off + length new) buf.

Definition KM_READ_SECTORS : Z := 256.
Definition KM_BUF_SIZE : Z := KM_READ_SECTORS * 512.

(** The [i]-th turn of the loop over the 512-byte sectors of the key material, for
    XTS and for the CBC modes, on the output buffer. *)
Definition km_sector_xts (ctx : XTS_CTX) (encrypted : list Z) (total_len : Z) (decrypted : list Z) (i : Z) : option (list Z) :=
  let off := i * 512 in
  let chunk := if total_len - off <? 512 then total_len - off else 512 in
  let aligned := (chunk + 15) .& Z.lnot 15 in
  e ← sub encrypted off chunk;
  let tmp := e ++ repeat 0 (512 - length e) in
  let tmp := xts_crypt ctx i tmp aligned true in
  Some (splice off (take (Z.to_nat chunk) tmp) decrypted).

Definition km_sector_cbc (ctx : CBC_CTX) (encrypted : list Z) (total_len : Z) (decrypted : list Z) (i : Z) : option (list Z) :=
  let off := i * 512 in
  let chunk := if total_len - off <? 512 then total_len - off else 512 in
  e ← sub encrypted off chunk;
  p ← cbc_decrypt_sector ctx i e chunk;
  Some (splice off p decrypted).

(** [slot_key] is the whole array [s_slot_key]; [decrypted] the previous contents of
    [s_km_dec].  In the CBC modes the context on the stack starts uninitialised and
    no ESSIV hash is passed. *)
Definition decrypt_key_material (cipher_mode slot_key : list Z) (key_bytes : Z)
    (encrypted decrypted : list Z) (total_len : Z) : option (list Z) :=
  let mode := cipher_mode_id cipher_mode in
  let sectors := seqZ 0 ((total_len + 511) / 512) in
  if mode =? CIPHER_XTS then
    ctx ← xts_init slot_key (key_bytes * 2);
    foldlO (km_sector_xts ctx encrypted total_len) decrypted sectors
  else
    ctx ← cbc_init None slot_key key_bytes mode false 0;
    foldlO (km_sector_cbc ctx encrypted total_len) decrypted sectors.

(** ** The on-disk header *)

Record Luks1KeySlot := {
  active : Z; iterations : Z; salt : list Z; key_material_offset : Z; stripes : Z }.

Record Luks1Header := {
  version : Z; cipher_mode : list Z; hash_spec : list Z; payload_offset : Z; key_bytes : Z;
  mk_digest : list Z; mk_digest_salt : list Z; mk_digest_iter : Z; key_slots : list Luks1KeySlot }.

Definition field (buf : list Z) (off n : nat) : list Z := take n (drop off buf).

Definition parse_slot (buf : list Z) (i : nat) : Luks1KeySlot :=
  let b := drop (208 + 48 * i) buf in
  {| active := be32r b; iterations := be32r (drop 4 b); salt := field b 8 32;
     key_material_offset := be32r (drop 40 b); stripes := be32r (drop 44 b) |}.

Definition parse_header (buf : list Z) : Luks1Header :=
  {| version := be16r (drop 6 buf); cipher_mode := cstr (drop 40 buf); hash_spec := cstr (drop 72 buf);
     payload_offset := be32r (drop 104 buf); key_bytes := be32r (drop 108 buf);
     mk_digest := field buf 112 20; mk_digest_salt := field buf 132 32; mk_digest_iter := be32r (drop 164 buf);
     key_slots := map (parse_slot buf) (seq 0 8) |}.

Definition LUKS1_KEY_ENABLED : Z := 0x00AC71F3.

(** ** Unlocking *)

(** The static arrays [s_slot_key] (64 bytes) and [s_km_dec]. *)
Record scratch := { s_slot_key : list Z; s_km_dec : list Z }.

Section Unlock.
Context (read_fn : Z -> Z -> option (list Z)).
Context (junk : list Z).
Context (passphrase : list Z).

(** The body of the loop over the slots: undefined behaviour, or the scratch arrays
    afterwards and the candidate master key if it was verified. *)
Definition try_slot (h : Luks1Header) (hid : Z) (ks : Luks1KeySlot) (st : scratch) : option (option (list Z) * scratch) :=
  if negb (active ks =? LUKS1_KEY_ENABLED) then Some (None, st) else
  let kb := key_bytes h in
  let km_len := u32 (kb * stripes ks) in
  dk ← pbkdf2 junk junk hid passphrase (salt ks) (iterations ks) kb;
  let st := {| s_slot_key := splice 0 dk (s_slot_key st); s_km_dec := s_km_dec st |} in
  let km_sectors := u32 (km_len + 511) / 512 in
  if km_sectors >? KM_READ_SECTORS then Some (None, st) else
  match read_fn (key_material_offset ks) km_sectors with
  | None => Some (None, st)
  | Some enc =>
    dec ← decrypt_key_material (cipher_mode h) (s_slot_key st) kb enc (s_km_dec st) km_len;
    let st := {| s_slot_key := s_slot_key st; s_km_dec := dec |} in
    candidate_mk ← af_merge hid dec (stripes ks) kb;
    digest ← pbkdf2 junk junk hid candidate_mk (mk_digest_salt h) (mk_digest_iter h) 20;
    if bool_decide (digest = mk_digest h) then Some (Some candidate_mk, st) else Some (None, st)
  end.

Fixpoint try_slots (h : Luks1Header) (hid : Z) (slots : list Luks1KeySlot) (st : scratch) : option (option (list Z) * scratch) :=
  match slots with
  | [] => Some (None, st)
  | ks :: slots' =>
    r ← try_slot h hid ks st;
    match r with
    | (Some mk, st') => Some (Some mk, st')
    | (None, st') => try_slots h hid slots' st'
    end
  end.

(** What [luks1_unlock] writes to its out-parameters. *)
Record unlocked := { master_key : list Z; out_key_bytes : Z; out_payload : Z; out_mode : Z }.

Definition luks1_hash (h : Luks1Header) : Z :=
  let hid := hash_id (hash_spec h) in if hid <? 0 then HASH_SHA1 else hid.

(** Outer [None]: undefined behaviour; inner [None]: the return value -1. *)
Definition luks1_unlock (st : scratch) : option (option unlocked * scratch) :=
  match read_fn 0 4 with
  | None => Some (None, st)
  | Some hdr =>
    if negb (luks1_probe hdr) then Some (None, st) else
    let h := parse_header hdr in
    if negb (version h =? 1) then Some (None, st) else
    if key_bytes h >? 64 then Some (None, st) else
    r ← try_slots h (luks1_hash h) (key_slots h) st;
    match r with
    | (None, st') => Some (None, st')
    | (Some mk, st') =>
      Some (Some {| master_key := mk; out_key_bytes := key_bytes h; out_payload := payload_offset h;
                    out_mode := cipher_mode_id (cipher_mode h) |}, st')
    end
  end.
End Unlock.

(** ** The anti-forensic merge undoes the split *)

(** State of the diffuser after the stripes [rnd]. *)
Definition af_diffuse (hid kb : Z) (rnd : list (list Z)) : list Z :=
  foldl (fun d s => let d := af_xor d (nth (Z.to_nat s) rnd []) kb in af_hash_sector hid s kb d d)
    (repeat 0 64) (seqZ 0 (zlen rnd)).

(** The stripes a formatter writes for the random stripes [rnd] and the key [mk]. *)
Definition af_split (hid kb : Z) (rnd : list (list Z)) (mk : list Z) : list Z :=
  concat rnd ++ xor_bytes (take (Z.to_nat kb) (af_diffuse hid kb rnd)) mk.

Lemma hash_compute_length id m out : length out = 64%nat -> length (hash_compute id m out) = 64%nat.
Proof.
  intros Ho. unfold hash_compute.
  assert (forall d, (length d <= 64)%nat -> length (d ++ drop (length d) out) = 64%nat) as Hp
    by (intros; rewrite length_app, length_drop; lia).
  repeat case_match; [apply Hp..|done].
  - unfold sha1, sha1_final. rewrite out32_length. simpl. lia.
  - unfold sha256, sha256_final. rewrite out32_length. simpl. lia.
  - unfold sha512, sha512_final. destruct (clen _). rewrite out64_length. simpl. lia.
Qed.

Lemma af_xor_length d s len : length s = Z.to_nat len -> (Z.to_nat len <= length d)%nat ->
  length (af_xor d s len) = length d.
Proof.
  intros. unfold af_xor, xor_buf. rewrite length_app, xor_bytes_length, !length_take, length_drop. lia.
Qed.

Lemma af_diffuse_length hid kb rnd : 0 <= kb <= 64 -> Forall (fun b => zlen b = kb) rnd ->
  length (af_diffuse hid kb rnd) = 64%nat.
Proof.
  intros Hkb Hr. unfold af_diffuse.
  cut (forall l (d : list Z), Forall (fun s => 0 <= s < zlen rnd) l -> length d = 64%nat -> length (foldl (fun d s =>
    let d := af_xor d (nth (Z.to_nat s) rnd []) kb in af_hash_sector hid s kb d d) d l) = 64%nat).
  { intros H. apply H; [|done]. apply Forall_forall. intros s Hs. apply elem_of_seqZ in Hs. lia. }
  induction l as [|s l IH]; intros d Hl Hd; [done|]. cbn [foldl].
  apply Forall_cons in Hl as [Hs Hl]. apply IH; [done|].
  apply hash_compute_length. rewrite af_xor_length; [done| |lia].
  destruct (lookup_lt_is_Some_2 rnd (Z.to_nat s)) as [b Hb]; [lia|].
  rewrite (nth_lookup_Some rnd _ [] b Hb). eapply Forall_lookup_1 in Hr; [|exact Hb]. simpl in Hr. lia.
Qed.

Lemma concat_stripes_length kb (rnd : list (list Z)) : Forall (fun b => zlen b = kb) rnd ->
  zlen (concat rnd) = zlen rnd * kb.
Proof.
  induction 1 as [|b rnd Hb Hr IH]; [done|]. cbn [concat]. rewrite length_app, Nat2Z.inj_add, IH, Hb. simpl length. lia.
Qed.

Lemma sub_concat kb (rnd : list (list Z)) rest s b : Forall (fun b => zlen b = kb) rnd ->
  rnd !! s = Some b -> sub (concat rnd ++ rest) (Z.of_nat s * kb) kb = Some b.
Proof.
  intros Hr Hs. pose proof (proj1 (Forall_lookup _ _) Hr _ _ Hs) as Hb. cbn beta in Hb.
  rewrite <- (take_drop_middle rnd s b Hs), concat_app. cbn [concat]. rewrite <- !app_assoc.
  pose proof (lookup_lt_Some _ _ _ Hs).
  assert (zlen (concat (take s rnd)) = Z.of_nat s * kb) as Hl.
  { rewrite (concat_stripes_length kb) by by apply Forall_take. rewrite length_take. f_equal. lia. }
  unfold sub. rewrite decide_True by (rewrite !length_app; lia). f_equal.
  rewrite drop_app_length' by lia. rewrite take_app_length' by lia. done.
Qed.

Lemma af_merge_split hid kb (rnd : list (list Z)) mk rest :
  0 < kb <= 64 -> (zlen rnd + 1) * kb < 2 ^ 32 -> Forall (fun b => zlen b = kb) rnd -> zlen mk = kb ->
  af_merge hid (af_split hid kb rnd mk ++ rest) (zlen rnd + 1) kb = Some mk.
Proof.
  intros Hkb Hn Hr Hmk. unfold af_merge, af_split.
  pose proof (af_diffuse_length hid kb rnd ltac:(lia) Hr) as Hd.
  replace (zlen rnd + 1 - 1) with (zlen rnd) by lia.
  assert (zlen rnd * kb < 2 ^ 32) as Hrk by lia.
  rewrite (wrap_small 32 (zlen rnd)) by nia. rewrite <- app_assoc.
  erewrite foldlO_foldl with (g := fun d s => let d := af_xor d (nth (Z.to_nat s) rnd []) kb in af_hash_sector hid s kb d d);
    cycle 1.
  { intros d s Hs. apply elem_of_seqZ in Hs. unfold af_step. rewrite (wrap_small 32) by nia.
    destruct (lookup_lt_is_Some_2 rnd (Z.to_nat s)) as [b Hb]; [lia|].
    rewrite (nth_lookup_Some rnd _ [] b Hb). replace (s * kb) with (Z.of_nat (Z.to_nat s) * kb) by lia.
    by rewrite (sub_concat kb _ _ _ b Hr Hb). }
  cbn [mbind option_bind]. fold (af_diffuse hid kb rnd). rewrite wrap_small by nia.
  set (x := xor_bytes (take (Z.to_nat kb) (af_diffuse hid kb rnd)) mk).
  assert (length x = Z.to_nat kb) as Hx by (unfold x; rewrite xor_bytes_length, length_take; lia).
  unfold sub. pose proof (concat_stripes_length kb rnd Hr).
  rewrite decide_True by (rewrite !length_app; lia). cbn [mbind option_bind].
  rewrite drop_app_length' by lia. rewrite take_app_length' by lia. f_equal.
  unfold af_xor, xor_buf. rewrite take_app_le, take_ge by (rewrite ?xor_bytes_length, ?length_take; lia).
  unfold x. rewrite (take_ge (xor_bytes _ mk)) by (rewrite xor_bytes_length, length_take; lia).
  rewrite (xor_bytes_comm _ mk), xor_bytes_comm. apply xor_bytes_cancel. rewrite length_take. lia.
Qed.

(** Reading past the split buffer is not prevented. *)
Lemma af_merge_overrun hid split stripes kb :
  0 < kb -> 1 <= stripes < 2 ^ 32 -> zlen split < stripes * kb -> zlen split + kb < 2 ^ 32 ->
  af_merge hid split stripes kb = None.
Proof.
  intros Hkb Hst Hlt Hsz. unfold af_merge. rewrite (wrap_small 32 (stripes - 1)) by lia.
  set (s := zlen split / kb).
  pose proof (Z.div_mod (zlen split) kb ltac:(lia)) as Hdm. fold s in Hdm.
  pose proof (Z.mod_pos_bound (zlen split) kb ltac:(lia)) as Hm.
  assert (0 <= s) by (apply Z.div_pos; lia).
  assert (sub split (u32 (s * kb)) kb = None) as Hsub.
  { unfold sub. rewrite wrap_small, decide_False by nia. done. }
  assert (s <= stripes - 1) as [Hs|Hs]%Z.le_lteq by nia.
  - rewrite (foldlO_stuck _ _ _ s); [done|apply elem_of_seqZ; lia|].
    intros d. unfold af_step. by rewrite Hsub.
  - rewrite <- Hs. destruct (foldlO _ _ _); [|done]. cbn [mbind option_bind]. by rewrite Hsub.
Qed.

(** ** The key buffers *)

(** [decrypt_key_material] fetches the tweak key from [s_slot_key + key_bytes]: with a
    key of at most 32 bytes that is the part of the array the derivation never
    writes, with a longer one it lies outside the array. *)
Lemma xts_init_halves key kb : zlen key = 64 -> kb = 16 \/ kb = 32 ->
  xts_init key (kb * 2) = Some {| data_ctx := aes_init_enc (take (Z.to_nat kb) key) kb;
    tweak_ctx := aes_init_enc (take (Z.to_nat kb) (drop (Z.to_nat kb) key)) kb |}.
Proof.
  intros Hl Hkb. unfold xts_init, aes_init_at. rewrite Z.div_mul by lia.
  destruct Hkb as [-> | ->].
  - change ((16 / 4 =? 4) || _) with true. cbv iota zeta. change (4 * (16 / 4)) with 16.
    unfold sub. by rewrite !decide_True by lia.
  - change ((32 / 4 =? 4) || _) with true. cbv iota zeta. change (4 * (32 / 4)) with 32.
    unfold sub. by rewrite !decide_True by lia.
Qed.

Lemma xts_init_overread key kb : zlen key = 64 -> 32 < kb -> xts_init key (kb * 2) = None.
Proof.
  intros Hl Hkb. unfold xts_init. rewrite Z.div_mul by lia.
  destruct (aes_init_at key 0 kb); [|done]. cbn [mbind option_bind].
  unfold aes_init_at. case_match; [|done]. unfold sub.
  pose proof (Z.div_mod kb 4 ltac:(lia)). pose proof (Z.mod_pos_bound kb 4 ltac:(lia)).
  rewrite decide_False by lia. done.
Qed.

Lemma splice_length off new buf : 0 <= off -> off + zlen new <= zlen buf -> length (splice off new buf) = length buf.
Proof. intros. unfold splice. rewrite !length_app, length_take, length_drop. lia. Qed.

(** Decrypting writes into [s_km_dec] without changing its size. *)
Lemma decrypt_key_material_length md slot_key kb enc dec len dec' :
  len <= zlen dec -> decrypt_key_material md slot_key kb enc dec len = Some dec' -> zlen dec' = zlen dec.
Proof.
  intros Hlen. assert (forall i n, 0 <= i -> i < (len + 511) / 512 ->
    n <= Z.of_nat (Z.to_nat (if len - i * 512 <? 512 then len - i * 512 else 512)) -> i * 512 + n <= zlen dec) as Hb.
  { intros i n Hi Hi2 Hn. pose proof (Z.div_mod (len + 511) 512 ltac:(lia)).
    pose proof (Z.mod_pos_bound (len + 511) 512 ltac:(lia)).
    destruct (Z.ltb_spec (len - i * 512) 512); lia. }
  unfold decrypt_key_material. case_match.
  - destruct (xts_init slot_key (kb * 2)) as [ctx|]; [|done]. cbn [mbind option_bind].
    apply (foldlO_Some (fun d => zlen d = zlen dec)); [|done].
    intros d i d' Hi Hd. apply elem_of_seqZ in Hi. unfold km_sector_xts.
    destruct (sub enc _ _) as [e|]; [|done]. cbn [mbind option_bind]. intros [= <-].
    rewrite splice_length; [done|lia|]. rewrite Hd. apply Hb; [lia..|]. rewrite length_take. lia.
  - destruct (cbc_init _ _ _ _ _ _) as [ctx|]; [|done]. cbn [mbind option_bind].
    apply (foldlO_Some (fun d => zlen d = zlen dec)); [|done].
    intros d i d' Hi Hd. apply elem_of_seqZ in Hi. unfold km_sector_cbc.
    destruct (sub enc _ _) as [e|] eqn:He; [|done]. cbn [mbind option_bind].
    apply sub_length in He. set (chunk := if _ <? _ then _ else _) in *.
    destruct (cbc_decrypt_sector ctx i e chunk) as [pt|] eqn:Hp; [|done]. cbn [mbind option_bind]. intros [= <-].
    rewrite splice_length; [done|lia|]. rewrite Hd. apply Hb; [lia..|]. fold chunk.
    unfold cbc_decrypt_sector in Hp. destruct (make_cbc_iv ctx i) as [iv|] eqn:Hiv; [|done].
    cbn [mbind option_bind] in Hp. injection Hp as <-.
    assert (zlen (cbc_blocks (Z.to_nat (chunk / 16)) ctx iv e) <= 16 * Z.of_nat (Z.to_nat (chunk / 16))).
    { destruct (make_cbc_iv_state _ _ _ Hiv) as [Hv _]. generalize (Z.to_nat (chunk / 16)) as k. intros k.
      assert (length iv <= 16)%nat as Hv' by lia. clear -Hv'. revert iv e Hv'. induction k as [|k IH]; intros; [done|].
      cbn [cbc_blocks]. rewrite length_app, xor_bytes_length.
      specialize (IH (take 16 e) (drop 16 e)). rewrite length_take in IH. lia. }
    pose proof (Z.div_mod chunk 16 ltac:(lia)). pose proof (Z.mod_pos_bound chunk 16 ltac:(lia)).
    assert (0 <= chunk) by lia. assert (0 <= chunk / 16) by (apply Z.div_pos; lia). lia.
Qed.

(** ** Slots *)

Lemma try_slot_verified read_fn junk passphrase h hid ks s0 s1 mk :
  try_slot read_fn junk passphrase h hid ks s0 = Some (Some mk, s1) ->
  active ks = LUKS1_KEY_ENABLED /\ (length mk <= Z.to_nat (key_bytes h))%nat /\
  pbkdf2 junk junk hid mk (mk_digest_salt h) (mk_digest_iter h) 20 = Some (mk_digest h).
Proof.
  intros Hs. unfold try_slot in Hs. destruct (Z.eqb_spec (active ks) LUKS1_KEY_ENABLED) as [Ha|]; [|done].
  cbn [negb] in Hs.
  destruct (pbkdf2 _ _ _ passphrase _ _ _) as [dk|]; [|done]. cbn [mbind option_bind] in Hs.
  case_match; [done|]. destruct (read_fn _ _) as [enc|]; [|done].
  destruct (decrypt_key_material _ _ _ _ _ _) as [dec|]; [|done]. cbn [mbind option_bind] in Hs.
  destruct (af_merge _ dec _ _) as [mk1|] eqn:Hm; [|done]. cbn [mbind option_bind] in Hs.
  destruct (pbkdf2 _ _ _ mk1 _ _ _) as [dg|] eqn:Hd; [|done]. cbn [mbind option_bind] in Hs.
  case_bool_decide as Heq; [|done]. injection Hs as -> _. subst dg. split_and!; [done| |done].
  unfold af_merge in Hm. destruct (foldlO _ _ _); [|done]. cbn [mbind option_bind] in Hm.
  destruct (sub _ _ _); [|done]. cbn [mbind option_bind] in Hm. injection Hm as <-.
  rewrite length_take. lia.
Qed.

Lemma try_slots_verified read_fn junk passphrase h hid slots s0 s1 mk :
  try_slots read_fn junk passphrase h hid slots s0 = Some (Some mk, s1) ->
  exists ks s0' s1', ks ∈ slots /\ try_slot read_fn junk passphrase h hid ks s0' = Some (Some mk, s1').
Proof.
  revert s0. induction slots as [|ks l IH]; intros st Ht; [done|]. cbn [try_slots] in Ht.
  destruct (try_slot _ _ _ h _ ks st) as [[[mk0|] s]|] eqn:Hs; try done; cbn [mbind option_bind] in Ht.
  - injection Ht as -> ->. exists ks, st, s1. split; [set_solver|done].
  - destruct (IH s Ht) as (ks' & s0' & s1' & Hin & H'). exists ks', s0', s1'. split; [set_solver|done].
Qed.

(** ** Theorems *)



(** A successful unlock is a verified one: the header has the magic and version 1,
    the key is that of an enabled slot, has [key_bytes <= 64] bytes, and its PBKDF2
    digest under the header's salt and iteration count is the stored digest. *)
Theorem luks1_unlock_sound (read_fn : Z -> Z -> option (list Z)) (junk passphrase : list Z) (st st' : scratch)
    (u : unlocked) (Hu : luks1_unlock read_fn junk passphrase st = Some (Some u, st')) :
  exists hdr ks, let h := parse_header hdr in
  read_fn 0 4 = Some hdr /\ luks1_probe hdr = true /\ version h = 1 /\ key_bytes h <= 64 /\
  ks ∈ key_slots h /\ active ks = LUKS1_KEY_ENABLED /\
  out_key_bytes u = key_bytes h /\ out_payload u = payload_offset h /\
  out_mode u = cipher_mode_id (cipher_mode h) /\ (length (master_key u) <= Z.to_nat (key_bytes h))%nat /\
  pbkdf2 junk junk (luks1_hash h) (master_key u) (mk_digest_salt h) (mk_digest_iter h) 20 = Some (mk_digest h).
Proof.
  unfold luks1_unlock in Hu. destruct (read_fn 0 4) as [hdr|] eqn:Hr; [|done].
  destruct (luks1_probe hdr) eqn:Hp; [|done]. cbn [negb] in Hu. set (h := parse_header hdr) in *.
  destruct (Z.eqb_spec (version h) 1) as [Hv|]; [|done]. cbn [negb] in Hu.
  destruct (Z.gtb_spec (key_bytes h) 64) as [|Hk]; [done|].
  destruct (try_slots read_fn junk passphrase h (luks1_hash h) (key_slots h) st) as [[[mk|] st1]|] eqn:Ht; try done.
  cbn [mbind option_bind] in Hu. injection Hu as <- _.
  destruct (try_slots_verified _ _ _ _ _ _ _ _ _ Ht) as (ks & s0 & s1 & Hin & Hs).
  destruct (try_slot_verified _ _ _ _ _ _ _ _ _ Hs) as (Ha & Hl & Hd).
  exists hdr, ks. cbv zeta. fold h. cbn [out_key_bytes out_payload out_mode master_key]. by split_and!.
Qed.

(** A volume with one stripe of an all-zero random part, AES-128 in CBC-plain. *)
Definition demo_mk : list Z := seqZ 1 16.
Definition demo_junk : list Z := repeat 0 64.
Definition demo_salt : list Z := repeat 3 32.

Definition demo_header (mode : list Z) (kb strp : Z) : list Z :=
  let get o := default [] o in
  let slot on := be_bytes 4 (if on : bool then LUKS1_KEY_ENABLED else 0xDEAD) ++ be_bytes 4 1 ++ demo_salt ++
    be_bytes 4 8 ++ be_bytes 4 strp in
  let pad n l := l ++ repeat 0 (n - length l) in
  cs "LUKS" ++ [0xba; 0xbe] ++ be_bytes 2 1 ++ pad 32%nat (cs "aes") ++ pad 32%nat mode ++ pad 32%nat (cs "sha1") ++
  be_bytes 4 16 ++ be_bytes 4 kb ++ get (pbkdf2 demo_junk demo_junk HASH_SHA1 demo_mk demo_salt 1 20) ++ demo_salt ++
  be_bytes 4 1 ++ repeat 0 40 ++ slot false ++ slot true ++ concat (repeat (slot false) 6).

Definition demo_read (mode : list Z) (kb strp lba count : Z) : option (list Z) :=
  if lba =? 0 then Some (take (Z.to_nat (512 * count)) (demo_header mode kb strp ++ repeat 0 2048)) else
  if lba =? 8 then
    let dk := default [] (pbkdf2 demo_junk demo_junk HASH_SHA1 (cs "pw") demo_salt 1 16) in
    Some (take (Z.to_nat (512 * count)) (cbc_encrypt 2 (aes_init_enc dk 16) (repeat 0 16)
      (af_split HASH_SHA1 16 [repeat 0 16] demo_mk) ++ repeat 0 480)) else None.

Definition demo_scratch : scratch := {| s_slot_key := repeat 0 64; s_km_dec := repeat 0 512 |}.

Lemma luks1_unlock_sound_witness :
  exists u st', luks1_unlock (demo_read (cs "cbc-plain") 16 2) demo_junk (cs "pw") demo_scratch = Some (Some u, st') /\
  master_key u = demo_mk /\ exists hdr ks, demo_read (cs "cbc-plain") 16 2 0 4 = Some hdr /\ ks ∈ key_slots (parse_header hdr).
Proof.
  eexists {| master_key := demo_mk; out_key_bytes := 16; out_payload := 16; out_mode := CIPHER_CBC_PLAIN |}, _.
  split; [vm_compute; reflexivity|]. split; [reflexivity|].
  destruct (luks1_unlock_sound (demo_read (cs "cbc-plain") 16 2) demo_junk (cs "pw") demo_scratch
    {| s_slot_key := default [] (pbkdf2 demo_junk demo_junk HASH_SHA1 (cs "pw") demo_salt 1 16) ++ repeat 0 48;
       s_km_dec := af_split HASH_SHA1 16 [repeat 0 16] demo_mk ++ repeat 0 480 |}
    {| master_key := demo_mk; out_key_bytes := 16; out_payload := 16; out_mode := CIPHER_CBC_PLAIN |})
    as (hdr & ks & Hr & _ & _ & _ & Hin & _).
  - vm_compute. reflexivity.
  - by exists hdr, ks.
Defined.

(** XTS key material: the whole derived key is used as the data key and the tweak
    key is read behind it.  For 16- and 32-byte volume keys that is the rest of
    [s_slot_key], which PBKDF2 did not write; for the 64-byte keys of AES-256-XTS
    it is outside the array, so no such slot can be tried without undefined
    behaviour. *)
Theorem xts_key_material_keys (slot_key dk mode enc dec : list Z) (kb len : Z)
    (Hs : zlen slot_key = 64) (Hdk : zlen dk = kb) (Hm : cipher_mode_id mode = CIPHER_XTS) :
  (kb = 16 \/ kb = 32 ->
   xts_init (splice 0 dk slot_key) (kb * 2) =
   Some {| data_ctx := aes_init_enc dk kb;
           tweak_ctx := aes_init_enc (take (Z.to_nat kb) (drop (Z.to_nat kb) slot_key)) kb |}) /\
  (32 < kb <= 64 -> decrypt_key_material mode (splice 0 dk slot_key) kb enc dec len = None).
Proof.
  assert (kb <= 64 -> zlen (splice 0 dk slot_key) = 64) as Hl.
  { intros. unfold splice. simpl Z.to_nat. rewrite take_0, !length_app, length_drop. simpl. lia. }
  split.
  - intros Hkb. rewrite xts_init_halves by (auto with lia).
    unfold splice. simpl (Z.to_nat 0). rewrite take_0, app_nil_l, Nat.add_0_l.
    replace (Z.to_nat kb) with (length dk) by lia. by rewrite take_app_length, drop_app_length.
  - intros Hkb. unfold decrypt_key_material. rewrite Hm. change (CIPHER_XTS =? CIPHER_XTS) with true. cbv iota zeta.
    by rewrite xts_init_overread by (try apply Hl; lia).
Qed.

Lemma xts_key_material_keys_witness :
  decrypt_key_material (cs "xts-plain64") (splice 0 (seqZ 0 64) (repeat 0 64)) 64 (repeat 0 512) (repeat 0 512) 512 = None.
Proof.
  apply (xts_key_material_keys (repeat 0 64) (seqZ 0 64) (cs "xts-plain64") (repeat 0 512) (repeat 0 512) 64 512).
  - reflexivity.
  - reflexivity.
  - reflexivity.
  - lia.
Defined.

(** The size check of the key material is defeated by wrap-around: it looks at
    [key_bytes * stripes] modulo 2^32.  If the true product exceeds the scratch
    buffer but the wrapped one does not, trying the slot reads past [s_km_dec]. *)
Theorem luks1_stripes_overflow (read_fn : Z -> Z -> option (list Z)) (junk passphrase enc : list Z)
    (h : Luks1Header) (hid : Z) (ks : Luks1KeySlot) (st : scratch)
    (Ha : active ks = LUKS1_KEY_ENABLED) (Hkb : 0 < key_bytes h <= 64) (Hs : 1 <= stripes ks < 2 ^ 32)
    (Hdec : zlen (s_km_dec st) = KM_BUF_SIZE)
    (Hbig : KM_BUF_SIZE < stripes ks * key_bytes h) (Hwrap : u32 (key_bytes h * stripes ks) <= KM_BUF_SIZE)
    (Hread : read_fn (key_material_offset ks) (u32 (u32 (key_bytes h * stripes ks) + 511) / 512) = Some enc) :
  try_slot read_fn junk passphrase h hid ks st = None.
Proof.
  unfold try_slot. rewrite Ha, Z.eqb_refl. cbn [negb]. cbv zeta. rewrite Hread.
  destruct (pbkdf2 _ _ _ passphrase _ _ _) as [dk|]; [|done]. cbn [mbind option_bind].
  pose proof (wrap_range 32 (key_bytes h * stripes ks) ltac:(lia)) as Hw.
  set (km := u32 (key_bytes h * stripes ks)) in *. unfold KM_BUF_SIZE, KM_READ_SECTORS in *.
  rewrite (wrap_small 32 (km + 511)) by lia.
  assert ((km + 511) / 512 <= 256) as Hsec by (apply Z.lt_succ_r, Z.div_lt_upper_bound; lia).
  rewrite Z.gtb_ltb, (proj2 (Z.ltb_ge _ _) Hsec).
  destruct (decrypt_key_material _ _ _ _ _ _) as [dec|] eqn:Hd; [|done]. cbn [mbind option_bind].
  apply decrypt_key_material_length in Hd; cbn [s_km_dec] in *; [|lia].
  rewrite af_merge_overrun; [done|lia..].
Qed.

Lemma luks1_stripes_overflow_witness :
  let h := {| version := 1; cipher_mode := cs "cbc-plain"; hash_spec := cs "sha1"; payload_offset := 0; key_bytes := 32;
    mk_digest := []; mk_digest_salt := []; mk_digest_iter := 1; key_slots := [] |} in
  try_slot (fun _ _ => Some []) (repeat 0 64) (cs "pw") h HASH_SHA1
    {| active := LUKS1_KEY_ENABLED; iterations := 1; salt := []; key_material_offset := 8; stripes := 2 ^ 27 |}
    {| s_slot_key := repeat 0 64; s_km_dec := repeat 0 (Z.to_nat KM_BUF_SIZE) |} = None.
Proof.
  cbv zeta. apply luks1_stripes_overflow with (enc := []).
  - reflexivity.
  - cbn. lia.
  - cbn. lia.
  - cbn [s_km_dec]. rewrite repeat_length, Z2Nat.id by (vm_compute; discriminate). reflexivity.
  - reflexivity.
  - vm_compute. discriminate.
  - reflexivity.
Defined.

End Luks1.
