(* ===== verification/Luks2.v ===== *)
(** * Luks2: unlocking a LUKS2 volume, [luks/luks2.c]

    The base64 decoder, the flat JSON lookup and [luks2_unlock].  Character arrays are
    the bytes they hold; [int] arithmetic is two's complement, as the compilers
    of the project's toolchains perform it.  [None] is behaviour C leaves
    undefined, a failure the code reports is a value. *)

From S2P Require Import Prelude Sha Hmac Blake2b Argon2 Aes Cipher Luks1.

Module Luks2.
Import Argon2.

(** ** Base64 *)

Definition b64_val (c : Z) : Z :=
  if (chr "A" <=? c) && (c <=? chr "Z") then c - chr "A"
  else if (chr "a" <=? c) && (c <=? chr "z") then c - chr "a" + 26
  else if (chr "0" <=? c) && (c <=? chr "9") then c - chr "0" + 52
  else if c =? chr "+" then 62
  else if c =? chr "/" then 63
  else -1.

(** [buf = (buf << 6) | v]. *)
Definition b64_push (buf v : Z) : Z := i32 (buf << 6) .| v.

(** One turn of the loop, on what was written to [dst] and the variables [buf] and
    [bits]; [cap] is the size of [dst]. *)
Definition b64_step (cap : Z) (st : list Z * Z * Z) (c : Z) : option (list Z * Z * Z) :=
  let '(dst, buf, bits) := st in
  let v := b64_val c in
  if v <? 0 then Some (dst, buf, bits) else
  let buf := b64_push buf v in
  let bits := bits + 6 in
  if bits >=? 8 then
    if zlen dst <? cap then Some (dst ++ [u8 (buf >> (bits - 8))], buf, bits - 8) else None
  else Some (dst, buf, bits).

Definition base64_decode (src : list Z) (cap : Z) : option (list Z) :=
  st ← foldlO (b64_step cap) ([], 0, 0) src; Some (fst (fst st)).

(** ** Flat JSON lookup *)

Fixpoint streqn (a b : list Z) {struct b} : bool :=
  match b with
  | [] => true
  | y :: b' => match a with [] => false | x :: a' => (x =? y) && streqn a' b' end
  end.

(** Position of [needle] in [hay], [i] being the position of [hay] itself. *)
Fixpoint strfind (hay needle : list Z) (i : Z) : Z :=
  if zlen hay - zlen needle <? 0 then -1
  else if streqn hay needle then i
  else match hay with [] => -1 | _ :: hay' => strfind hay' needle (i + 1) end.

Definition QUOTE : Z := 34.

Definition is_json_space (c : Z) : bool := (c =? 32) || (c =? 9) || (c =? 10) || (c =? 13).

(** The value after the first occurrence of ["key":], as the bytes the returned
    pointer and length delimit. *)
Definition json_find_key (j key : list Z) : option (list Z) :=
  let needle := QUOTE :: key ++ [QUOTE; chr ":"] in
  let pos := strfind j needle 0 in
  if pos <? 0 then None else
  let v := skip_while is_json_space (drop (Z.to_nat (pos + zlen needle)) j) in
  match v with
  | [] => None
  | c :: v' =>
    if c =? QUOTE then Some (take_while (fun c => negb (c =? QUOTE)) v')
    else if is_digit c then Some (take_while is_digit v)
    else None
  end.

(** [n = n * 10 + (v[i] - '0')] with signed characters. *)
Definition json_digit (n c : Z) : Z := i32 (n * 10 + ((if c <? 128 then c else c - 256) - 48)).

Definition json_get_int (j key : list Z) : Z :=
  match json_find_key j key with Some v => foldl json_digit 0 v | None => 0 end.

(** What [out], zero-filled by its initialiser, holds up to the terminator written. *)
Definition json_get_str (j key : list Z) (out_max : Z) : list Z :=
  match json_find_key j key with
  | Some v => take (Z.to_nat (if zlen v <? out_max - 1 then zlen v else out_max - 1)) v
  | None => []
  end.

(** ** Probing and merging *)

Definition luks2_probe (buf : list Z) : bool :=
  ((nthZ buf 0 =? chr "L") && (nthZ buf 1 =? chr "U") && (nthZ buf 2 =? chr "K") && (nthZ buf 3 =? chr "S") &&
   (nthZ buf 4 =? 0xba) && (nthZ buf 5 =? 0xbe)) ||
  ((nthZ buf 0 =? chr "S") && (nthZ buf 1 =? chr "K") && (nthZ buf 2 =? chr "U") && (nthZ buf 3 =? chr "L") &&
   (nthZ buf 4 =? 0xba) && (nthZ buf 5 =? 0xbe)).

Definition le64r_l (p : list Z) : Z := foldl (fun v i => u64 (v << 8) .| nthZ p i) 0 [7; 6; 5; 4; 3; 2; 1; 0].

Definition af2_hash_sector (hid sector key_bytes : Z) (data out : list Z) : list Z :=
  hash_compute hid (take (Z.to_nat key_bytes) data ++ put_be32 sector) out.

Definition af2_step (hid : Z) (split : list Z) (key_bytes : Z) (d : list Z) (s : Z) : option (list Z) :=
  blk ← sub split (u32 (s * key_bytes)) key_bytes;
  let d := xor_buf d blk key_bytes in
  Some (af2_hash_sector hid s key_bytes d d).

Definition af2_merge (hid : Z) (split : list Z) (stripes key_bytes : Z) : option (list Z) :=
  d ← foldlO (af2_step hid split key_bytes) (repeat 0 64) (seqZ 0 (u32 (stripes - 1)));
  blk ← sub split (u32 (u32 (stripes - 1) * key_bytes)) key_bytes;
  Some (xor_bytes (take (Z.to_nat key_bytes) d) blk).

(** ** Unlocking *)

Definition LUKS2_KM_BUF : Z := 256 * 512.

(** The characters after the second ['-']. *)
Fixpoint after_dashes (n : nat) (s : list Z) : option (list Z) :=
  match s with
  | [] => None
  | c :: s' =>
    if c =? chr "-" then match n with O => Some s' | S n' => after_dashes n' s' end else after_dashes n s'
  end.

Definition luks2_cipher_mode (j : list Z) : Z :=
  match after_dashes 1 (cstr (json_get_str j (cs "encryption") 64)) with
  | Some m => cipher_mode_id m
  | None => CIPHER_XTS
  end.

(** The static arrays [s2_dk] (64 bytes) and [s2_dec]. *)
Record scratch2 := { s2_dk : list Z; s2_dec : list Z }.

(** One 512-byte step of the decryption of the key material, in place in [s2_dec]. *)
Definition km2_sector (ctx : XTS_CTX) (enc : list Z) (km_size : Z) (dec : list Z) (i : Z) : option (list Z) :=
  let off := i * 512 in
  let chunk := if km_size - off <? 512 then km_size - off else 512 in
  let aligned := (chunk + 15) .& Z.lnot 15 in
  e ← sub enc off aligned;
  Some (Luks1.splice off (xts_crypt ctx i e aligned true) dec).

Section Unlock.
Context (read_fn : Z -> Z -> option (list Z)).
Context (alloc : Z -> bool).
Context (junk : list Z).
Context (passphrase : list Z).

(** The derived key for the keyslot description [j], or the [continue] of a failed
    allocation. *)
Definition luks2_derive (j : list Z) (key_size : Z) : option (option (list Z)) :=
  let kdf_type := json_get_str j (cs "type") 32 in
  salt ← base64_decode (json_get_str j (cs "salt") 128) 64;
  let salt_len := if zlen salt =? 0 then 32 else zlen salt in
  let salt := take (Z.to_nat salt_len) (salt ++ repeat 0 64) in
  if nthZ kdf_type 0 =? chr "a" then
    let a2_type := if nthZ kdf_type 6 =? chr "d" then ARGON2_TYPE_ID else ARGON2_TYPE_I in
    let dflt v d := if v =? 0 then d else v in
    argon2 alloc {| password := passphrase; Argon2.salt := salt;
      time_cost := dflt (u32 (json_get_int j (cs "time"))) 3;
      memory_kb := dflt (u32 (json_get_int j (cs "memory"))) 65536;
      parallelism := dflt (u32 (json_get_int j (cs "cpus"))) 4;
      Argon2.type := a2_type; Argon2.out_len := key_size |}
  else
    let hid := hash_id (cstr (json_get_str j (cs "hash") 32)) in
    let hid := if hid <? 0 then HASH_SHA256 else hid in
    let iters := u32 (json_get_int j (cs "iterations")) in
    let iters := if iters =? 0 then 100000 else iters in
    dk ← pbkdf2 junk junk hid passphrase salt iters key_size; Some (Some dk).

(** The digest check at the end of a turn. *)
Definition luks2_verify (j : list Z) (key_size : Z) (candidate_mk : list Z) : option bool :=
  dig_salt ← base64_decode (json_get_str j (cs "salt") 128) 64;
  expected ← base64_decode (json_get_str j (cs "digest") 128) 64;
  let dhid := hash_id (cstr (json_get_str j (cs "hash") 32)) in
  let dhid := if dhid <? 0 then HASH_SHA256 else dhid in
  let dig_iters := json_get_int j (cs "iterations") in
  let dig_iters := if dig_iters <=? 0 then 100000 else dig_iters in
  let dsize := hash_digest_size dhid in
  computed ← pbkdf2 junk junk dhid candidate_mk dig_salt dig_iters dsize;
  Some (bool_decide (computed = take (Z.to_nat dsize) (expected ++ repeat 0 64))).

Definition luks2_key_size (j : list Z) : Z :=
  let key_size := json_get_int j (cs "key_size") in
  if (key_size <=? 0) || (key_size >? 64) then 32 else key_size.

(** The body of the loop over the keyslots; it does not use the slot number. *)
Definition try_keyslot (j : list Z) (st : scratch2) : option (option (list Z) * scratch2) :=
  let key_size := luks2_key_size j in
  r ← luks2_derive j key_size;
  match r with
  | None => Some (None, st)
  | Some dk =>
    let st := {| s2_dk := Luks1.splice 0 dk (s2_dk st); s2_dec := s2_dec st |} in
    let km_offset := json_get_int j (cs "offset") in
    let km_size := json_get_int j (cs "size") in
    if (km_offset <=? 0) || (km_size <=? 0) then Some (None, st) else
    let km_secs := u32 (km_size + 511) / 512 in
    if u32 (km_secs * 512) >? LUKS2_KM_BUF then Some (None, st) else
    match read_fn (km_offset / 512) km_secs with
    | None => Some (None, st)
    | Some enc =>
      xts ← xts_init (s2_dk st) (key_size * 2);
      dec ← foldlO (km2_sector xts enc km_size) (s2_dec st) (seqZ 0 ((km_size + 511) / 512));
      let st := {| s2_dk := s2_dk st; s2_dec := dec |} in
      let stripes := json_get_int j (cs "stripes") in
      let stripes := if stripes <=? 0 then 4000 else stripes in
      candidate_mk ← af2_merge HASH_SHA256 dec stripes key_size;
      ok ← luks2_verify j key_size candidate_mk;
      if ok : bool then Some (Some candidate_mk, st) else Some (None, st)
    end
  end.

(** [for (slot = 0; slot < 32; slot++)]. *)
Fixpoint try_keyslots (n : nat) (j : list Z) (st : scratch2) : option (option (list Z) * scratch2) :=
  match n with
  | O => Some (None, st)
  | S n' =>
    if bool_decide (json_find_key j (cs "key_size") = None) then Some (None, st) else
    r ← try_keyslot j st;
    match r with
    | (Some mk, st') => Some (Some mk, st')
    | (None, st') => try_keyslots n' j st'
    end
  end.

(** The JSON area as [luks2_unlock] locates it in the binary header. *)
Definition json_area (hdr : list Z) : Z * Z :=
  let json_off := le64r_l (drop 24 hdr) in
  let json_size := le64r_l (drop 32 hdr) in
  (json_off, if json_size >? 65535 then 65535 else json_size).

Definition luks2_unlock (st : scratch2) : option (option Luks1.unlocked * scratch2) :=
  match read_fn 0 8 with
  | None => Some (None, st)
  | Some hdr =>
    if negb (luks2_probe hdr) then Some (None, st) else
    let '(json_off, json_size) := json_area hdr in
    let json_secs := u32 ((json_size + 511) / 512) in
    let json_secs := if json_secs >? 128 then 128 else json_secs in
    match read_fn (json_off / 512) json_secs with
    | None => Some (None, st)
    | Some area =>
      let j := take (Z.to_nat json_size) area in
      let seg_off := match json_find_key j (cs "offset") with Some v => foldl json_digit 0 v | None => 0 end in
      r ← try_keyslots 32 j st;
      match r with
      | (None, st') => Some (None, st')
      | (Some mk, st') =>
        Some (Some {| Luks1.master_key := mk; Luks1.out_key_bytes := luks2_key_size j;
                      Luks1.out_payload := u64 seg_off / 512; Luks1.out_mode := luks2_cipher_mode j |}, st')
      end
    end
  end.
End Unlock.

(** ** Base64 is decoded *)

Definition b64_char (v : Z) : Z :=
  nthZ (cs "ABCDEFGHIJKLMNOPQRSTUVWXYZabcdefghijklmnopqrstuvwxyz0123456789+/") v.

(** RFC 4648 encoding, with padding. *)
Fixpoint b64_encode (m : list Z) : list Z :=
  match m with
  | [] => []
  | [x] => [b64_char (x >> 2); b64_char ((x .& 3) << 4); chr "="; chr "="]
  | [x; y] => [b64_char (x >> 2); b64_char (((x .& 3) << 4) .| (y >> 4)); b64_char ((y .& 15) << 2); chr "="]
  | x :: y :: z :: m' =>
    [b64_char (x >> 2); b64_char (((x .& 3) << 4) .| (y >> 4)); b64_char (((y .& 15) << 2) .| (z >> 6));
     b64_char (z .& 63)] ++ b64_encode m'
  end.

Definition sextet (v : Z) : Prop := 0 <= v < 64.

Lemma b64_val_char v : sextet v -> b64_val (b64_char v) = v.
Proof.
  intros Hv. cut (((63 <? v) || (b64_val (b64_char v) =? v)) = true); [unfold sextet in Hv; lia|].
  assert (is_byte v) as Hb by (unfold sextet, is_byte in *; lia). clear Hv. revert v Hb. apply byte_exhaust. by vm_compute.
Qed.

Lemma b64_push_testbit buf v i : sextet v -> 0 <= i < 32 ->
  Z.testbit (b64_push buf v) i = if i <? 6 then Z.testbit v i else Z.testbit buf (i - 6).
Proof.
  intros Hv Hi. unfold b64_push. rewrite Z.lor_spec, i32_testbit by lia. destruct (Z.ltb_spec i 6).
  - by rewrite Z.shiftl_spec_low by lia.
  - rewrite Z.shiftl_spec by lia. rewrite <- (wrap_small 6 v) by (unfold sextet in Hv; lia).
    rewrite wrap_testbit by lia. replace (i <? 6) with false by lia. by rewrite orb_false_r.
Qed.

(** The byte emitted when [k] bits stay behind, from the last two sextets. *)
Lemma b64_out buf hi lo x k : sextet hi -> sextet lo -> is_byte x -> 0 <= k <= 4 ->
  (forall i, 0 <= i < 2 + k -> Z.testbit hi i = Z.testbit x (i + 6 - k)) ->
  (forall i, k <= i < 6 -> Z.testbit lo i = Z.testbit x (i - k)) ->
  u8 (b64_push (b64_push buf hi) lo >> k) = x.
Proof.
  intros Hh Hl Hx Hk Hhi Hlo. apply Z.bits_inj'; intros i Hi. rewrite wrap_testbit by lia.
  destruct (Z.ltb_spec i 8); [|by rewrite (byte_testbit_high x)].
  rewrite Z.shiftr_spec, b64_push_testbit by (done || lia). cbn [andb]. destruct (Z.ltb_spec (i + k) 6).
  - rewrite Hlo by lia. f_equal. lia.
  - rewrite b64_push_testbit by (done || lia). replace (i + k - 6 <? 6) with true by lia.
    rewrite Hhi by lia. f_equal. lia.
Qed.

Lemma b64_sextets x y z : is_byte x -> is_byte y -> is_byte z ->
  sextet (x >> 2) /\ sextet (((x .& 3) << 4) .| (y >> 4)) /\ sextet (((y .& 15) << 2) .| (z >> 6)) /\ sextet (z .& 63).
Proof.
  intros Hx Hy Hz. assert (forall v, (forall i, 6 <= i -> Z.testbit v i = false) -> 0 <= v -> sextet v) as Hs.
  { intros v Hv Hp. replace v with (wrap 6 v); [apply wrap_range; lia|].
    apply Z.bits_inj'; intros i Hi. rewrite wrap_testbit by lia.
    destruct (Z.ltb_spec i 6); [done|]. by rewrite Hv. }
  assert (forall m i, 0 <= m < 64 -> 6 <= i -> Z.testbit m i = false) as Hm.
  { intros m i Hm Hi. rewrite <- (wrap_small 6 m), wrap_testbit by lia. by replace (i <? 6) with false by lia. }
  unfold is_byte in *. split_and!; apply Hs.
  - intros i Hi. rewrite Z.shiftr_spec by lia. apply byte_testbit_high; [done|lia].
  - apply Z.shiftr_nonneg. lia.
  - intros i Hi. rewrite Z.lor_spec, Z.shiftl_spec, Z.shiftr_spec, Z.land_spec by lia.
    rewrite (byte_testbit_high y) by (done || lia).
    destruct (Z.eq_dec i 6) as [->|]; [by rewrite andb_false_r|].
    destruct (Z.eq_dec i 7) as [->|]; [by rewrite andb_false_r|].
    rewrite <- (wrap_small 2 3), wrap_testbit by lia. replace (i - 4 <? 2) with false by lia. by rewrite andb_false_r.
  - apply Z.lor_nonneg. split; [apply Z.shiftl_nonneg, Z.land_nonneg; lia|apply Z.shiftr_nonneg; lia].
  - intros i Hi. rewrite Z.lor_spec, Z.shiftl_spec, Z.shiftr_spec, Z.land_spec by lia.
    rewrite (byte_testbit_high z) by (done || lia).
    rewrite <- (wrap_small 4 15), wrap_testbit by lia. replace (i - 2 <? 4) with false by lia. by rewrite andb_false_r.
  - apply Z.lor_nonneg. split; [apply Z.shiftl_nonneg, Z.land_nonneg; lia|apply Z.shiftr_nonneg; lia].
  - intros i Hi. rewrite Z.land_spec, (Hm 63) by lia. apply andb_false_r.
  - apply Z.land_nonneg. lia.
Qed.

Lemma land_ones_bit x n i : 0 <= i < n -> Z.testbit (x .& Z.ones n) i = Z.testbit x i.
Proof. intros. rewrite Z.land_spec, Z.ones_spec_low, andb_true_r by lia. done. Qed.

Lemma shift_or_bit x y s r i : is_byte y -> 0 <= s -> 0 <= r -> s <= i -> 8 <= r + s ->
  Z.testbit ((x << s) .| (y >> r)) i = Z.testbit x (i - s).
Proof.
  intros. rewrite Z.lor_spec, Z.shiftl_spec, Z.shiftr_spec by lia.
  rewrite (byte_testbit_high y) by (done || lia). apply orb_false_r.
Qed.

Lemma shift_or_low x y s r i : 0 <= r -> 0 <= i < s -> Z.testbit ((x << s) .| (y >> r)) i = Z.testbit y (i + r).
Proof. intros. rewrite Z.lor_spec, Z.shiftl_spec_low, Z.shiftr_spec by lia. done. Qed.

(** The bytes of a quantum come back out. *)
Lemma b64_quantum buf x y z : is_byte x -> is_byte y -> is_byte z ->
  let b0 := b64_push buf (x >> 2) in let b1 := b64_push b0 (((x .& 3) << 4) .| (y >> 4)) in
  let b2 := b64_push b1 (((y .& 15) << 2) .| (z >> 6)) in let b3 := b64_push b2 (z .& 63) in
  u8 (b1 >> 4) = x /\ u8 (b2 >> 2) = y /\ u8 (b3 >> 0) = z.
Proof.
  intros Hx Hy Hz. destruct (b64_sextets x y z Hx Hy Hz) as (H0 & H1 & H2 & H3). cbv zeta.
  change 3 with (Z.ones 2) in *. change 15 with (Z.ones 4) in *. change 63 with (Z.ones 6) in *.
  split_and!; apply b64_out; try done; try lia; intros i Hi.
  - rewrite Z.shiftr_spec by lia. f_equal. lia.
  - rewrite shift_or_bit, land_ones_bit by (done || lia). done.
  - rewrite shift_or_low by lia. f_equal. lia.
  - rewrite shift_or_bit, land_ones_bit by (done || lia). done.
  - rewrite shift_or_low by lia. f_equal. lia.
  - rewrite land_ones_bit by lia. f_equal. lia.
Qed.

Lemma b64_step_char cap dst buf bits v : sextet v ->
  b64_step cap (dst, buf, bits) (b64_char v) =
  (if bits + 6 >=? 8 then
     if zlen dst <? cap then Some (dst ++ [u8 (b64_push buf v >> (bits + 6 - 8))], b64_push buf v, bits + 6 - 8) else None
   else Some (dst, b64_push buf v, bits + 6)).
Proof.
  intros Hv. unfold b64_step. rewrite b64_val_char by done.
  rewrite (proj2 (Z.ltb_ge v 0)) by (unfold sextet in Hv; lia). done.
Qed.

Lemma b64_step_pad cap st : b64_step cap st (chr "=") = Some st.
Proof. by destruct st as [[dst buf] bits]. Qed.

(** A whole quantum, with the capacity looked at before each byte. *)
Lemma b64_quantum_steps cap dst buf x y z rest : is_byte x -> is_byte y -> is_byte z ->
  exists buf', foldlO (b64_step cap) (dst, buf, 0)
    ([b64_char (x >> 2); b64_char (((x .& 3) << 4) .| (y >> 4)); b64_char (((y .& 15) << 2) .| (z >> 6));
      b64_char (z .& 63)] ++ rest) =
  if zlen dst + 3 <=? cap then foldlO (b64_step cap) (dst ++ [x; y; z], buf', 0) rest else None.
Proof.
  intros Hx Hy Hz. destruct (b64_sextets x y z Hx Hy Hz) as (H0 & H1 & H2 & H3).
  destruct (b64_quantum buf x y z Hx Hy Hz) as (E1 & E2 & E3). cbv zeta in *.
  eexists. cbn [app foldlO]. rewrite !b64_step_char by done. change (0 + 6 >=? 8) with false. cbv iota.
  rewrite !b64_step_char by done. change (0 + 6 + 6 >=? 8) with true. cbv iota. change (0 + 6 + 6 - 8) with 4. rewrite E1.
  destruct (Z.ltb_spec (zlen dst) cap) as [Hc0|Hc0]; [|by rewrite (proj2 (Z.leb_gt _ _)) by lia].
  rewrite !b64_step_char by done. change (4 + 6 >=? 8) with true. cbv iota. change (4 + 6 - 8) with 2. rewrite E2.
  rewrite length_app. cbn [length].
  destruct (Z.ltb_spec (Z.of_nat (length dst + 1)) cap) as [Hc1|Hc1]; [|by rewrite (proj2 (Z.leb_gt _ _)) by lia].
  rewrite !b64_step_char by done. change (2 + 6 >=? 8) with true. cbv iota. change (2 + 6 - 8) with 0. rewrite E3.
  rewrite !length_app. cbn [length].
  destruct (Z.ltb_spec (Z.of_nat (length dst + 1 + 1)) cap) as [Hc2|Hc2].
  - rewrite (proj2 (Z.leb_le _ _)) by lia. rewrite <- !app_assoc. reflexivity.
  - by rewrite (proj2 (Z.leb_gt _ _)) by lia.
Qed.

Lemma b64_fold cap n m dst buf : (length m <= n)%nat -> bytes m ->
  exists buf' bits', foldlO (b64_step cap) (dst, buf, 0) (b64_encode m) =
  if zlen dst + zlen m <=? cap then Some (dst ++ m, buf', bits') else
  if bool_decide (m = []) then Some (dst, buf', bits') else None.
Proof.
  revert m dst buf. induction n as [|n IH]; intros m dst buf Hn Hm.
  { destruct m; [|simpl in Hn; lia]. exists buf, 0. cbn [b64_encode foldlO length]. case_match; by rewrite ?app_nil_r. }
  destruct m as [|x [|y [|z m]]].
  - exists buf, 0. cbn [b64_encode foldlO length]. case_match; by rewrite ?app_nil_r.
  - apply Forall_cons in Hm as [Hx _]. assert (is_byte 0) as H0 by done.
    destruct (b64_sextets x 0 0 Hx H0 H0) as (S0 & S1 & _). destruct (b64_quantum buf x 0 0 Hx H0 H0) as (E1 & _).
    cbv zeta in E1. rewrite Z.shiftr_0_l, Z.lor_0_r in S1, E1.
    eexists _, 4. cbn [b64_encode foldlO]. rewrite !b64_step_char by done. change (0 + 6 >=? 8) with false. cbv iota.
    rewrite !b64_step_char by done. change (0 + 6 + 6 >=? 8) with true. cbv iota. change (0 + 6 + 6 - 8) with 4. rewrite E1.
    cbn [length]. destruct (Z.ltb_spec (zlen dst) cap).
    + rewrite !b64_step_pad. rewrite (proj2 (Z.leb_le _ _)) by lia. reflexivity.
    + by rewrite (proj2 (Z.leb_gt _ _)) by lia.
  - apply Forall_cons in Hm as [Hx Hm]. apply Forall_cons in Hm as [Hy _]. assert (is_byte 0) as H0 by done.
    destruct (b64_sextets x y 0 Hx Hy H0) as (S0 & S1 & S2 & _). destruct (b64_quantum buf x y 0 Hx Hy H0) as (E1 & E2 & _).
    cbv zeta in E1, E2. rewrite Z.shiftr_0_l, Z.lor_0_r in S2, E2.
    eexists _, 2. cbn [b64_encode foldlO]. rewrite !b64_step_char by done. change (0 + 6 >=? 8) with false. cbv iota.
    rewrite !b64_step_char by done. change (0 + 6 + 6 >=? 8) with true. cbv iota. change (0 + 6 + 6 - 8) with 4. rewrite E1.
    cbn [length]. destruct (Z.ltb_spec (zlen dst) cap); [|by rewrite (proj2 (Z.leb_gt _ _)) by lia].
    rewrite !b64_step_char by done. change (4 + 6 >=? 8) with true. cbv iota. change (4 + 6 - 8) with 2. rewrite E2.
    rewrite length_app. cbn [length]. destruct (Z.ltb_spec (Z.of_nat (length dst + 1)) cap).
    + rewrite !b64_step_pad. rewrite (proj2 (Z.leb_le _ _)) by lia. by rewrite <- app_assoc.
    + by rewrite (proj2 (Z.leb_gt _ _)) by lia.
  - apply Forall_cons in Hm as [Hx Hm]. apply Forall_cons in Hm as [Hy Hm]. apply Forall_cons in Hm as [Hz Hm].
    destruct (b64_quantum_steps cap dst buf x y z (b64_encode m) Hx Hy Hz) as (buf1 & E).
    destruct (IH m (dst ++ [x; y; z]) buf1 ltac:(simpl in Hn; lia) Hm) as (buf2 & bits2 & E2).
    exists buf2, bits2. change (b64_encode (x :: y :: z :: m)) with
      ([b64_char (x >> 2); b64_char (((x .& 3) << 4) .| (y >> 4)); b64_char (((y .& 15) << 2) .| (z >> 6));
        b64_char (z .& 63)] ++ b64_encode m). rewrite E.
    destruct (Z.leb_spec (zlen dst + 3) cap).
    + rewrite E2, length_app. cbn [length]. rewrite <- app_assoc. cbn [app].
      replace (Z.of_nat (length dst + 3) + zlen m) with (zlen dst + Z.of_nat (S (S (S (length m))))) by lia.
      destruct (Z.leb_spec (zlen dst + Z.of_nat (S (S (S (length m))))) cap); [done|].
      destruct m as [|c m]; [cbn [length] in *; lia|]. by rewrite !bool_decide_false.
    + rewrite (proj2 (Z.leb_gt _ _)) by (cbn [length]; lia). by rewrite bool_decide_false.
Qed.

Lemma base64_decode_encode m cap : 0 <= cap -> bytes m ->
  base64_decode (b64_encode m) cap = if zlen m <=? cap then Some m else None.
Proof.
  intros Hcap Hm. unfold base64_decode.
  destruct (b64_fold cap (length m) m [] 0 ltac:(lia) Hm) as (buf & bits & ->). cbn [length app].
  change (Z.of_nat 0 + zlen m) with (zlen m). destruct (Z.leb_spec (zlen m) cap); [done|].
  destruct m as [|c m]; [cbn [length] in *; lia|]. by rewrite bool_decide_false.
Qed.

(** ** JSON lookup *)

Lemma strfind_first hay needle k i :
  (forall n, (n < k)%nat -> streqn (drop n hay) needle = false) ->
  (k + length needle <= length hay)%nat -> streqn (drop k hay) needle = true ->
  strfind hay needle i = i + Z.of_nat k.
Proof.
  revert hay i. induction k as [|k IH]; intros hay i Hbefore Hl Hk; rewrite drop_0 in * || idtac.
  - destruct hay as [|c hay]; cbn [strfind]; rewrite (proj2 (Z.ltb_ge _ _)) by lia; rewrite Hk; lia.
  - destruct hay as [|c hay]; [simpl in Hl; lia|]. cbn [strfind]. simpl length in *.
    rewrite (proj2 (Z.ltb_ge _ _)) by lia. rewrite <- (drop_0 (c :: hay)) at 1. rewrite Hbefore by lia.
    rewrite IH; [lia| |lia|exact Hk]. intros n Hn. apply (Hbefore (S n)). lia.
Qed.

Lemma streqn_app a rest : streqn (a ++ rest) a = true.
Proof. induction a as [|c a IH]; [done|]. cbn [app streqn]. by rewrite Z.eqb_refl. Qed.

Definition json_needle (key : list Z) : list Z := QUOTE :: key ++ [QUOTE; chr ":"].

(** [pre] does not contain the key, not even across its end. *)
Definition absent (pre key rest : list Z) : Prop :=
  forall n, (n < length pre)%nat -> streqn (drop n (pre ++ rest)) (json_needle key) = false.

Lemma json_find_key_first pre key ws c rest :
  absent pre key (json_needle key ++ ws ++ c :: rest) -> Forall (fun x => is_json_space x = true) ws ->
  is_json_space c = false ->
  json_find_key (pre ++ json_needle key ++ ws ++ c :: rest) key =
  (if c =? QUOTE then Some (take_while (fun c => negb (c =? QUOTE)) rest)
   else if is_digit c then Some (take_while is_digit (c :: rest)) else None).
Proof.
  intros Ha Hws Hc. unfold json_find_key. fold (json_needle key).
  rewrite (strfind_first _ _ (length pre) 0).
  - rewrite (proj2 (Z.ltb_ge _ _)) by lia.
    replace (Z.to_nat (0 + Z.of_nat (length pre) + zlen (json_needle key))) with (length pre + length (json_needle key))%nat by lia.
    rewrite <- drop_drop, drop_app_length, drop_app_length, skip_while_app by done. done.
  - done.
  - rewrite !length_app. lia.
  - rewrite drop_app_length. apply streqn_app.
Qed.

Lemma digits_i32 v n : Forall (fun c => is_digit c = true) v -> 0 <= n -> foldl (fun t c => t * 10 + (c - 48)) n v < 2 ^ 31 ->
  foldl json_digit n v = foldl (fun t c => t * 10 + (c - 48)) n v.
Proof.
  revert n. induction v as [|c v IH]; intros n Hv Hn Hlt; [done|]. cbn [foldl] in *.
  apply Forall_cons in Hv as [Hc Hv]. unfold is_digit in Hc. apply andb_true_iff in Hc as [Hc1 Hc2].
  assert (forall v n, Forall (fun c => is_digit c = true) v -> 0 <= n -> n <= foldl (fun t c => t * 10 + (c - 48)) n v) as Hmono.
  { clear. induction v as [|c v IH]; intros n Hv Hn; [done|]. cbn [foldl].
    apply Forall_cons in Hv as [Hc Hv]. unfold is_digit in Hc. specialize (IH (n * 10 + (c - 48)) Hv ltac:(lia)). lia. }
  specialize (Hmono v (n * 10 + (c - 48)) Hv ltac:(lia)).
  assert (json_digit n c = n * 10 + (c - 48)) as ->.
  { unfold json_digit. rewrite (proj2 (Z.ltb_lt c 128)) by lia. apply i32_small. lia. }
  apply IH; [done|lia|done].
Qed.


Lemma show_dec_cons n : 0 <= n < 2 ^ 64 -> exists c v, show_dec n = c :: v.
Proof.
  intros Hn. destruct (show_dec n) as [|c v] eqn:E; [|by exists c, v].
  pose proof (show_dec_val n Hn) as Hv. rewrite E in Hv. cbn in Hv. subst n. done.
Qed.

Lemma json_find_int pre key ws n c rest :
  absent pre key (json_needle key ++ ws ++ show_dec n ++ c :: rest) -> Forall (fun x => is_json_space x = true) ws ->
  0 <= n < 2 ^ 31 -> is_digit c = false ->
  json_find_key (pre ++ json_needle key ++ ws ++ show_dec n ++ c :: rest) key = Some (show_dec n).
Proof.
  intros Ha Hws Hn Hc. pose proof (show_dec_digits n ltac:(lia)) as Hd.
  destruct (show_dec_cons n ltac:(lia)) as (d & v & Ev). rewrite Ev in *. cbn [app] in *.
  apply Forall_cons in Hd as [Hd1 Hd2].
  assert (is_json_space d = false /\ (d =? QUOTE) = false) as [Hsp Hq].
  { unfold is_digit in Hd1. unfold is_json_space, QUOTE. lia. }
  rewrite json_find_key_first by done. rewrite Hq, Hd1. cbn [take_while]. by rewrite Hd1, take_while_app.
Qed.

Lemma json_find_str pre key ws v rest :
  absent pre key (json_needle key ++ ws ++ QUOTE :: v ++ QUOTE :: rest) -> Forall (fun x => is_json_space x = true) ws ->
  Forall (fun c => negb (c =? QUOTE) = true) v ->
  json_find_key (pre ++ json_needle key ++ ws ++ QUOTE :: v ++ QUOTE :: rest) key = Some v.
Proof.
  intros Ha Hws Hv. rewrite json_find_key_first by done. rewrite Z.eqb_refl. by rewrite take_while_app.
Qed.

(** ** The merge is the one of LUKS1 *)

Lemma af2_merge_eq hid split stripes kb : 0 <= kb <= 64 -> af2_merge hid split stripes kb = Luks1.af_merge hid split stripes kb.
Proof.
  intros Hkb. unfold af2_merge, Luks1.af_merge.
  change (af2_step hid split kb) with (Luks1.af_step hid split kb).
  destruct (foldlO (Luks1.af_step hid split kb) (repeat 0 64) (seqZ 0 (u32 (stripes - 1)))) as [d|] eqn:E; [|done].
  assert (length d = 64%nat) as Hd.
  { revert E. apply (foldlO_Some (fun d => length d = 64%nat)); [|done].
    intros a s a' _ Ha. unfold Luks1.af_step. destruct (sub split _ kb) as [blk|] eqn:Hb; [|done].
    cbn [mbind option_bind]. intros [= <-]. apply Luks1.hash_compute_length.
    apply sub_length in Hb. rewrite Luks1.af_xor_length; [done|lia|lia]. }
  cbn [mbind option_bind]. destruct (sub split _ kb) as [blk|] eqn:Hb; [|done]. cbn [mbind option_bind]. f_equal.
  apply sub_length in Hb. unfold Luks1.af_xor, xor_buf.
  rewrite (take_ge blk), take_app_length' by (rewrite ?xor_bytes_length, ?length_take; lia). done.
Qed.

(** ** Theorems *)

(** Decoding undoes RFC 4648 encoding, for byte strings of every length and with
    padding; a string longer than the destination array overruns it, which the
    decoder does not prevent. *)
Theorem base64_roundtrip (m : list Z) (cap : Z) (Hcap : 0 <= cap) (Hm : bytes m) :
  base64_decode (b64_encode m) cap = if zlen m <=? cap then Some m else None.
Proof. by apply base64_decode_encode. Qed.

Lemma base64_roundtrip_witness :
  base64_decode (b64_encode (seqZ 190 31)) 64 = Some (seqZ 190 31) /\
  base64_decode (b64_encode (repeat 7 65)) 64 = None /\ zlen (b64_encode (repeat 7 65)) = 88.
Proof.
  split; [|split; [|reflexivity]].
  - apply (base64_roundtrip (seqZ 190 31) 64); [lia|]. apply (bool_decide_unpack _). vm_compute. exact I.
  - apply (base64_roundtrip (repeat 7 65) 64); [lia|]. apply (bool_decide_unpack _). vm_compute. exact I.
Defined.

(** The JSON lookup finds the value after the first occurrence of the key, skipping
    white space: an integer up to 2^31 - 1 is returned as its value and a string
    is copied, cut to the destination. *)
Theorem json_lookup (pre key ws rest v : list Z) (n c out_max : Z)
    (Hws : Forall (fun x => is_json_space x = true) ws) (Hn : 0 <= n < 2 ^ 31) (Hc : is_digit c = false)
    (Hv : Forall (fun c => negb (c =? QUOTE) = true) v) (Hmax : 0 < out_max)
    (Hint : absent pre key (json_needle key ++ ws ++ show_dec n ++ c :: rest))
    (Hstr : absent pre key (json_needle key ++ ws ++ QUOTE :: v ++ QUOTE :: rest)) :
  json_get_int (pre ++ json_needle key ++ ws ++ show_dec n ++ c :: rest) key = n /\
  json_get_str (pre ++ json_needle key ++ ws ++ QUOTE :: v ++ QUOTE :: rest) key out_max =
    take (Z.to_nat (out_max - 1)) v.
Proof.
  split.
  - unfold json_get_int. rewrite json_find_int by done. pose proof (show_dec_val n ltac:(lia)) as Hval.
    unfold dec_val in Hval. rewrite digits_i32; [done|apply show_dec_digits; lia|lia|lia].
  - unfold json_get_str. rewrite json_find_str by done.
    destruct (Z.ltb_spec (zlen v) (out_max - 1)); [|done]. rewrite !take_ge by lia. done.
Qed.

Lemma json_lookup_witness :
  json_get_int (cs "{a" ++ json_needle (cs "time") ++ [32] ++ show_dec 4 ++ cs ",") (cs "time") = 4.
Proof.
  apply (json_lookup (cs "{a") (cs "time") [32] [] [] 4 (chr ",") 8).
  - by repeat constructor.
  - lia.
  - reflexivity.
  - constructor.
  - lia.
  - intros [|[|n]] Hn; [reflexivity|reflexivity|cbn in Hn; lia].
  - intros [|[|n]] Hn; [reflexivity|reflexivity|cbn in Hn; lia].
Defined.

(** The stored digest is the PBKDF2 digest of [mk], with the stored salt, hash function
    and number of iterations: all of its bytes, the hash's length. *)
Definition digest_matches (junk j mk : list Z) : Prop :=
  exists dig_salt expected,
    base64_decode (json_get_str j (cs "salt") 128) 64 = Some dig_salt /\
    base64_decode (json_get_str j (cs "digest") 128) 64 = Some expected /\
    let id := hash_id (cstr (json_get_str j (cs "hash") 32)) in
    let dhid := if id <? 0 then HASH_SHA256 else id in
    let n := json_get_int j (cs "iterations") in
    pbkdf2 junk junk dhid mk dig_salt (if n <=? 0 then 100000 else n) (hash_digest_size dhid) =
      Some (take (Z.to_nat (hash_digest_size dhid)) (expected ++ repeat 0 64)).

Lemma luks2_verify_digest junk j key_size mk : luks2_verify junk j key_size mk = Some true -> digest_matches junk j mk.
Proof.
  unfold luks2_verify. intros H. apply bind_Some in H as (salt & Es & H). apply bind_Some in H as (expected & Ee & H).
  apply bind_Some in H as (computed & Ec & H).
  apply (inj Some), bool_decide_eq_true in H. subst computed. exists salt, expected. split_and!; [done|done|].
  exact Ec.
Qed.

Lemma json_get_int_range j key : - 2 ^ 31 <= json_get_int j key < 2 ^ 31.
Proof.
  unfold json_get_int. destruct (json_find_key j key) as [v|]; [|lia]. destruct v as [|c v _] using rev_ind; [cbn; lia|].
  rewrite foldl_app. cbn [foldl]. exact (i32_range _).
Qed.

(** Sectors of the key material. *)
Definition km_sectors (j : list Z) : Z := u32 (json_get_int j (cs "size") + 511) / 512.

(** The turn that succeeds. *)
Lemma try_keyslots_found read_fn alloc junk passphrase n j st mk st' :
  try_keyslots read_fn alloc junk passphrase n j st = Some (Some mk, st') ->
  json_find_key j (cs "key_size") <> None /\ luks2_verify junk j (luks2_key_size j) mk = Some true /\
  0 < json_get_int j (cs "offset") /\ exists enc, read_fn (json_get_int j (cs "offset") / 512) (km_sectors j) = Some enc.
Proof.
  revert st. induction n as [|n IH]; intros st Ht; [done|]. cbn [try_keyslots] in Ht.
  case_bool_decide as Hk; [done|]. destruct (try_keyslot _ _ _ _ j st) as [[[mk0|] s]|] eqn:Hs; try done;
    cbn [mbind option_bind] in Ht; [|by apply (IH s)].
  injection Ht as -> ->. split; [done|]. unfold try_keyslot in Hs.
  destruct (luks2_derive _ _ _ j _) as [[dk|]|]; try done. cbn [mbind option_bind] in Hs. cbv zeta in Hs.
  destruct (_ || _) eqn:Hpos; [done|]. destruct (_ >? LUKS2_KM_BUF); [done|]. fold (km_sectors j) in Hs.
  destruct (read_fn (json_get_int j (cs "offset") / 512) (km_sectors j)) as [enc|]; [|done].
  destruct (xts_init _ _) as [ctx|]; [|done]. cbn [mbind option_bind] in Hs.
  destruct (foldlO _ _ _) as [dec|]; [|done]. cbn [mbind option_bind] in Hs.
  destruct (af2_merge _ dec _ _) as [mk1|]; [|done]. cbn [mbind option_bind] in Hs.
  destruct (luks2_verify _ j _ mk1) as [[]|] eqn:Hv; try done. cbn [mbind option_bind] in Hs. injection Hs as -> _.
  split; [done|]. apply orb_false_iff in Hpos as [?%Z.leb_gt _]. split; [done|]. by exists enc.
Qed.

(** What the parts of a successful unlock were. *)
Lemma luks2_unlock_parts read_fn alloc junk passphrase st st' u : luks2_unlock read_fn alloc junk passphrase st = Some (Some u, st') ->
  exists hdr area st1, let j := take (Z.to_nat (snd (json_area hdr))) area in
  read_fn 0 8 = Some hdr /\ luks2_probe hdr = true /\ try_keyslots read_fn alloc junk passphrase 32 j st = Some (Some (Luks1.master_key u), st1) /\
  Luks1.out_key_bytes u = luks2_key_size j /\ Luks1.out_mode u = luks2_cipher_mode j /\ Luks1.out_payload u = u64 (json_get_int j (cs "offset")) / 512.
Proof.
  unfold luks2_unlock. intros Hu. destruct (read_fn 0 8) as [hdr|] eqn:Hr; [|done].
  destruct (luks2_probe hdr) eqn:Hp; [|done]. cbn [negb] in Hu.
  destruct (json_area hdr) as [joff jsize] eqn:Hj. cbv zeta in Hu.
  destruct (read_fn (joff / 512) _) as [area|]; [|done].
  destruct (try_keyslots _ _ _ _ 32 _ st) as [[[mk|] st1]|] eqn:Ht; try done.
  cbn [mbind option_bind] in Hu. injection Hu as <- _. exists hdr, area, st1. cbv zeta. rewrite Hj. by split_and!.
Qed.


(** A LUKS2 volume that unlocks has its payload placed on top of its own key material:
    the segment's offset and the key area's offset are both the first [offset] of the
    metadata, so decrypted data are read from the very sector the key material has just
    been read from. *)
Theorem luks2_payload_on_key_area (read_fn : Z -> Z -> option (list Z)) (alloc : Z -> bool) (junk passphrase : list Z)
    (st st' : scratch2) (u : Luks1.unlocked)
    (Hu : luks2_unlock read_fn alloc junk passphrase st = Some (Some u, st')) :
  exists hdr area, let j := take (Z.to_nat (snd (json_area hdr))) area in
  read_fn 0 8 = Some hdr /\ Luks1.out_payload u = json_get_int j (cs "offset") / 512 /\
  exists enc, read_fn (Luks1.out_payload u) (km_sectors j) = Some enc.
Proof.
  destruct (luks2_unlock_parts _ _ _ _ _ _ _ Hu) as (hdr & area & st1 & Hr & _ & Ht & _ & _ & Hp). exists hdr, area. cbv zeta in *.
  set (j := take _ area) in *. apply try_keyslots_found in Ht as (_ & _ & Hpos & enc & He). pose proof (json_get_int_range j (cs "offset")).
  rewrite wrap_small in Hp by lia. rewrite Hp. split; [done|]. split; [done|]. by exists enc.
Qed.

(** A volume with a PBKDF2 key slot of two stripes, its tweak key the zero half of [s2_dk]. *)
Definition demo3_mk : list Z := seqZ 1 32.

Definition demo3_json : list Z :=
  let q l := QUOTE :: l ++ [QUOTE] in
  let digest := default [] (pbkdf2 (repeat 0 64) (repeat 0 64) HASH_SHA256 demo3_mk [0; 1; 2] 1 32) in
  cs "{" ++ q (cs "key_size") ++ cs ":32," ++ q (cs "type") ++ cs ":" ++ q (cs "pbkdf2") ++ cs "," ++
  q (cs "salt") ++ cs ":" ++ q (cs "AAEC") ++ cs "," ++ q (cs "hash") ++ cs ":" ++ q (cs "sha256") ++ cs "," ++
  q (cs "iterations") ++ cs ": 1," ++ q (cs "offset") ++ cs ":" ++ q (cs "4096") ++ cs "," ++
  q (cs "size") ++ cs ":" ++ q (cs "64") ++ cs "," ++ q (cs "stripes") ++ cs ":2," ++
  q (cs "digest") ++ cs ":" ++ q (b64_encode digest) ++ cs "," ++
  q (cs "encryption") ++ cs ":" ++ q (cs "aes-xts-plain64") ++ cs "}".

Definition demo3_read (lba n : Z) : option (list Z) :=
  if lba =? 0 then
    Some (cs "LUKS" ++ [0xba; 0xbe] ++ repeat 0 18 ++ le_bytes 8 512 ++ le_bytes 8 (zlen demo3_json))
  else if lba =? 1 then Some demo3_json
  else
    let dk := default [] (pbkdf2 (repeat 0 64) (repeat 0 64) HASH_SHA256 (cs "pw") [0; 1; 2] 1 32) in
    match xts_init (dk ++ repeat 0 32) 64 with
    | Some ctx => Some (xts_crypt ctx 0 (Luks1.af_split HASH_SHA256 32 [repeat 0 32] demo3_mk) 64 false ++ repeat 0 448)
    | None => None
    end.

Definition demo3_unlocked : Luks1.unlocked :=
  {| Luks1.master_key := demo3_mk; Luks1.out_key_bytes := 32; Luks1.out_payload := 8; Luks1.out_mode := CIPHER_XTS |}.


Lemma luks2_payload_on_key_area_witness : exists n enc, demo3_read 8 n = Some enc.
Proof.
  destruct (luks2_payload_on_key_area demo3_read (fun _ => true) (repeat 0 64) (cs "pw")
    {| s2_dk := repeat 0 64; s2_dec := repeat 0 512 |}
    {| s2_dk := default [] (pbkdf2 (repeat 0 64) (repeat 0 64) HASH_SHA256 (cs "pw") [0; 1; 2] 1 32) ++ repeat 0 32;
       s2_dec := Luks1.af_split HASH_SHA256 32 [repeat 0 32] demo3_mk ++ repeat 0 448 |}
    demo3_unlocked) as (hdr & area & Hr & _ & enc & He).
  - vm_compute. reflexivity.
  - eexists _, enc. exact He.
Defined.

(** A keyslot area larger than the 128 KiB scratch buffer is skipped, so no
    passphrase unlocks such a volume; the default for 64-byte keys, 4000 stripes,
    needs 256000 bytes. *)
Theorem luks2_large_area_never_unlocks (read_fn : Z -> Z -> option (list Z)) (alloc : Z -> bool)
    (junk passphrase hdr area : list Z) (st : scratch2)
    (Hhdr : read_fn 0 8 = Some hdr)
    (Harea : forall lba n, lba <> 0 -> read_fn lba n = Some area)
    (Hoff : 512 <= fst (json_area hdr))
    (Hsize : 131072 < json_get_int (take (Z.to_nat (snd (json_area hdr))) area) (cs "size") < 2 ^ 31) :
  match luks2_unlock read_fn alloc junk passphrase st with Some (Some _, _) => False | _ => True end.
Proof.
  destruct (luks2_unlock read_fn alloc junk passphrase st) as [[[u|] st']|] eqn:Hu; [|done|done]. unfold luks2_unlock in Hu. rewrite Hhdr in Hu.
  destruct (negb (luks2_probe hdr)); [done|].
  destruct (json_area hdr) as [joff jsize]. cbn [fst snd] in *. cbv zeta in Hu.
  assert (joff / 512 <> 0) as Hlba.
  { pose proof (Z.div_le_lower_bound joff 512 1 ltac:(lia) ltac:(lia)). lia. }
  rewrite Harea in Hu by done. set (j := take (Z.to_nat jsize) area) in *.
  destruct (try_keyslots read_fn alloc junk passphrase 32 j st) as [[[mk|] st1]|] eqn:Ht; try done;
    cbn [mbind option_bind] in Hu.
  clear Hu. revert st Ht. generalize 32%nat. induction n as [|n IH]; intros st Ht; [done|]. cbn [try_keyslots] in Ht.
  case_bool_decide; [done|].
  assert (forall mk s, try_keyslot read_fn alloc junk passphrase j st <> Some (Some mk, s)) as Hno.
  { intros mk1 s Hs. unfold try_keyslot in Hs. destruct (luks2_derive _ _ _ j _) as [[dk|]|]; try done.
    cbn [mbind option_bind] in Hs. destruct ((json_get_int j (cs "offset") <=? 0) || _); [done|].
    rewrite (wrap_small 32 (json_get_int j (cs "size") + 511)) in Hs by lia.
    pose proof (Z.div_mod (json_get_int j (cs "size") + 511) 512 ltac:(lia)).
    pose proof (Z.mod_pos_bound (json_get_int j (cs "size") + 511) 512 ltac:(lia)).
    rewrite (wrap_small 32 (_ / 512 * 512)) in Hs by lia.
    rewrite Z.gtb_ltb, (proj2 (Z.ltb_lt _ _)) in Hs by (unfold LUKS2_KM_BUF; lia). done. }
  destruct (try_keyslot read_fn alloc junk passphrase j st) as [[[mk0|] s]|] eqn:Hs; try done; cbn [mbind option_bind] in Ht.
  - by apply (Hno mk0 s).
  - by apply (IH s).
Qed.

(** Argon2id key slots are processed as Argon2i: the source looks at the seventh
    character of the name, which is an i in both. *)
Theorem argon2id_runs_as_argon2i (alloc : Z -> bool) (junk passphrase j salt : list Z) (key_size : Z)
    (Ht : json_get_str j (cs "type") 32 = cs "argon2id")
    (Hs : base64_decode (json_get_str j (cs "salt") 128) 64 = Some salt) :
  exists p, Argon2.type p = ARGON2_TYPE_I /\ Argon2.password p = passphrase /\
  luks2_derive alloc junk passphrase j key_size = argon2 alloc p.
Proof.
  unfold luks2_derive. rewrite Ht, Hs. cbn [mbind option_bind].
  change (nthZ (cs "argon2id") 0 =? chr "a") with true. change (nthZ (cs "argon2id") 6 =? chr "d") with false.
  cbv iota zeta. eexists. split; [|split; [|reflexivity]]; reflexivity.
Qed.

Definition demo_json : list Z :=
  let q l := QUOTE :: l ++ [QUOTE] in
  cs "{" ++ q (cs "type") ++ cs ":" ++ q (cs "argon2id") ++ cs "," ++ q (cs "salt") ++ cs ":" ++ q (cs "AAEC") ++
  cs "," ++ q (cs "key_size") ++ cs ":64," ++ q (cs "offset") ++ cs ":" ++ q (cs "32768") ++ cs "," ++
  q (cs "size") ++ cs ":" ++ q (cs "258048") ++ cs "}".

Lemma argon2id_runs_as_argon2i_witness :
  exists p, Argon2.type p = ARGON2_TYPE_I /\ Argon2.password p = cs "pw" /\
  luks2_derive (fun _ => true) [] (cs "pw") demo_json 32 = argon2 (fun _ => true) p.
Proof.
  apply (argon2id_runs_as_argon2i (fun _ => true) [] (cs "pw") demo_json [0; 1; 2] 32).
  - reflexivity.
  - reflexivity.
Defined.

Definition demo_hdr2 : list Z := cs "LUKS" ++ [0xba; 0xbe] ++ repeat 0 18 ++ le_bytes 8 4096 ++ le_bytes 8 (zlen demo_json).
Definition demo_read2 (lba n : Z) : option (list Z) := Some (if lba =? 0 then demo_hdr2 else demo_json).

Lemma luks2_large_area_never_unlocks_witness :
  match luks2_unlock demo_read2 (fun _ => false) [] (cs "pw") {| s2_dk := []; s2_dec := [] |} with
  | Some (Some _, _) => False | _ => True end.
Proof.
  apply (luks2_large_area_never_unlocks demo_read2 (fun _ => false) [] (cs "pw") demo_hdr2 demo_json).
  - reflexivity.
  - intros lba n Hlba. unfold demo_read2. by rewrite (proj2 (Z.eqb_neq lba 0)) by done.
  - vm_compute. discriminate.
  - vm_compute. split; reflexivity.
Defined.

End Luks2.
