(* ===== verification/LuksVol.v ===== *)
(** * LuksVol: the unlocked volume, [luks/luks_vol.c]

    Opening a volume with a master key, reading 512-byte blocks through the
    decryption of whole payload sectors, and the dispatch between the two LUKS
    versions.  [None] is behaviour C leaves undefined; an inner [None] is the
    error value the code returns. *)

From S2P Require Import Prelude Aes Cipher Luks1 Luks2.

Module LuksVol.

(** Memory set to zero, seen as an AES context. *)
Definition zero_aes : AES_CTX := {| rk := repeat 0 60; nr := 0 |}.
Definition zero_xts : XTS_CTX := {| data_ctx := zero_aes; tweak_ctx := zero_aes |}.
Definition zero_cbc : CBC_CTX := {| enc_ctx := zero_aes; dec_ctx := zero_aes; mode := 0; essiv_ctx := Some zero_aes |}.

Record LuksVol := {
  payload_lba : Z; sector_size : Z; vol_mode : Z; xts : XTS_CTX; cbc : CBC_CTX; decrypt_buf : list Z }.

(** [master_key] is the whole array the key lies in; [alloc_ok] whether the pool
    allocation succeeds. *)
Definition luks_vol_open (alloc_ok : bool) (master_key : list Z) (key_bytes payload_offset cipher_mode ssize : Z)
    : option (option LuksVol) :=
  if negb alloc_ok then Some None else
  let ss := if ssize >=? 512 then ssize else 512 in
  if cipher_mode =? CIPHER_XTS then
    x ← xts_init master_key (key_bytes * 2);
    Some (Some {| payload_lba := payload_offset; sector_size := ss; vol_mode := cipher_mode; xts := x; cbc := zero_cbc;
                  decrypt_buf := repeat 0 4096 |})
  else
    c ← cbc_init (Some zero_aes) master_key key_bytes cipher_mode true key_bytes;
    Some (Some {| payload_lba := payload_offset; sector_size := ss; vol_mode := cipher_mode; xts := zero_xts; cbc := c;
                  decrypt_buf := repeat 0 4096 |}).

(** Decryption of one payload sector read into [enc_buf]. *)
Definition decrypt_sector (vol : LuksVol) (payload_sec : Z) (enc_buf : list Z) : option (list Z) :=
  e ← sub enc_buf 0 (sector_size vol);
  if sector_size vol >? 4096 then None
  else if vol_mode vol =? CIPHER_XTS then Some (xts_crypt (xts vol) payload_sec e (sector_size vol) true)
  else cbc_decrypt_sector (cbc vol) payload_sec e (sector_size vol).

Definition set_buf (vol : LuksVol) (b : list Z) : LuksVol :=
  {| payload_lba := payload_lba vol; sector_size := sector_size vol; vol_mode := vol_mode vol; xts := xts vol;
     cbc := cbc vol; decrypt_buf := b |}.

(** [vol->sector_size / 512], at least 1. *)
Definition secs_per_payload (vol : LuksVol) : Z :=
  if sector_size vol / 512 =? 0 then 1 else sector_size vol / 512.

Section Read.
Context (read_fn : Z -> Z -> option (list Z)).

(** The loop of [luks_vol_read]: [n] blocks are missing, [buf] has been written. *)
Fixpoint read_loop (fuel : nat) (vol : LuksVol) (lba n : Z) (buf : list Z) : option (option (list Z) * LuksVol) :=
  if n <=? 0 then Some (Some buf, vol) else
  match fuel with
  | O => None
  | S f =>
    let spp := secs_per_payload vol in
    let payload_sec := lba / spp in
    let sec_off := u32 (lba mod spp) in
    let device_lba := u64 (payload_lba vol + payload_sec * spp) in
    let dev_secs := if u32 (spp * 512) >? 4096 then 4096 / 512 else spp in
    match read_fn device_lba dev_secs with
    | None => Some (None, vol)
    | Some enc_buf =>
      d ← decrypt_sector vol payload_sec enc_buf;
      let vol := set_buf vol (Luks1.splice 0 d (decrypt_buf vol)) in
      let avail := spp - sec_off in
      let copy := if n >? avail then avail else n in
      blk ← sub (decrypt_buf vol) (sec_off * 512) (copy * 512);
      read_loop f vol (u64 (lba + copy)) (n - copy) (buf ++ blk)
    end
  end.

Definition luks_vol_read (vol : LuksVol) (lba count : Z) : option (option (list Z) * LuksVol) :=
  read_loop (Z.to_nat count) vol lba count [].

(** Every byte of the structure is zeroed before it is freed. *)
Definition luks_vol_close (vol : LuksVol) : LuksVol :=
  {| payload_lba := 0; sector_size := 0; vol_mode := 0; xts := zero_xts; cbc := zero_cbc;
     decrypt_buf := map (fun _ => 0) (decrypt_buf vol) |}.

(** ** Opening *)

Context (alloc : Z -> bool) (sizeof_vol : Z) (junk passphrase : list Z).

(** [key0] is what the uninitialised array [master_key[64]] holds. *)
Definition luks_open (key0 : list Z) (st1 : Luks1.scratch) (st2 : Luks2.scratch2) : option (option LuksVol) :=
  match read_fn 0 8 with
  | None => Some None
  | Some probe =>
    r ← (if Luks2.luks2_probe probe then
           r ← Luks2.luks2_unlock read_fn alloc junk passphrase st2; Some (fst r)
         else if Luks1.luks1_probe probe then
           r ← Luks1.luks1_unlock read_fn junk passphrase st1; Some (fst r)
         else Some None);
    match r with
    | None => Some None
    | Some u =>
      let master_key := Luks1.splice 0 (Luks1.master_key u) key0 in
      luks_vol_open (alloc sizeof_vol) master_key (Luks1.out_key_bytes u) (Luks1.out_payload u) (Luks1.out_mode u) 512
    end
  end.
End Read.

(** ** The block-device adapter *)

(** [ReadBlocks (MediaId, LBA, BufferSize)] gives the bytes, or [None] for an error status. *)
Definition efi_bio_read (ReadBlocks : Z -> Z -> Z -> option (list Z)) (media_id lba count : Z) : option (list Z) :=
  ReadBlocks media_id lba (u32 (count * 512)).

Definition luks_open_efi (ReadBlocks : Z -> Z -> Z -> option (list Z)) (MediaId : Z) (alloc : Z -> bool) (sizeof_vol : Z)
    (junk passphrase key0 : list Z) (st1 : Luks1.scratch) (st2 : Luks2.scratch2) : option (option LuksVol) :=
  luks_open (efi_bio_read ReadBlocks MediaId) alloc sizeof_vol junk passphrase key0 st1 st2.

(** ** The plaintext view *)

Section View.
Context (read_fn : Z -> Z -> option (list Z)).

(** Decrypted payload sector [ps], and 512-byte block [n] of the plaintext. *)
Definition payload_plain (vol : LuksVol) (ps : Z) : option (list Z) :=
  e ← read_fn (payload_lba vol + ps * secs_per_payload vol) (secs_per_payload vol); decrypt_sector vol ps e.

Definition plain_block (P : Z -> list Z) (spp n : Z) : list Z :=
  take 512 (drop (Z.to_nat (n mod spp * 512)) (P (n / spp))).

Context (P : Z -> list Z) (vol0 : LuksVol) (spp : Z).
Hypothesis Hspp : 1 <= spp <= 8.
Hypothesis Hss : sector_size vol0 = spp * 512.
Hypothesis Hdb : zlen (decrypt_buf vol0) = 4096.

(** The fields a read never changes. *)
Definition same_vol (v : LuksVol) : Prop :=
  payload_lba v = payload_lba vol0 /\ sector_size v = sector_size vol0 /\ vol_mode v = vol_mode vol0 /\
  xts v = xts vol0 /\ cbc v = cbc vol0 /\ zlen (decrypt_buf v) = 4096.

Lemma same_vol_spp v : same_vol v -> secs_per_payload v = spp.
Proof using Hspp Hss.
  intros (_ & E & _). unfold secs_per_payload. rewrite E, Hss, Z.div_mul by lia.
  by rewrite (proj2 (Z.eqb_neq spp 0)) by lia.
Qed.

Lemma plain_run lba copy : 0 <= lba -> 0 <= copy <= spp - lba mod spp -> zlen (P (lba / spp)) = spp * 512 ->
  flat_map (plain_block P spp) (seqZ lba copy) =
  take (Z.to_nat (copy * 512)) (drop (Z.to_nat (lba mod spp * 512)) (P (lba / spp))).
Proof using Hspp.
  clear Hss Hdb. intros Hlba [Hc Hc2] HP. revert Hc2. pattern copy. apply natlike_ind; [..|done].
  { intros _. rewrite seqZ_nil by lia. by rewrite take_0. }
  intros x Hx IH Hle. unfold Z.succ in *. rewrite seqZ_app, flat_map_app, IH, (seqZ_cons (lba + x)), seqZ_nil by lia.
  cbn [flat_map]. rewrite app_nil_r. unfold plain_block.
  pose proof (Z.mod_pos_bound lba spp ltac:(lia)). pose proof (Z.div_mod lba spp ltac:(lia)).
  assert ((lba + x) / spp = lba / spp /\ (lba + x) mod spp = lba mod spp + x) as [-> ->].
  { split; symmetry; [apply Z.div_unique with (lba mod spp + x)|apply Z.mod_unique with (lba / spp)]; lia. }
  set (l := P (lba / spp)) in *.
  replace (Z.to_nat ((lba mod spp + x) * 512)) with (Z.to_nat (lba mod spp * 512) + Z.to_nat (x * 512))%nat by lia.
  rewrite <- drop_drop. set (l' := drop (Z.to_nat (lba mod spp * 512)) l).
  replace (Z.to_nat ((x + 1) * 512)) with (Z.to_nat (x * 512) + 512)%nat by lia.
  by rewrite <- take_take_drop.
Qed.
Lemma same_vol_decrypt v ps e : same_vol v -> decrypt_sector v ps e = decrypt_sector vol0 ps e.
Proof using. intros (_ & E1 & E2 & E3 & E4 & _). unfold decrypt_sector. by rewrite E1, E2, E3, E4. Qed.

Lemma read_loop_spec fuel v lba n buf :
  same_vol v -> 0 <= n <= Z.of_nat fuel -> 0 <= lba -> 0 <= payload_lba vol0 -> payload_lba vol0 + lba + n < 2 ^ 64 ->
  (forall ps, lba / spp <= ps <= (lba + n - 1) / spp -> payload_plain vol0 ps = Some (P ps) /\ zlen (P ps) = spp * 512) ->
  exists v', read_loop read_fn fuel v lba n buf = Some (Some (buf ++ flat_map (plain_block P spp) (seqZ lba n)), v') /\ same_vol v'.
Proof using Hspp Hss Hdb.
  revert v lba n buf. induction fuel as [|f IH]; intros v lba n buf Hv Hn Hlba Hpl Hsum HP; cbn [read_loop].
  { rewrite (proj2 (Z.leb_le n 0)) by lia. exists v. by rewrite seqZ_nil, app_nil_r by lia. }
  destruct (Z.leb_spec n 0) as [|Hn0].
  { exists v. by rewrite seqZ_nil, app_nil_r by lia. }
  rewrite same_vol_spp by done. pose proof Hv as (E1 & _ & _ & _ & _ & E6). rewrite E1.
  pose proof (Z.mod_pos_bound lba spp ltac:(lia)) as Hmod. pose proof (Z.div_mod lba spp ltac:(lia)) as Hdm.
  assert (lba / spp <= (lba + n - 1) / spp) as Hps by (apply Z.div_le_mono; lia).
  assert (0 <= lba / spp) as Hq by (apply Z.div_pos; lia).
  destruct (HP (lba / spp) ltac:(lia)) as [Hplain Hlen]. unfold payload_plain in Hplain.
  assert (same_vol vol0) as Hv0 by done. rewrite (same_vol_spp vol0 Hv0) in Hplain.
  rewrite (wrap_small 64), (wrap_small 32), (wrap_small 32) by nia.
  rewrite Z.gtb_ltb, (proj2 (Z.ltb_ge 4096 (spp * 512))) by lia.
  destruct (read_fn _ spp) as [e|]; [|done]. cbn [mbind option_bind] in Hplain.
  rewrite same_vol_decrypt, Hplain by done. cbn [mbind option_bind].
  set (copy := if n >? spp - lba mod spp then spp - lba mod spp else n).
  assert (1 <= copy <= n /\ copy <= spp - lba mod spp /\ (copy < n -> copy = spp - lba mod spp)) as (Hc1 & Hc2 & Hc3)
    by (unfold copy; destruct (Z.gtb_spec n (spp - lba mod spp)); lia).
  set (v1 := set_buf v _).
  assert (same_vol v1) as Hv1.
  { destruct Hv as (? & ? & ? & ? & ? & ?). unfold v1. split_and!; try done. cbn [decrypt_buf set_buf].
    rewrite Luks1.splice_length by lia. done. }
  assert (sub (decrypt_buf v1) (lba mod spp * 512) (copy * 512) =
    Some (flat_map (plain_block P spp) (seqZ lba copy))) as ->.
  { rewrite plain_run by lia. unfold sub. destruct Hv1 as (_ & _ & _ & _ & _ & Hb1). rewrite Hb1.
    rewrite decide_True by nia. f_equal. unfold v1. cbn [decrypt_buf set_buf]. unfold Luks1.splice.
    change (Z.to_nat 0) with 0%nat. rewrite take_0, app_nil_l.
    rewrite drop_app_le, take_app_le by (rewrite ?length_drop; nia). done. }
  cbn [mbind option_bind]. rewrite (wrap_small 64 (lba + copy)) by lia.
  destruct (IH v1 (lba + copy) (n - copy) (buf ++ flat_map (plain_block P spp) (seqZ lba copy)) Hv1) as (v2 & Hr & Hv2);
    [lia..| |].
  { intros ps Hr. apply HP. split; [|replace (lba + n - 1) with (lba + copy + (n - copy) - 1) by lia; lia].
    pose proof (Z.div_le_mono lba (lba + copy) spp ltac:(lia) ltac:(lia)). lia. }
  exists v2. split; [|done]. rewrite Hr, <- app_assoc, <- flat_map_app.
  replace n with (copy + (n - copy)) at 2 by lia. by rewrite <- seqZ_app by lia.
Qed.
End View.


(** ** Theorems *)

(** [C6] Reading [count] blocks at [lba] gives exactly those 512-byte blocks of the
    plaintext, in order, whatever the payload sector size between 512 and 4096 and
    however the range lies across payload sectors; the volume is unchanged but
    for its scratch buffer. *)
Theorem luks_vol_read_plaintext (read_fn : Z -> Z -> option (list Z)) (P : Z -> list Z) (vol : LuksVol) (spp lba count : Z)
    (Hspp : 1 <= spp <= 8) (Hss : sector_size vol = spp * 512) (Hdb : zlen (decrypt_buf vol) = 4096)
    (Hlba : 0 <= lba) (Hc : 0 <= count) (Hpl : 0 <= payload_lba vol) (Hsum : payload_lba vol + lba + count < 2 ^ 64)
    (HP : forall ps, lba / spp <= ps <= (lba + count - 1) / spp ->
       payload_plain read_fn vol ps = Some (P ps) /\ zlen (P ps) = spp * 512) :
  exists vol', luks_vol_read read_fn vol lba count =
    Some (Some (flat_map (plain_block P spp) (seqZ lba count)), vol') /\ same_vol vol vol'.
Proof.
  unfold luks_vol_read.
  destruct (read_loop_spec read_fn P vol spp Hspp Hss Hdb (Z.to_nat count) vol lba count []) as (v & Hr & Hv);
    [done|lia..|exact HP|]. by exists v.
Qed.

(** A device whose sector [n] is filled with the byte [n], and a volume on it with
    two blocks per payload sector. *)
Definition demo_dev (lba n : Z) : option (list Z) := Some (flat_map (fun i => repeat (u8 i) 512) (seqZ lba n)).
Definition demo_vol : LuksVol :=
  {| payload_lba := 16; sector_size := 1024; vol_mode := CIPHER_CBC_PLAIN64; xts := zero_xts;
     cbc := {| enc_ctx := zero_aes; dec_ctx := zero_aes; mode := CIPHER_CBC_PLAIN64; essiv_ctx := None |};
     decrypt_buf := repeat 0 4096 |}.
Definition demo_plain (ps : Z) : list Z := default [] (payload_plain demo_dev demo_vol ps).

Lemma luks_vol_read_plaintext_witness :
  exists vol', luks_vol_read demo_dev demo_vol 1 3 =
    Some (Some (flat_map (plain_block demo_plain 2) (seqZ 1 3)), vol') /\ same_vol demo_vol vol'.
Proof.
  apply (luks_vol_read_plaintext demo_dev demo_plain demo_vol 2 1 3).
  - lia.
  - reflexivity.
  - reflexivity.
  - lia.
  - lia.
  - cbn. lia.
  - cbn. lia.
  - intros ps Hps. assert (ps = 0 \/ ps = 1) as [-> | ->] by (change (0 <= ps <= 1) in Hps; lia); split; vm_compute; reflexivity.
Defined.

(** LUKS1 volumes are never opened as such: the LUKS2 probe accepts the LUKS1
    magic and is asked first, so for a LUKS1 header [luks_open] depends on the
    LUKS2 path alone and the LUKS1 scratch state is irrelevant. *)
Theorem luks_open_shadows_luks1 (read_fn : Z -> Z -> option (list Z)) (alloc : Z -> bool) (sz : Z)
    (junk pw key0 hdr : list Z) (st1 st1' : Luks1.scratch) (st2 : Luks2.scratch2)
    (Hread : read_fn 0 8 = Some hdr) (Hprobe : Luks1.luks1_probe hdr = true) :
  luks_open read_fn alloc sz junk pw key0 st1 st2 = luks_open read_fn alloc sz junk pw key0 st1' st2 /\
  (forall st2', Luks2.luks2_unlock read_fn alloc junk pw st2 = Some (None, st2') ->
     luks_open read_fn alloc sz junk pw key0 st1 st2 = Some None).
Proof.
  assert (Luks2.luks2_probe hdr = true) as H2.
  { unfold Luks2.luks2_probe. unfold Luks1.luks1_probe in Hprobe. by rewrite Hprobe. }
  unfold luks_open. rewrite Hread, H2. split; [done|]. intros st2' ->. done.
Qed.

Lemma luks_open_shadows_luks1_witness :
  luks_open (Luks1.demo_read (cs "cbc-plain") 16 2) (fun _ => true) 4096 Luks1.demo_junk (cs "pw") Luks1.demo_junk
    Luks1.demo_scratch {| Luks2.s2_dk := repeat 0 64; Luks2.s2_dec := [] |} = Some None.
Proof.
  eapply (luks_open_shadows_luks1 (Luks1.demo_read (cs "cbc-plain") 16 2) (fun _ => true) 4096 Luks1.demo_junk (cs "pw")
    Luks1.demo_junk _ Luks1.demo_scratch Luks1.demo_scratch).
  - reflexivity.
  - vm_compute. reflexivity.
  - vm_compute. reflexivity.
Defined.

Lemma add_rk_zero s : length s = 16%nat -> add_rk (repeat 0 60) 0 s = s.
Proof.
  intros Hl. do 16 (destruct s as [|? s]; [done|]). destruct s; [|done]. cbv - [Z.lxor]. by rewrite !Z.lxor_0_r.
Qed.

(** With a 16-byte key, a CBC-ESSIV volume is opened without its ESSIV key: the
    context stays all zero, and every initialisation vector is the plain 64-bit
    sector number. *)
Theorem essiv_with_short_key_is_plain64 (key : list Z) (payload ssize sn : Z) (vol : LuksVol)
    (Hopen : luks_vol_open true key 16 payload CIPHER_CBC_ESSIV ssize = Some (Some vol)) :
  make_cbc_iv (cbc vol) sn = Some (le_bytes 8 sn ++ repeat 0 8).
Proof.
  unfold luks_vol_open in Hopen. cbn [negb] in Hopen. change (CIPHER_CBC_ESSIV =? CIPHER_XTS) with false in Hopen.
  unfold cbc_init in Hopen. destruct (aes_init_at key 0 16) as [e|]; [|done]. cbn [mbind option_bind] in Hopen.
  injection Hopen as <-. unfold make_cbc_iv. cbn [cbc mode essiv_ctx].
  change ((CIPHER_CBC_ESSIV =? CIPHER_CBC_ESSIV) && true && (16 >=? 32)) with false. cbv iota.
  change (CIPHER_CBC_ESSIV =? CIPHER_CBC_PLAIN) with false. change (CIPHER_CBC_ESSIV =? CIPHER_CBC_PLAIN64) with false.
  change (CIPHER_CBC_ESSIV =? CIPHER_CBC_ESSIV) with true. cbv iota. cbn [mbind option_bind]. f_equal.
  unfold aes_encrypt_block. cbn [nr rk zero_aes]. change (Z.to_nat 0) with 0%nat. cbn [seq foldl].
  rewrite take_ge by (rewrite length_app, le_bytes_length, repeat_length; lia).
  apply add_rk_zero. rewrite length_app, le_bytes_length, repeat_length. lia.
Qed.

Lemma essiv_with_short_key_is_plain64_witness :
  exists vol, luks_vol_open true (repeat 0 64) 16 2048 CIPHER_CBC_ESSIV 512 = Some (Some vol) /\
  make_cbc_iv (cbc vol) 77 = Some (le_bytes 8 77 ++ repeat 0 8).
Proof.
  eexists. split; [vm_compute; reflexivity|].
  apply (essiv_with_short_key_is_plain64 (repeat 0 64) 2048 512). vm_compute. reflexivity.
Defined.

End LuksVol.
