(* ===== verification/Config.v ===== *)
(** * Config: the configuration parser of [common/config.c]

    The parser walks over a C string, here the list of its characters, so a
    pointer into it is a suffix.  A [char] array field of [BootEntry] is the string
    it holds; [entries] are the first [num_entries] elements of the array, and the
    pointer [cur] is an index into them. *)

From S2P Require Import Prelude.

Module Config.

Definition is_space (c : Z) : bool := (c =? 32) || (c =? 9).
Definition is_newline (c : Z) : bool := (c =? 10) || (c =? 13).

Definition MAX_ENTRIES : Z := 16.
Definition MAX_STR_LEN : Z := 256.
Definition DEFAULT_TIMEOUT : Z := 5.

Inductive OSType :=
  OS_TYPE_ELF64 | OS_TYPE_LINUX | OS_TYPE_MULTIBOOT2 | OS_TYPE_UEFI_SHELL | OS_TYPE_WINDOWS | OS_TYPE_UNKNOWN.

#[export] Instance OSType_eq_dec : EqDecision OSType.
Proof. solve_decision. Defined.

Record BootEntry := {
  name : list Z; type : OSType; kernel : list Z; initrd : list Z; cmdline : list Z;
  encrypted : Z; luks_keyfile : list Z; luks_tries : Z }.

Record BootConfig := {
  timeout : Z; default_entry : Z; theme_color : Z; accent_color : Z; entries : list BootEntry }.

Definition num_entries (cfg : BootConfig) : Z := zlen (entries cfg).

(** ** String helpers *)

Definition skip_spaces (p : list Z) : list Z := skip_while is_space p.

Fixpoint str_eq (a b : list Z) : bool :=
  match a, b with
  | x :: a', y :: b' => if x =? y then str_eq a' b' else false
  | [], [] => true
  | _, _ => false
  end.

Fixpoint str_starts (haystack prefix : list Z) {struct prefix} : bool :=
  match prefix with
  | [] => true
  | c :: prefix' => if negb (deref haystack =? c) then false else str_starts (tail haystack) prefix'
  end.

(** The string [str_copy] leaves in [dst]. *)
Definition str_copy (src : list Z) (max : Z) : list Z := take (Z.to_nat (max - 1)) src.

(** Trailing spaces removed. *)
Definition trim (v : list Z) : list Z := rev (skip_while is_space (rev v)).

Definition is_key_char (c : Z) : bool := negb (is_space c) && negb (c =? chr "=") && negb (is_newline c).

Definition parse_kv (line : list Z) (kmax vmax : Z) : option (list Z * list Z) :=
  let p := skip_spaces line in
  let key := str_copy (take_while is_key_char p) kmax in
  let p := skip_while is_key_char p in
  if bool_decide (key = []) then None else
  let p := skip_spaces p in
  if negb (deref p =? chr "=") then None else
  let p := skip_spaces (tail p) in
  let val := str_copy (take_while (fun c => negb (is_newline c)) p) vmax in
  Some (key, trim val).

(** ** Kernel names *)

Definition lower (c : Z) : Z := if (chr "A" <=? c) && (c <=? chr "Z") then c + 32 else c.

Fixpoint cfg_str_eq_ci (a b : list Z) : bool :=
  match a, b with
  | x :: a', y :: b' => if lower x =? lower y then cfg_str_eq_ci a' b' else false
  | [], [] => true
  | _, _ => false
  end.

Definition ends_with_ci (s suf : list Z) : bool :=
  if zlen suf >? zlen s then false
  else cfg_str_eq_ci (drop (length s - length suf) s) suf.

Definition config_guess_type (filename : list Z) : OSType :=
  if ends_with_ci filename (cs ".elf") then OS_TYPE_ELF64
  else if str_starts filename (cs "vmlinuz") then OS_TYPE_LINUX
  else if str_starts filename (cs "bzImage") then OS_TYPE_LINUX
  else if cfg_str_eq_ci filename (cs "bootmgfw.efi") then OS_TYPE_WINDOWS
  else if cfg_str_eq_ci filename (cs "bootmgr.efi") then OS_TYPE_WINDOWS
  else OS_TYPE_UNKNOWN.

(** The loop that leaves [last] after the last slash. *)
Fixpoint last_component (p last : list Z) : list Z :=
  match p with
  | [] => last
  | c :: p' => last_component p' (if c =? chr "/" then p' else last)
  end.

Definition capitalize (s : list Z) : list Z :=
  match s with
  | [] => []
  | c :: s' => (if (chr "a" <=? c) && (c <=? chr "z") then c - 32 else c) :: s'
  end.

Fixpoint strip_elf (f : list Z) (n : nat) : list Z :=
  match f, n with
  | c :: f', S n' => if (c =? chr ".") && ends_with_ci f (cs ".elf") then [] else c :: strip_elf f' n'
  | _, _ => []
  end.

(** The string written to [out], an array of [max >= 1] characters. *)
Definition config_make_name (dir filename : list Z) (type : OSType) (max : Z) : list Z :=
  match type with
  | OS_TYPE_ELF64 =>
    if cfg_str_eq_ci filename (cs "kernel.elf") || cfg_str_eq_ci filename (cs "kernel") then
      let last := last_component dir dir in
      let last := if bool_decide (last = []) then dir else last in
      str_copy (capitalize last) max
    else strip_elf filename (Z.to_nat (max - 1))
  | OS_TYPE_WINDOWS => str_copy (cs "Windows") max
  | OS_TYPE_LINUX =>
    let skip := if str_starts filename (cs "vmlinuz") then 7%nat
                else if str_starts filename (cs "bzImage") then 7%nat else 0%nat in
    let out := str_copy (cs "Linux") max in
    let ver := drop skip filename in
    let ver := if (deref ver =? chr "-") || (deref ver =? chr "_") then tail ver else ver in
    if bool_decide (ver = []) then out else
    let out := if zlen out + 1 <? max then out ++ [32] else out in
    out ++ str_copy ver (max - zlen out)
  | _ => str_copy filename max
  end.

Definition zero_entry : BootEntry :=
  {| name := []; type := OS_TYPE_ELF64; kernel := []; initrd := []; cmdline := []; encrypted := 0;
     luks_keyfile := []; luks_tries := 0 |}.

Definition set_entries (cfg : BootConfig) (es : list BootEntry) : BootConfig :=
  {| timeout := timeout cfg; default_entry := default_entry cfg; theme_color := theme_color cfg;
     accent_color := accent_color cfg; entries := es |}.

Definition config_add_kernel (cfg : BootConfig) (nm : list Z) (ty : OSType) (kernel_path : list Z)
    (initrd_path : option (list Z)) : Z * BootConfig :=
  if existsb (fun e => str_eq (kernel e) kernel_path) (entries cfg) then (0, cfg)
  else if num_entries cfg >=? MAX_ENTRIES then (-1, cfg)
  else
    let e := {| name := str_copy nm MAX_STR_LEN; type := ty; kernel := str_copy kernel_path MAX_STR_LEN;
                initrd := match initrd_path with
                          | Some ip => if bool_decide (ip = []) then [] else str_copy ip MAX_STR_LEN
                          | None => [] end;
                cmdline := []; encrypted := 0; luks_keyfile := []; luks_tries := 0 |} in
    (0, set_entries cfg (entries cfg ++ [e])).

Definition config_parse_type (str : list Z) : OSType :=
  if str_eq str (cs "elf64") then OS_TYPE_ELF64
  else if str_eq str (cs "linux") then OS_TYPE_LINUX
  else if str_eq str (cs "multiboot2") then OS_TYPE_MULTIBOOT2
  else if str_eq str (cs "windows") then OS_TYPE_WINDOWS
  else OS_TYPE_UNKNOWN.

Definition config_parse_color (nm : list Z) : Z :=
  if str_eq nm (cs "black") then 0 else if str_eq nm (cs "blue") then 1
  else if str_eq nm (cs "green") then 2 else if str_eq nm (cs "cyan") then 3
  else if str_eq nm (cs "red") then 4 else if str_eq nm (cs "magenta") then 5
  else if str_eq nm (cs "pink") then 5 else if str_eq nm (cs "brown") then 6
  else if str_eq nm (cs "orange") then 6 else if str_eq nm (cs "lightgray") then 7
  else if str_eq nm (cs "darkgray") then 8 else if str_eq nm (cs "lightblue") then 9
  else if str_eq nm (cs "lightgreen") then 10 else if str_eq nm (cs "lightcyan") then 11
  else if str_eq nm (cs "lightred") then 12 else if str_eq nm (cs "lightmagenta") then 13
  else if str_eq nm (cs "yellow") then 14 else if str_eq nm (cs "white") then 15 else -1.

(** ** The parser *)

(** The loops that accumulate leading decimal digits, in [u32] and in [int]. *)
Definition parse_u32 (val : list Z) : Z := foldl (fun t c => u32 (t * 10 + (c - 48))) 0 (take_while is_digit val).
Definition parse_int (val : list Z) : Z := foldl (fun t c => i32 (t * 10 + (c - 48))) 0 (take_while is_digit val).

(** A key of the global section, on a full parse. *)
Definition global_key (cfg : BootConfig) (key val : list Z) : BootConfig :=
  if str_eq key (cs "timeout") then
    {| timeout := parse_u32 val; default_entry := default_entry cfg; theme_color := theme_color cfg;
       accent_color := accent_color cfg; entries := entries cfg |}
  else if str_eq key (cs "default") then
    {| timeout := timeout cfg; default_entry := parse_u32 val; theme_color := theme_color cfg;
       accent_color := accent_color cfg; entries := entries cfg |}
  else if str_eq key (cs "accent") then
    let c := config_parse_color val in
    if c >=? 0 then
      {| timeout := timeout cfg; default_entry := default_entry cfg; theme_color := theme_color cfg;
         accent_color := u8 c; entries := entries cfg |}
    else cfg
  else if str_eq key (cs "theme") then
    let c := config_parse_color val in
    if (c >=? 0) && (c <=? 7) then
      {| timeout := timeout cfg; default_entry := default_entry cfg; theme_color := u8 c;
         accent_color := accent_color cfg; entries := entries cfg |}
    else cfg
  else cfg.

(** A key of the section of entry [e]. *)
Definition entry_key (e : BootEntry) (key val : list Z) : BootEntry :=
  let '(Build_BootEntry nm ty ke ir cm en kf tr) := e in
  if str_eq key (cs "type") then Build_BootEntry nm (config_parse_type val) ke ir cm en kf tr
  else if str_eq key (cs "kernel") then Build_BootEntry nm ty (str_copy val MAX_STR_LEN) ir cm en kf tr
  else if str_eq key (cs "initrd") then Build_BootEntry nm ty ke (str_copy val MAX_STR_LEN) cm en kf tr
  else if str_eq key (cs "cmdline") then Build_BootEntry nm ty ke ir (str_copy val MAX_STR_LEN) en kf tr
  else if str_eq key (cs "encrypted") then
    Build_BootEntry nm ty ke ir cm
      (if (deref val =? chr "1") || (deref val =? chr "y") || (deref val =? chr "t") then 1 else 0) kf tr
  else if str_eq key (cs "luks_keyfile") then Build_BootEntry nm ty ke ir cm en (str_copy val MAX_STR_LEN) tr
  else if str_eq key (cs "luks_tries") then
    let t := parse_int val in Build_BootEntry nm ty ke ir cm en kf (if t >? 0 then t else 3)
  else e.

Definition new_entry (nm : list Z) : BootEntry :=
  {| name := nm; type := OS_TYPE_ELF64; kernel := []; initrd := []; cmdline := []; encrypted := 0;
     luks_keyfile := []; luks_tries := 3 |}.

Definition in_name (c : Z) : bool := negb (c =? chr "]") && negb (is_newline c).

(** A section header, [p] being just behind the bracket. *)
Definition parse_section (p : list Z) (cfg : BootConfig) (cur : option nat) : list Z * BootConfig * option nat :=
  let '(p, cfg, cur) :=
    if str_starts p (cs "entry:") then
      let p := drop 6 p in
      if num_entries cfg <? MAX_ENTRIES then
        (skip_while in_name p,
         set_entries cfg (entries cfg ++ [new_entry (str_copy (take_while in_name p) MAX_STR_LEN)]),
         Some (length (entries cfg)))
      else (p, cfg, cur)
    else (p, cfg, cur) in
  let p := skip_while (fun c => negb (c =? chr "]")) p in
  (if deref p =? chr "]" then tail p else p, cfg, cur).

(** A line: up to 511 characters; what is left of a longer one is another line. *)
Definition take_line (p : list Z) : list Z := take 511 (take_while (fun c => negb (is_newline c)) p).

Definition parse_line (line : list Z) (cfg : BootConfig) (cur : option nat) (merge : bool) : BootConfig :=
  match parse_kv line 64 MAX_STR_LEN with
  | None => cfg
  | Some (key, val) =>
    match cur with
    | None => if merge then cfg else global_key cfg key val
    | Some i => set_entries cfg (alter (fun e => entry_key e key val) i (entries cfg))
    end
  end.

(** The main loop; [None] only when the fuel runs out. *)
Fixpoint parse_loop (fuel : nat) (p : list Z) (cfg : BootConfig) (cur : option nat) (merge : bool) : option BootConfig :=
  match fuel with
  | O => None
  | S f =>
    let p := skip_while (fun c => is_space c || is_newline c) p in
    match p with
    | [] => Some cfg
    | c :: p' =>
      if (c =? chr "#") || (c =? chr ";") then
        parse_loop f (skip_while (fun c => negb (is_newline c)) p) cfg cur merge
      else if c =? chr "[" then
        let '(p'', cfg', cur') := parse_section p' cfg cur in parse_loop f p'' cfg' cur' merge
      else
        let line := take_line p in
        parse_loop f (drop (length line) p) (parse_line line cfg cur merge) cur merge
    end
  end.

Definition reset (cfg : BootConfig) : BootConfig :=
  {| timeout := DEFAULT_TIMEOUT; default_entry := 0; theme_color := 5; accent_color := 14; entries := [] |}.

Definition clamp_default (cfg : BootConfig) : BootConfig :=
  if (default_entry cfg >=? num_entries cfg) && (num_entries cfg >? 0) then
    {| timeout := timeout cfg; default_entry := 0; theme_color := theme_color cfg;
       accent_color := accent_color cfg; entries := entries cfg |}
  else cfg.

(** The return value and the configuration afterwards. *)
Definition do_parse (buf : list Z) (cfg : BootConfig) (merge : bool) : option (Z * BootConfig) :=
  let cfg := if merge then cfg else reset cfg in
  cfg ← parse_loop (S (length buf)) buf cfg None merge;
  let cfg := clamp_default cfg in
  Some (if num_entries cfg >? 0 then 0 else -1, cfg).

Definition config_parse (buf : list Z) (cfg : BootConfig) : option (Z * BootConfig) := do_parse buf cfg false.
Definition config_parse_merge (buf : list Z) (cfg : BootConfig) : option (Z * BootConfig) := do_parse buf cfg true.


(** [&cfg->entries[i]], when it is one of the entries that have been filled in. *)
Definition entry_at (cfg : BootConfig) (i : Z) : option BootEntry := if i <? 0 then None else entries cfg !! Z.to_nat i.

(** ** Termination *)

Lemma skip_while_head f c l : f c = false -> skip_while f (c :: l) = c :: l.
Proof. intros H. cbn. by rewrite H. Qed.

Lemma skip_while_shape f l c l' : skip_while f l = c :: l' -> f c = false.
Proof.
  induction l as [|x l IH]; [done|]. cbn. destruct (f x) eqn:E; [done|]. by intros [= <- _].
Qed.

Lemma parse_section_length p cfg cur : (length (fst (fst (parse_section p cfg cur))) <= length p)%nat.
Proof.
  assert (forall q : list Z, (length (if (deref q =? chr "]")%Z then tail q else q) <= length q)%nat) as Ht.
  { intros q. destruct (_ =? _); [|lia]. destruct q; simpl; lia. }
  pose proof (fun q : list Z => skip_while_length (fun c => negb (c =? chr "]")) q) as Hw.
  pose proof (skip_while_length in_name (drop 6 p)) as Hn. rewrite length_drop in Hn.
  unfold parse_section. destruct (str_starts p (cs "entry:")); [destruct (num_entries cfg <? MAX_ENTRIES)|];
    cbn [fst]; (etransitivity; [apply Ht|]); (etransitivity; [apply Hw|]); rewrite ?length_drop; lia.
Qed.

Lemma take_line_nonempty c p : is_newline c = false -> (0 < length (take_line (c :: p)))%nat.
Proof. intros H. unfold take_line. cbn [take_while]. rewrite H. cbn. lia. Qed.

(** Every turn consumes at least one character. *)
Lemma parse_loop_total fuel p cfg cur merge :
  (length p < fuel)%nat -> exists cfg', parse_loop fuel p cfg cur merge = Some cfg'.
Proof.
  revert p cfg cur. induction fuel as [|f IH]; intros p cfg cur Hf; [lia|]. cbn [parse_loop].
  pose proof (skip_while_length (fun c => is_space c || is_newline c) p) as Hl.
  destruct (skip_while _ p) as [|c p'] eqn:E; [by exists cfg|].
  apply skip_while_shape in E. apply orb_false_iff in E as [_ Hnl]. cbn [length] in Hl.
  destruct ((c =? chr "#") || (c =? chr ";")).
  - apply IH. cbn [skip_while]. rewrite Hnl. cbn [negb].
    pose proof (skip_while_length (fun c => negb (is_newline c)) p'). lia.
  - destruct (c =? chr "[").
    + pose proof (parse_section_length p' cfg cur) as Hs.
      destruct (parse_section p' cfg cur) as [[p'' cfg'] cur']. apply IH. cbn [fst] in Hs. lia.
    + apply IH. pose proof (take_line_nonempty c p' Hnl). rewrite length_drop. cbn [length]. lia.
Qed.

Lemma parse_loop_mono fuel k p cfg cur merge r :
  parse_loop fuel p cfg cur merge = Some r -> parse_loop (fuel + k) p cfg cur merge = Some r.
Proof.
  revert p cfg cur. induction fuel as [|f IH]; intros p cfg cur H; [done|]. cbn [parse_loop Nat.add] in *.
  destruct (skip_while _ p) as [|c p']; [done|]. destruct ((c =? chr "#") || (c =? chr ";")); [by apply IH|].
  destruct (c =? chr "["); [|by apply IH]. destruct (parse_section p' cfg cur) as [[p'' cfg'] cur']. by apply IH.
Qed.

(** The fuel of [do_parse] is enough, so any run that ends is the run. *)
Lemma parse_loop_enough fuel p cfg cur merge r :
  parse_loop fuel p cfg cur merge = Some r -> parse_loop (S (length p)) p cfg cur merge = Some r.
Proof.
  intros H. destruct (parse_loop_total (S (length p)) p cfg cur merge) as [r' H']; [lia|].
  apply (parse_loop_mono _ (S (length p))) in H. apply (parse_loop_mono _ fuel) in H' as H2.
  rewrite Nat.add_comm in H2. rewrite H in H2. by injection H2 as ->.
Qed.

(** ** Well-formed configurations *)

Definition str_ok (s : list Z) : Prop := (length s <= 255)%nat /\ nonzero s.

Definition entry_ok (e : BootEntry) : Prop :=
  str_ok (name e) /\ str_ok (kernel e) /\ str_ok (initrd e) /\ str_ok (cmdline e) /\ str_ok (luks_keyfile e) /\
  (encrypted e = 0 \/ encrypted e = 1) /\ 0 <= luks_tries e < 2 ^ 31.

Definition cfg_ok (cfg : BootConfig) : Prop :=
  num_entries cfg <= MAX_ENTRIES /\ Forall entry_ok (entries cfg) /\ 0 <= timeout cfg < 2 ^ 32 /\
  0 <= default_entry cfg < 2 ^ 32 /\ 0 <= theme_color cfg <= 7 /\ 0 <= accent_color cfg <= 15.

Lemma str_copy_ok s : nonzero s -> str_ok (str_copy s MAX_STR_LEN).
Proof. intros H. split; [|by apply Forall_take]. unfold str_copy. rewrite length_take. change (Z.to_nat (MAX_STR_LEN - 1)) with 255%nat. lia. Qed.

Lemma trim_nonzero v : nonzero v -> nonzero (trim v).
Proof. intros H. unfold trim. by apply Forall_rev, skip_while_nonzero, Forall_rev. Qed.

Lemma parse_kv_val line k m key val : nonzero line -> parse_kv line k m = Some (key, val) -> nonzero val.
Proof.
  intros Hl. unfold parse_kv. repeat case_match; intros [= _ <-]; try done.
  apply trim_nonzero, Forall_take, take_while_nonzero, skip_while_nonzero, Forall_tail.
  apply skip_while_nonzero, skip_while_nonzero, skip_while_nonzero, Hl.
Qed.

Lemma parse_color_range nm : -1 <= config_parse_color nm <= 15.
Proof. unfold config_parse_color. repeat case_match; lia. Qed.

Lemma foldl_range {A} (f : Z -> A -> Z) lo hi l n : (forall t c, lo <= f t c < hi) -> lo <= n < hi -> lo <= foldl f n l < hi.
Proof. intros Hf. revert n. induction l; intros; [done|]. cbn [foldl]. apply IHl, Hf. Qed.

Lemma parse_u32_range v : 0 <= parse_u32 v < 2 ^ 32.
Proof. apply foldl_range; [|lia]. intros. by apply wrap_range. Qed.

Lemma parse_int_range v : - 2 ^ 31 <= parse_int v < 2 ^ 31.
Proof. apply foldl_range; [|lia]. intros. apply i32_range. Qed.

Lemma global_key_ok cfg key val : cfg_ok cfg -> cfg_ok (global_key cfg key val).
Proof.
  intros (H1 & H2 & H3 & H4 & H5 & H6). pose proof (parse_u32_range val). pose proof (parse_color_range val) as Hc.
  unfold global_key. repeat case_match; unfold cfg_ok, num_entries in *;
    cbn [entries timeout default_entry theme_color accent_color]; try (split_and!; (done || lia));
    rewrite u8_byte by (unfold is_byte; lia); split_and!; (done || lia).
Qed.

Lemma entry_key_ok e key val : entry_ok e -> nonzero val -> entry_ok (entry_key e key val).
Proof.
  intros He Hv. pose proof (str_copy_ok val Hv) as Hs. pose proof (parse_int_range val) as Hi. destruct e.
  unfold entry_ok in *. cbn [name kernel initrd cmdline luks_keyfile encrypted luks_tries] in *.
  destruct He as (? & ? & ? & ? & ? & ? & ?). unfold entry_key.
  repeat case_match; cbn [name kernel initrd cmdline luks_keyfile encrypted luks_tries];
    split_and!; try done; try (by left); try (by right); lia.
Qed.

Lemma parse_line_ok line cfg cur merge : cfg_ok cfg -> nonzero line ->
  cfg_ok (parse_line line cfg cur merge) /\ num_entries (parse_line line cfg cur merge) = num_entries cfg.
Proof.
  intros Hc Hl. unfold parse_line. destruct (parse_kv line 64 MAX_STR_LEN) as [[key val]|] eqn:E; [|done].
  apply parse_kv_val in E; [|done]. destruct cur as [i|].
  - destruct Hc as (H1 & H2 & Hr). unfold cfg_ok, num_entries in *. cbn [entries set_entries].
    rewrite length_alter. split; [|done]. split; [done|]. split; [|done].
    apply Forall_alter; [done|]. intros x _ Hx. by apply entry_key_ok.
  - destruct merge; [done|]. split; [by apply global_key_ok|]. unfold global_key. repeat case_match; done.
Qed.

Lemma parse_section_ok p cfg cur : cfg_ok cfg -> nonzero p ->
  let '(p', cfg', _) := parse_section p cfg cur in cfg_ok cfg' /\ nonzero p'.
Proof.
  intros Hc Hp. assert (forall q, nonzero q -> nonzero (if deref q =? chr "]" then tail q else q)) as Ht.
  { intros q Hq. destruct (_ =? _); [by apply Forall_tail|done]. }
  unfold parse_section. destruct (str_starts p (cs "entry:")).
  - destruct (Z.ltb_spec (num_entries cfg) MAX_ENTRIES) as [Hn|Hn].
    + split; [|apply Ht; repeat apply skip_while_nonzero; by apply Forall_drop].
      destruct Hc as (H1 & H2 & Hr). unfold cfg_ok, num_entries in *. cbn [entries set_entries].
      split; [rewrite length_app; cbn [length]; lia|]. split; [|done].
      apply Forall_app. split; [done|]. constructor; [|constructor].
      assert (str_ok []) as H0 by (split; [simpl; lia|constructor]).
      unfold entry_ok, new_entry. cbn [name kernel initrd cmdline luks_keyfile encrypted luks_tries].
      split_and!; try done; [|by left]. apply str_copy_ok, take_while_nonzero. by apply Forall_drop.
    + split; [done|]. apply Ht, skip_while_nonzero. by apply Forall_drop.
  - split; [done|]. by apply Ht, skip_while_nonzero.
Qed.

Lemma parse_loop_ok fuel p cfg cur merge r : cfg_ok cfg -> nonzero p ->
  parse_loop fuel p cfg cur merge = Some r -> cfg_ok r.
Proof.
  revert p cfg cur. induction fuel as [|f IH]; intros p cfg cur Hc Hp H; [done|]. cbn [parse_loop] in H.
  pose proof (skip_while_nonzero (fun c => is_space c || is_newline c) p Hp) as Hs.
  destruct (skip_while _ p) as [|c p'] eqn:E; [by injection H as <-|].
  destruct ((c =? chr "#") || (c =? chr ";")); [eapply IH; [done| |done]; by apply skip_while_nonzero|].
  destruct (c =? chr "[").
  - apply Forall_cons in Hs as [_ Hs]. pose proof (parse_section_ok p' cfg cur Hc Hs) as Hok.
    destruct (parse_section p' cfg cur) as [[p'' cfg'] cur']. destruct Hok. by eapply IH.
  - eapply IH; [| |done]; [|by apply Forall_drop]. apply parse_line_ok; [done|].
    apply Forall_take, take_while_nonzero, Hs.
Qed.


(** ** Printing, and parsing what was printed *)

Definition NL : list Z := [10].

Definition type_name (ty : OSType) : list Z :=
  match ty with
  | OS_TYPE_ELF64 => cs "elf64" | OS_TYPE_LINUX => cs "linux" | OS_TYPE_MULTIBOOT2 => cs "multiboot2"
  | OS_TYPE_WINDOWS => cs "windows" | _ => cs "unknown"
  end.

Definition color_names : list (list Z) :=
  [cs "black"; cs "blue"; cs "green"; cs "cyan"; cs "red"; cs "magenta"; cs "brown"; cs "lightgray"; cs "darkgray";
   cs "lightblue"; cs "lightgreen"; cs "lightcyan"; cs "lightred"; cs "lightmagenta"; cs "yellow"; cs "white"].

Definition color_name (c : Z) : list Z := nth (Z.to_nat c) color_names [].

Definition kv (key val : list Z) : list Z := key ++ cs " = " ++ val ++ NL.

Definition print_entry (e : BootEntry) : list Z :=
  cs "[entry:" ++ name e ++ cs "]" ++ NL ++ kv (cs "type") (type_name (type e)) ++ kv (cs "kernel") (kernel e) ++
  kv (cs "initrd") (initrd e) ++ kv (cs "cmdline") (cmdline e) ++
  kv (cs "encrypted") (if encrypted e =? 0 then cs "0" else cs "1") ++ kv (cs "luks_keyfile") (luks_keyfile e) ++
  kv (cs "luks_tries") (show_dec (luks_tries e)).

Definition print_cfg (cfg : BootConfig) : list Z :=
  kv (cs "timeout") (show_dec (timeout cfg)) ++ kv (cs "default") (show_dec (default_entry cfg)) ++
  kv (cs "theme") (color_name (theme_color cfg)) ++ kv (cs "accent") (color_name (accent_color cfg)) ++
  concat (map print_entry (entries cfg)).

(** A value that fits its array and has no space at either end. *)
Definition val_ok (v : list Z) : Prop :=
  Forall (fun c => negb (is_newline c) = true) v /\ (length v <= 255)%nat /\ trim v = v /\ skip_spaces v = v.

Definition key_ok (key : list Z) : Prop :=
  (0 < length key <= 63)%nat /\ Forall (fun c => is_key_char c = true) key /\
  negb (deref key =? chr "#") && negb (deref key =? chr ";") && negb (deref key =? chr "[") = true.

Lemma key_char c : is_key_char c = true -> is_space c = false /\ is_newline c = false.
Proof. unfold is_key_char. destruct (is_space c), (is_newline c); simpl; rewrite ?andb_false_r; done. Qed.

Lemma take_le_id {A} (l : list A) n : (length l <= n)%nat -> take n l = l.
Proof. apply take_ge. Qed.

Lemma parse_kv_printed key val : key_ok key -> val_ok val ->
  parse_kv (key ++ cs " = " ++ val) 64 MAX_STR_LEN = Some (key, val).
Proof.
  intros (Hkl & Hk & _) (Hv & Hvl & Htr & Hsp). unfold parse_kv, skip_spaces in *.
  change (cs " = " ++ val) with (32 :: 61 :: 32 :: val).
  destruct key as [|c key]; [simpl in Hkl; lia|].
  pose proof Hk as Hk'. apply Forall_cons in Hk' as [Hc _]. apply key_char in Hc as [Hc _].
  cbn [app]. rewrite (skip_while_head is_space c) by done.
  change (c :: key ++ 32 :: 61 :: 32 :: val) with ((c :: key) ++ 32 :: 61 :: 32 :: val).
  rewrite take_while_app, skip_while_app by done. unfold str_copy. rewrite take_le_id by (simpl in *; lia).
  rewrite bool_decide_false by done. change (skip_while is_space (32 :: 61 :: 32 :: val)) with (61 :: 32 :: val).
  change (deref (61 :: 32 :: val) =? chr "=") with true. cbn [negb tail].
  change (skip_while is_space (32 :: val)) with (skip_while is_space val). rewrite Hsp, take_while_id by done.
  rewrite take_le_id by (change (Z.to_nat (MAX_STR_LEN - 1)) with 255%nat; lia). by rewrite Htr.
Qed.

Lemma parse_loop_nl fuel rest cfg cur merge : parse_loop fuel (NL ++ rest) cfg cur merge = parse_loop fuel rest cfg cur merge.
Proof. by destruct fuel. Qed.

(** A line [key = value] is one turn of the loop. *)
Lemma parse_loop_kv fuel key val rest cfg cur merge : key_ok key -> val_ok val ->
  parse_loop (S fuel) (kv key val ++ rest) cfg cur merge =
  parse_loop fuel rest (match cur with
    | None => if merge then cfg else global_key cfg key val
    | Some i => set_entries cfg (alter (fun e => entry_key e key val) i (entries cfg))
    end) cur merge.
Proof.
  intros Hk Hv. pose proof (parse_kv_printed key val Hk Hv) as Hp.
  destruct Hk as (Hkl & Hk & Hf), Hv as (Hv & Hvl & _). unfold kv. cbn [parse_loop].
  destruct key as [|c key]; [simpl in Hkl; lia|]. cbn [app].
  pose proof Hk as Hk'. apply Forall_cons in Hk' as [Hc _]. apply key_char in Hc as [Hc1 Hc2].
  rewrite (skip_while_head _ c) by by rewrite Hc1, Hc2. cbn [deref hd] in Hf.
  apply andb_true_iff in Hf as [Hf Hf3]. apply andb_true_iff in Hf as [Hf1 Hf2].
  apply negb_true_iff in Hf1, Hf2, Hf3. rewrite Hf1, Hf2, Hf3. cbn [orb].
  assert (take_line (c :: (key ++ cs " = " ++ val ++ NL) ++ rest) = (c :: key) ++ cs " = " ++ val) as Htl.
  { unfold take_line. replace (c :: (key ++ cs " = " ++ val ++ NL) ++ rest)
      with (((c :: key) ++ cs " = " ++ val) ++ 10 :: rest) by (cbn [app]; by rewrite <- !app_assoc).
    rewrite take_while_app; [|apply Forall_app; split; [eapply Forall_impl; [exact Hk|]|apply Forall_app; split; [by repeat constructor|done]]|done].
    - apply take_ge. rewrite !length_app. simpl in *. lia.
    - intros x Hx. apply key_char in Hx as [_ ->]. done. }
  rewrite Htl. unfold parse_line. rewrite Hp.
  replace (drop (length ((c :: key) ++ cs " = " ++ val)) (c :: (key ++ cs " = " ++ val ++ NL) ++ rest)) with (NL ++ rest).
  - apply parse_loop_nl.
  - replace (c :: (key ++ cs " = " ++ val ++ NL) ++ rest) with (((c :: key) ++ cs " = " ++ val) ++ NL ++ rest)
      by (cbn [app]; by rewrite <- !app_assoc). by rewrite drop_app_length.
Qed.

(** A section header is another turn. *)
Lemma parse_loop_section fuel nm rest cfg cur merge :
  num_entries cfg < MAX_ENTRIES -> (length nm <= 255)%nat -> Forall (fun c => in_name c = true) nm ->
  parse_loop (S fuel) (cs "[entry:" ++ nm ++ cs "]" ++ NL ++ rest) cfg cur merge =
  parse_loop fuel rest (set_entries cfg (entries cfg ++ [new_entry nm])) (Some (length (entries cfg))) merge.
Proof.
  intros Hn Hl Hnm. cbn [parse_loop]. change (cs "[entry:" ++ nm ++ cs "]" ++ NL ++ rest)
    with (chr "[" :: cs "entry:" ++ nm ++ chr "]" :: NL ++ rest).
  rewrite (skip_while_head _ (chr "[")) by done. cbv zeta.
  change ((chr "[" =? chr "#") || (chr "[" =? chr ";")) with false. change (chr "[" =? chr "[") with true. cbv iota.
  unfold parse_section. change (str_starts (cs "entry:" ++ nm ++ chr "]" :: NL ++ rest) (cs "entry:")) with true.
  rewrite (proj2 (Z.ltb_lt _ _) Hn). cbv iota. change (drop 6 (cs "entry:" ++ nm ++ chr "]" :: NL ++ rest))
    with (nm ++ chr "]" :: NL ++ rest).
  rewrite take_while_app, skip_while_app by done. cbn [skip_while]. change (negb (chr "]" =? chr "]")) with false. cbv iota.
  change (deref (chr "]" :: NL ++ rest) =? chr "]") with true. cbn [tail]. rewrite parse_loop_nl.
  unfold str_copy. rewrite take_ge by (change (Z.to_nat (MAX_STR_LEN - 1)) with 255%nat; lia). done.
Qed.

Lemma show_dec_val_ok n : 0 <= n < 2 ^ 64 -> val_ok (show_dec n).
Proof.
  intros Hn. pose proof (show_dec_digits n ltac:(lia)) as Hd.
  assert (forall c, is_digit c = true -> is_space c = false /\ is_newline c = false) as Hc
    by (intros c Hc; unfold is_digit in Hc; unfold is_space, is_newline; lia).
  assert (forall v, Forall (fun c => is_digit c = true) v -> skip_while is_space v = v) as Hs.
  { intros v Hv. destruct Hv as [|c v Hc' Hv]; [done|]. apply skip_while_head, Hc, Hc'. }
  split_and!.
  - eapply Forall_impl; [exact Hd|]. intros c Hcd. apply Hc in Hcd as [_ ->]. done.
  - assert (forall k n, (length (dec_digits k n []) <= k)%nat) as Hlen.
    { induction k as [|k IH]; intros m; simpl; [lia|]. destruct (m =? 0); simpl; [lia|].
      rewrite dec_digits_app, length_app. specialize (IH (m / 10)). simpl. lia. }
    specialize (Hlen 20%nat n). unfold show_dec. destruct (n =? 0); [cbn [length]; lia|]. lia.
  - unfold trim. rewrite Hs by by apply Forall_rev. apply rev_involutive.
  - by apply Hs.
Qed.

Lemma take_while_digits n : 0 <= n -> take_while is_digit (show_dec n) = show_dec n.
Proof. intros. by apply take_while_id, show_dec_digits. Qed.

Lemma parse_u32_show n : 0 <= n < 2 ^ 32 -> parse_u32 (show_dec n) = n.
Proof.
  intros Hn. unfold parse_u32. rewrite take_while_digits by lia.
  pose proof (show_dec_val n ltac:(lia)) as Hv. unfold dec_val in Hv.
  rewrite (dec_fold_wrap u32 (2 ^ 32)); [done|apply (wrap_small 32)|apply show_dec_digits; lia|lia|lia].
Qed.

Lemma parse_int_show n : 0 <= n < 2 ^ 31 -> parse_int (show_dec n) = n.
Proof.
  intros Hn. unfold parse_int. rewrite take_while_digits by lia.
  pose proof (show_dec_val n ltac:(lia)) as Hv. unfold dec_val in Hv.
  rewrite (dec_fold_wrap i32 (2 ^ 31)); [done|intros; apply i32_small; lia|apply show_dec_digits; lia|lia|lia].
Qed.

(** What the format can represent: names that do not end the header, values without
    line breaks or outer spaces, a type with a name, at least one try. *)
Definition printable_entry (e : BootEntry) : Prop :=
  (length (name e) <= 255)%nat /\ Forall (fun c => in_name c = true) (name e) /\
  val_ok (kernel e) /\ val_ok (initrd e) /\ val_ok (cmdline e) /\ val_ok (luks_keyfile e) /\
  type e <> OS_TYPE_UEFI_SHELL /\ (encrypted e = 0 \/ encrypted e = 1) /\ 0 < luks_tries e < 2 ^ 31.

Ltac key_ok_tac := split_and!; [simpl; lia|simpl; lia|by repeat constructor|reflexivity].

Lemma alter_last {A} (f : A -> A) (l : list A) x : alter f (length l) (l ++ [x]) = l ++ [f x].
Proof. by rewrite alter_app_r_alt, Nat.sub_diag by lia. Qed.

Lemma str_copy_id v : val_ok v -> str_copy v MAX_STR_LEN = v.
Proof. intros (_ & H & _). unfold str_copy. apply take_ge. change (Z.to_nat (MAX_STR_LEN - 1)) with 255%nat. lia. Qed.

Lemma type_name_ok ty : val_ok (type_name ty) /\ (ty <> OS_TYPE_UEFI_SHELL -> config_parse_type (type_name ty) = ty).
Proof. destruct ty; (split; [split_and!; [by repeat constructor|simpl; lia|reflexivity|reflexivity]|done]). Qed.

(** The keys the printer writes, in its order, rebuild the entry. *)
Lemma entry_keys nm ty ke ir cm en kf tr :
  entry_key (entry_key (entry_key (entry_key (entry_key (entry_key (entry_key (new_entry nm)
    (cs "type") ty) (cs "kernel") ke) (cs "initrd") ir) (cs "cmdline") cm) (cs "encrypted") en)
    (cs "luks_keyfile") kf) (cs "luks_tries") tr =
  {| name := nm; type := config_parse_type ty; kernel := str_copy ke MAX_STR_LEN; initrd := str_copy ir MAX_STR_LEN;
     cmdline := str_copy cm MAX_STR_LEN;
     encrypted := if (deref en =? chr "1") || (deref en =? chr "y") || (deref en =? chr "t") then 1 else 0;
     luks_keyfile := str_copy kf MAX_STR_LEN; luks_tries := if parse_int tr >? 0 then parse_int tr else 3 |}.
Proof. reflexivity. Qed.

Lemma parse_loop_entry fuel e rest cfg cur merge : num_entries cfg < MAX_ENTRIES -> printable_entry e ->
  parse_loop (8 + fuel) (print_entry e ++ rest) cfg cur merge =
  parse_loop fuel rest (set_entries cfg (entries cfg ++ [e])) (Some (length (entries cfg))) merge.
Proof.
  intros Hn (Hnl & Hnm & Hk & Hi & Hc & Hf & Hty & He & Ht). destruct e as [nm ty ke ir cm en kf tr].
  cbn [name type kernel initrd cmdline encrypted luks_keyfile luks_tries] in *.
  destruct (type_name_ok ty) as [Htv Htp].
  assert (val_ok (if en =? 0 then cs "0" else cs "1")) as Hev
    by (destruct (en =? 0); (split_and!; [by repeat constructor|simpl; lia|reflexivity|reflexivity])).
  pose proof (show_dec_val_ok tr ltac:(lia)) as Htrv.
  unfold print_entry. cbn [name type kernel initrd cmdline encrypted luks_keyfile luks_tries Nat.add].
  rewrite <- !app_assoc, parse_loop_section by done.
  rewrite !parse_loop_kv by (try done; key_ok_tac). cbn [entries set_entries]. rewrite !alter_last. rewrite entry_keys.
  unfold set_entries. cbn [timeout default_entry theme_color accent_color entries].
  rewrite Htp, !str_copy_id, parse_int_show, Z.gtb_ltb, (proj2 (Z.ltb_lt 0 tr)) by (done || lia).
  by destruct He as [-> | ->].
Qed.

Lemma parse_loop_entries fuel es cfg cur merge : num_entries cfg + zlen es <= MAX_ENTRIES -> Forall printable_entry es ->
  parse_loop (8 * length es + S fuel) (concat (map print_entry es)) cfg cur merge =
  Some (set_entries cfg (entries cfg ++ es)).
Proof.
  intros Hn Hes. revert cfg cur Hn. induction Hes as [|e es He Hes IH]; intros cfg cur Hn.
  { cbn. rewrite app_nil_r. by destruct cfg. }
  cbn [map concat length] in *. replace (8 * S (length es) + S fuel)%nat with (8 + (8 * length es + S fuel))%nat by lia.
  rewrite parse_loop_entry by (done || lia). rewrite IH.
  - unfold set_entries. cbn. by rewrite <- app_assoc.
  - unfold num_entries in *. cbn [entries set_entries]. rewrite length_app. cbn [length]. lia.
Qed.

Lemma color_ok c : 0 <= c <= 15 -> val_ok (color_name c) /\ config_parse_color (color_name c) = c.
Proof.
  intros Hc. assert (exists n, (n < 16)%nat /\ c = Z.of_nat n) as (n & Hn & ->) by (exists (Z.to_nat c); lia).
  do 16 (destruct n as [|n]; [split; [split_and!; [by repeat constructor|simpl; lia|reflexivity|reflexivity]|reflexivity]|]).
  lia.
Qed.


(** ** Merging and adding *)

(** What the parser never does to entries that were there: drop or reorder them, or
    touch one it did not create itself. *)
Definition extends (cfg cfg' : BootConfig) : Prop :=
  timeout cfg' = timeout cfg /\ default_entry cfg' = default_entry cfg /\ theme_color cfg' = theme_color cfg /\
  accent_color cfg' = accent_color cfg /\ exists es, entries cfg' = entries cfg ++ es.

Lemma parse_line_extends line cfg0 cfg cur : extends cfg0 cfg ->
  (forall i, cur = Some i -> (length (entries cfg0) <= i)%nat) -> extends cfg0 (parse_line line cfg cur true).
Proof.
  intros (H1 & H2 & H3 & H4 & es & H5) Hcur. unfold parse_line.
  destruct (parse_kv line 64 MAX_STR_LEN) as [[key val]|]; [|by split_and!; [..|exists es]].
  destruct cur as [i|]; [|by split_and!; [..|exists es]]. specialize (Hcur i eq_refl).
  unfold extends. cbn [timeout default_entry theme_color accent_color entries set_entries]. split_and!; [done..|].
  rewrite H5, alter_app_r_alt by lia. by eexists.
Qed.

Lemma parse_loop_extends fuel p cfg0 cfg cur r : extends cfg0 cfg ->
  (forall i, cur = Some i -> (length (entries cfg0) <= i)%nat) ->
  parse_loop fuel p cfg cur true = Some r -> extends cfg0 r.
Proof.
  revert p cfg cur. induction fuel as [|f IH]; intros p cfg cur Hc Hcur H; [done|]. cbn [parse_loop] in H.
  destruct (skip_while _ p) as [|c p']; [by injection H as <-|].
  destruct ((c =? chr "#") || (c =? chr ";")); [by eapply IH|].
  destruct (c =? chr "["); [|by eapply IH; [apply parse_line_extends|..]].
  destruct (parse_section p' cfg cur) as [[p'' cfg'] cur'] eqn:E. eapply IH; [| |exact H].
  - unfold parse_section in E. destruct Hc as (H1 & H2 & H3 & H4 & es & H5).
    destruct (str_starts p' (cs "entry:")); [destruct (num_entries cfg <? MAX_ENTRIES)|];
      injection E as _ <- _; unfold extends; cbn [timeout default_entry theme_color accent_color entries set_entries];
      (split_and!; [done..|]); [|by exists es|by exists es].
    rewrite H5, <- app_assoc. by eexists.
  - intros i ->. unfold parse_section in E. destruct Hc as (_ & _ & _ & _ & es & H5).
    destruct (str_starts p' (cs "entry:")); [destruct (num_entries cfg <? MAX_ENTRIES)|];
      injection E as _ _ E; [|by apply Hcur|by apply Hcur].
    subst i. rewrite H5, length_app. lia.
Qed.

Lemma str_eq_spec a b : str_eq a b = true <-> a = b.
Proof.
  revert b. induction a as [|x a IH]; intros [|y b]; cbn [str_eq]; try (split; done).
  destruct (Z.eqb_spec x y) as [->|Hne]; [|split; [done|naive_solver]]. rewrite IH. naive_solver.
Qed.

Lemma global_key_entries cfg key val : entries (global_key cfg key val) = entries cfg.
Proof. unfold global_key. by repeat case_match. Qed.

Lemma global_timeout cfg v : global_key cfg (cs "timeout") v =
  {| timeout := parse_u32 v; default_entry := default_entry cfg; theme_color := theme_color cfg;
     accent_color := accent_color cfg; entries := entries cfg |}.
Proof. reflexivity. Qed.

Lemma global_default cfg v : global_key cfg (cs "default") v =
  {| timeout := timeout cfg; default_entry := parse_u32 v; theme_color := theme_color cfg;
     accent_color := accent_color cfg; entries := entries cfg |}.
Proof. reflexivity. Qed.

Lemma global_accent cfg v : global_key cfg (cs "accent") v =
  let c := config_parse_color v in
  if c >=? 0 then {| timeout := timeout cfg; default_entry := default_entry cfg; theme_color := theme_color cfg;
    accent_color := u8 c; entries := entries cfg |} else cfg.
Proof. reflexivity. Qed.

Lemma global_theme cfg v : global_key cfg (cs "theme") v =
  let c := config_parse_color v in
  if (c >=? 0) && (c <=? 7) then {| timeout := timeout cfg; default_entry := default_entry cfg; theme_color := u8 c;
    accent_color := accent_color cfg; entries := entries cfg |} else cfg.
Proof. reflexivity. Qed.

Lemma clamp_entries r : entries (clamp_default r) = entries r.
Proof. unfold clamp_default. by destruct (_ && _). Qed.

Lemma clamp_num r : num_entries (clamp_default r) = num_entries r.
Proof. unfold num_entries. by rewrite clamp_entries. Qed.

Lemma clamp_ok r : cfg_ok r -> cfg_ok (clamp_default r).
Proof.
  intros (H1 & H2 & H3 & H4 & H5 & H6). unfold cfg_ok. rewrite clamp_num, clamp_entries.
  unfold clamp_default. destruct (_ && _); cbn [timeout default_entry theme_color accent_color];
    (split; [done|]; split; [done|]; lia).
Qed.

Lemma do_parse_run buf cfg (merge : bool) :
  exists r, parse_loop (S (length buf)) buf (if merge then cfg else reset cfg) None merge = Some r /\
  do_parse buf cfg merge = Some (if num_entries r >? 0 then 0 else -1, clamp_default r).
Proof.
  destruct (parse_loop_total (S (length buf)) buf (if merge then cfg else reset cfg) None merge) as [r Hr]; [lia|].
  exists r. split; [done|]. unfold do_parse. rewrite Hr. cbn [mbind option_bind]. by rewrite clamp_num.
Qed.

(** ** Theorems *)


Definition empty_cfg : BootConfig :=
  {| timeout := 0; default_entry := 0; theme_color := 0; accent_color := 0; entries := [] |}.


(** [C4] Round trip: parsing the printed form of any representable configuration gives
    that configuration back, field for field, and returns 0. *)
Theorem config_roundtrip (cfg cfg0 : BootConfig)
    (Ht : 0 <= timeout cfg < 2 ^ 32) (Hd : 0 <= default_entry cfg < num_entries cfg)
    (Hth : 0 <= theme_color cfg <= 7) (Hac : 0 <= accent_color cfg <= 15)
    (Hn : num_entries cfg <= MAX_ENTRIES) (Hes : Forall printable_entry (entries cfg)) :
  config_parse (print_cfg cfg) cfg0 = Some (0, cfg).
Proof.
  destruct (do_parse_run (print_cfg cfg) cfg0 false) as (r & Hr & Hdo). unfold config_parse. rewrite Hdo.
  assert (r = cfg) as ->.
  { destruct (color_ok (theme_color cfg) ltac:(lia)) as [Hv1 Hc1], (color_ok (accent_color cfg) Hac) as [Hv2 Hc2].
    unfold MAX_ENTRIES in Hn.
    assert (parse_loop (4 + (8 * length (entries cfg) + 1)) (print_cfg cfg) (reset cfg0) None false = Some cfg) as H.
    { unfold print_cfg. cbn [Nat.add]. rewrite !parse_loop_kv by (try done; try key_ok_tac; apply show_dec_val_ok; lia).
      rewrite parse_loop_entries by (try done; unfold num_entries, MAX_ENTRIES in *; rewrite !global_key_entries; cbn; lia).
      rewrite !global_key_entries. f_equal.
      rewrite global_timeout, global_default, global_theme, global_accent. cbv zeta.
      rewrite Hc1, Hc2, !Z.geb_leb, !(proj2 (Z.leb_le 0 _)), (proj2 (Z.leb_le _ 7)) by lia. cbn [andb].
      rewrite !parse_u32_show, !u8_byte by (unfold is_byte, num_entries in *; lia). by destruct cfg. }
    apply parse_loop_enough in H. rewrite Hr in H. by injection H. }
  unfold clamp_default. rewrite Z.geb_leb, (proj2 (Z.leb_gt _ _)) by lia. cbn [andb].
  by rewrite Z.gtb_ltb, (proj2 (Z.ltb_lt _ _)) by lia.
Qed.

Definition demo_entry : BootEntry :=
  {| name := cs "Linux 6.1"; type := OS_TYPE_LINUX; kernel := cs "/boot/vmlinuz"; initrd := cs "/boot/initrd.img";
     cmdline := cs "root=/dev/sda2 quiet"; encrypted := 1; luks_keyfile := []; luks_tries := 5 |}.

Definition demo_cfg : BootConfig :=
  {| timeout := 10; default_entry := 1; theme_color := 5; accent_color := 14; entries := [demo_entry; demo_entry] |}.

Lemma config_roundtrip_witness : config_parse (print_cfg demo_cfg) empty_cfg = Some (0, demo_cfg).
Proof.
  assert (printable_entry demo_entry) as He.
  { assert (forall v, Forall (fun c => negb (is_newline c) = true) v -> (length v <=? 255)%nat = true -> trim v = v ->
      skip_spaces v = v -> val_ok v) as Hv by (intros v ? Hl%Nat.leb_le ? ?; done).
    unfold printable_entry. split_and!; try (apply Hv; [by repeat constructor|reflexivity|reflexivity|reflexivity]);
      try (by repeat constructor); try (cbn; lia); try discriminate; by right. }
  apply (config_roundtrip demo_cfg empty_cfg); [by vm_compute..|by repeat constructor].
Defined.

(** Merging a second file only appends: the global settings stay, and the entries
    already there are kept as they are, in order, before the new ones. *)
Theorem config_merge_appends (buf : list Z) (cfg : BootConfig) :
  exists ret cfg' es, config_parse_merge buf cfg = Some (ret, cfg') /\ entries cfg' = entries cfg ++ es /\
  timeout cfg' = timeout cfg /\ theme_color cfg' = theme_color cfg /\ accent_color cfg' = accent_color cfg /\
  (default_entry cfg < num_entries cfg' -> default_entry cfg' = default_entry cfg).
Proof.
  destruct (do_parse_run buf cfg true) as (r & Hr & Hd). unfold config_parse_merge. rewrite Hd.
  apply (parse_loop_extends _ _ cfg) in Hr as (H1 & H2 & H3 & H4 & es & H5);
    [|by split_and!; [..|exists []; rewrite app_nil_r]|done].
  do 2 eexists. exists es. split; [done|].
  unfold num_entries. rewrite clamp_entries. split; [done|].
  unfold clamp_default. destruct (Z.geb_spec (default_entry r) (num_entries r)); cbn [andb]; [|by rewrite H2].
  rewrite Z.gtb_ltb. destruct (Z.ltb_spec 0 (num_entries r)); cbn [timeout theme_color accent_color default_entry];
    split_and!; try done; unfold num_entries in *; lia.
Qed.

(** [config_add_kernel] on an unseen path appends one entry while there is room and
    fails without a change when there is none; adding the same path again, also
    under another name, changes nothing. *)
Theorem config_add_kernel_spec (cfg : BootConfig) (nm nm2 path : list Z) (ty ty2 : OSType) (ip ip2 : option (list Z))
    (Hlen : (length path <= 255)%nat) (Hnew : ~ path ∈ map kernel (entries cfg)) :
  (num_entries cfg = MAX_ENTRIES -> config_add_kernel cfg nm ty path ip = (-1, cfg)) /\
  (num_entries cfg < MAX_ENTRIES -> exists e, let cfg' := set_entries cfg (entries cfg ++ [e]) in
     kernel e = path /\ type e = ty /\ name e = take 255 nm /\
     config_add_kernel cfg nm ty path ip = (0, cfg') /\ config_add_kernel cfg' nm2 ty2 path ip2 = (0, cfg')).
Proof.
  assert (existsb (fun e => str_eq (kernel e) path) (entries cfg) = false) as Hno.
  { apply not_true_iff_false. rewrite existsb_exists. intros (e & He & Heq). apply str_eq_spec in Heq as <-.
    apply Hnew. apply list_elem_of_fmap. exists e. split; [done|]. by apply list_elem_of_In. }
  unfold config_add_kernel at 1 2. rewrite Hno, Z.geb_leb. split.
  - intros ->. done.
  - intros Hn. rewrite (proj2 (Z.leb_gt _ _)) by lia. eexists. cbv zeta. split; [|split; [|split; [|split; [reflexivity|]]]].
    + cbn [kernel]. unfold str_copy. apply take_ge. change (Z.to_nat (MAX_STR_LEN - 1)) with 255%nat. lia.
    + reflexivity.
    + reflexivity.
    + unfold config_add_kernel. cbn [entries set_entries]. rewrite existsb_app. cbn [existsb kernel].
      rewrite (proj2 (str_eq_spec (str_copy path MAX_STR_LEN) path)); [by rewrite orb_true_r|].
      unfold str_copy. apply take_ge. change (Z.to_nat (MAX_STR_LEN - 1)) with 255%nat. lia.
Qed.

Lemma config_add_kernel_spec_witness :
  exists e, config_add_kernel empty_cfg (cs "Vios") OS_TYPE_ELF64 (cs "/boot/vios/kernel.elf") None =
    (0, set_entries empty_cfg [e]) /\ kernel e = cs "/boot/vios/kernel.elf".
Proof.
  destruct (proj2 (config_add_kernel_spec empty_cfg (cs "Vios") [] (cs "/boot/vios/kernel.elf") OS_TYPE_ELF64 OS_TYPE_ELF64
    None None ltac:(apply (bool_decide_unpack _); by vm_compute) ltac:(apply not_elem_of_nil)) ltac:(reflexivity))
    as (e & Hk & _ & _ & Ha & _).
  exists e. split; [exact Ha|exact Hk].
Defined.

(** The header of a seventeenth entry is skipped but the keys below it are not: they
    overwrite the sixteenth entry. *)
Theorem surplus_section_overwrites (fuel : nat) (nm v rest : list Z) (cfg : BootConfig) (merge : bool)
    (Hn : num_entries cfg = MAX_ENTRIES) (Hnm : Forall (fun c => in_name c = true) nm) (Hv : val_ok v) :
  parse_loop (2 + fuel) (cs "[entry:" ++ nm ++ cs "]" ++ NL ++ kv (cs "kernel") v ++ rest) cfg (Some 15%nat) merge =
  parse_loop fuel rest (set_entries cfg (alter (fun e => entry_key e (cs "kernel") v) 15%nat (entries cfg))) (Some 15%nat) merge.
Proof.
  cbn [Nat.add]. change (cs "[entry:" ++ nm ++ cs "]" ++ NL ++ kv (cs "kernel") v ++ rest)
    with (chr "[" :: cs "entry:" ++ nm ++ chr "]" :: NL ++ kv (cs "kernel") v ++ rest).
  etransitivity; [|apply (parse_loop_kv fuel (cs "kernel") v rest cfg (Some 15%nat) merge); [key_ok_tac|done]].
  etransitivity; [|apply (parse_loop_nl (S fuel))].
  cbn [parse_loop]. rewrite (skip_while_head _ (chr "[")) by done. cbv zeta.
  change ((chr "[" =? chr "#") || (chr "[" =? chr ";")) with false. change (chr "[" =? chr "[") with true. cbv iota.
  unfold parse_section. change (str_starts (cs "entry:" ++ nm ++ chr "]" :: NL ++ kv (cs "kernel") v ++ rest) (cs "entry:")) with true.
  rewrite Hn. change (MAX_ENTRIES <? MAX_ENTRIES) with false. cbv iota.
  change (drop 6 (cs "entry:" ++ nm ++ chr "]" :: NL ++ kv (cs "kernel") v ++ rest))
    with (nm ++ chr "]" :: NL ++ kv (cs "kernel") v ++ rest).
  rewrite skip_while_app; [|eapply Forall_impl; [exact Hnm|]|done].
  - change (deref (chr "]" :: NL ++ kv (cs "kernel") v ++ rest) =? chr "]") with true. reflexivity.
  - intros c Hc. unfold in_name in Hc. by apply andb_true_iff in Hc as [-> _].
Qed.

Lemma surplus_section_overwrites_witness :
  let cfg := set_entries empty_cfg (repeat demo_entry 16) in
  parse_loop 3 (cs "[entry:Surplus]" ++ NL ++ kv (cs "kernel") (cs "/evil") ++ []) cfg (Some 15%nat) false =
  Some (set_entries cfg (repeat demo_entry 15 ++ [entry_key demo_entry (cs "kernel") (cs "/evil")])).
Proof.
  cbv zeta. etransitivity; [apply (surplus_section_overwrites 1 (cs "Surplus") (cs "/evil") []
    (set_entries empty_cfg (repeat demo_entry 16)) false)|reflexivity].
  - reflexivity.
  - by repeat constructor.
  - split_and!; [by repeat constructor|apply (bool_decide_unpack _); by vm_compute|reflexivity|reflexivity].
Defined.

(** Names made for discovered kernels.  The second line is the example in [config.h],
    which says ViOS; the last shows that the name ends at the first dot. *)
Example make_names :
  config_make_name (cs "/boot") (cs "vmlinuz-6.1") OS_TYPE_LINUX 256 = cs "Linux 6.1" /\
  config_make_name (cs "/boot/vios") (cs "kernel.elf") OS_TYPE_ELF64 256 = cs "Vios" /\
  config_make_name (cs "/boot") (cs "myos.elf") OS_TYPE_ELF64 256 = cs "myos" /\
  config_make_name (cs "/boot") (cs "my.os.elf") OS_TYPE_ELF64 256 = cs "my".
Proof. by vm_compute. Qed.

(** ** The documented syntax

    [docs/pages/docs/config.md] writes an entry as a block [entry { title = ... }]; the
    code knows only the header [[entry:Name]] of [sakuru.cfg.example]. *)

Lemma skip_while_incl f l c : c ∈ skip_while f l -> c ∈ l.
Proof. induction l as [|x l IH]; cbn; [done|]. destruct (f x); [|done]. intros H. apply list_elem_of_further. by apply IH. Qed.

Lemma parse_loop_no_section fuel p cfg r : chr "[" ∉ p ->
  parse_loop fuel p cfg None false = Some r -> entries r = entries cfg.
Proof.
  revert p cfg. induction fuel as [|f IH]; intros p cfg Hp; [done|]. cbn [parse_loop].
  destruct (skip_while _ p) as [|c p'] eqn:E; [by intros [= ->]|].
  assert (chr "[" ∉ c :: p') as Hc by (rewrite <- E; intros H; by apply skip_while_incl in H).
  destruct (_ || _); [apply IH; intros H; apply skip_while_incl in H; done|].
  destruct (Z.eqb_spec c (chr "[")) as [->|_]; [destruct Hc; apply list_elem_of_here|].
  intros H. apply IH in H; [|intros Hd; apply Hc; by rewrite <- (take_drop (length (take_line (c :: p')))), elem_of_app; right].
  rewrite H. unfold parse_line. destruct (parse_kv _ _ _) as [[key val]|]; [apply global_key_entries|done].
Qed.

(** A configuration without a section header, the documented block syntax among them, has
    no entries, and the parser reports that. *)
Theorem config_without_sections (buf : list Z) (cfg : BootConfig) (Hb : chr "[" ∉ buf) :
  exists cfg', config_parse buf cfg = Some (-1, cfg') /\ entries cfg' = [].
Proof.
  destruct (parse_loop_total (S (length buf)) buf (reset cfg) None false) as [r Hr]; [lia|].
  unfold config_parse, do_parse. rewrite Hr. cbn [mbind option_bind].
  apply parse_loop_no_section in Hr; [|done]. cbn [reset entries] in Hr.
  assert (num_entries r = 0) as Hn by (unfold num_entries; by rewrite Hr).
  exists r. unfold clamp_default. by rewrite Hn, andb_false_r, Hn.
Qed.

Definition documented : list Z :=
  cs "default = Arch Linux" ++ NL ++ cs "timeout = 5" ++ NL ++ NL ++ cs "entry {" ++ NL ++
  cs "    title   = Arch Linux" ++ NL ++ cs "    kernel  = /vmlinuz-linux" ++ NL ++ cs "}" ++ NL.

Lemma config_without_sections_witness :
  exists cfg', config_parse documented empty_cfg = Some (-1, cfg') /\ entries cfg' = [].
Proof. apply config_without_sections. apply (bool_decide_unpack _). by vm_compute. Defined.

(** The flag of an encrypted entry is told by the first character in lower case only. *)
Example encrypted_is_case_sensitive :
  encrypted (entry_key demo_entry (cs "encrypted") (cs "yes")) = 1 /\
  encrypted (entry_key demo_entry (cs "encrypted") (cs "Yes")) = 0 /\
  encrypted (entry_key demo_entry (cs "encrypted") (cs "TRUE")) = 0.
Proof. by vm_compute. Qed.

(** A header without its closing bracket swallows what follows, up to the next bracket. *)
Example unclosed_header :
  (fun r => map name (entries (snd r))) <$>
    config_parse (cs "[entry:One" ++ NL ++ cs "kernel = /a" ++ NL ++ cs "[entry:Two]" ++ NL ++ cs "kernel = /b") empty_cfg =
  Some [cs "One"] /\
  (fun r => map kernel (entries (snd r))) <$>
    config_parse (cs "[entry:One" ++ NL ++ cs "kernel = /a" ++ NL ++ cs "[entry:Two]" ++ NL ++ cs "kernel = /b") empty_cfg =
  Some [cs "/b"].
Proof. by vm_compute. Qed.

End Config.
