(* ===== verification/Disk.v ===== *)
(** * Disk: BIOS extended reads, [bios/stage2/disk.c]

    The disk address packet, the two builds of [disk_read] (with the interrupt, and
    the long-mode build in which it does nothing) and the block device the FAT
    driver sees.  The BIOS itself is the parameter [int13]. *)

From S2P Require Import Prelude Iface.

Definition DISK_BOUNCE_ADDR : Z := 0x8000.

Record DAP := { dap_size : Z; dap_reserved : Z; dap_sectors : Z; dap_offset : Z; dap_segment : Z; dap_lba : Z }.

Definition make_dap (lba count : Z) : DAP :=
  {| dap_size := 16; dap_reserved := 0; dap_sectors := u16 (if count >? 127 then 127 else count);
     dap_offset := DISK_BOUNCE_ADDR .& 0xFFFF; dap_segment := (DISK_BOUNCE_ADDR >> 4) .& 0xF000; dap_lba := lba |}.

Section Disk.
(** [i386]: the build with the interrupt.  [int13 drive dap] is the memory at
    [DISK_BOUNCE_ADDR] after the call, [None] when the carry flag is set. *)
Context (i386 : bool) (int13 : Z -> DAP -> option (list Z)).

Definition disk_read (g_drive lba count : Z) (buf : list Z) : option (Z * list Z) :=
  let dap := make_dap lba count in
  if i386 then
    match int13 g_drive dap with
    | None => Some (-1, buf)
    | Some bounce =>
      let n := dap_sectors dap * 512 in
      src ← sub bounce 0 n;
      if n <=? zlen buf then Some (0, src ++ drop (Z.to_nat n) buf) else None
    end
  else Some (0, buf).

#[export] Instance disk_dev (g_drive : Z) : BlockDev := {| dev_read := disk_read g_drive |}.

(** INT 13h AH=42h: the packet's sectors, from its address on, appear at the
    packet's buffer address. *)
Definition bios_serves (g_drive : Z) (sector : Z -> list Z) : Prop :=
  forall dap, dap_size dap = 16 -> 0 <= dap_sectors dap <= 127 ->
    dap_segment dap * 16 + dap_offset dap = DISK_BOUNCE_ADDR ->
    exists rest, int13 g_drive dap = Some (flat_map sector (seqZ (dap_lba dap) (dap_sectors dap)) ++ rest).

Lemma disk_dev_image g_drive sector :
  i386 = true -> bios_serves g_drive sector ->
  (forall lba, length (sector lba) = 512%nat) -> (forall lba, bytes (sector lba)) ->
  @BlockDevImage sector (disk_dev g_drive).
Proof.
  intros Hb Hs Hl Hby. split; [done..|]. intros lba count buf Hc Hbuf. cbn [dev_read disk_dev]. unfold disk_read. rewrite Hb.
  assert (dap_sectors (make_dap lba count) = count) as Hd.
  { cbn. destruct (Z.gtb_spec count 127); [lia|]. apply wrap_small. lia. }
  destruct (Hs (make_dap lba count)) as [rest ->]; [done|lia|done|]. rewrite Hd. cbn [dap_lba make_dap].
  pose proof (flat_map_const_length sector 512 (seqZ lba count) Hl) as Hn. rewrite length_seqZ in Hn.
  unfold sub. rewrite decide_True by (rewrite length_app; lia). cbn.
  rewrite drop_0, take_app_length' by lia. by replace (count * 512 <=? zlen buf) with true by lia.
Qed.

(** The long-mode build reads nothing, and says so to nobody: the buffer keeps what
    it held and the status is 0. *)
Lemma disk_read_long_mode g_drive lba count buf : i386 = false -> disk_read g_drive lba count buf = Some (0, buf).
Proof. unfold disk_read. by intros ->. Qed.
End Disk.
