(* ===== verification/Fat.v ===== *)
(** * Fat: the FAT32 driver, [bios/stage2/fat.c]

    The driver state (geometry, handle pool, static buffers), the cluster chain,
    the directory search with its long-name buffer, open, read, close and the
    enumeration with its callback.  The disk is the interface [BlockDev].
    [None] is behaviour C leaves undefined. *)

From S2P Require Import Prelude Iface Disk.

Module Fat.

Definition SECTOR_SIZE : Z := 512.
Definition MAX_OPEN_FILES : Z := 8.
Definition FAT32_EOC : Z := 0x0FFFFFF8.
Definition FAT_MASK : Z := 0x0FFFFFFF.
Definition ATTR_VOLUME_ID : Z := 0x08.
Definition ATTR_DIRECTORY : Z := 0x10.
Definition ATTR_LFN : Z := 0x0F.

Record FatFile := { first_cluster : Z; file_size : Z; cur_cluster : Z; offset : Z; is_dir : bool }.

(** The static data of the driver; [g_bpb] is the 90 bytes of the structure. *)
Record fat := {
  g_bpb : list Z; g_part_lba : Z; g_fat_start : Z; g_data_start : Z; g_root_cluster : Z; g_spc : Z;
  g_file_pool : list FatFile; g_pool_used : list bool;
  g_sector_buf : list Z; cluster_buf : list Z; clust_buf : list Z; enum_buf : list Z }.

(** Fields of the parameter block. *)
Definition bytes_per_sector (b : list Z) : Z := le_val (take 2 (drop 11 b)).
Definition sectors_per_cluster (b : list Z) : Z := nthZ b 13.
Definition reserved_sectors (b : list Z) : Z := le_val (take 2 (drop 14 b)).
Definition num_fats (b : list Z) : Z := nthZ b 16.
Definition total_sectors32 (b : list Z) : Z := le_val (take 4 (drop 32 b)).
Definition fat_size32 (b : list Z) : Z := le_val (take 4 (drop 36 b)).
Definition root_cluster (b : list Z) : Z := le_val (take 4 (drop 44 b)).

(** A directory entry is its 32 bytes, read through either structure. *)
Definition de_name (e : list Z) : list Z := take 8 e.
Definition de_ext (e : list Z) : list Z := take 3 (drop 8 e).
Definition de_attr (e : list Z) : Z := nthZ e 11.
Definition de_cluster (e : list Z) : Z := (le_val (take 2 (drop 20 e)) << 16) .| le_val (take 2 (drop 26 e)).
Definition de_size (e : list Z) : Z := le_val (take 4 (drop 28 e)).
Definition lfn_ord (e : list Z) : Z := nthZ e 0.

(** The thirteen UTF-16 units of [name1], [name2] and [name3]. *)
Definition lfn_units (e : list Z) : list Z :=
  map (fun o => le_val (take 2 (drop (Z.to_nat o) e))) [1; 3; 5; 7; 9; 14; 16; 18; 20; 22; 24; 28; 30].

Definition lfn_chars (e : list Z) : list Z := map (fun w => if w =? 0 then 0 else u8 w) (lfn_units e).

Definition set_sector_buf (f : fat) (b : list Z) : fat :=
  {| g_bpb := g_bpb f; g_part_lba := g_part_lba f; g_fat_start := g_fat_start f; g_data_start := g_data_start f;
     g_root_cluster := g_root_cluster f; g_spc := g_spc f; g_file_pool := g_file_pool f; g_pool_used := g_pool_used f;
     g_sector_buf := b; cluster_buf := cluster_buf f; clust_buf := clust_buf f; enum_buf := enum_buf f |}.
Definition set_cluster_buf (f : fat) (b : list Z) : fat :=
  {| g_bpb := g_bpb f; g_part_lba := g_part_lba f; g_fat_start := g_fat_start f; g_data_start := g_data_start f;
     g_root_cluster := g_root_cluster f; g_spc := g_spc f; g_file_pool := g_file_pool f; g_pool_used := g_pool_used f;
     g_sector_buf := g_sector_buf f; cluster_buf := b; clust_buf := clust_buf f; enum_buf := enum_buf f |}.
Definition set_clust_buf (f : fat) (b : list Z) : fat :=
  {| g_bpb := g_bpb f; g_part_lba := g_part_lba f; g_fat_start := g_fat_start f; g_data_start := g_data_start f;
     g_root_cluster := g_root_cluster f; g_spc := g_spc f; g_file_pool := g_file_pool f; g_pool_used := g_pool_used f;
     g_sector_buf := g_sector_buf f; cluster_buf := cluster_buf f; clust_buf := b; enum_buf := enum_buf f |}.
Definition set_enum_buf (f : fat) (b : list Z) : fat :=
  {| g_bpb := g_bpb f; g_part_lba := g_part_lba f; g_fat_start := g_fat_start f; g_data_start := g_data_start f;
     g_root_cluster := g_root_cluster f; g_spc := g_spc f; g_file_pool := g_file_pool f; g_pool_used := g_pool_used f;
     g_sector_buf := g_sector_buf f; cluster_buf := cluster_buf f; clust_buf := clust_buf f; enum_buf := b |}.
Definition set_pool (f : fat) (pool : list FatFile) (used : list bool) : fat :=
  {| g_bpb := g_bpb f; g_part_lba := g_part_lba f; g_fat_start := g_fat_start f; g_data_start := g_data_start f;
     g_root_cluster := g_root_cluster f; g_spc := g_spc f; g_file_pool := pool; g_pool_used := used;
     g_sector_buf := g_sector_buf f; cluster_buf := cluster_buf f; clust_buf := clust_buf f; enum_buf := enum_buf f |}.

(** ** Names *)

Definition trim_right (l : list Z) : list Z := rev (skip_while (fun c => c =? 32) (rev l)).

(** What [out] holds before its terminator is written. *)
Definition fat83_to_str (name ext : list Z) : list Z :=
  let e := trim_right ext in
  trim_right name ++ (if (0 <? length e)%nat then 46 :: e else []).

Definition to_upper (c : Z) : Z := if (97 <=? c) && (c <=? 122) then c - 32 else c.

Fixpoint name_match (entry_name target : list Z) : bool :=
  match entry_name, target with
  | c :: entry_name', d :: target' => if to_upper c =? to_upper d then name_match entry_name' target' else false
  | [], [] => true
  | _, _ => false
  end.

(** ** The long-name buffer *)

Record lfn := { lfn_buf : list Z; lfn_len : bool }.

Definition lfn_reset (s : lfn) : lfn := {| lfn_buf := lfn_buf s; lfn_len := false |}.

(** [if (pos + k < 255) lfn_buf[pos + k] = c] *)
Definition lfn_put (buf : list Z) (i c : Z) : option (list Z) :=
  if i <? 255 then (if 0 <=? i then Some (<[Z.to_nat i := c]> buf) else None) else Some buf.

(** [for (k = 0; k < 13 && tmp[k]; k++)] *)
Fixpoint lfn_copy (buf : list Z) (pos : Z) (tmp : list Z) : option (list Z) :=
  match tmp with
  | [] => Some buf
  | c :: tmp' => if c =? 0 then Some buf else b ← lfn_put buf pos c; lfn_copy b (pos + 1) tmp'
  end.

Definition lfn_entry (s : lfn) (e : list Z) : option lfn :=
  b ← lfn_copy (lfn_buf s) ((lfn_ord e .& 0x3F - 1) * 13) (lfn_chars e);
  Some {| lfn_buf := b; lfn_len := true |}.

(** ** One entry of the search *)

Inductive verdict := Found (e : list Z) | EndOfDir | More (s : lfn).

Definition search_entry (name : list Z) (s : lfn) (e : list Z) : option verdict :=
  if nthZ e 0 =? 0 then Some EndOfDir
  else if nthZ e 0 =? 0xE5 then Some (More (lfn_reset s))
  else if de_attr e =? ATTR_LFN then s ← lfn_entry s e; Some (More s)
  else
    let s1 := if lfn_len s then {| lfn_buf := <[255%nat := 0]> (lfn_buf s); lfn_len := false |} else s in
    if lfn_len s && name_match (cstr (lfn_buf s1)) name then Some (Found e)
    else if name_match (cstr (fat83_to_str (de_name e) (de_ext e))) name then Some (Found e)
    else Some (More s1).

Definition entry_at (buf : list Z) (i : Z) : option (list Z) := sub buf (i * 32) 32.

(** [for (i = 0; i < entries; i++)], over the indices left. *)
Fixpoint search_entries (buf name : list Z) (s : lfn) (idx : list Z) : option verdict :=
  match idx with
  | [] => Some (More s)
  | i :: idx' =>
    e ← entry_at buf i;
    v ← search_entry name s e;
    match v with More s => search_entries buf name s idx' | _ => Some v end
  end.

Section Driver.
Context `{BlockDev}.
(** What the automatic array [lfn_buf[256]] holds before it is written. *)
Context (stack : list Z).

Definition cluster_to_lba (f : fat) (cluster : Z) : Z := u64 (g_data_start f + u32 (cluster - 2) * g_spc f).

Definition next_cluster (f : fat) (cluster : Z) : option (Z * fat) :=
  let fat_offset := u32 (cluster * 4) in
  let fat_sector := u32 (g_fat_start f + fat_offset / SECTOR_SIZE) in
  let ent_offset := fat_offset mod SECTOR_SIZE in
  r ← dev_read fat_sector 1 (g_sector_buf f);
  v ← sub (snd r) ent_offset 4;
  Some (le_val v .& FAT_MASK, set_sector_buf f (snd r)).

Definition read_cluster (f : fat) (cluster : Z) (buf : list Z) : option (list Z) :=
  r ← dev_read (cluster_to_lba f cluster) (g_spc f) buf; Some (snd r).

Definition cluster_limit (f : fat) : Z :=
  if g_spc f =? 0 then 0x100000 else u32 (total_sectors32 (g_bpb f) / g_spc f + 2).

Definition entries_per_cluster (f : fat) : Z := u32 (g_spc f * SECTOR_SIZE) / 32.

Definition in_chain (cluster : Z) : bool := (2 <=? cluster) && (cluster <? FAT32_EOC).

(** ** Searching a directory *)

Fixpoint find_loop (fuel : nat) (f : fat) (name : list Z) (visited cluster : Z) (s : lfn) : option (option (list Z) * fat) :=
  if in_chain cluster then
    match fuel with
    | O => None
    | S fuel' =>
      let visited := u32 (visited + 1) in
      if visited >? cluster_limit f then Some (None, f) else
      r ← dev_read (cluster_to_lba f cluster) (g_spc f) (cluster_buf f);
      let f := set_cluster_buf f (snd r) in
      v ← search_entries (cluster_buf f) name s (seqZ 0 (entries_per_cluster f));
      match v with
      | Found e => Some (Some e, f)
      | EndOfDir => Some (None, f)
      | More s => n ← next_cluster f cluster; find_loop fuel' (snd n) name visited (fst n) s
      end
    end
  else Some (None, f).

Definition find_in_dir (f : fat) (dir_cluster : Z) (name : list Z) : option (option (list Z) * fat) :=
  find_loop (Z.to_nat (cluster_limit f) + 1) f name 0 dir_cluster {| lfn_buf := stack; lfn_len := false |}.

(** ** Mounting *)

Definition fat_validate (f : fat) (part_lba : Z) : Z * fat :=
  let b := g_bpb f in
  if negb (bytes_per_sector b =? SECTOR_SIZE) then (-1, f)
  else if fat_size32 b =? 0 then (-1, f)
  else
    (0, {| g_bpb := b; g_part_lba := g_part_lba f;
           g_fat_start := u32 (u32 part_lba + reserved_sectors b);
           g_data_start := u32 (u32 part_lba + reserved_sectors b + num_fats b * fat_size32 b);
           g_root_cluster := root_cluster b; g_spc := sectors_per_cluster b;
           g_file_pool := g_file_pool f; g_pool_used := g_pool_used f; g_sector_buf := g_sector_buf f;
           cluster_buf := cluster_buf f; clust_buf := clust_buf f; enum_buf := enum_buf f |}).

Definition set_bpb (f : fat) (b : list Z) (part_lba : Z) : fat :=
  {| g_bpb := b; g_part_lba := part_lba; g_fat_start := g_fat_start f; g_data_start := g_data_start f;
     g_root_cluster := g_root_cluster f; g_spc := g_spc f; g_file_pool := g_file_pool f; g_pool_used := g_pool_used f;
     g_sector_buf := g_sector_buf f; cluster_buf := cluster_buf f; clust_buf := clust_buf f; enum_buf := enum_buf f |}.

Definition fat_init (f : fat) (part_lba : Z) : option (Z * fat) :=
  r ← dev_read part_lba 1 (g_bpb f); Some (fat_validate (set_bpb f (snd r) part_lba) part_lba).

(** ** Paths and handles *)

Definition path_char (c : Z) : bool := negb (c =? chr "/").

(** The next component, at most 255 characters, and the rest of the path with the
    slash after it skipped. *)
Definition path_component (p : list Z) : list Z * list Z :=
  let component := take 255 (take_while path_char p) in
  let p := drop (length component) p in
  (component, if deref p =? chr "/" then tail p else p).

Fixpoint first_free (used : list bool) : option nat :=
  match used with [] => None | u :: used' => if u then S <$> first_free used' else Some O end.

Definition open_handle (f : fat) (e : list Z) : option nat * fat :=
  match first_free (g_pool_used f) with
  | None => (None, f)
  | Some i =>
    (Some i, set_pool f
       (<[i := {| first_cluster := de_cluster e; file_size := de_size e; cur_cluster := de_cluster e; offset := 0;
                  is_dir := negb (de_attr e .& ATTR_DIRECTORY =? 0) |}]> (g_file_pool f))
       (<[i := true]> (g_pool_used f)))
  end.

(** [fuel] bounds the components left. *)
Fixpoint open_walk (fuel : nat) (f : fat) (cluster : Z) (p : list Z) : option (option nat * fat) :=
  if deref p =? 0 then Some (None, f) else
  match fuel with
  | O => None
  | S fuel' =>
    let '(component, p) := path_component p in
    r ← find_in_dir f cluster component;
    match r with
    | (None, f) => Some (None, f)
    | (Some e, f) =>
      if negb (deref p =? 0) then
        if de_attr e .& ATTR_DIRECTORY =? 0 then Some (None, f) else open_walk fuel' f (de_cluster e) p
      else Some (open_handle f e)
    end
  end.

Definition skip_slash (p : list Z) : list Z := if deref p =? chr "/" then tail p else p.

(** A handle is its index in the pool. *)
Definition fat_open (f : fat) (path : list Z) : option (option nat * fat) :=
  open_walk (length path) f (g_root_cluster f) (skip_slash path).

(** ** Reading *)

Definition set_handle (f : fat) (h : nat) (x : FatFile) : fat := set_pool f (<[h := x]> (g_file_pool f)) (g_pool_used f).

Definition advance (x : FatFile) (n : Z) : FatFile :=
  {| first_cluster := first_cluster x; file_size := file_size x; cur_cluster := cur_cluster x;
     offset := u32 (offset x + n); is_dir := is_dir x |}.

Definition at_cluster (x : FatFile) (c : Z) : FatFile :=
  {| first_cluster := first_cluster x; file_size := file_size x; cur_cluster := c; offset := offset x; is_dir := is_dir x |}.

(** [dst] is the part of the buffer written so far, [len] its final length. *)
Fixpoint fread_loop (fuel : nat) (f : fat) (h : nat) (clust_sz len : Z) (dst : list Z) : option (list Z * fat) :=
  x ← g_file_pool f !! h;
  if (zlen dst <? len) && in_chain (cur_cluster x) then
    match fuel with
    | O => None
    | S fuel' =>
      if clust_sz =? 0 then None else
      let clust_off := offset x mod clust_sz in
      let in_clust := if clust_sz - clust_off >? len - zlen dst then len - zlen dst else clust_sz - clust_off in
      b ← read_cluster f (cur_cluster x) (clust_buf f);
      d ← sub b clust_off in_clust;
      let x := advance x in_clust in
      let f := set_handle (set_clust_buf f b) h x in
      if offset x mod clust_sz =? 0 then
        n ← next_cluster f (cur_cluster x);
        fread_loop fuel' (set_handle (snd n) h (at_cluster x (fst n))) h clust_sz len (dst ++ d)
      else fread_loop fuel' f h clust_sz len (dst ++ d)
    end
  else Some (dst, f).

Definition fat_read (f : fat) (h : option nat) (len : Z) : option (list Z * fat) :=
  match h with
  | None => Some ([], f)
  | Some h =>
    x ← g_file_pool f !! h;
    if offset x >=? file_size x then Some ([], f) else
    let remaining := file_size x - offset x in
    let len := if len >? remaining then remaining else len in
    let clust_sz := u32 (g_spc f * SECTOR_SIZE) in
    fread_loop (Z.to_nat (len / clust_sz) + 2) f h clust_sz len []
  end.

Definition fat_close (f : fat) (h : option nat) : fat :=
  match h with None => f | Some h => set_pool f (g_file_pool f) (<[h := false]> (g_pool_used f)) end.

Definition fat_file_size (f : fat) (h : option nat) : option Z :=
  match h with None => Some 0 | Some h => x ← g_file_pool f !! h; Some (file_size x) end.

(** ** Enumeration

    The callback may use the driver again, and so change its static buffers. *)

Fixpoint lfn_store (buf : list Z) (pos : Z) (chars : list Z) : list Z :=
  match chars with
  | [] => buf
  | c :: chars' => lfn_store (if pos <? 255 then <[Z.to_nat pos := c]> buf else buf) (pos + 1) chars'
  end.

Definition enum_lfn (s : lfn) (e : list Z) : lfn :=
  let ord := lfn_ord e .& 0x3F - 1 in
  if (ord <? 0) || (ord >=? 20) then lfn_reset s
  else {| lfn_buf := lfn_store (lfn_buf s) (ord * 13) (lfn_chars e); lfn_len := true |}.

(** The name of a regular entry and the buffer after it has been terminated. *)
Definition enum_name (s : lfn) (e : list Z) : list Z * lfn :=
  if lfn_len s then
    let name := cstr (take 255 (lfn_buf s)) in
    (name, {| lfn_buf := <[length name := 0]> (lfn_buf s); lfn_len := false |})
  else (cstr (fat83_to_str (de_name e) (de_ext e)), s).

Definition skipped (e : list Z) : bool :=
  (nthZ e 0 =? 0xE5) || (nthZ e 0 =? chr ".") ||
  (negb (de_attr e .& ATTR_VOLUME_ID =? 0) && negb (de_attr e =? ATTR_LFN)).

Section Enum.
Context {S : Type} (cb : list Z -> bool -> S -> fat -> option (S * fat)).

(** [None] in the second component: the end mark has been reached. *)
Fixpoint enum_entries (s : lfn) (ctx : S) (f : fat) (idx : list Z) : option (S * fat * option lfn) :=
  match idx with
  | [] => Some (ctx, f, Some s)
  | i :: idx' =>
    e ← entry_at (enum_buf f) i;
    if nthZ e 0 =? 0 then Some (ctx, f, None)
    else if skipped e then enum_entries (lfn_reset s) ctx f idx'
    else if de_attr e =? ATTR_LFN then enum_entries (enum_lfn s e) ctx f idx'
    else
      let '(name, s') := enum_name s e in
      if negb (lfn_len s) && (deref name =? 0) then enum_entries s' ctx f idx'
      else
        r ← cb name (negb (de_attr e .& ATTR_DIRECTORY =? 0)) ctx f;
        enum_entries s' (fst r) (snd r) idx'
  end.

Fixpoint enum_loop (fuel : nat) (s : lfn) (ctx : S) (f : fat) (visited cur : Z) : option (S * fat) :=
  if in_chain cur then
    match fuel with
    | O => None
    | Datatypes.S fuel' =>
      let visited := u32 (visited + 1) in
      if visited >? cluster_limit f then Some (ctx, f) else
      r ← dev_read (cluster_to_lba f cur) (g_spc f) (enum_buf f);
      t ← enum_entries s ctx (set_enum_buf f (snd r)) (seqZ 0 (entries_per_cluster f));
      match t with
      | (ctx, f, None) => Some (ctx, f)
      | (ctx, f, Some s) => n ← next_cluster f cur; enum_loop fuel' s ctx (snd n) visited (fst n)
      end
    end
  else Some (ctx, f).

Fixpoint readdir_walk (fuel : nat) (f : fat) (cluster : Z) (p : list Z) : option (option Z * fat) :=
  if deref p =? 0 then Some (Some cluster, f) else
  match fuel with
  | O => None
  | Datatypes.S fuel' =>
    let '(component, p) := path_component p in
    match component with
    | [] => readdir_walk fuel' f cluster p
    | _ =>
      r ← find_in_dir f cluster component;
      match r with
      | (None, f) => Some (None, f)
      | (Some e, f) => if de_attr e .& ATTR_DIRECTORY =? 0 then Some (None, f) else readdir_walk fuel' f (de_cluster e) p
      end
    end
  end.

Definition fat_readdir (f : fat) (dir_path : list Z) (ctx : S) : option (bool * S * fat) :=
  w ← readdir_walk (length dir_path) f (g_root_cluster f) (skip_slash dir_path);
  match w with
  | (None, f) => Some (false, ctx, f)
  | (Some cluster, f) =>
    r ← enum_loop (Z.to_nat (cluster_limit f) + 1) {| lfn_buf := stack; lfn_len := false |} ctx f 0 cluster;
    Some (true, fst r, snd r)
  end.
End Enum.
End Driver.

(** ** The volume on a device that serves an image *)

(** Equality of the driver state up to the contents of the sector buffers. *)
Record same_fat (f g : fat) : Prop := {
  sf_bpb : g_bpb f = g_bpb g; sf_fs : g_fat_start f = g_fat_start g; sf_ds : g_data_start f = g_data_start g;
  sf_root : g_root_cluster f = g_root_cluster g; sf_spc : g_spc f = g_spc g;
  sf_pool : g_file_pool f = g_file_pool g; sf_used : g_pool_used f = g_pool_used g }.

#[export] Instance same_fat_equiv : Equivalence same_fat.
Proof. split; [done|by intros ?? []|intros ??? [] []; split; congruence]. Qed.

Record wf (f : fat) : Prop := {
  wf_spc : 0 <= g_spc f <= 64; wf_bpb : bytes (g_bpb f);
  wf_sector : zlen (g_sector_buf f) = 2048; wf_cluster : zlen (cluster_buf f) = 32768;
  wf_clust : zlen (clust_buf f) = 32768; wf_enum : zlen (enum_buf f) = 32768 }.

Section Volume.
Context `{BD : BlockDev} (sector : Z -> list Z) `{IM : !BlockDevImage sector} (stack : list Z).

Definition cluster_data (f : fat) (c : Z) : list Z := flat_map sector (seqZ (cluster_to_lba f c) (g_spc f)).

Definition fat_next (f : fat) (c : Z) : Z :=
  let off := u32 (c * 4) in
  le_val (take 4 (drop (Z.to_nat (off mod 512)) (sector (u32 (g_fat_start f + off / 512))))) .& FAT_MASK.

(** The [k]-th cluster of the chain that starts at [c]. *)
Definition clus (f : fat) (c : Z) (k : nat) : Z := Nat.iter k (fat_next f) c.

(** What a driver that decodes the cluster has for a directory. *)
Definition dir_entries (f : fat) (c : Z) : list (list Z) := blocks_of 32 (16 * Z.to_nat (g_spc f)) (cluster_data f c).

Fixpoint dir_scan (name : list Z) (s : lfn) (es : list (list Z)) : option verdict :=
  match es with
  | [] => Some (More s)
  | e :: es' => v ← search_entry name s e; match v with More s => dir_scan name s es' | _ => Some v end
  end.

Lemma clus_same f g c k : same_fat f g -> clus f c k = clus g c k.
Proof using.
  intros Hfg. unfold clus. induction k as [|k IH]; [done|]. simpl. rewrite IH.
  unfold fat_next. by rewrite (sf_fs f g Hfg).
Qed.

Lemma cluster_data_same f g c : same_fat f g -> cluster_data f c = cluster_data g c.
Proof using. intros Hfg. unfold cluster_data, cluster_to_lba. by rewrite (sf_ds f g Hfg), (sf_spc f g Hfg). Qed.

Lemma dir_entries_same f g c : same_fat f g -> dir_entries f c = dir_entries g c.
Proof using. intros Hfg. unfold dir_entries. by rewrite (cluster_data_same f g c Hfg), (sf_spc f g Hfg). Qed.

Lemma cluster_limit_same f g : same_fat f g -> cluster_limit f = cluster_limit g.
Proof using. intros Hfg. unfold cluster_limit. by rewrite (sf_bpb f g Hfg), (sf_spc f g Hfg). Qed.

Lemma clus_S f c k : clus f c (S k) = clus f (fat_next f c) k.
Proof using. unfold clus. by rewrite Nat.iter_succ_r. Qed.

Lemma cluster_data_length f c : wf f -> zlen (cluster_data f c) = g_spc f * 512.
Proof using IM.
  intros [Hs _ _ _ _ _]. unfold cluster_data.
  rewrite (flat_map_const_length _ 512) by apply (sector_length (sector := sector)). rewrite length_seqZ. lia.
Qed.

Lemma read_cluster_image f c buf :
  wf f -> zlen buf = 32768 ->
  dev_read (cluster_to_lba f c) (g_spc f) buf =
    Some (0, cluster_data f c ++ drop (Z.to_nat (g_spc f * 512)) buf).
Proof using IM. intros [Hs _ _ _ _ _] Hb. apply (dev_read_image (sector := sector)); lia. Qed.

Lemma filled_length f c buf :
  wf f -> zlen buf = 32768 -> zlen (cluster_data f c ++ drop (Z.to_nat (g_spc f * 512)) buf) = 32768.
Proof using IM.
  intros Hw Hb. pose proof (cluster_data_length f c Hw). destruct Hw. rewrite length_app, length_drop. lia.
Qed.

Lemma next_cluster_image f c :
  wf f -> exists f', next_cluster f c = Some (fat_next f c, f') /\ same_fat f f' /\ wf f'.
Proof using IM.
  intros Hw. pose proof Hw as [? ? Hb ? ? ?]. unfold next_cluster, fat_next, SECTOR_SIZE.
  set (off := u32 (c * 4)). set (s := u32 (g_fat_start f + off / 512)).
  rewrite (dev_read_image (sector := sector)) by lia. cbn [mbind option_bind snd].
  rewrite (seqZ_cons s 1), seqZ_nil by lia. cbn [flat_map]. rewrite app_nil_r.
  pose proof (sector_length (sector := sector) s) as Hsl.
  assert (off mod 512 + 4 <= 512).
  { unfold off, wrap. change (2 ^ 32) with (2 ^ 30 * 4). rewrite Z.mul_mod_distr_r by lia.
    change 512 with (128 * 4) at 1. rewrite Z.mul_mod_distr_r by lia.
    pose proof (Z.mod_pos_bound (c mod 2 ^ 30) 128). lia. }
  pose proof (Z.mod_pos_bound off 512).
  unfold sub. rewrite decide_True by (rewrite length_app; lia). cbn [mbind option_bind].
  rewrite drop_app_le, take_app_le by (rewrite ?length_drop; lia). eexists. split; [done|].
  split; [done|]. split; cbn; try done. rewrite length_app, length_drop. lia.
Qed.

(** *** The index loop reads the entries in order *)

Lemma entry_at_block buf k n :
  (k < n)%nat -> Z.of_nat n * 32 <= zlen buf ->
  entry_at buf (Z.of_nat k) = Some (take 32 (drop (32 * k) buf)).
Proof using.
  intros. unfold entry_at, sub. rewrite decide_True by lia. by replace (Z.to_nat (Z.of_nat k * 32)) with (32 * k)%nat by lia.
Qed.

Lemma search_entries_scan buf name n : Z.of_nat n * 32 <= zlen buf ->
  forall m k s, (k + m = n)%nat ->
    search_entries buf name s (seqZ (Z.of_nat k) (Z.of_nat m)) = dir_scan name s (blocks_of 32 m (drop (32 * k) buf)).
Proof using.
  intros Hn. induction m as [|m IH]; intros k s Hk; [done|].
  rewrite seqZ_cons by lia. cbn [search_entries blocks_of dir_scan].
  rewrite (entry_at_block _ _ n) by lia. cbn [mbind option_bind].
  destruct (search_entry name s _) as [[]|]; [done..| |done]. cbn [mbind option_bind].
  replace (Z.succ (Z.of_nat k)) with (Z.of_nat (S k)) by lia. replace (Z.pred (Z.of_nat (S m))) with (Z.of_nat m) by lia.
  rewrite IH by lia. by rewrite drop_drop, Nat.mul_succ_r.
Qed.

Lemma search_cluster f c name s buf :
  wf f -> zlen buf = 32768 ->
  search_entries (cluster_data f c ++ drop (Z.to_nat (g_spc f * 512)) buf) name s (seqZ 0 (entries_per_cluster f))
  = dir_scan name s (dir_entries f c).
Proof using IM.
  intros Hw Hb. pose proof (cluster_data_length f c Hw) as Hl. pose proof (wf_spc f Hw).
  unfold entries_per_cluster, SECTOR_SIZE. rewrite wrap_small by lia.
  replace (g_spc f * 512 / 32) with (Z.of_nat (16 * Z.to_nat (g_spc f)))
    by (replace (g_spc f * 512) with (g_spc f * 16 * 32) by lia; rewrite Z.div_mul by lia; lia).
  change 0 with (Z.of_nat 0) at 1. rewrite (search_entries_scan _ _ (16 * Z.to_nat (g_spc f)))
    by (rewrite ?(filled_length f c buf Hw Hb); lia).
  rewrite Nat.mul_0_r, drop_0. unfold dir_entries. f_equal.
  rewrite <- blocks_of_take, take_app_le by lia. by rewrite blocks_of_take.
Qed.

Lemma dir_scan_app name s a b :
  dir_scan name s (a ++ b) =
    match dir_scan name s a with Some (More s') => dir_scan name s' b | v => v end.
Proof using.
  revert s. induction a as [|e a IH]; intros s; [done|]. cbn [app dir_scan].
  destruct (search_entry name s e) as [[]|]; [done..| |done]. cbn [mbind option_bind]. apply IH.
Qed.

(** *** The search is one scan of the entries along the chain *)

Definition verdict_entry (v : verdict) : option (list Z) := match v with Found e => Some e | _ => None end.

Definition chain_entries (f : fat) (c : Z) (n : nat) : list (list Z) :=
  flat_map (fun k => dir_entries f (clus f c k)) (seq 0 n).

Lemma same_fat_set_cluster f b : zlen b = 32768 -> wf f -> same_fat f (set_cluster_buf f b) /\ wf (set_cluster_buf f b).
Proof using. intros Hb []. split; [by split|by split]. Qed.

Lemma same_fat_set_clust f b : zlen b = 32768 -> wf f -> same_fat f (set_clust_buf f b) /\ wf (set_clust_buf f b).
Proof using. intros Hb []. split; [by split|by split]. Qed.

Lemma same_fat_set_enum f b : zlen b = 32768 -> wf f -> same_fat f (set_enum_buf f b) /\ wf (set_enum_buf f b).
Proof using. intros Hb []. split; [by split|by split]. Qed.

Lemma chain_entries_same f g c n : same_fat f g -> chain_entries f c n = chain_entries g c n.
Proof using.
  intros Hfg. unfold chain_entries. apply flat_map_ext. intros k.
  rewrite (clus_same f g) by done. by apply dir_entries_same.
Qed.

Lemma chain_entries_S f c n :
  chain_entries f c (S n) = dir_entries f c ++ chain_entries f (fat_next f c) n.
Proof using.
  unfold chain_entries. cbn [seq flat_map]. f_equal. rewrite <- seq_shift, flat_map_concat_map, map_map, <- flat_map_concat_map.
  apply flat_map_ext. intros k. by rewrite clus_S.
Qed.

(** One turn of the cluster loop. *)
Lemma find_loop_step fuel f name visited c s :
  wf f -> in_chain c = true -> u32 (visited + 1) <= cluster_limit f ->
  exists f1 f2, same_fat f f1 /\ wf f1 /\ same_fat f f2 /\ wf f2 /\
    find_loop (S fuel) f name visited c s =
      match dir_scan name s (dir_entries f c) with
      | Some (Found e) => Some (Some e, f1)
      | Some EndOfDir => Some (None, f1)
      | Some (More s') => find_loop fuel f2 name (u32 (visited + 1)) (fat_next f c) s'
      | None => None
      end.
Proof using IM.
  intros Hw Hc Hv. pose proof (wf_cluster f Hw) as Hb.
  set (b := cluster_data f c ++ drop (Z.to_nat (g_spc f * 512)) (cluster_buf f)).
  destruct (same_fat_set_cluster f b (filled_length f c _ Hw Hb) Hw) as [Hs1 Hw1].
  destruct (next_cluster_image (set_cluster_buf f b) c Hw1) as (f2 & Hn & Hs2 & Hw2).
  exists (set_cluster_buf f b), f2. split_and!; [done..|by etrans|done|].
  cbn [find_loop]. rewrite Hc. destruct (Z.gtb_spec (u32 (visited + 1)) (cluster_limit f)); [lia|].
  rewrite read_cluster_image by done. cbn [mbind option_bind snd]. fold b.
  change (cluster_buf (set_cluster_buf f b)) with b. change (entries_per_cluster (set_cluster_buf f b)) with (entries_per_cluster f).
  rewrite (search_cluster f c name s (cluster_buf f) Hw Hb : search_entries b _ _ _ = _).
  destruct (dir_scan name s (dir_entries f c)) as [[]|]; [done..| |done]. cbn [mbind option_bind].
  by rewrite Hn.
Qed.

Lemma find_loop_chain name n : forall fuel f visited c s,
  wf f -> (n <= fuel)%nat -> 0 <= visited -> visited + Z.of_nat n <= cluster_limit f ->
  (forall k, (k < n)%nat -> in_chain (clus f c k) = true) -> in_chain (clus f c n) = false ->
  match dir_scan name s (chain_entries f c n) with
  | None => find_loop fuel f name visited c s = None
  | Some v => exists f', find_loop fuel f name visited c s = Some (verdict_entry v, f') /\ same_fat f f' /\ wf f'
  end.
Proof using IM.
  induction n as [|n IH]; intros fuel f visited c s Hw Hf Hv Hlim Hin Hout.
  { exists f. split_and!; [|done..]. unfold clus in Hout. cbn in Hout. by destruct fuel; cbn [find_loop]; rewrite Hout. }
  destruct fuel as [|fuel]; [lia|].
  assert (cluster_limit f < 2 ^ 32) as Hl32.
  { unfold cluster_limit. destruct (g_spc f =? 0); [lia|]. apply (wrap_range 32). lia. }
  assert (u32 (visited + 1) = visited + 1) as Hv1 by (apply wrap_small; lia).
  destruct (find_loop_step fuel f name visited c s) as (f1 & f2 & Hs1 & Hw1 & Hs2 & Hw2 & ->); [done|apply (Hin 0%nat); lia|lia|].
  rewrite chain_entries_S, dir_scan_app.
  destruct (dir_scan name s (dir_entries f c)) as [[e| |s']|] eqn:E; [by exists f1..| |done].
  rewrite Hv1. specialize (IH fuel f2 (visited + 1) (fat_next f c) s' Hw2 ltac:(lia) ltac:(lia)).
  rewrite <- (cluster_limit_same f f2 Hs2) in IH. specialize (IH ltac:(lia)).
  assert (forall k, (k < n)%nat -> in_chain (clus f2 (fat_next f c) k) = true) as Hin'.
  { intros k Hk. rewrite <- (clus_same f f2), <- clus_S by done. apply Hin. lia. }
  rewrite clus_S, (clus_same f f2) in Hout by done. specialize (IH Hin' Hout).
  rewrite <- (chain_entries_same f f2) in IH by done.
  destruct (dir_scan name s' _) as [v|]; [|done]. destruct IH as (f' & HE & Hs' & Hw'). exists f'.
  split_and!; [done|by etrans|done].
Qed.

(** *** Termination, cyclic chains included *)

(** A long-name entry carries an order number of at least 1. *)
Definition lfn_ok (e : list Z) : Prop := de_attr e = ATTR_LFN -> 0 < lfn_ord e .& 0x3F.

Definition lfn_safe (f : fat) : Prop := forall c, Forall lfn_ok (dir_entries f c).

Lemma lfn_copy_total buf pos tmp : 0 <= pos -> exists b, lfn_copy buf pos tmp = Some b.
Proof using.
  revert buf pos. induction tmp as [|c tmp IH]; intros buf pos Hp; [by exists buf|]. cbn [lfn_copy].
  destruct (c =? 0); [by exists buf|]. unfold lfn_put. replace (0 <=? pos) with true by lia.
  destruct (pos <? 255); apply IH; lia.
Qed.

Lemma search_entry_total name s e : lfn_ok e -> exists v, search_entry name s e = Some v.
Proof using.
  intros He. unfold search_entry. repeat case_match; eauto. unfold lfn_entry.
  destruct (lfn_copy_total (lfn_buf s) ((lfn_ord e .& 0x3F - 1) * 13) (lfn_chars e)) as [b ->]; [|by eexists].
  specialize (He ltac:(lia)). lia.
Qed.

Lemma dir_scan_total name es s : Forall lfn_ok es -> exists v, dir_scan name s es = Some v.
Proof using.
  intros Hes. revert s. induction Hes as [|e es He Hes IH]; intros s; [by eexists|]. cbn [dir_scan].
  destruct (search_entry_total name s e He) as [[] ->]; cbn; eauto.
Qed.

Lemma cluster_limit_range f : 0 <= cluster_limit f < 2 ^ 32.
Proof using. unfold cluster_limit. destruct (g_spc f =? 0); [lia|]. apply (wrap_range 32). lia. Qed.

Lemma lfn_safe_same f g : same_fat f g -> lfn_safe f -> lfn_safe g.
Proof using. intros Hfg Hf c. rewrite <- (dir_entries_same f g) by done. apply Hf. Qed.

Lemma find_loop_total name fuel : forall f visited c s,
  wf f -> lfn_safe f -> cluster_limit f < 2 ^ 32 - 1 ->
  0 <= visited <= cluster_limit f -> cluster_limit f + 1 <= visited + Z.of_nat fuel ->
  exists r f', find_loop fuel f name visited c s = Some (r, f') /\ same_fat f f' /\ wf f'.
Proof using IM.
  induction fuel as [|fuel IH]; intros f visited c s Hw Hsafe Hlim Hv Hfuel; [lia|].
  assert (u32 (visited + 1) = visited + 1) as Hv1 by (apply wrap_small; lia).
  destruct (in_chain c) eqn:Hc; [|exists None, f; cbn [find_loop]; by rewrite Hc].
  destruct (Z.le_gt_cases (visited + 1) (cluster_limit f)) as [Hle|Hgt].
  - destruct (find_loop_step fuel f name visited c s) as (f1 & f2 & Hs1 & Hw1 & Hs2 & Hw2 & ->); [done|done|lia|].
    destruct (dir_scan_total name (dir_entries f c) s (Hsafe c)) as [[e| |s'] ->]; [by eexists _, f1..|].
    rewrite Hv1. destruct (IH f2 (visited + 1) (fat_next f c) s') as (r & f' & -> & Hs' & Hw');
      [done|by apply (lfn_safe_same f)|rewrite <- (cluster_limit_same f f2) by done; lia..|].
    exists r, f'. split_and!; [done|by etrans|done].
  - exists None, f. cbn [find_loop]. rewrite Hc, Hv1. destruct (Z.gtb_spec (visited + 1) (cluster_limit f)); [done|lia].
Qed.

Lemma find_in_dir_safe f c name :
  wf f -> lfn_safe f -> cluster_limit f < 2 ^ 32 - 1 ->
  exists r f', find_in_dir stack f c name = Some (r, f') /\ same_fat f f' /\ wf f'.
Proof using IM. intros. pose proof (cluster_limit_range f). apply find_loop_total; try done; lia. Qed.

(** The search does not depend on what the buffers held. *)
Lemma find_loop_same name fuel : forall f g visited c s r f',
  same_fat f g -> wf f -> wf g -> find_loop fuel f name visited c s = Some (r, f') ->
  exists g', find_loop fuel g name visited c s = Some (r, g').
Proof using IM.
  induction fuel as [|fuel IH]; intros f g visited c s r f' Hfg Hf Hg; destruct (in_chain c) eqn:Hc.
  1: by cbn [find_loop]; rewrite Hc.
  1: cbn [find_loop]; rewrite Hc; intros [= <- <-]; by exists g.
  2: cbn [find_loop]; rewrite Hc; intros [= <- <-]; by exists g.
  pose proof (cluster_limit_same f g Hfg) as Hl.
  destruct (Z.le_gt_cases (u32 (visited + 1)) (cluster_limit f)) as [Hle|Hgt].
  - destruct (find_loop_step fuel f name visited c s) as (f1 & f2 & Hs1 & Hw1 & Hs2 & Hw2 & ->); [done..|].
    destruct (find_loop_step fuel g name visited c s) as (g1 & g2 & Ht1 & Hv1 & Ht2 & Hv2 & ->); [done|done|lia|].
    rewrite <- (dir_entries_same f g) by done. destruct (dir_scan name s _) as [[e| |s']|]; [intros [= <- <-]; by eexists..| |done].
    assert (fat_next f c = fat_next g c) as -> by apply (clus_same f g c 1 Hfg).
    apply IH; [|done..]. by rewrite <- Hs2, <- Ht2.
  - cbn [find_loop]. rewrite Hc, <- Hl. destruct (Z.gtb_spec (u32 (visited + 1)) (cluster_limit f)); [|lia].
    intros [= <- <-]. by eexists.
Qed.

(** *** Reading along the chain *)

Definition csize (f : fat) : Z := g_spc f * 512.

Definition chain_data (f : fat) (c : Z) (n : nat) : list Z := flat_map (fun k => cluster_data f (clus f c k)) (seq 0 n).

(** Clusters a file of [size] bytes occupies. *)
Definition nclus (f : fat) (size : Z) : nat := Z.to_nat ((size + csize f - 1) / csize f).

Definition file_bytes (f : fat) (x : FatFile) : list Z :=
  take (Z.to_nat (file_size x)) (chain_data f (first_cluster x) (nclus f (file_size x))).

Definition chain_ok (f : fat) (x : FatFile) : Prop :=
  forall k, (k < nclus f (file_size x))%nat -> in_chain (clus f (first_cluster x) k) = true.

(** The handle has been read up to its offset. *)
Definition handle_at (f : fat) (x : FatFile) : Prop :=
  0 <= offset x <= file_size x /\ file_size x < 2 ^ 32 /\
  cur_cluster x = clus f (first_cluster x) (Z.to_nat (offset x / csize f)).

Lemma chain_data_length f c n : wf f -> zlen (chain_data f c n) = Z.of_nat n * csize f.
Proof using IM.
  intros Hw. unfold chain_data. rewrite (flat_map_const_length _ (Z.to_nat (csize f))).
  - rewrite length_seq. pose proof (wf_spc f Hw). unfold csize in *. lia.
  - intros k. pose proof (cluster_data_length f (clus f c k) Hw). unfold csize. lia.
Qed.

Lemma blocks_of_flat_map {A} (g : A -> list Z) (n : nat) l j x :
  (forall x, length (g x) = n) -> l !! j = Some x -> take n (drop (j * n) (flat_map g l)) = g x.
Proof using.
  intros Hg. revert j. induction l as [|y l IH]; intros [|j] Hl; [done..| |]; cbn [flat_map] in *.
  - injection Hl as ->. cbn. rewrite drop_0, take_app_length' by done. done.
  - rewrite drop_app_ge by (rewrite Hg; lia). rewrite Hg. replace (S j * n - n)%nat with (j * n)%nat by lia. by apply IH.
Qed.

(** A piece that does not leave its cluster. *)
Lemma chain_data_piece f c n o k :
  wf f -> 0 < csize f -> 0 <= o -> 0 <= k -> o mod csize f + k <= csize f -> o / csize f < Z.of_nat n ->
  take (Z.to_nat k) (drop (Z.to_nat (o mod csize f)) (cluster_data f (clus f c (Z.to_nat (o / csize f)))))
  = take (Z.to_nat k) (drop (Z.to_nat o) (chain_data f c n)).
Proof using IM.
  intros Hw Hc Ho Hk Hle Hn. pose proof (Z.mod_pos_bound o (csize f) Hc). pose proof (Z.div_mod o (csize f)).
  assert (0 <= o / csize f) by (apply Z.div_pos; lia).
  rewrite <- (blocks_of_flat_map (fun k => cluster_data f (clus f c k)) (Z.to_nat (csize f)) (seq 0 n) (Z.to_nat (o / csize f))).
  - fold (chain_data f c n). rewrite skipn_firstn_comm, take_take, drop_drop.
    f_equal; [lia|]. f_equal. rewrite <- Z2Nat.inj_mul by lia. lia.
  - intros j. pose proof (cluster_data_length f (clus f c j) Hw). unfold csize. lia.
  - rewrite lookup_seq. lia.
Qed.

(** Equality of everything a read leaves alone: the driver state up to its buffers
    and to the handle [h]. *)
Record same_but (h : nat) (f g : fat) : Prop := {
  sb_bpb : g_bpb f = g_bpb g; sb_fs : g_fat_start f = g_fat_start g; sb_ds : g_data_start f = g_data_start g;
  sb_root : g_root_cluster f = g_root_cluster g; sb_spc : g_spc f = g_spc g; sb_used : g_pool_used f = g_pool_used g;
  sb_pool : length (g_file_pool f) = length (g_file_pool g) /\ forall i, i <> h -> g_file_pool f !! i = g_file_pool g !! i }.

#[local] Instance same_but_trans h : Transitive (same_but h).
Proof using.
  intros ??? [? ? ? ? ? ? [? Hi]] [? ? ? ? ? ? [? Hj]].
  split; try congruence. split; [congruence|]. intros i Hne. rewrite Hi by done. by apply Hj.
Qed.

Lemma same_fat_but h f g : same_fat f g -> same_but h f g.
Proof using. intros []. split; try done. by replace (g_file_pool f) with (g_file_pool g). Qed.

Lemma same_but_handle h f x : same_but h f (set_handle f h x).
Proof using. split; try done. cbn. split; [by rewrite length_insert|]. intros i Hi. by rewrite list_lookup_insert_ne. Qed.

Lemma clus_but h f g c k : same_but h f g -> clus f c k = clus g c k.
Proof using.
  intros Hfg. unfold clus. induction k as [|k IH]; [done|]. simpl. rewrite IH. unfold fat_next. by rewrite (sb_fs h f g Hfg).
Qed.

Lemma chain_data_but h f g c n : same_but h f g -> chain_data f c n = chain_data g c n.
Proof using.
  intros Hfg. unfold chain_data. apply flat_map_ext. intros k. rewrite (clus_but h f g) by done.
  unfold cluster_data, cluster_to_lba. by rewrite (sb_ds h f g Hfg), (sb_spc h f g Hfg).
Qed.

Lemma csize_but h f g : same_but h f g -> csize f = csize g.
Proof using. intros []. unfold csize. congruence. Qed.

Lemma file_bytes_but h f g x : same_but h f g -> file_bytes f x = file_bytes g x.
Proof using.
  intros Hfg. unfold file_bytes, nclus. by rewrite (csize_but h f g Hfg), (chain_data_but h f g _ _ Hfg).
Qed.

Lemma handle_at_but h f g x : same_but h f g -> handle_at f x <-> handle_at g x.
Proof using. intros Hfg. unfold handle_at. by rewrite (csize_but h f g Hfg), (clus_but h f g _ _ Hfg). Qed.

Lemma chain_ok_but h f g x : same_but h f g -> chain_ok f x <-> chain_ok g x.
Proof using.
  intros Hfg. unfold chain_ok, nclus. rewrite (csize_but h f g Hfg).
  split; intros Hk k Hlt; [rewrite <- (clus_but h f g) by done|rewrite (clus_but h f g) by done]; by apply Hk.
Qed.

Lemma nclus_gt f o size : 0 < csize f -> 0 <= o < size -> o / csize f < Z.of_nat (nclus f size).
Proof using.
  intros Hc Ho. unfold nclus.
  assert (o / csize f + 1 <= (size + csize f - 1) / csize f); [|lia].
  rewrite <- Z.div_add by lia. apply Z.div_le_mono; lia.
Qed.

Lemma wf_handle f h x : wf f -> wf (set_handle f h x).
Proof using. by intros []. Qed.

(** What a handle moves to: same file, [k] bytes further. *)
Definition moved (f : fat) (x x' : FatFile) (k : Z) : Prop :=
  first_cluster x' = first_cluster x /\ file_size x' = file_size x /\ is_dir x' = is_dir x /\
  offset x' = offset x + k /\ handle_at f x'.

(** A piece ends its cluster or stays inside it. *)
Lemma piece_div o c r (k := Z.min (c - o mod c) r) :
  0 < c -> 0 < r -> (o + k) / c = o / c + (if (o + k) mod c =? 0 then 1 else 0).
Proof using.
  intros Hc Hr. pose proof (Z.mod_pos_bound o c Hc). pose proof (Z.div_mod o c).
  assert (o mod c + k <= c /\ 0 < k) as [Hle Hk] by lia.
  assert (o mod c + k = c \/ o mod c + k < c) as [He|Hlt] by lia.
  - replace (o + k) with ((o / c + 1) * c) by lia. rewrite Z_mod_mult, Z.div_mul by lia. done.
  - assert (o mod c + k = (o + k) mod c) as <- by (apply (Z.mod_unique_pos _ _ (o / c)); lia).
    replace (o mod c + k =? 0) with false by lia. symmetry. apply (Z.div_unique_pos _ _ _ (o mod c + k)); lia.
Qed.

(** The bytes a turn copies are the file's. *)
Lemma piece_bytes f x k buf :
  wf f -> 0 < csize f -> handle_at f x -> 0 <= k -> offset x mod csize f + k <= csize f -> offset x + k <= file_size x ->
  offset x < file_size x ->
  sub (cluster_data f (cur_cluster x) ++ buf) (offset x mod csize f) k
  = Some (take (Z.to_nat k) (drop (Z.to_nat (offset x)) (file_bytes f x))).
Proof using IM.
  intros Hw Hc (Ho & Hs & Hcur) Hk Hle Hlen Hlt.
  pose proof (Z.mod_pos_bound (offset x) (csize f) Hc) as Hm.
  pose proof (nclus_gt f (offset x) (file_size x) Hc ltac:(lia)) as Hn.
  pose proof (cluster_data_length f (cur_cluster x) Hw) as Hcl. change (g_spc f * 512) with (csize f) in Hcl.
  unfold sub. rewrite decide_True by (rewrite length_app; lia). f_equal. unfold file_bytes.
  rewrite drop_app_le, take_app_le by (rewrite ?length_drop; lia). rewrite Hcur.
  rewrite (chain_data_piece f _ (nclus f (file_size x)) (offset x) k) by (exact Hw || lia).
  rewrite skipn_firstn_comm, take_take. f_equal. lia.
Qed.

Lemma moved_intro h f f' x x' k :
  same_but h f f' -> 0 <= offset x + k <= file_size x -> file_size x < 2 ^ 32 ->
  first_cluster x' = first_cluster x -> file_size x' = file_size x -> is_dir x' = is_dir x ->
  offset x' = u32 (offset x + k) -> cur_cluster x' = clus f (first_cluster x) (Z.to_nat ((offset x + k) / csize f)) ->
  moved f' x x' k.
Proof using.
  intros Hsb Ho Hs Hf Hz Hd Hx Hc. rewrite wrap_small in Hx by lia. split_and!; [done..|].
  apply (handle_at_but h f); [done|]. unfold handle_at. rewrite Hz, Hx, Hf. by split_and!; [lia..|].
Qed.

(** One turn of the read loop: [k] bytes of the current cluster. *)
Lemma fread_step fuel f h x len dst (k := Z.min (csize f - offset x mod csize f) (len - zlen dst)) :
  wf f -> 0 < csize f -> g_file_pool f !! h = Some x -> handle_at f x -> chain_ok f x ->
  zlen dst < len -> offset x + (len - zlen dst) <= file_size x ->
  exists f' x', wf f' /\ same_but h f f' /\ g_file_pool f' !! h = Some x' /\ moved f' x x' k /\
    fread_loop (S fuel) f h (csize f) len dst =
    fread_loop fuel f' h (csize f) len (dst ++ take (Z.to_nat k) (drop (Z.to_nat (offset x)) (file_bytes f x))).
Proof using IM.
  intros Hw Hc Hx Hat Hch Hd Hlen. pose proof Hat as (Ho & Hs & Hcur).
  pose proof (Z.mod_pos_bound (offset x) (csize f) Hc) as Hm.
  pose proof (nclus_gt f (offset x) (file_size x) Hc ltac:(lia)) as Hn.
  assert (0 <= offset x / csize f) as Hq by (apply Z.div_pos; lia).
  assert (in_chain (cur_cluster x) = true) as Hin by (rewrite Hcur; apply Hch; lia).
  pose proof (wf_clust f Hw) as Hb.
  set (b := cluster_data f (cur_cluster x) ++ drop (Z.to_nat (g_spc f * 512)) (clust_buf f)).
  assert (u32 (offset x + k) = offset x + k) as Hu by (apply wrap_small; lia).
  pose proof (piece_div (offset x) (csize f) (len - zlen dst) Hc ltac:(lia)) as Hdiv. fold k in Hdiv.
  cbn [fread_loop]. rewrite Hx. cbn [mbind option_bind]. rewrite Hin. replace (zlen dst <? len) with true by lia. cbn [andb].
  replace (csize f =? 0) with false by lia.
  replace (if csize f - offset x mod csize f >? len - zlen dst then len - zlen dst else csize f - offset x mod csize f) with k
    by (destruct (Z.gtb_spec (csize f - offset x mod csize f) (len - zlen dst)); lia).
  unfold read_cluster. rewrite read_cluster_image by done. cbn [mbind option_bind snd]. fold b.
  rewrite (piece_bytes f x k _ Hw Hc Hat ltac:(lia) ltac:(lia) ltac:(lia) ltac:(lia) : sub b _ _ = _).
  cbn [mbind option_bind].
  destruct (same_fat_set_clust f b (filled_length f _ _ Hw Hb) Hw) as [Hs1 Hw1].
  set (x1 := advance x k). set (f1 := set_handle (set_clust_buf f b) h x1).
  assert (wf f1) as Hwf1 by by apply wf_handle.
  assert (same_but h f f1) as Hsb1 by (etrans; [by apply same_fat_but|apply same_but_handle]).
  assert (g_file_pool f1 !! h = Some x1) as Hx1 by (by apply list_lookup_insert_eq; eapply lookup_lt_Some).
  change (offset x1) with (u32 (offset x + k)). rewrite Hu.
  destruct (Z.eqb_spec ((offset x + k) mod csize f) 0) as [H0|H0].
  - destruct (next_cluster_image f1 (cur_cluster x1) Hwf1) as (f2 & -> & Hs2 & Hw2). cbn [mbind option_bind fst snd].
    set (x2 := at_cluster x1 (fat_next f1 (cur_cluster x1))). exists (set_handle f2 h x2), x2.
    assert (same_but h f (set_handle f2 h x2)) as Hsb2 by (etrans; [exact Hsb1|]; etrans; [by apply same_fat_but|apply same_but_handle]).
    split_and!; [by apply wf_handle|done| | |done].
    { apply list_lookup_insert_eq. rewrite <- (sf_pool f1 f2 Hs2). by eapply lookup_lt_Some. }
    apply (moved_intro h f); [done|lia|done..|]. cbn. rewrite Hcur. change (fat_next f1) with (fat_next f). rewrite Hdiv.
    rewrite Z2Nat.inj_add by lia. by rewrite Nat.add_comm.
  - exists f1, x1. split_and!; [done..| |done].
    apply (moved_intro h f); [done|lia|done..|]. cbn. rewrite Hcur. do 2 f_equal. lia.
Qed.

Lemma file_bytes_length f x : wf f -> 0 < csize f -> 0 <= file_size x -> zlen (file_bytes f x) = file_size x.
Proof using IM.
  intros Hw Hc Hx. unfold file_bytes. rewrite length_take.
  pose proof (chain_data_length f (first_cluster x) (nclus f (file_size x)) Hw) as Hl.
  assert (file_size x <= Z.of_nat (nclus f (file_size x)) * csize f); [|lia].
  unfold nclus. pose proof (Z.div_mod (file_size x + csize f - 1) (csize f)).
  pose proof (Z.mod_pos_bound (file_size x + csize f - 1) (csize f) Hc).
  assert (0 <= (file_size x + csize f - 1) / csize f) by (apply Z.div_pos; lia). lia.
Qed.

Lemma take_drop_split (l : list Z) o k r :
  0 <= o -> 0 <= k <= r -> take (Z.to_nat k) (drop (Z.to_nat o) l) ++ take (Z.to_nat (r - k)) (drop (Z.to_nat (o + k)) l)
  = take (Z.to_nat r) (drop (Z.to_nat o) l).
Proof using.
  intros. replace (Z.to_nat (o + k)) with (Z.to_nat o + Z.to_nat k)%nat by lia. rewrite <- drop_drop.
  replace (Z.to_nat r) with (Z.to_nat k + Z.to_nat (r - k))%nat by lia. by rewrite take_take_drop.
Qed.

Lemma fread_loop_spec h len fuel : forall f x dst,
  wf f -> 0 < csize f -> g_file_pool f !! h = Some x -> handle_at f x -> chain_ok f x ->
  zlen dst <= len -> offset x + (len - zlen dst) <= file_size x ->
  (zlen dst < len -> offset x mod csize f + (len - zlen dst) <= Z.of_nat fuel * csize f) ->
  exists f' x', fread_loop fuel f h (csize f) len dst
      = Some (dst ++ take (Z.to_nat (len - zlen dst)) (drop (Z.to_nat (offset x)) (file_bytes f x)), f') /\
    wf f' /\ same_but h f f' /\ g_file_pool f' !! h = Some x' /\ moved f' x x' (len - zlen dst).
Proof using IM.
  induction fuel as [|fuel IH]; intros f x dst Hw Hc Hx Hat Hch Hd Hlen Hfuel.
  all: pose proof (Z.mod_pos_bound (offset x) (csize f) Hc); pose proof Hat as (Ho & Hs & _).
  all: destruct (Z.eq_dec (zlen dst) len) as [He|He].
  1,3: exists f, x; cbn [fread_loop]; rewrite Hx; cbn [mbind option_bind]; replace (zlen dst <? len) with false by lia;
    cbn [andb]; rewrite He, Z.sub_diag; cbn; rewrite app_nil_r; (split_and!; [done..|]);
    unfold moved; split_and!; [done..|lia|done].
  { specialize (Hfuel ltac:(lia)). lia. }
  destruct (fread_step fuel f h x len dst) as (f1 & x1 & Hw1 & Hsb1 & Hx1 & Hm1 & ->); [done..|lia|lia|].
  set (k := Z.min (csize f - offset x mod csize f) (len - zlen dst)) in *.
  pose proof Hm1 as (Hfc & Hfs & Hid & Hof & Hat1).
  assert (zlen (take (Z.to_nat k) (drop (Z.to_nat (offset x)) (file_bytes f x))) = k) as Hpl.
  { rewrite length_take, length_drop. pose proof (file_bytes_length f x Hw Hc ltac:(lia)). lia. }
  assert (file_bytes f1 x1 = file_bytes f x) as Hfb.
  { rewrite <- (file_bytes_but h f f1) by done. unfold file_bytes. by rewrite Hfc, Hfs. }
  pose proof (csize_but h f f1 Hsb1) as Hce. rewrite Hce. 
  destruct (IH f1 x1 (dst ++ take (Z.to_nat k) (drop (Z.to_nat (offset x)) (file_bytes f x))))
    as (f2 & x2 & -> & Hw2 & Hsb2 & Hx2 & Hm2); try done; rewrite ?length_app, ?Nat2Z.inj_add, ?Hpl; try lia.
  { apply (chain_ok_but h f f1); [done|]. intros j. rewrite Hfc, Hfs. apply Hch. }
  { intros Hlt. rewrite Hof, <- Hce. specialize (Hfuel ltac:(lia)).
    assert (k = csize f - offset x mod csize f) as -> by lia.
    assert ((offset x + (csize f - offset x mod csize f)) mod csize f = 0) as ->; [|lia].
    pose proof (Z.div_mod (offset x) (csize f)).
    replace (offset x + _) with ((offset x / csize f + 1) * csize f) by lia. apply Z_mod_mult. }
  exists f2, x2. rewrite length_app, Nat2Z.inj_add, Hpl in Hm2. split_and!.
  - rewrite <- app_assoc, Hfb, Hof. do 3 f_equal. replace (len - (zlen dst + k)) with (len - zlen dst - k) by lia.
    apply take_drop_split; lia.
  - done.
  - by etrans.
  - done.
  - destruct Hm2 as (?&?&?&?&?). unfold moved. split_and!; try congruence. lia.
Qed.

(** One call of [fat_read]. *)
Lemma fat_read_spec f h x len :
  wf f -> 0 < csize f -> g_file_pool f !! h = Some x -> handle_at f x -> chain_ok f x -> 0 <= len ->
  exists f' x', let n := Z.min len (file_size x - offset x) in
    fat_read f (Some h) len = Some (take (Z.to_nat n) (drop (Z.to_nat (offset x)) (file_bytes f x)), f') /\
    wf f' /\ same_but h f f' /\ g_file_pool f' !! h = Some x' /\ moved f' x x' n.
Proof using IM.
  intros Hw Hc Hx Hat Hch Hlen. pose proof Hat as (Ho & Hs & _). unfold fat_read. rewrite Hx. cbn [mbind option_bind].
  destruct (Z.geb_spec (offset x) (file_size x)).
  { exists f, x. replace (Z.min len (file_size x - offset x)) with 0 by lia. split_and!; [done|done|by apply same_fat_but|done|].
    unfold moved. split_and!; [done..|lia|done]. }
  set (n := Z.min len (file_size x - offset x)).
  replace (if len >? file_size x - offset x then file_size x - offset x else len) with n
    by (destruct (Z.gtb_spec len (file_size x - offset x)); lia).
  pose proof (wf_spc f Hw). unfold SECTOR_SIZE. rewrite wrap_small by lia. change (g_spc f * 512) with (csize f).
  destruct (fread_loop_spec h n (Z.to_nat (n / csize f) + 2) f x []) as (f' & x' & HE & Hrest); try done; cbn; try lia.
  { intros _. pose proof (Z.mod_pos_bound (offset x) (csize f) Hc). pose proof (Z.div_mod n (csize f)).
    pose proof (Z.mod_pos_bound n (csize f) Hc). assert (0 <= n / csize f) by (apply Z.div_pos; lia). lia. }
  exists f', x'. cbn in HE, Hrest. rewrite Z.sub_0_r in HE, Hrest. cbn zeta. split; [exact HE|exact Hrest].
Qed.

(** Reads of any sizes, one after the other. *)
Definition read_all (f : fat) (h : nat) (lens : list Z) : option (list Z * fat) :=
  foldlO (fun a len => r ← fat_read (snd a) (Some h) len; Some (fst a ++ fst r, snd r)) ([], f) lens.

Definition total (lens : list Z) : Z := foldr Z.add 0 lens.

Lemma read_all_spec f h x lens :
  wf f -> 0 < csize f -> g_file_pool f !! h = Some x -> handle_at f x -> chain_ok f x -> Forall (Z.le 0) lens ->
  forall acc, exists f', foldlO (fun a len => r ← fat_read (snd a) (Some h) len; Some (fst a ++ fst r, snd r)) (acc, f) lens
    = Some (acc ++ take (Z.to_nat (total lens)) (drop (Z.to_nat (offset x)) (file_bytes f x)), f') /\ same_but h f f'.
Proof using IM.
  intros Hw Hc Hx Hat Hch Hl. revert f x Hw Hc Hx Hat Hch.
  induction Hl as [|len lens Hlen Hlens IH]; intros f x Hw Hc Hx Hat Hch acc.
  { exists f. cbn. rewrite app_nil_r. split; [done|]. by apply same_fat_but. }
  cbn [foldlO fst snd].
  destruct (fat_read_spec f h x len) as (f1 & x1 & HE & Hw1 & Hsb1 & Hx1 & Hm1); [done..|]. cbn zeta in HE.
  rewrite HE. cbn [mbind option_bind fst snd].
  destruct Hm1 as (Hfc & Hfs & _ & Hof & Hat1). pose proof Hat as (Ho & _).
  destruct (IH f1 x1) with (acc := acc ++ take (Z.to_nat (Z.min len (file_size x - offset x))) (drop (Z.to_nat (offset x)) (file_bytes f x)))
    as (f2 & -> & Hsb2); try done.
  { by rewrite <- (csize_but h f f1). }
  { apply (chain_ok_but h f f1); [done|]. intros j. rewrite Hfc, Hfs. apply Hch. }
  exists f2. split; [|by etrans]. rewrite <- app_assoc. do 3 f_equal.
  assert (file_bytes f1 x1 = file_bytes f x) as ->.
  { rewrite <- (file_bytes_but h f f1) by done. unfold file_bytes. by rewrite Hfc, Hfs. }
  pose proof (file_bytes_length f x Hw Hc ltac:(lia)) as Hfl. rewrite Hof.
  assert (0 <= total lens) by (unfold total; clear -Hlens; induction Hlens; cbn; lia). cbn [total foldr]. fold (total lens).
  set (n := Z.min len (file_size x - offset x)).
  destruct (Z.eq_dec n len) as [->|Hn].
  - replace (total lens) with (len + total lens - len) at 1 by lia. apply take_drop_split; lia.
  - rewrite (drop_ge _ (Z.to_nat (offset x + n))) by lia.
    rewrite take_nil, app_nil_r, !take_ge by (rewrite length_drop; lia). done.
Qed.

(** *** Opening *)

Lemma find_loop_frame name fuel : forall f visited c s r f',
  wf f -> find_loop fuel f name visited c s = Some (r, f') -> same_fat f f' /\ wf f'.
Proof using IM.
  induction fuel as [|fuel IH]; intros f visited c s r f' Hf; destruct (in_chain c) eqn:Hc.
  1: by cbn [find_loop]; rewrite Hc.
  1,3: cbn [find_loop]; rewrite Hc; by intros [= <- <-].
  destruct (Z.le_gt_cases (u32 (visited + 1)) (cluster_limit f)) as [Hle|Hgt].
  - destruct (find_loop_step fuel f name visited c s) as (f1 & f2 & Hs1 & Hw1 & Hs2 & Hw2 & ->); [done..|].
    destruct (dir_scan name s _) as [[e| |s']|]; [by intros [= <- <-]..| |done].
    intros [Hs' Hw']%IH; [|done]. split; [by etrans|done].
  - cbn [find_loop]. rewrite Hc. destruct (Z.gtb_spec (u32 (visited + 1)) (cluster_limit f)); [|lia].
    by intros [= <- <-].
Qed.

Lemma dir_scan_elem name es s e : dir_scan name s es = Some (Found e) -> e ∈ es.
Proof using.
  revert s. induction es as [|e' es IH]; intros s; [done|]. cbn [dir_scan].
  destruct (search_entry name s e') as [v|] eqn:E; [|done]. cbn [mbind option_bind].
  destruct v as [e''| |s']; [|done|intros ?%IH; by constructor 2].
  intros [= ->]. unfold search_entry in E. repeat case_match; simplify_eq; try constructor.
  by destruct (lfn_entry s e').
Qed.

Lemma blocks_of_bytes n k l : bytes l -> Forall (fun b => bytes b) (blocks_of n k l).
Proof using.
  revert l. induction k as [|k IH]; intros l Hl; cbn; [constructor|]. constructor; [by apply Forall_take|]. by apply IH, Forall_drop.
Qed.

Lemma find_loop_bytes name fuel : forall f visited c s e f',
  wf f -> find_loop fuel f name visited c s = Some (Some e, f') -> bytes e.
Proof using IM.
  induction fuel as [|fuel IH]; intros f visited c s e f' Hf; destruct (in_chain c) eqn:Hc.
  1: by cbn [find_loop]; rewrite Hc.
  1,3: by cbn [find_loop]; rewrite Hc.
  destruct (Z.le_gt_cases (u32 (visited + 1)) (cluster_limit f)) as [Hle|Hgt].
  - destruct (find_loop_step fuel f name visited c s) as (f1 & f2 & Hs1 & Hw1 & Hs2 & Hw2 & ->); [done..|].
    destruct (dir_scan name s _) as [[e'| |s']|] eqn:E; [|done|by apply IH|done]. intros [= -> <-].
    apply dir_scan_elem in E. revert e E. apply Forall_forall, blocks_of_bytes, flat_map_bytes.
    intros. apply (sector_bytes (sector := sector)).
  - cbn [find_loop]. rewrite Hc. by destruct (Z.gtb_spec (u32 (visited + 1)) (cluster_limit f)); [|lia].
Qed.

(** The entry a path leads to from the directory [c]: every component but the last
    is a directory. *)
Definition lookup_in (f : fat) (c : Z) (name e : list Z) : Prop :=
  exists f', find_in_dir stack f c name = Some (Some e, f').

Inductive resolves (f : fat) : Z -> list (list Z) -> list Z -> Prop :=
| resolves_last c name e : lookup_in f c name e -> resolves f c [name] e
| resolves_dir c name d names e :
    lookup_in f c name d -> de_attr d .& ATTR_DIRECTORY <> 0 -> resolves f (de_cluster d) names e ->
    resolves f c (name :: names) e.

Definition name_ok (n : list Z) : Prop :=
  n <> [] /\ nonzero n /\ Forall (fun c => path_char c = true) n /\ (length n <= 255)%nat.

Definition path_of (names : list (list Z)) : list Z := flat_map (fun n => chr "/" :: n) names.

Lemma path_component_spec n names :
  name_ok n -> path_component (n ++ path_of names) = (n, tail (path_of names)).
Proof using.
  intros (Hne & _ & Hp & Hl). unfold path_component.
  assert (take 255 (take_while path_char (n ++ path_of names)) = n) as ->.
  { destruct names as [|m names]; cbn [path_of flat_map app].
    - rewrite app_nil_r, take_while_id by done. by apply take_ge.
    - rewrite take_while_app by done. by apply take_ge. }
  rewrite drop_app_length. by destruct names.
Qed.

Lemma resolves_same f g c names e : same_fat f g -> wf f -> wf g -> resolves f c names e -> resolves g c names e.
Proof using IM.
  intros Hfg Hf Hg. assert (forall c name e, lookup_in f c name e -> lookup_in g c name e) as Hlk.
  { intros c' name' e' [f' HE]. unfold lookup_in, find_in_dir in *. rewrite <- (cluster_limit_same f g) by done.
    by eapply find_loop_same in HE. }
  induction 1; econstructor; eauto.
Qed.

Lemma open_walk_resolves fuel : forall f c n names e,
  wf f -> Forall name_ok (n :: names) -> resolves f c (n :: names) e -> (length names < fuel)%nat ->
  exists f', open_walk stack fuel f c (n ++ path_of names) = Some (open_handle f' e) /\ same_fat f f' /\ wf f' /\ bytes e.
Proof using IM.
  induction fuel as [|fuel IH]; intros f c n names e Hw Hok Hr Hfuel; [lia|].
  apply Forall_cons in Hok as [Hn Hok]. cbn [open_walk]. rewrite (path_component_spec n names Hn).
  assert ((deref (n ++ path_of names) =? 0) = false) as ->.
  { destruct Hn as (Hne & Hnz & _). destruct n as [|a n]; [done|]. apply Forall_cons in Hnz as [? _]. by apply Z.eqb_neq. }
  inversion Hr as [c' name e' [f' HE]|c' name d names' e' [f' HE] Hd Hr']; subst.
  - rewrite HE. cbn. destruct (find_loop_frame _ _ _ _ _ _ _ _ Hw HE). exists f'.
    split_and!; [done..|]. exact (find_loop_bytes _ _ _ _ _ _ _ _ Hw HE).
  - destruct names as [|m names]; [inversion Hr'|]. rewrite HE. cbn [mbind option_bind].
    destruct (find_loop_frame _ _ _ _ _ _ _ _ Hw HE) as [Hs' Hw']. cbn [path_of flat_map tail app]. fold (path_of names).
    assert ((deref (m ++ path_of names) =? 0) = false) as ->.
    { apply Forall_cons in Hok as [(Hne & Hnz & _) _]. destruct m as [|a m]; [done|].
      apply Forall_cons in Hnz as [? _]. by apply Z.eqb_neq. }
    cbn [negb]. apply Z.eqb_neq in Hd. rewrite Hd. cbn in Hfuel.
    destruct (IH f' (de_cluster d) m names e) as (f2 & HE2 & Hs2 & Hw2 & Hb);
      [done|done|by apply (resolves_same f)|lia|]. exists f2. split_and!; [done|by etrans|done|done].
Qed.

(** *** Listing *)

(** The calls the enumeration makes for the entries [es], and the long-name state
    after them unless the end mark stopped it. *)
Fixpoint dir_list (s : lfn) (es : list (list Z)) : list (list Z * bool) * option lfn :=
  match es with
  | [] => ([], Some s)
  | e :: es' =>
    if nthZ e 0 =? 0 then ([], None)
    else if skipped e then dir_list (lfn_reset s) es'
    else if de_attr e =? ATTR_LFN then dir_list (enum_lfn s e) es'
    else
      let '(name, s') := enum_name s e in
      let r := dir_list s' es' in
      if negb (lfn_len s) && (deref name =? 0) then r
      else ((name, negb (de_attr e .& ATTR_DIRECTORY =? 0)) :: fst r, snd r)
  end.

Lemma dir_list_app s a b :
  dir_list s (a ++ b) =
    match snd (dir_list s a) with
    | None => dir_list s a
    | Some s' => (fst (dir_list s a) ++ fst (dir_list s' b), snd (dir_list s' b))
    end.
Proof using.
  revert s. induction a as [|e a IH]; intros s; cbn [app dir_list snd fst]; [by destruct (dir_list s b)|].
  destruct (nthZ e 0 =? 0); [done|]. destruct (skipped e); [apply IH|].
  destruct (de_attr e =? ATTR_LFN); [apply IH|]. destruct (enum_name s e) as [name s']. rewrite IH.
  destruct (negb (lfn_len s) && (deref name =? 0)); [done|].
  destruct (dir_list s' a) as [l [s2|]], (negb (lfn_len s) && (deref name =? 0)); done.
Qed.

Section Listing.
Context {T : Type} (g : list Z -> bool -> T -> T).

(** A callback that does not touch the driver. *)
Definition pure_cb (name : list Z) (d : bool) (ctx : T) (f : fat) : option (T * fat) := Some (g name d ctx, f).

Definition calls (ctx : T) (l : list (list Z * bool)) : T := foldl (fun c p => g (fst p) (snd p) c) ctx l.

Lemma enum_entries_list f n : Z.of_nat n * 32 <= zlen (enum_buf f) ->
  forall m k s ctx, (k + m = n)%nat ->
    enum_entries pure_cb s ctx f (seqZ (Z.of_nat k) (Z.of_nat m)) =
      let r := dir_list s (blocks_of 32 m (drop (32 * k) (enum_buf f))) in Some (calls ctx (fst r), f, snd r).
Proof using.
  intros Hn. induction m as [|m IH]; intros k s ctx Hk; [done|].
  rewrite seqZ_cons by lia. cbn [enum_entries blocks_of dir_list].
  rewrite (entry_at_block _ _ n) by lia. cbn [mbind option_bind].
  set (e := take 32 (drop (32 * k) (enum_buf f))). clearbody e.
  replace (Z.succ (Z.of_nat k)) with (Z.of_nat (S k)) by lia. replace (Z.pred (Z.of_nat (S m))) with (Z.of_nat m) by lia.
  assert (drop 32 (drop (32 * k) (enum_buf f)) = drop (32 * S k) (enum_buf f)) as -> by (rewrite drop_drop; f_equal; lia).
  destruct (nthZ e 0 =? 0); [done|]. destruct (skipped e); [apply IH; lia|].
  destruct (de_attr e =? ATTR_LFN); [apply IH; lia|]. destruct (enum_name s e) as [name s'].
  destruct (negb (lfn_len s) && (deref name =? 0)); [apply IH; lia|]. cbn [pure_cb mbind option_bind fst snd].
  rewrite IH by lia. done.
Qed.

Lemma enum_loop_chain n : forall fuel f visited c s ctx,
  wf f -> (n <= fuel)%nat -> 0 <= visited -> visited + Z.of_nat n <= cluster_limit f ->
  (forall k, (k < n)%nat -> in_chain (clus f c k) = true) -> in_chain (clus f c n) = false ->
  exists f', enum_loop pure_cb fuel s ctx f visited c = Some (calls ctx (fst (dir_list s (chain_entries f c n))), f') /\
    same_fat f f' /\ wf f'.
Proof using IM.
  induction n as [|n IH]; intros fuel f visited c s ctx Hw Hf Hv Hlim Hin Hout.
  { exists f. split_and!; [|done..]. unfold clus in Hout. cbn in Hout. by destruct fuel; cbn [enum_loop]; rewrite Hout. }
  destruct fuel as [|fuel]; [lia|]. pose proof (cluster_limit_range f).
  assert (u32 (visited + 1) = visited + 1) as Hv1 by (apply wrap_small; lia).
  pose proof (Hin 0%nat ltac:(lia)) as Hc. unfold clus in Hc. cbn in Hc.
  cbn [enum_loop]. rewrite Hc, Hv1. destruct (Z.gtb_spec (visited + 1) (cluster_limit f)); [lia|].
  pose proof (wf_enum f Hw) as Hb. rewrite read_cluster_image by done. cbn [mbind option_bind snd].
  set (b := cluster_data f c ++ drop (Z.to_nat (g_spc f * 512)) (enum_buf f)).
  assert (zlen b = 32768) as Hbl by (by apply filled_length).
  destruct (same_fat_set_enum f b Hbl Hw) as [Hs1 Hw1].
  pose proof (cluster_data_length f c Hw) as Hl. pose proof (wf_spc f Hw).
  assert (entries_per_cluster f = Z.of_nat (16 * Z.to_nat (g_spc f))) as ->.
  { unfold entries_per_cluster, SECTOR_SIZE. rewrite wrap_small by lia.
    replace (g_spc f * 512) with (g_spc f * 16 * 32) by lia. rewrite Z.div_mul by lia. lia. }
  pose proof (enum_entries_list (set_enum_buf f b) (16 * Z.to_nat (g_spc f)) ltac:(cbn [enum_buf set_enum_buf]; lia) (16 * Z.to_nat (g_spc f)) 0 s ctx ltac:(lia)) as HE.
  cbn zeta in HE. change (Z.of_nat 0) with 0 in HE. rewrite HE. clear HE. cbn [mbind option_bind enum_buf set_enum_buf].
  assert (blocks_of 32 (16 * Z.to_nat (g_spc f)) (drop (32 * 0) b) = dir_entries f c) as ->.
  { rewrite Nat.mul_0_r, drop_0. unfold dir_entries, b. rewrite <- blocks_of_take, take_app_le by lia. by rewrite blocks_of_take. }
  rewrite chain_entries_S, dir_list_app.
  destruct (snd (dir_list s (dir_entries f c))) as [s'|]; [|by eexists].
  destruct (next_cluster_image (set_enum_buf f b) c Hw1) as (f2 & -> & Hs2 & Hw2). cbn [mbind option_bind fst snd].
  change (fat_next (set_enum_buf f b) c) with (fat_next f c).
  assert (same_fat f f2) as Hs12 by by etrans.
  rewrite clus_S in Hout.
  destruct (IH fuel f2 (visited + 1) (fat_next f c) s' (calls ctx (fst (dir_list s (dir_entries f c))))) as (f' & -> & Hs' & Hw');
    [done|lia..|rewrite <- (cluster_limit_same f f2) by done; lia| | |].
  { intros k Hk. rewrite <- (clus_same f f2), <- clus_S by done. apply Hin. lia. }
  { by rewrite <- (clus_same f f2). }
  exists f'. rewrite <- (chain_entries_same f f2) by done. unfold calls. cbn [fst]. rewrite foldl_app. split_and!; [done|by etrans|done].
Qed.
End Listing.

(** *** Long names *)

(** The thirteen units of one long-name entry: characters, a terminator and filling. *)
Definition pad_units (chunk : list Z) : list Z :=
  if (length chunk <? 13)%nat then chunk ++ 0 :: repeat 0xFFFF (12 - length chunk) else chunk.

Definition mk_lfn (ord : Z) (u : list Z) : list Z :=
  ord :: flat_map (le_bytes 2) (take 5 u) ++ [ATTR_LFN; 0; 0] ++ flat_map (le_bytes 2) (take 6 (drop 5 u)) ++ [0; 0]
  ++ flat_map (le_bytes 2) (drop 11 u).

Definition lfn_chunk (name : list Z) (j : nat) : list Z := take 13 (drop (13 * j) name).

(** The entries of a long name, last part first, as a FAT volume stores them;
    [j] parts are left. *)
Fixpoint lfn_parts (name : list Z) (last j : nat) : list (list Z) :=
  match j with
  | O => []
  | S j' => mk_lfn (Z.of_nat j + (if (j =? last)%nat then 64 else 0)) (pad_units (lfn_chunk name j')) :: lfn_parts name last j'
  end.

Definition lfn_count (name : list Z) : nat := (length name + 12) / 13.

Definition lfn_entries (name : list Z) : list (list Z) := lfn_parts name (lfn_count name) (lfn_count name).

Lemma lfn_chars_mk ord u :
  length u = 13%nat -> Forall (fun w => 0 <= w < 65536) u ->
  lfn_chars (mk_lfn ord u) = map (fun w => if w =? 0 then 0 else u8 w) u.
Proof using.
  intros Hl Hu. do 13 (destruct u as [|? u]; [done|]). destruct u; [|done]. unfold lfn_chars. f_equal.
  repeat (apply Forall_cons in Hu as [? Hu]).
  transitivity (map (fun w => le_val (le_bytes 2 w)) [z; z0; z1; z2; z3; z4; z5; z6; z7; z8; z9; z10; z11]); [done|].
  cbn [map]. rewrite !le_val_le_bytes. change (8 * Z.of_nat 2) with 16. by rewrite !wrap_small.
Qed.

Definition writes (buf : list Z) (pos : nat) (l : list Z) : list Z := take pos buf ++ l ++ drop (pos + length l) buf.

Lemma lfn_copy_writes l z : forall buf pos, nonzero l -> deref z = 0 ->
  (pos + length l <= 255)%nat -> length buf = 256%nat ->
  lfn_copy buf (Z.of_nat pos) (l ++ z) = Some (writes buf pos l).
Proof using.
  induction l as [|c l IH]; intros buf pos Hl Hz Hp Hb; cbn [app lfn_copy].
  { unfold writes. cbn. rewrite Nat.add_0_r, take_drop. destruct z as [|c z]; [done|]. cbn in *. by subst. }
  apply Forall_cons in Hl as [Hc Hl]. apply Z.eqb_neq in Hc. rewrite Hc. cbn in Hp. unfold lfn_put.
  replace (Z.of_nat pos <? 255) with true by lia. replace (0 <=? Z.of_nat pos) with true by lia. cbn [mbind option_bind].
  replace (Z.of_nat pos + 1) with (Z.of_nat (S pos)) by lia. rewrite IH; [|done|done|lia|by rewrite length_insert].
  f_equal. rewrite Nat2Z.id. unfold writes. rewrite (take_S_r _ _ c) by (apply list_lookup_insert_eq; lia).
  rewrite take_insert_ge, drop_insert_lt by lia. rewrite <- app_assoc. cbn. do 3 f_equal. f_equal. lia.
Qed.

(** The characters written by a part of the name. *)
Lemma lfn_entry_part name last j s :
  nonzero name -> bytes name -> (length name <= 255)%nat -> (j < lfn_count name)%nat -> last = lfn_count name ->
  length (lfn_buf s) = 256%nat ->
  lfn_entry s (mk_lfn (Z.of_nat (S j) + (if (S j =? last)%nat then 64 else 0)) (pad_units (lfn_chunk name j)))
  = Some {| lfn_buf := writes (lfn_buf s) (13 * j) (lfn_chunk name j); lfn_len := true |}.
Proof using.
  intros Hnz Hby Hlen Hj Hlast Hbuf. unfold lfn_entry.
  assert (lfn_count name < 21)%nat as H20 by (apply Nat.Div0.div_lt_upper_bound; lia).
  assert (lfn_ord (mk_lfn (Z.of_nat (S j) + (if (S j =? last)%nat then 64 else 0)) (pad_units (lfn_chunk name j))) .& 0x3F
    = Z.of_nat (S j)) as ->.
  { unfold lfn_ord, mk_lfn, nthZ. change (Z.to_nat 0) with 0%nat. cbn [nth]. change 63 with (Z.ones 6). rewrite Z.land_ones by lia.
    change (2 ^ 6) with 64. destruct (S j =? last)%nat; [|apply Z.mod_small; lia].
    replace (Z.of_nat (S j) + 64) with (Z.of_nat (S j) + 1 * 64) by lia. rewrite Z_mod_plus_full. apply Z.mod_small. lia. }
  replace ((Z.of_nat (S j) - 1) * 13) with (Z.of_nat (13 * j)) by lia.
  set (ch := lfn_chunk name j).
  assert (length ch <= 13 /\ 13 * j + length ch <= 255)%nat as [Hch Hch'].
  { unfold ch, lfn_chunk. rewrite length_take, length_drop. unfold lfn_count in Hj.
    assert (13 * j < length name)%nat; [|lia]. pose proof (Nat.div_mod_eq (length name + 12) 13).
    pose proof (Nat.mod_upper_bound (length name + 12) 13). lia. }
  assert (nonzero ch) as Hchz by by apply Forall_take, Forall_drop.
  assert (bytes ch) as Hchb by by apply Forall_take, Forall_drop.
  rewrite lfn_chars_mk.
  - assert (map (fun w => if w =? 0 then 0 else u8 w) ch = ch) as Hm.
    { clear -Hchz Hchb. induction ch as [|c ch IH]; [done|]. cbn.
      apply Forall_cons in Hchz as [Hc ?], Hchb as [? ?]. apply Z.eqb_neq in Hc. rewrite Hc, u8_byte by done. by rewrite IH. }
    unfold pad_units. destruct (Nat.ltb_spec (length ch) 13) as [Hs|Hs].
    + rewrite map_app, Hm, lfn_copy_writes by done. done.
    + rewrite Hm, <- (app_nil_r ch), lfn_copy_writes by (done || by rewrite app_nil_r). by rewrite app_nil_r.
  - unfold pad_units. destruct (Nat.ltb_spec (length ch) 13); [|lia]. rewrite length_app. cbn [length]. rewrite repeat_length. lia.
  - unfold pad_units. assert (Forall (fun w => 0 <= w < 65536) ch).
    { eapply Forall_impl; [exact Hchb|]. unfold is_byte. lia. }
    destruct (length ch <? 13)%nat; [|done]. apply Forall_app. split; [done|]. constructor; [lia|].
    apply Forall_forall. intros w Hw%list_elem_of_In%repeat_spec. subst. lia.
Qed.

Lemma pad_units_length ch : (length ch <= 13)%nat -> length (pad_units ch) = 13%nat.
Proof using.
  intros. unfold pad_units. destruct (Nat.ltb_spec (length ch) 13); [|lia].
  rewrite length_app. cbn [length]. rewrite repeat_length. lia.
Qed.

Lemma search_lfn_entry target s ord u :
  0 < ord < 0xE5 -> length u = 13%nat ->
  search_entry target s (mk_lfn ord u) = s' ← lfn_entry s (mk_lfn ord u); Some (More s').
Proof using.
  intros Ho Hu. unfold search_entry. change (nthZ (mk_lfn ord u) 0) with ord.
  replace (ord =? 0) with false by lia. replace (ord =? 229) with false by lia.
  assert (de_attr (mk_lfn ord u) = ATTR_LFN) as ->; [|done].
  do 13 (destruct u as [|? u]; [done|]). by destruct u.
Qed.

Lemma scan_lfn_parts target name es j : forall s,
  nonzero name -> bytes name -> (length name <= 255)%nat -> (j <= lfn_count name)%nat -> length (lfn_buf s) = 256%nat ->
  (0 < j)%nat ->
  dir_scan target s (lfn_parts name (lfn_count name) j ++ es)
  = let n := Nat.min (13 * j) (length name) in
    dir_scan target {| lfn_buf := take n name ++ drop n (lfn_buf s); lfn_len := true |} es.
Proof using.
  induction j as [|j IH]; intros s Hnz Hby Hlen Hj Hbuf Hpos; [lia|]. cbn [lfn_parts app dir_scan].
  assert (lfn_count name < 21)%nat as H20 by (apply Nat.Div0.div_lt_upper_bound; lia).
  rewrite search_lfn_entry;
    [|destruct (S j =? lfn_count name)%nat; lia|apply pad_units_length; unfold lfn_chunk; rewrite length_take; lia].
  rewrite lfn_entry_part by (done || lia). cbn [mbind option_bind].
  assert (13 * j < length name)%nat as Hjl.
  { unfold lfn_count in Hj. pose proof (Nat.div_mod_eq (length name + 12) 13).
    pose proof (Nat.mod_upper_bound (length name + 12) 13). lia. }
  assert (forall buf : list Z, length buf = 256%nat ->
    take (13 * j) name ++ drop (13 * j) (writes buf (13 * j) (lfn_chunk name j))
    = take (Nat.min (13 * S j) (length name)) name ++ drop (Nat.min (13 * S j) (length name)) buf) as Hw.
  { intros buf Hb. unfold writes. rewrite drop_app_length' by (rewrite length_take; lia). unfold lfn_chunk.
    rewrite length_take, length_drop, app_assoc, take_take_drop. f_equal; [|f_equal; lia].
    replace (13 * S j)%nat with (13 * j + 13)%nat by lia.
    destruct (Nat.min_spec (13 * j + 13) (length name)) as [[? ->]|[? ->]]; [done|]. by rewrite !take_ge by lia. }
  destruct j as [|j].
  - cbn [lfn_parts app]. cbn zeta. rewrite <- Hw by done. by rewrite Nat.mul_0_r.
  - rewrite IH; [|done..|lia| |lia].
    + cbn zeta. cbn [lfn_buf]. replace (Nat.min (13 * S j) (length name)) with (13 * S j)%nat by lia. by rewrite (Hw (lfn_buf s)).
    + cbn [lfn_buf]. unfold writes, lfn_chunk. rewrite !length_app, !length_take, !length_drop. lia.
Qed.

(** A directory that starts with a long name and its short entry [e]: the name the
    driver compares with is the long name followed by what the stack held. *)
Lemma scan_long_name target name e rest junk :
  nonzero name -> bytes name -> (0 < length name <= 255)%nat -> length junk = 256%nat ->
  nthZ e 0 <> 0 -> nthZ e 0 <> 0xE5 -> de_attr e <> ATTR_LFN ->
  name_match (cstr (fat83_to_str (de_name e) (de_ext e))) target = false ->
  dir_scan target {| lfn_buf := junk; lfn_len := false |} (lfn_entries name ++ e :: rest) =
    (let buf := name ++ drop (length name) (<[255%nat := 0]> junk) in
     if name_match (cstr buf) target then Some (Found e)
     else dir_scan target {| lfn_buf := buf; lfn_len := false |} rest).
Proof using.
  intros Hnz Hby [Hpos Hlen] Hj H0 HE5 Ha Hshort.
  assert (0 < lfn_count name /\ length name <= 13 * lfn_count name)%nat as [Hc Hc2].
  { unfold lfn_count. pose proof (Nat.div_mod_eq (length name + 12) 13).
    pose proof (Nat.mod_upper_bound (length name + 12) 13). lia. }
  unfold lfn_entries. rewrite scan_lfn_parts by (done || lia). cbn zeta.
  rewrite Nat.min_r, firstn_all by lia. cbn [dir_scan lfn_buf]. unfold search_entry.
  apply Z.eqb_neq in H0, HE5, Ha. rewrite H0, HE5, Ha. cbn [lfn_buf lfn_len andb].
  assert (<[255%nat := 0]> (name ++ drop (length name) junk) = name ++ drop (length name) (<[255%nat := 0]> junk)) as ->.
  { rewrite insert_app_r_alt, drop_insert_ge by lia. done. }
  rewrite Hshort. cbv zeta. destruct (name_match (cstr (name ++ drop (length name) (<[255%nat:=0]> junk))) target); done.
Qed.

Lemma name_match_refl a : name_match a a = true.
Proof using. induction a as [|c a IH]; [done|]. cbn. by rewrite Z.eqb_refl. Qed.

Lemma name_match_length a b : name_match a b = true -> length a = length b.
Proof using.
  revert b. induction a as [|c a IH]; intros [|d b]; try done. cbn. destruct (_ =? _); [|done]. intros ?%IH. lia.
Qed.

Lemma cstr_nonzero_app a b : nonzero a -> cstr (a ++ b) = a ++ cstr b.
Proof using. induction 1 as [|c a Hc Ha IH]; [done|]. apply Z.eqb_neq in Hc. cbn. by rewrite Hc, IH. Qed.

Lemma cstr_junk (name junk : list Z) :
  (length name <= 255)%nat -> length junk = 256%nat ->
  cstr (drop (length name) (<[255%nat := 0]> junk)) = [] <-> (length name = 255%nat \/ nthZ junk (zlen name) = 0).
Proof using.
  intros Hn Hj. destruct (Nat.eq_dec (length name) 255) as [->|Hne].
  - rewrite drop_insert_ge by lia. rewrite Nat.sub_diag. split; [by left|]. intros _.
    destruct (drop 255 junk) as [|x l] eqn:E; [|done]. apply (f_equal length) in E. rewrite length_drop in E. cbn in E. lia.
  - destruct (lookup_lt_is_Some_2 junk (length name)) as [x Hx]; [lia|].
    assert (nthZ junk (zlen name) = x) as ->.
    { pose proof (nthZ_lookup junk (zlen name) ltac:(lia)) as H. rewrite Nat2Z.id, Hx in H. congruence. }
    rewrite (drop_S _ x) by (rewrite list_lookup_insert_ne by lia; done). cbn.
    destruct (Z.eqb_spec x 0); [|split; [done|intros [|]; lia]]. split; [by right|done].
Qed.

(** *** Properties *)

(** On a device that serves an image, searching a directory is one scan of the
    32-byte entries of its cluster chain in order, long-name state carried over the
    cluster borders: the entry found is the scan's, the geometry and the handles are
    untouched, and the search is undefined exactly when the scan is. *)
Theorem find_in_dir_scan f c n name :
  wf f -> Z.of_nat n <= cluster_limit f ->
  (forall k, (k < n)%nat -> in_chain (clus f c k) = true) -> in_chain (clus f c n) = false ->
  match dir_scan name {| lfn_buf := stack; lfn_len := false |} (chain_entries f c n) with
  | None => find_in_dir stack f c name = None
  | Some v => exists f', find_in_dir stack f c name = Some (verdict_entry v, f') /\ same_fat f f' /\ wf f'
  end.
Proof using IM.
  intros Hw Hn Hin Hout. pose proof (cluster_limit_range f). apply find_loop_chain; try done; lia.
Qed.


Lemma first_free_lookup used i : first_free used = Some i -> used !! i = Some false.
Proof using.
  revert i. induction used as [|u used IH]; intros i; [done|]. cbn. destruct u; [|by intros [= <-]].
  destruct (first_free used) as [j|]; [|done]. intros [= <-]. by apply IH.
Qed.

Lemma path_of_length n names : Forall name_ok (n :: names) -> (length names < length (path_of (n :: names)))%nat.
Proof using.
  intros _. unfold path_of. cbn [flat_map length app]. rewrite length_app.
  assert (length names <= length (flat_map (fun n => chr "/" :: n) names))%nat; [|lia].
  induction names as [|m l IH]; cbn [flat_map length app]; [lia|]. rewrite length_app. lia.
Qed.

Definition fresh (e : list Z) : FatFile :=
  {| first_cluster := de_cluster e; file_size := de_size e; cur_cluster := de_cluster e; offset := 0;
     is_dir := negb (de_attr e .& ATTR_DIRECTORY =? 0) |}.

(** A handle on the entry [e] of a file, opened at its start. *)
Record opened (f f1 : fat) (i : nat) (e : list Z) : Prop := {
  op_pool : g_file_pool f1 !! i = Some (fresh e);
  op_used : g_pool_used f1 = <[i := true]> (g_pool_used f);
  op_free : <[i := false]> (g_pool_used f1) = g_pool_used f;
  op_wf : wf f1;
  op_csize : csize f1 = csize f;
  op_at : handle_at f1 (fresh e);
  op_chain : chain_ok f (fresh e) -> chain_ok f1 (fresh e);
  op_bytes : file_bytes f1 (fresh e) = file_bytes f (fresh e) }.

Lemma fat_open_resolves f n names e i :
  wf f -> length (g_file_pool f) = length (g_pool_used f) ->
  Forall name_ok (n :: names) -> resolves f (g_root_cluster f) (n :: names) e ->
  first_free (g_pool_used f) = Some i ->
  exists f1, fat_open stack f (path_of (n :: names)) = Some (Some i, f1) /\ opened f f1 i e.
Proof using IM.
  intros Hw Hpool Hok Hr Hi. pose proof (path_of_length n names Hok) as Hlen.
  destruct (open_walk_resolves (length (path_of (n :: names))) f (g_root_cluster f) n names e)
    as (f' & HE & Hs & Hw' & Hby); [done..|].
  pose proof (first_free_lookup _ _ Hi) as Hfree. pose proof (lookup_lt_Some _ _ _ Hfree).
  set (f1 := set_pool f' (<[i := fresh e]> (g_file_pool f')) (<[i := true]> (g_pool_used f'))). exists f1. split.
  { change (fat_open stack f (path_of (n :: names))) with
      (open_walk stack (length (path_of (n :: names))) f (g_root_cluster f) (n ++ path_of names)).
    rewrite HE. unfold open_handle. rewrite (sf_used f f' Hs) in Hi. by rewrite Hi. }
  assert (0 <= de_size e < 2 ^ 32) as Hsz.
  { unfold de_size. pose proof (le_val_bound (take 4 (drop 28 e)) ltac:(by apply Forall_take, Forall_drop)) as Hb.
    assert (2 ^ (8 * zlen (take 4 (drop 28 e))) <= 2 ^ 32); [|lia]. apply Z.pow_le_mono_r; [lia|]. rewrite length_take. lia. }
  assert (same_but i f (set_handle f' i (fresh e))) as Hsb by (etrans; [by apply same_fat_but|apply same_but_handle]).
  split.
  - apply list_lookup_insert_eq. rewrite <- (sf_pool f f' Hs). lia.
  - cbn. by rewrite <- (sf_used f f' Hs).
  - cbn. rewrite <- (sf_used f f' Hs), list_insert_insert_eq. by apply list_insert_id.
  - by destruct Hw'.
  - unfold csize. change (g_spc f1) with (g_spc f'). by rewrite <- (sf_spc f f' Hs).
  - unfold handle_at. cbn [fresh offset file_size cur_cluster first_cluster]. rewrite Zdiv_0_l. by split_and!; [lia..|].
  - exact (proj1 (chain_ok_but i f _ _ Hsb)).
  - symmetry. exact (file_bytes_but i f _ _ Hsb).
Qed.

(** [C7] Opening a path that leads through directories to the entry [e] takes the
    first free handle; reading it in pieces of any sizes gives the bytes of the
    file's cluster chain up to the file size and no further; closing it frees the
    handle again. *)
Theorem fat_file_contents f n names e i lens :
  wf f -> 0 < g_spc f -> length (g_file_pool f) = length (g_pool_used f) ->
  Forall name_ok (n :: names) -> resolves f (g_root_cluster f) (n :: names) e ->
  first_free (g_pool_used f) = Some i -> chain_ok f (fresh e) -> Forall (Z.le 0) lens ->
  exists f1 f2, fat_open stack f (path_of (n :: names)) = Some (Some i, f1) /\
    g_pool_used f1 = <[i := true]> (g_pool_used f) /\
    read_all f1 i lens = Some (take (Z.to_nat (total lens)) (file_bytes f (fresh e)), f2) /\
    g_pool_used (fat_close f2 (Some i)) = g_pool_used f.
Proof using IM.
  intros Hw Hspc Hpool Hok Hr Hi Hch Hl. destruct (fat_open_resolves f n names e i) as (f1 & HO & [Hp Hu Hf Hw1 Hc Hat Hch1 Hb]); [done..|].
  destruct (read_all_spec f1 i (fresh e) lens) with (acc := @nil Z) as (f2 & HR & Hsb2); auto.
  { rewrite Hc. unfold csize. lia. }
  exists f1, f2. split_and!; [done|done|by rewrite <- Hb|]. cbn. by rewrite <- (sb_used i f1 f2 Hsb2).
Qed.

(** The long name of a directory's first file is stored without its terminator
    over whatever the stack holds.  Looking the file up by that name succeeds when
    the byte behind the name happens to be 0, or the name fills the buffer;
    otherwise, the short name being a different one, the file is not found. *)
Theorem long_name_needs_clean_stack f c n name e z rest :
  wf f -> Z.of_nat n <= cluster_limit f ->
  (forall k, (k < n)%nat -> in_chain (clus f c k) = true) -> in_chain (clus f c n) = false ->
  nonzero name -> bytes name -> (0 < length name <= 255)%nat -> length stack = 256%nat ->
  nthZ e 0 <> 0 -> nthZ e 0 <> 0xE5 -> de_attr e <> ATTR_LFN ->
  name_match (cstr (fat83_to_str (de_name e) (de_ext e))) name = false ->
  nthZ z 0 = 0 -> chain_entries f c n = lfn_entries name ++ e :: z :: rest ->
  exists f', find_in_dir stack f c name =
    Some (if decide (length name = 255%nat \/ nthZ stack (zlen name) = 0) then Some e else None, f').
Proof using IM.
  intros Hw Hn Hin Hout Hnz Hby Hlen Hst H0 HE5 Ha Hshort Hz Hes. pose proof (cluster_limit_range f).
  pose proof (find_loop_chain name n (Z.to_nat (cluster_limit f) + 1) f 0 c {| lfn_buf := stack; lfn_len := false |}
    Hw ltac:(lia) ltac:(lia) ltac:(lia) Hin Hout) as HF.
  rewrite Hes, scan_long_name in HF by done. cbv zeta in HF. rewrite cstr_nonzero_app in HF by done.
  assert (forall v, dir_scan name v (z :: rest) = Some EndOfDir) as Hend.
  { intros v. cbn. unfold search_entry. by rewrite Hz. }
  rewrite Hend in HF. case_decide as Hd.
  - apply (cstr_junk name stack) in Hd; [|lia|done]. rewrite Hd, app_nil_r, name_match_refl in HF.
    destruct HF as (f' & HF & _). by exists f'.
  - rewrite <- (cstr_junk name stack) in Hd by (lia || done).
    destruct (name_match (name ++ cstr _) name) eqn:E.
    + apply name_match_length in E. rewrite length_app in E. exfalso. apply Hd, nil_length_inv. lia.
    + destruct HF as (f' & HF & _). by exists f'.
Qed.

(** Enumerating a directory with a callback that leaves the driver alone makes
    exactly one call per regular entry of the chain, in order, with its long or short
    name and its directory flag, up to the end mark. *)
Theorem readdir_lists {T} (g : list Z -> bool -> T -> T) f n (ctx : T) :
  wf f -> Z.of_nat n <= cluster_limit f ->
  (forall k, (k < n)%nat -> in_chain (clus f (g_root_cluster f) k) = true) ->
  in_chain (clus f (g_root_cluster f) n) = false ->
  exists f', fat_readdir stack (pure_cb g) f (cs "/") ctx =
    Some (true, calls g ctx (fst (dir_list {| lfn_buf := stack; lfn_len := false |} (chain_entries f (g_root_cluster f) n))), f')
    /\ same_fat f f'.
Proof using IM.
  intros Hw Hn Hin Hout. pose proof (cluster_limit_range f).
  destruct (enum_loop_chain g n (Z.to_nat (cluster_limit f) + 1) f 0 (g_root_cluster f)
    {| lfn_buf := stack; lfn_len := false |} ctx) as (f' & HE & Hs & _); try done; try lia.
  exists f'. split; [|done]. unfold fat_readdir. cbn [skip_slash readdir_walk]. change (skip_slash (cs "/")) with (@nil Z).
  cbn. by rewrite HE.
Qed.
End Volume.

Lemma fat_init_stuck int13 drive sector f part_lba :
  bios_serves int13 drive sector -> (forall lba, length (sector lba) = 512%nat) -> g_bpb f = repeat 0 90 ->
  @fat_init (disk_dev true int13 drive) f part_lba = None /\
  exists f', @fat_init (disk_dev false int13 drive) f part_lba = Some (-1, f').
Proof.
  intros Hs Hl Hb. unfold fat_init. cbn [dev_read disk_dev]. unfold disk_read. rewrite Hb. split; [|by eexists].
  destruct (Hs (make_dap part_lba 1)) as [rest ->]; [done|done|done|].
  unfold sub. case_decide; done.
Qed.

(** The driver never mounts a volume.  In the build that reads, the 512 bytes
    of the boot sector are read into the 90-byte parameter block; in the long-mode
    build nothing is read and the zeroed block is rejected. *)
Theorem fat_init_never_mounts int13 drive sector f part_lba :
  bios_serves int13 drive sector -> (forall lba, length (sector lba) = 512%nat) -> g_bpb f = repeat 0 90 ->
  @fat_init (disk_dev true int13 drive) f part_lba = None /\
  exists f', @fat_init (disk_dev false int13 drive) f part_lba = Some (-1, f').
Proof. apply fat_init_stuck. Qed.

(** ** A small volume for the witnesses

    The root holds the directory BOOT, which holds a file with a long name and two
    clusters. *)

Definition pad512 (l : list Z) : list Z := take 512 (l ++ repeat 0 512).

Definition mk_dirent (name ext : list Z) (attr cluster size : Z) : list Z :=
  name ++ ext ++ [attr] ++ repeat 0 8 ++ le_bytes 2 (cluster >> 16) ++ repeat 0 4 ++ le_bytes 2 cluster ++ le_bytes 4 size.

Definition demo_boot : list Z := mk_dirent (cs "BOOT    ") (cs "   ") 0x10 3 0.
Definition demo_name : list Z := cs "kernel-long-name.elf".
Definition demo_file : list Z := mk_dirent (cs "KERNEL~1") (cs "ELF") 0x20 4 700.

Definition demo_img (lba : Z) : list Z :=
  if lba =? 1 then pad512 (flat_map (le_bytes 4) [0x0FFFFFFF; 0x0FFFFFFF; 0x0FFFFFFF; 0x0FFFFFFF; 5; 0x0FFFFFFF])
  else if lba =? 2 then pad512 demo_boot
  else if lba =? 3 then pad512 (concat (lfn_entries demo_name) ++ demo_file)
  else if lba =? 4 then repeat 7 512
  else if lba =? 5 then repeat 9 512
  else repeat 0 512.

(** A volume whose root directory is a cluster chain of deleted entries that leads
    back to itself. *)
Definition cyclic_img (lba : Z) : list Z :=
  if lba =? 1 then pad512 (flat_map (le_bytes 4) [0x0FFFFFFF; 0x0FFFFFFF; 2]) else repeat 0xE5 512.

Definition serve (img : Z -> list Z) (drive : Z) (dap : DAP) : option (list Z) :=
  Some (flat_map img (seqZ (dap_lba dap) (dap_sectors dap))).

Definition demo_fat : fat :=
  {| g_bpb := repeat 0 32 ++ [10; 0; 0; 0] ++ repeat 0 54; g_part_lba := 0; g_fat_start := 1; g_data_start := 2;
     g_root_cluster := 2; g_spc := 1; g_file_pool := repeat (Build_FatFile 0 0 0 0 false) 8; g_pool_used := repeat false 8;
     g_sector_buf := repeat 0 (Z.to_nat 2048); cluster_buf := repeat 0 (Z.to_nat 32768);
     clust_buf := repeat 0 (Z.to_nat 32768); enum_buf := repeat 0 (Z.to_nat 32768) |}.

Lemma bios_serve img drive : bios_serves (serve img) drive img.
Proof. intros dap _ _ _. exists []. unfold serve. by rewrite app_nil_r. Qed.

Lemma pad512_length l : length (pad512 l) = 512%nat.
Proof. unfold pad512. rewrite length_take, length_app, repeat_length. lia. Qed.

Lemma pad512_bytes l : bytes l -> bytes (pad512 l).
Proof. intros. apply Forall_take, Forall_app. split; [done|]. apply zeros_bytes. Qed.

Lemma repeat_bytes c n : is_byte c -> bytes (repeat c n).
Proof. intros. induction n; by constructor. Qed.

#[local] Instance demo_dev : BlockDev := disk_dev true (serve demo_img) 0x80.
#[local] Instance demo_image : BlockDevImage demo_img.
Proof.
  apply disk_dev_image; [done|apply bios_serve|..]; intros lba; unfold demo_img; repeat case_match;
    try (apply pad512_length || apply repeat_length || (apply repeat_bytes; done));
    apply pad512_bytes; by apply (bool_decide_unpack _).
Qed.

Definition cyclic_dev : BlockDev := disk_dev true (serve cyclic_img) 0x80.
Lemma cyclic_image : @BlockDevImage cyclic_img cyclic_dev.
Proof.
  apply disk_dev_image; [done|apply bios_serve|..]; intros lba; unfold cyclic_img; repeat case_match;
    try (apply pad512_length || apply repeat_length || (apply repeat_bytes; done));
    apply pad512_bytes; by apply (bool_decide_unpack _).
Qed.

Lemma demo_wf : wf demo_fat.
Proof.
  split; [done|by apply (bool_decide_unpack _)|..]; unfold demo_fat; cbn [g_sector_buf cluster_buf clust_buf enum_buf];
    rewrite repeat_length, Z2Nat.id; done.
Qed.

Lemma demo_limit : cluster_limit demo_fat = 12.
Proof. done. Qed.

(** Chain conditions of small chains, by cases on the position. *)
Ltac small_chain := intros k Hk; repeat (destruct k as [|k]; [by vm_compute|]); lia.

Lemma find_in_dir_scan_witness :
  exists f', find_in_dir (repeat 0 256) demo_fat 2 (cs "boot") = Some (Some demo_boot, f').
Proof.
  pose proof (find_in_dir_scan demo_img (repeat 0 256) demo_fat 2 1 (cs "boot") demo_wf ltac:(done) ltac:(small_chain)
    ltac:(by vm_compute)) as HF.
  assert (dir_scan (cs "boot") {| lfn_buf := repeat 0 256; lfn_len := false |} (chain_entries demo_img demo_fat 2 1)
    = Some (Found demo_boot)) as HS by by vm_compute.
  rewrite HS in HF. destruct HF as (f' & HF & _). by exists f'.
Defined.

Lemma cyclic_safe : lfn_safe cyclic_img demo_fat.
Proof.
  intros c. unfold dir_entries, cluster_data, demo_fat at 3. cbn [g_spc].
  rewrite (seqZ_cons _ 1), seqZ_nil by lia. cbn [flat_map]. rewrite app_nil_r. unfold cyclic_img.
  assert (forall l, forallb (fun e => negb (de_attr e =? ATTR_LFN)) (blocks_of 32 16 l) = true -> Forall lfn_ok (blocks_of 32 16 l)) as H.
  { intros l Hl. apply Forall_forall. intros e He. rewrite forallb_forall in Hl. apply list_elem_of_In, Hl in He.
    intros Ha. rewrite Ha in He. done. }
  case_match; apply H; by vm_compute.
Qed.


Lemma lookup_fst `{BlockDev} stack f c name e : fst <$> find_in_dir stack f c name = Some (Some e) -> lookup_in stack f c name e.
Proof. unfold lookup_in. destruct (find_in_dir stack f c name) as [[r f']|]; [|done]. cbn. intros [= ->]. by exists f'. Qed.

Lemma fat_file_contents_witness :
  exists f1 f2, fat_open (repeat 0 256) demo_fat (cs "/boot/kernel-long-name.elf") = Some (Some 0%nat, f1) /\
    g_pool_used f1 = true :: repeat false 7 /\
    read_all f1 0 [100; 500; 4096] = Some (repeat 7 512 ++ repeat 9 188, f2) /\
    g_pool_used (fat_close f2 (Some 0%nat)) = repeat false 8.
Proof.
  destruct (fat_file_contents demo_img (repeat 0 256) demo_fat (cs "boot") [demo_name] demo_file 0 [100; 500; 4096])
    as (f1 & f2 & HO & HU & HR & HC).
  - exact demo_wf.
  - done.
  - done.
  - by apply (bool_decide_unpack _).
  - apply resolves_dir with demo_boot; [apply lookup_fst; by vm_compute|by vm_compute|].
    apply resolves_last, lookup_fst. by vm_compute.
  - done.
  - unfold chain_ok. assert (nclus demo_fat (file_size (fresh demo_file)) = 2%nat) as -> by by vm_compute. small_chain.
  - by repeat constructor.
  - exists f1, f2. split; [exact HO|]. split; [exact HU|]. split; [|exact HC].
    rewrite HR. by vm_compute.
Defined.

Lemma long_name_needs_clean_stack_witness :
  exists f', find_in_dir (repeat 88 256) demo_fat 3 demo_name = Some (None, f').
Proof.
  destruct (long_name_needs_clean_stack demo_img (repeat 88 256) demo_fat 3 1 demo_name demo_file (repeat 0 32) (repeat (repeat 0 32) 12))
    as [f' HF]; [exact demo_wf|done|small_chain|by vm_compute|by apply (bool_decide_unpack _)|by apply (bool_decide_unpack _)|
      cbn; lia|by vm_compute|done|done|done|by vm_compute|done|by vm_compute|].
  exists f'. rewrite HF. by rewrite decide_False by (intros [E|E]; by vm_compute in E).
Defined.

Lemma readdir_lists_witness :
  exists f', fat_readdir (repeat 0 256) (pure_cb (fun n d l => l ++ [(n, d)])) demo_fat (cs "/") [] =
    Some (true, [(cs "BOOT", true)], f') /\ same_fat demo_fat f'.
Proof.
  destruct (readdir_lists demo_img (repeat 0 256) (fun n d l => l ++ [(n, d)]) demo_fat 1 []) as (f' & HE & Hs);
    [exact demo_wf|done|small_chain|by vm_compute|].
  exists f'. split; [|exact Hs]. rewrite HE. do 3 f_equal.
Defined.

Lemma fat_init_never_mounts_witness :
  @fat_init (disk_dev true (serve demo_img) 0x80) (set_bpb demo_fat (repeat 0 90) 0) 63 = None /\
  exists f', @fat_init (disk_dev false (serve demo_img) 0x80) (set_bpb demo_fat (repeat 0 90) 0) 63 = Some (-1, f').
Proof.
  apply (fat_init_never_mounts (serve demo_img) 0x80 demo_img (set_bpb demo_fat (repeat 0 90) 0) 63);
    [apply bios_serve|exact (@sector_length _ _ demo_image)|done].
Defined.
End Fat.
