(* ===== verification/Menu.v ===== *)
(** * Menu: the boot menu, [common/menu.c]

    The screen is the trace of the calls made through [MenuOps]; the keyboard is the
    list of what successive calls of [read_key] return.  An abstract menu, a small
    transition system, is refined by [menu_run]. *)

From S2P Require Import Prelude Config.
Import Config.

Module Menu.

Definition KEY_UP : Z := 0x100.
Definition KEY_DOWN : Z := 0x101.
Definition KEY_ENTER : Z := 13.

Definition MENU_COLOR_NORMAL : Z := 0.
Definition MENU_COLOR_HIGHLIGHT : Z := 1.
Definition MENU_COLOR_TITLE : Z := 2.
Definition MENU_COLOR_BORDER : Z := 4.
Definition MENU_COLOR_ACCENT : Z := 5.
Definition MENU_COLOR_HINT : Z := 6.

Definition BOX_SEL : list Z := [0xc2; 0xbb].
Definition BOX_DTL : list Z := [0xe2; 0x95; 0x94].
Definition BOX_DTR : list Z := [0xe2; 0x95; 0x97].
Definition BOX_DBL : list Z := [0xe2; 0x95; 0x9a].
Definition BOX_DBR : list Z := [0xe2; 0x95; 0x9d].
Definition BOX_DH : list Z := [0xe2; 0x95; 0x90].
Definition BOX_DV : list Z := [0xe2; 0x95; 0x91].
Definition BOX_LT : list Z := [0xe2; 0x95; 0xa0].
Definition BOX_RT : list Z := [0xe2; 0x95; 0xa3].

(** The calls a front end sees; the optional ones only when it provides them. *)
Inductive call := Print (s : list Z) | SetColor (fg : Z) | Clear | SetCursor (row col : Z) | ShowCursor (on : Z).

Record MenuOps := { has_clear : bool; has_set_color : bool; has_set_cursor : bool; has_show_cursor : bool; ops_cols : Z }.

(** Calls in sequence; one that is undefined makes the whole undefined. *)
Definition calls (l : list (option (list call))) : option (list call) := (fun ts => concat ts) <$> mapM id l.

Section Render.
Context (ops : MenuOps).

Definition set_color (fg : Z) : option (list call) := Some (if has_set_color ops then [SetColor fg] else []).
Definition show_cursor (on : Z) : list call := if has_show_cursor ops then [ShowCursor on] else [].
Definition print_str (s : list Z) : option (list call) := Some [Print s].

(** The sizes of the pieces a loop flushes: at most [max] at once. *)
Fixpoint chunks (fuel : nat) (max n : Z) : list Z :=
  match fuel with
  | O => []
  | S fuel' => if n <=? 0 then [] else let chunk := if n >? max then max else n in chunk :: chunks fuel' max (n - chunk)
  end.

Definition copies (s : list Z) (n : Z) : list Z := concat (repeat s (Z.to_nat n)).

Definition print_n (s : list Z) (n : Z) : option (list call) :=
  if (n <=? 0) || (deref s =? 0) then Some []
  else if deref (tail s) =? 0 then
    Some (map (fun c => Print (repeat (deref s) (Z.to_nat c))) (chunks (Z.to_nat n) 160 n))
  else
    mapM (fun c => if c * zlen s <=? 240 then Some (Print (copies s c)) else None) (chunks (Z.to_nat n) 40 n).

Definition cols : Z := if ops_cols ops >? 0 then ops_cols ops else 80.
Definition bw : Z := let b := cols - 10 in let b := if b <? 40 then 40 else b in if b >? 78 then 78 else b.
Definition lpad : Z := let l := Z.quot (cols - bw) 2 in if l <? 0 then 0 else l.
Definition inner : Z := bw - 2.

Definition LMARGIN : option (list call) := calls [set_color MENU_COLOR_NORMAL; print_n (cs " ") lpad].
Definition ENDLINE : option (list call) := print_str [10].
Definition WALL : option (list call) := calls [set_color MENU_COLOR_BORDER; print_str BOX_DV].

Definition border_row (left right : list Z) : option (list call) :=
  calls [LMARGIN; set_color MENU_COLOR_BORDER; print_str left; print_n BOX_DH inner; print_str right; ENDLINE].

Definition title : list Z := cs "SakuruBoot  v0.1".

Definition title_row : option (list call) :=
  let tlen := zlen title in
  let tlpad := Z.quot (inner - tlen) 2 in
  let trpad := inner - tlen - tlpad in
  calls [LMARGIN; WALL; set_color MENU_COLOR_NORMAL; print_n (cs " ") tlpad; set_color MENU_COLOR_TITLE; print_str title;
         set_color MENU_COLOR_NORMAL; print_n (cs " ") trpad; WALL; ENDLINE].

Definition entry_row (name : list Z) (sel : bool) : option (list call) :=
  let nlen := zlen name in
  let rpad := if inner - 5 - nlen <? 0 then 0 else inner - 5 - nlen in
  calls [LMARGIN; WALL;
         (if sel then
            calls [set_color MENU_COLOR_NORMAL; print_str (cs " "); set_color MENU_COLOR_HIGHLIGHT; print_str (cs " ");
                   set_color MENU_COLOR_ACCENT; print_str BOX_SEL; set_color MENU_COLOR_HIGHLIGHT; print_str (cs " ");
                   print_str name; print_n (cs " ") rpad; set_color MENU_COLOR_NORMAL; print_str (cs " ")]
          else
            calls [set_color MENU_COLOR_NORMAL; print_str (cs "    "); print_str name; print_n (cs " ") rpad; print_str (cs " ")]);
         WALL; ENDLINE].

Fixpoint entry_rows (es : list BootEntry) (i selected : Z) : list (option (list call)) :=
  match es with
  | [] => []
  | e :: es' => entry_row (name e) (i =? u32 selected) :: entry_rows es' (i + 1) selected
  end.

(** The text of [line] up to its terminator, and [llen]. *)
Definition hint_line (countdown : Z) : list Z :=
  if countdown >? 0 then
    cs "Booting in " ++ (if countdown >=? 10 then [u8 (48 + countdown / 10)] else []) ++ [48 + countdown mod 10] ++ cs "s..."
  else cs "UP/DOWN  Move    ENTER  Boot".

Definition hint_row (countdown : Z) : option (list call) :=
  let line := hint_line countdown in
  let hpad := let h := Z.quot (cols - zlen line) 2 in if h <? 0 then 0 else h in
  calls [set_color MENU_COLOR_HINT; print_n (cs " ") hpad; print_str (cstr line); print_str [10]].

Definition render_menu (cfg : BootConfig) (selected countdown start_row : Z) : option (list call) :=
  calls ([Some (if (start_row >=? 0) && has_set_cursor ops then [SetCursor start_row 0]
                else if has_clear ops then [Clear] else []);
          border_row BOX_DTL BOX_DTR; title_row; border_row BOX_LT BOX_RT]
         ++ entry_rows (entries cfg) 0 selected ++ [border_row BOX_DBL BOX_DBR; hint_row countdown]).

(** ** The event loop *)

Record mstate := { selected : Z; countdown : Z; counting : bool }.

Inductive turn_result := Return (sel : Z) | Again (st : mstate).

(** One turn: the key, the calls made. *)
Definition menu_turn (cfg : BootConfig) (st : mstate) (key : Z) : option (turn_result * list call) :=
  if key >=? 0 then
    let sel := selected st in
    if key =? KEY_UP then
      let sel := if sel >? 0 then sel - 1 else num_entries cfg - 1 in
      r ← render_menu cfg sel 0 0; Some (Again {| selected := sel; countdown := countdown st; counting := false |}, r)
    else if key =? KEY_DOWN then
      let sel := if u32 (u32 sel + 1) <? num_entries cfg then sel + 1 else 0 in
      r ← render_menu cfg sel 0 0; Some (Again {| selected := sel; countdown := countdown st; counting := false |}, r)
    else if (key =? KEY_ENTER) || (key =? 10) then Some (Return sel, show_cursor 1)
    else r ← render_menu cfg sel 0 0; Some (Again {| selected := sel; countdown := countdown st; counting := false |}, r)
  else if counting st then
    let c := countdown st - 1 in
    if c <=? 0 then Some (Return (selected st), show_cursor 1)
    else
      r ← render_menu cfg (selected st) c 0; Some (Again {| selected := selected st; countdown := c; counting := true |}, r)
  else Some (Again st, []).

(** [keys] is what the keyboard delivers; [Again] when it has delivered no more. *)
Fixpoint menu_loop (cfg : BootConfig) (st : mstate) (keys : list Z) : option (turn_result * list call) :=
  match keys with
  | [] => Some (Again st, [])
  | key :: keys' =>
    r ← menu_turn cfg st key;
    match r with
    | (Return sel, t) => Some (Return sel, t)
    | (Again st, t) => r' ← menu_loop cfg st keys'; Some (fst r', t ++ snd r')
    end
  end.

Definition menu_start (cfg : BootConfig) : mstate :=
  {| selected := i32 (default_entry cfg); countdown := i32 (timeout cfg); counting := i32 (timeout cfg) >? 0 |}.

Definition menu_run (cfg : BootConfig) (keys : list Z) : option (turn_result * list call) :=
  if num_entries cfg =? 0 then Some (Return 0, [])
  else
    let st := menu_start cfg in
    r ← render_menu cfg (selected st) (if counting st then countdown st else 0) (-1);
    r' ← menu_loop cfg st keys;
    Some (fst r', show_cursor 0 ++ r ++ snd r').
End Render.

(** ** What is printed *)

Definition call_text (c : call) : list Z := match c with Print s => s | _ => [] end.
Definition text (t : list call) : list Z := flat_map call_text t.

Definition otext (t : option (list call)) : option (list Z) := text <$> t.

Lemma text_app a b : text (a ++ b) = text a ++ text b.
Proof. apply flat_map_app. Qed.

Lemma calls_nil : calls [] = Some [].
Proof. done. Qed.

Lemma calls_cons a l x y : a = Some x -> calls l = Some y -> calls (a :: l) = Some (x ++ y).
Proof.
  unfold calls. intros -> H. cbn. destruct (mapM id l) as [z|]; [|done]. cbn in *. injection H as <-. done.
Qed.

(** The text of a sequence of calls, piece by piece. *)
Definition prints (t : option (list call)) (s : list Z) : Prop := exists l, t = Some l /\ text l = s.

Lemma prints_nil : prints (calls []) [].
Proof. by exists []. Qed.

Lemma prints_cons a l s s' : prints a s -> prints (calls l) s' -> prints (calls (a :: l)) (s ++ s').
Proof.
  intros (x & Hx & <-) (y & Hy & <-). exists (x ++ y). split; [by apply calls_cons|]. apply text_app.
Qed.

Lemma prints_str s : prints (print_str s) s.
Proof. exists [Print s]. split; [done|]. cbn. apply app_nil_r. Qed.

Lemma prints_color ops c : prints (set_color ops c) [].
Proof. eexists. split; [done|]. by destruct (has_set_color ops). Qed.

Create HintDb prints discriminated.
#[export] Hint Resolve prints_nil prints_str prints_color : prints.

Lemma chunks_sum fuel max n : 0 < max -> n <= Z.of_nat fuel -> foldr Z.add 0 (chunks fuel max n) = Z.max 0 n.
Proof.
  intros Hm. revert n. induction fuel as [|fuel IH]; intros n Hn; cbn [chunks]; [cbn; lia|].
  destruct (Z.leb_spec n 0); [cbn; lia|]. cbn [foldr].
  destruct (Z.gtb_spec n max); rewrite IH by lia; lia.
Qed.

Lemma chunks_range fuel max n : 0 < max -> Forall (fun c => 0 < c <= max) (chunks fuel max n).
Proof.
  intros Hm. revert n. induction fuel as [|fuel IH]; intros n; cbn [chunks]; [constructor|].
  destruct (Z.leb_spec n 0); [constructor|]. constructor; [|apply IH]. destruct (Z.gtb_spec n max); lia.
Qed.

Lemma copies_add s a b : 0 <= a -> 0 <= b -> copies s (a + b) = copies s a ++ copies s b.
Proof. intros. unfold copies. by rewrite Z2Nat.inj_add, repeat_app, concat_app. Qed.

Lemma copies_sum s l : Forall (fun c => 0 < c) l -> flat_map (copies s) l = copies s (foldr Z.add 0 l).
Proof.
  induction 1 as [|c l Hc Hl IH]; [done|]. cbn [flat_map foldr]. rewrite IH, copies_add; [done|lia|].
  clear IH. induction Hl; cbn; lia.
Qed.

Lemma copies_single c n : copies [c] n = repeat c (Z.to_nat n).
Proof. unfold copies. induction (Z.to_nat n) as [|k IH]; [done|]. cbn. by rewrite IH. Qed.

(** [print_n] prints [n] copies, whatever the pieces, and stays inside its buffers
    for strings of up to six bytes. *)
Lemma prints_n s n : nonzero s -> (length s <= 6)%nat -> prints (print_n s n) (copies s n).
Proof.
  intros Hs Hl. unfold print_n. destruct (Z.leb_spec n 0) as [Hn|Hn].
  { exists []. split; [done|]. unfold copies. by replace (Z.to_nat n) with 0%nat by lia. }
  destruct s as [|c s]; [exists []; split; [done|]; unfold copies; by induction (Z.to_nat n)|].
  apply Forall_cons in Hs as [Hc Hs]. cbn [deref hd tail orb]. apply Z.eqb_neq in Hc as Hc'. rewrite Hc'.
  pose proof (chunks_sum (Z.to_nat n) 160 n) as H160. pose proof (chunks_sum (Z.to_nat n) 40 n) as H40.
  destruct s as [|d s]; cbn [deref hd].
  - rewrite Z.eqb_refl. eexists. split; [done|].
    replace (copies [c] n) with (copies [c] (foldr Z.add 0 (chunks (Z.to_nat n) 160 n))) by (rewrite H160; [f_equal|..]; lia).
    rewrite <- copies_sum by (eapply Forall_impl; [by apply (chunks_range _ 160)|]; cbn; lia).
    unfold text. rewrite flat_map_concat_map, map_map, <- flat_map_concat_map. apply flat_map_ext. intros k. symmetry. apply copies_single.
  - apply Forall_cons in Hs as [Hd _]. apply Z.eqb_neq in Hd. rewrite Hd.
    exists (map (fun k => Print (copies (c :: d :: s) k)) (chunks (Z.to_nat n) 40 n)). split.
    + pose proof (chunks_range (Z.to_nat n) 40 n ltac:(lia)) as Hr. revert Hr. generalize (chunks (Z.to_nat n) 40 n). clear -Hl.
      intros l Hr. induction Hr as [|k l Hk Hr IH]; [done|]. cbn [mapM]. replace (k * zlen (c :: d :: s) <=? 240) with true by (symmetry; apply Z.leb_le; nia).
      cbn [mbind option_bind]. by rewrite IH.
    + replace (copies (c :: d :: s) n) with (copies (c :: d :: s) (foldr Z.add 0 (chunks (Z.to_nat n) 40 n)))
        by (rewrite H40; [f_equal|..]; lia).
      rewrite <- copies_sum by (eapply Forall_impl; [by apply (chunks_range _ 40)|]; cbn; lia).
      unfold text. by rewrite flat_map_concat_map, map_map, <- flat_map_concat_map.
Qed.

Lemma prints_spaces n : prints (print_n (cs " ") n) (copies (cs " ") n).
Proof. apply prints_n; [by repeat constructor|cbn; lia]. Qed.

Lemma prints_dh n : prints (print_n BOX_DH n) (copies BOX_DH n).
Proof. apply prints_n; [by repeat constructor|cbn; lia]. Qed.

#[export] Hint Resolve prints_spaces prints_dh : prints.

Lemma prints_eq t s s' : prints t s -> s = s' -> prints t s'.
Proof. by intros ? ->. Qed.

(** Pieces first, then the equation between the texts. *)
Ltac prints_tac := eapply prints_eq; [repeat (eapply prints_cons; [eauto with prints|]); apply prints_nil|].

Lemma prints_margin ops : prints (LMARGIN ops) (copies (cs " ") (lpad ops)).
Proof. unfold LMARGIN. prints_tac. by rewrite app_nil_r. Qed.

Lemma prints_wall ops : prints (WALL ops) BOX_DV.
Proof. unfold WALL. by prints_tac. Qed.

Lemma prints_endline : prints ENDLINE [10].
Proof. apply prints_str. Qed.

#[export] Hint Resolve prints_margin prints_wall prints_endline : prints.

Lemma prints_border ops l r :
  prints (border_row ops l r) ((copies (cs " ") (lpad ops) ++ l ++ copies BOX_DH (inner ops) ++ r) ++ [10]).
Proof. unfold border_row. prints_tac. by rewrite <- !app_assoc. Qed.

Lemma prints_title ops :
  prints (title_row ops) ((copies (cs " ") (lpad ops) ++ BOX_DV ++ copies (cs " ") (Z.quot (inner ops - 16) 2) ++ title
    ++ copies (cs " ") (inner ops - 16 - Z.quot (inner ops - 16) 2) ++ BOX_DV) ++ [10]).
Proof. unfold title_row. prints_tac. change (zlen title) with 16. cbn [app]. by rewrite <- !app_assoc. Qed.

(** Four cells in front of the name; the selected entry has the mark in the third. *)
Definition lead (sel : bool) : list Z := if sel then cs "  " ++ BOX_SEL ++ cs " " else cs "    ".

Lemma prints_entry ops nm sel :
  prints (entry_row ops nm sel) ((copies (cs " ") (lpad ops) ++ BOX_DV ++ lead sel ++ nm
    ++ copies (cs " ") (Z.max 0 (inner ops - 5 - zlen nm)) ++ cs " " ++ BOX_DV) ++ [10]).
Proof.
  unfold entry_row. replace (if inner ops - 5 - zlen nm <? 0 then 0 else inner ops - 5 - zlen nm)
    with (Z.max 0 (inner ops - 5 - zlen nm)) by (destruct (Z.ltb_spec (inner ops - 5 - zlen nm) 0); lia).
  destruct sel; (eapply prints_eq;
    [eapply prints_cons; [apply prints_margin|]; eapply prints_cons; [apply prints_wall|];
     eapply prints_cons; [prints_tac; reflexivity|];
     eapply prints_cons; [apply prints_wall|]; eapply prints_cons; [apply prints_endline|]; apply prints_nil|]);
    cbn [app lead]; rewrite <- ?app_assoc; cbn [app]; by rewrite ?app_nil_r, <- ?app_assoc.
Qed.

Lemma prints_hint ops countdown :
  prints (hint_row ops countdown)
    (copies (cs " ") (let h := Z.quot (cols ops - zlen (hint_line countdown)) 2 in if h <? 0 then 0 else h)
     ++ cstr (hint_line countdown) ++ [10]).
Proof. unfold hint_row. prints_tac. cbn [app]. done. Qed.

(** ** Every screen is defined *)

Lemma prints_some t s : prints t s -> is_Some t.
Proof. intros (l & -> & _). done. Qed.

Lemma calls_all l : Forall is_Some l -> is_Some (calls l).
Proof.
  induction 1 as [|a l [x ->] Hl [y IH]]; [done|]. rewrite (calls_cons _ _ x y) by done. done.
Qed.

Lemma entry_rows_some ops es i sel : Forall is_Some (entry_rows ops es i sel).
Proof. revert i. induction es as [|e es IH]; intros i; cbn; constructor; [|apply IH]. eapply prints_some, prints_entry. Qed.

Lemma render_some ops cfg sel n row : exists t, render_menu ops cfg sel n row = Some t.
Proof.
  apply calls_all. constructor; [done|]. constructor; [eapply prints_some, prints_border|].
  constructor; [eapply prints_some, prints_title|]. constructor; [eapply prints_some, prints_border|].
  apply Forall_app. split; [apply entry_rows_some|].
  constructor; [eapply prints_some, prints_border|]. constructor; [eapply prints_some, prints_hint|constructor].
Qed.

(** ** Cells on the screen

    One cell per character: the continuation bytes of UTF-8 take none. *)

Definition glyphs (l : list Z) : Z := zlen (List.filter (fun b => negb ((128 <=? b) && (b <? 192))) l).

Lemma glyphs_app a b : glyphs (a ++ b) = glyphs a + glyphs b.
Proof. unfold glyphs. rewrite List.filter_app, length_app. lia. Qed.

Lemma glyphs_copies s n : glyphs (copies s n) = glyphs s * Z.max 0 n.
Proof.
  unfold copies. replace (Z.max 0 n) with (Z.of_nat (Z.to_nat n)) by lia.
  induction (Z.to_nat n) as [|k IH]; [by rewrite Z.mul_0_r|]. cbn [repeat concat]. rewrite glyphs_app, IH, Nat2Z.inj_succ. lia.
Qed.

Definition ascii (s : list Z) : Prop := Forall (fun c => 0 < c < 128) s.

Lemma glyphs_ascii s : ascii s -> glyphs s = zlen s.
Proof.
  unfold glyphs. induction 1 as [|c s Hc Hs IH]; [done|]. cbn [List.filter].
  replace (128 <=? c) with false by lia. cbn [negb andb length]. lia.
Qed.

Lemma bw_range ops : 40 <= bw ops <= 78.
Proof.
  unfold bw. destruct (Z.ltb_spec (cols ops - 10) 40); [done|]. destruct (Z.gtb_spec (cols ops - 10) 78); lia.
Qed.

Lemma lpad_nonneg ops : 0 <= lpad ops.
Proof. unfold lpad. destruct (Z.ltb_spec (Z.quot (cols ops - bw ops) 2) 0); lia. Qed.

Definition fits (ops : MenuOps) (e : BootEntry) : Prop := ascii (name e) /\ zlen (name e) <= inner ops - 5.

Lemma glyphs_space : glyphs (cs " ") = 1. Proof. done. Qed.
Lemma glyphs_dh : glyphs BOX_DH = 1. Proof. done. Qed.
Lemma glyphs_dv : glyphs BOX_DV = 1. Proof. done. Qed.
Lemma glyphs_lead sel : glyphs (lead sel) = 4. Proof. by destruct sel. Qed.

(** A box row: its text without the newline spans the margin and the box. *)
Definition box_row (ops : MenuOps) (t : option (list call)) : Prop :=
  exists body, prints t (body ++ [10]) /\ glyphs body = lpad ops + bw ops.

Lemma box_border ops l r : glyphs l = 1 -> glyphs r = 1 -> box_row ops (border_row ops l r).
Proof.
  intros Hl Hr. eexists. split; [apply prints_border|]. rewrite !glyphs_app, Hl, Hr, !glyphs_copies, glyphs_space, glyphs_dh.
  pose proof (bw_range ops). pose proof (lpad_nonneg ops). unfold inner. lia.
Qed.

Lemma box_title ops : box_row ops (title_row ops).
Proof.
  eexists. split; [apply prints_title|]. rewrite !glyphs_app, !glyphs_copies, glyphs_space, glyphs_dv.
  pose proof (bw_range ops). pose proof (lpad_nonneg ops). unfold inner.
  pose proof (Z.quot_pos (bw ops - 2 - 16) 2). pose proof (Z.quot_le_upper_bound (bw ops - 2 - 16) 2 (bw ops - 2 - 16)).
  change (glyphs title) with 16. lia.
Qed.

Lemma box_entry ops e sel : fits ops e -> box_row ops (entry_row ops (name e) sel).
Proof.
  intros [Ha Hl]. eexists. split; [apply prints_entry|]. rewrite !glyphs_app, !glyphs_copies, (glyphs_ascii (name e)), glyphs_lead, glyphs_space, glyphs_dv by done.
  pose proof (bw_range ops). pose proof (lpad_nonneg ops). unfold inner in *. lia.
Qed.

Lemma box_entries ops es i sel : Forall (fits ops) es -> Forall (box_row ops) (entry_rows ops es i sel).
Proof. intros H. revert i. induction H as [|e es He Hes IH]; intros i; cbn; constructor; [by apply box_entry|apply IH]. Qed.

Lemma entry_rows_length ops es i sel : length (entry_rows ops es i sel) = length es.
Proof. revert i. induction es as [|e es IH]; intros i; [done|]. cbn. by rewrite IH. Qed.

(** Rows joined are the text of their sequence. *)
Lemma prints_rows ops rows l s :
  Forall (box_row ops) rows -> prints (calls l) s ->
  exists bodies, prints (calls (rows ++ l)) (flat_map (fun b => b ++ [10]) bodies ++ s) /\
    length bodies = length rows /\ Forall (fun b => glyphs b = lpad ops + bw ops) bodies.
Proof.
  intros H Hl. induction H as [|r rows (b & Hb & Hg) Hr (bodies & Hp & Hlen & Hall)]; [by exists []|].
  exists (b :: bodies). cbn [app flat_map length]. rewrite <- (app_assoc (b ++ [10])).
  split_and!; [by apply prints_cons|by rewrite Hlen|by constructor].
Qed.

(** ** The abstract menu *)

Inductive event := Up | Down | Enter | Other | Tick.

Definition event_of (key : Z) : event :=
  if key >=? 0 then
    if key =? KEY_UP then Up else if key =? KEY_DOWN then Down
    else if (key =? KEY_ENTER) || (key =? 10) then Enter else Other
  else Tick.

Inductive amenu := Counting (sel left : Z) | Waiting (sel : Z) | Chosen (sel : Z).

(** [shown st sel]: the menu is on the screen with [sel] highlighted. *)
Inductive shown : amenu -> Z -> Prop :=
| shown_counting sel n : shown (Counting sel n) sel
| shown_waiting sel : shown (Waiting sel) sel.

Section Abstract.
Context (N : Z).

Inductive astep : amenu -> event -> amenu -> Prop :=
| step_up st sel : shown st sel -> astep st Up (Waiting ((sel - 1) mod N))
| step_down st sel : shown st sel -> astep st Down (Waiting ((sel + 1) mod N))
| step_enter st sel : shown st sel -> astep st Enter (Chosen sel)
| step_other st sel : shown st sel -> astep st Other (Waiting sel)
| step_tick sel n : 1 < n -> astep (Counting sel n) Tick (Counting sel (n - 1))
| step_last sel : astep (Counting sel 1) Tick (Chosen sel)
| step_idle sel : astep (Waiting sel) Tick (Waiting sel).

Inductive asteps : amenu -> list event -> amenu -> Prop :=
| asteps_nil st : asteps st [] st
| asteps_cons st st' st'' ev evs : astep st ev st' -> asteps st' evs st'' -> asteps st (ev :: evs) st''.

(** The selection is always an entry; a countdown is always positive. *)
Definition ainv (st : amenu) : Prop :=
  match st with Counting sel n => 0 <= sel < N /\ 0 < n | Waiting sel | Chosen sel => 0 <= sel < N end.

Lemma astep_inv st ev st' : 0 < N -> ainv st -> astep st ev st' -> ainv st'.
Proof.
  intros HN Hi Hs. inversion Hs as [? ? Hsh|? ? Hsh|? ? Hsh|? ? Hsh| | |]; subst; cbn in *; try lia;
    try (apply Z.mod_pos_bound; lia); inversion Hsh; subst; cbn in Hi; lia.
Qed.

Lemma asteps_inv st evs st' : 0 < N -> ainv st -> asteps st evs st' -> ainv st'.
Proof. intros HN Hi Hs. induction Hs; [done|]. eauto using astep_inv. Qed.
End Abstract.

Definition abs (st : mstate) : amenu := if counting st then Counting (selected st) (countdown st) else Waiting (selected st).

Definition abs_result (r : turn_result) : amenu := match r with Return sel => Chosen sel | Again st => abs st end.

(** Every turn of the loop is a step of the abstract menu. *)
Lemma menu_turn_step ops cfg st key :
  0 < num_entries cfg < 2 ^ 31 -> ainv (num_entries cfg) (abs st) ->
  exists r t, menu_turn ops cfg st key = Some (r, t) /\ astep (num_entries cfg) (abs st) (event_of key) (abs_result r).
Proof.
  intros HN Hi. set (N := num_entries cfg) in *.
  assert (0 <= selected st < N) as Hs by (unfold abs in Hi; destruct (counting st); cbn in Hi; lia).
  assert (shown (abs st) (selected st)) as Hsh by (unfold abs; destruct (counting st); constructor).
  unfold menu_turn, event_of. fold N.
  destruct (Z.geb_spec key 0).
  - destruct (key =? KEY_UP); [|destruct (key =? KEY_DOWN); [|destruct ((key =? KEY_ENTER) || (key =? 10))]].
    + edestruct (render_some ops cfg) as [t Ht]. rewrite Ht. eexists _, _. split; [done|].
      replace (if selected st >? 0 then selected st - 1 else N - 1) with ((selected st - 1) mod N); [by constructor|].
      destruct (Z.gtb_spec (selected st) 0); [apply Z.mod_small; lia|].
      symmetry. apply (Z.mod_unique_pos _ _ (-1)); lia.
    + edestruct (render_some ops cfg) as [t Ht]. rewrite Ht. eexists _, _. split; [done|].
      rewrite (wrap_small 32 (selected st)), wrap_small by lia.
      replace (if selected st + 1 <? N then selected st + 1 else 0) with ((selected st + 1) mod N); [by constructor|].
      destruct (Z.ltb_spec (selected st + 1) N); [apply Z.mod_small; lia|].
      replace (selected st + 1) with N by lia. apply Z_mod_same_full.
    + eexists _, _. split; [done|]. by constructor.
    + destruct (render_some ops cfg (selected st) 0 0) as [t Ht]. rewrite Ht. eexists _, _. split; [done|]. by constructor.
  - unfold abs in *. destruct (counting st) eqn:Hc; cbn in Hi.
    + destruct (Z.leb_spec (countdown st - 1) 0).
      * eexists _, _. split; [done|]. replace (countdown st) with 1 by lia. constructor.
      * destruct (render_some ops cfg (selected st) (countdown st - 1) 0) as [t Ht]. rewrite Ht.
        eexists _, _. split; [done|]. constructor. lia.
    + eexists _, _. split; [done|]. cbn. unfold abs. rewrite Hc. constructor.
Qed.

Lemma menu_loop_steps ops cfg keys : forall st,
  0 < num_entries cfg < 2 ^ 31 -> ainv (num_entries cfg) (abs st) ->
  exists r t used rest, menu_loop ops cfg st keys = Some (r, t) /\ keys = used ++ rest /\
    asteps (num_entries cfg) (abs st) (map event_of used) (abs_result r) /\
    match r with Again _ => rest = [] | Return _ => True end.
Proof.
  induction keys as [|key keys IH]; intros st HN Hi.
  { exists (Again st), [], [], []. split_and!; [done..|constructor|done]. }
  cbn [menu_loop]. destruct (menu_turn_step ops cfg st key HN Hi) as (r & t & -> & Hs). cbn [mbind option_bind].
  destruct r as [sel|st']; cbn in Hs.
  - exists (Return sel), t, [key], keys. split_and!; [done..| |done]. by econstructor; [|constructor].
  - destruct (IH st' HN) as (r & t' & used & rest & -> & -> & Hr & Hend); [by eapply astep_inv; [lia|..]|].
    exists r, (t ++ t'), (key :: used), rest. split_and!; [done..| |done]. by econstructor.
Qed.

Lemma menu_start_inv cfg :
  0 <= default_entry cfg < num_entries cfg -> num_entries cfg < 2 ^ 31 -> 0 <= timeout cfg < 2 ^ 31 ->
  ainv (num_entries cfg) (abs (menu_start cfg)).
Proof.
  intros. unfold menu_start, abs. cbn. rewrite !i32_small by lia. destruct (Z.gtb_spec (timeout cfg) 0); cbn; lia.
Qed.

(** ** Properties *)


Lemma menu_turn_tick ops cfg st :
  counting st = true -> 1 < countdown st ->
  exists t, menu_turn ops cfg st (-1) =
    Some (Again {| selected := selected st; countdown := countdown st - 1; counting := true |}, t).
Proof.
  intros Hc Hn. unfold menu_turn. cbn [Z.geb Z.compare]. rewrite Hc.
  destruct (Z.leb_spec (countdown st - 1) 0); [lia|].
  destruct (render_some ops cfg (selected st) (countdown st - 1) 0) as [t ->]. by exists t.
Qed.

(** Every timeout but the last counts down. *)
Lemma menu_loop_ticks ops cfg n keys : forall st,
  counting st = true -> Z.of_nat n < countdown st ->
  exists t, menu_loop ops cfg st (repeat (-1) n ++ keys) =
    r ← menu_loop ops cfg {| selected := selected st; countdown := countdown st - Z.of_nat n; counting := true |} keys;
    Some (fst r, t ++ snd r).
Proof.
  induction n as [|n IH]; intros st Hc Hn.
  { exists []. destruct st; cbn in *. subst. rewrite Z.sub_0_r. by destruct (menu_loop _ _ _ _) as [[]|]. }
  cbn [repeat app]. change (menu_loop ops cfg st (-1 :: ?k)) with
    (r ← menu_turn ops cfg st (-1);
     match r with
     | (Return sel, t) => Some (Return sel, t)
     | (Again st, t) => r' ← menu_loop ops cfg st k; Some (fst r', t ++ snd r')
     end).
  destruct (menu_turn_tick ops cfg st Hc ltac:(lia)) as [t ->]. cbn [mbind option_bind].
  destruct (IH {| selected := selected st; countdown := countdown st - 1; counting := true |}) as [t' HE]; [done|cbn; lia|].
  exists (t ++ t'). cbn [mbind option_bind] in HE. rewrite HE. cbn [selected countdown].
  replace (countdown st - 1 - Z.of_nat n) with (countdown st - Z.of_nat (S n)) by lia.
  match goal with |- context[menu_loop ?a ?b ?c ?d] => destruct (menu_loop a b c d) as [[]|] end; cbn; [by rewrite app_assoc|done].
Qed.

(** The menu starts counting on the default entry. *)
Lemma menu_start_counting ops cfg keys :
  0 <= default_entry cfg < num_entries cfg -> num_entries cfg < 2 ^ 31 -> 0 < timeout cfg < 2 ^ 31 ->
  exists st t0, menu_run ops cfg keys = (r ← menu_loop ops cfg st keys; Some (fst r, show_cursor ops 0 ++ t0 ++ snd r)) /\
    counting st = true /\ countdown st = timeout cfg /\ selected st = default_entry cfg.
Proof.
  intros Hd HN Ht. unfold menu_run. replace (num_entries cfg =? 0) with false by lia. set (st := menu_start cfg).
  destruct (render_some ops cfg (selected st) (if counting st then countdown st else 0) (-1)) as [t0 ->]. exists st, t0.
  split; [done|]. unfold st, menu_start. cbn. rewrite !i32_small by lia. by destruct (Z.gtb_spec (timeout cfg) 0); [|lia].
Qed.

Lemma menu_run_ticks ops cfg rest :
  0 <= default_entry cfg < num_entries cfg -> num_entries cfg < 2 ^ 31 -> 0 < timeout cfg < 2 ^ 31 ->
  exists t, menu_run ops cfg (repeat (-1) (Z.to_nat (timeout cfg)) ++ rest) = Some (Return (default_entry cfg), t).
Proof.
  intros Hd HN Ht. replace (Z.to_nat (timeout cfg)) with (Z.to_nat (timeout cfg - 1) + 1)%nat by lia.
  rewrite repeat_app, <- app_assoc.
  destruct (menu_start_counting ops cfg (repeat (-1) (Z.to_nat (timeout cfg - 1)) ++ repeat (-1) 1 ++ rest) Hd HN Ht)
    as (st & t0 & -> & Hc & Hcd & Hse).
  destruct (menu_loop_ticks ops cfg (Z.to_nat (timeout cfg - 1)) (repeat (-1) 1 ++ rest) st) as [t ->]; [done|lia|].
  rewrite Hcd, Hse. replace (timeout cfg - _) with 1 by lia. by eexists.
Qed.


(** Every screen is a box: for every screen width the border, title and entry
    rows all span the left margin and the box, whatever entry is selected, as long as
    the names are ASCII and fit; and there is one row per entry and four more. *)
Theorem menu_rows_aligned ops cfg sel n row :
  Forall (fits ops) (entries cfg) ->
  exists bodies bottom hint,
    prints (render_menu ops cfg sel n row)
      (flat_map (fun b => b ++ [10]) bodies ++ (bottom ++ [10]) ++ hint ++ [10]) /\
    zlen bodies = 3 + num_entries cfg /\
    Forall (fun b => glyphs b = lpad ops + bw ops) (bodies ++ [bottom]) /\ 
    40 <= bw ops <= 78 /\ (50 <= cols ops -> lpad ops + bw ops <= cols ops).
Proof.
  intros He. destruct (box_border ops BOX_DBL BOX_DBR eq_refl eq_refl) as (bottom & Hb & Hbg).
  pose proof (prints_hint ops n) as Hh. rewrite app_assoc in Hh.
  pose proof (prints_cons _ _ _ _ Hb (prints_cons _ _ _ _ Hh prints_nil)) as Hend.
  assert (Forall (box_row ops) ([border_row ops BOX_DTL BOX_DTR; title_row ops; border_row ops BOX_LT BOX_RT]
    ++ entry_rows ops (entries cfg) 0 sel)) as Hrows.
  { apply Forall_app. split; [|by apply box_entries]. constructor; [by apply box_border|].
    constructor; [apply box_title|]. constructor; [by apply box_border|constructor]. }
  destruct (prints_rows ops _ _ _ Hrows Hend) as (bodies & Hp & Hl & Hall).
  exists bodies, bottom. eexists. split_and!.
  - unfold render_menu. eapply (prints_eq _ ([] ++ _)); [|done]. apply prints_cons; [eexists; split; [done|]; by repeat case_match|].
    rewrite <- app_assoc in Hp. rewrite app_nil_r in Hp. exact Hp.
  - rewrite Hl, length_app, entry_rows_length. unfold num_entries. cbn [length]. lia.
  - apply Forall_app. by split; [|constructor].
  - apply bw_range.
  - apply bw_range.
  - unfold lpad. pose proof (bw_range ops) as Hbw. intros Hc.
    assert (bw ops <= cols ops) by (unfold bw in *; repeat case_match; lia).
    pose proof (Z.quot_pos (cols ops - bw ops) 2 ltac:(lia) ltac:(lia)).
    pose proof (Z.quot_le_upper_bound (cols ops - bw ops) 2 (cols ops - bw ops) ltac:(lia) ltac:(lia)).
    destruct (Z.ltb_spec (Z.quot (cols ops - bw ops) 2) 0); lia.
Qed.

(** The countdown is right up to 99 seconds. *)
Lemma hint_line_digits n : 0 < n <= 99 -> hint_line n = cs "Booting in " ++ show_dec n ++ cs "s...".
Proof.
  intros H. assert (forallb (fun n => bool_decide (hint_line n = cs "Booting in " ++ show_dec n ++ cs "s...")) (seqZ 1 99) = true) as HA
    by by vm_compute.
  rewrite forallb_forall in HA. specialize (HA n). rewrite bool_decide_eq_true in HA. apply HA, list_elem_of_In, elem_of_seqZ. lia.
Qed.

Example hint_line_100 : hint_line 100 = cs "Booting in :0s...".
Proof. done. Qed.

(** ** Witnesses *)

Definition demo_ops : MenuOps := {| has_clear := true; has_set_color := true; has_set_cursor := false; has_show_cursor := true; ops_cols := 80 |}.

Definition demo_menu : BootConfig :=
  {| timeout := 3; default_entry := 1; theme_color := 5; accent_color := 14;
     entries := [new_entry (cs "ViOS"); new_entry (cs "Linux"); new_entry (cs "Windows")] |}.



Lemma menu_rows_aligned_witness :
  exists bodies bottom hint,
    prints (render_menu demo_ops demo_menu 1 3 0) (flat_map (fun b => b ++ [10]) bodies ++ (bottom ++ [10]) ++ hint ++ [10]) /\
    zlen bodies = 6 /\ Forall (fun b => glyphs b = 75) (bodies ++ [bottom]) /\ 40 <= 70 <= 78 /\ (50 <= 80 -> 75 <= 80).
Proof.
  apply (menu_rows_aligned demo_ops demo_menu 1 3 0).
  repeat constructor; try done; by vm_compute.
Defined.
End Menu.
