(* ===== verification/Passphrase.v ===== *)
(** * Passphrase: reading a passphrase, [common/passphrase.c]

    The keyboard is the list of what successive calls of [read_key] return; the
    screen the calls made.  A pure line editor is the specification. *)

From S2P Require Import Prelude Menu.
Import Menu.

Module Passphrase.

Definition KEY_BACKSPACE : Z := 0x08.
Definition KEY_ESC : Z := 0x1B.

(** [while (len--) *p++ = 0;] *)
Definition passphrase_wipe (buf : list Z) (len : Z) : option (list Z) :=
  if len <=? zlen buf then Some (repeat 0 (Z.to_nat len) ++ drop (Z.to_nat len) buf) else None.

Definition setb (buf : list Z) (i v : Z) : option (list Z) :=
  if (0 <=? i) && (i <? zlen buf) then Some (<[Z.to_nat i := v]> buf) else None.

Inductive outcome := Typed (len : Z) | Cancelled | More.

Section Read.
Context (ops : MenuOps) (buf_max : Z).

Fixpoint read_keys (keys : list Z) (buf : list Z) (len : Z) : option (outcome * list Z * list call) :=
  match keys with
  | [] => Some (More, buf, [])
  | k :: keys' =>
    let next buf len out := r ← read_keys keys' buf len; Some (fst r, out ++ snd r) in
    if k <? 0 then next buf len []
    else if k =? KEY_ENTER then Some (Typed len, buf, [Print [13; 10]])
    else if k =? KEY_ESC then
      b ← passphrase_wipe buf buf_max; Some (Cancelled, b, Print [13; 10] :: show_cursor ops 0)
    else if (k =? KEY_BACKSPACE) || (k =? 0x7F) then
      if len >? 0 then b ← setb buf (len - 1) 0; next b (len - 1) [Print [8; 32; 8]]
      else next buf len []
    else if (k >=? 0x20) && (k <=? 0x7E) && (u32 (len + 1) <? buf_max) then
      b ← setb buf len (u8 k);
      b ← setb b (len + 1) 0;
      next b (len + 1) [Print (cs "*")]
    else next buf len []
  end.

(** The value returned is the length, 0 after a cancellation. *)
Definition passphrase_read (prompt keys buf : list Z) : option (outcome * list Z * list call) :=
  r ← read_keys keys buf 0;
  let out := show_cursor ops 1 ++ [Print prompt] ++ snd r in
  Some (fst r, match fst (fst r) with Typed _ => out ++ show_cursor ops 0 | _ => out end).
End Read.

(** ** The line editor *)

Inductive key_event := Ignore | Accept | Cancel | Erase | Insert (c : Z).

Definition classify (k : Z) : key_event :=
  if k <? 0 then Ignore else if k =? KEY_ENTER then Accept else if k =? KEY_ESC then Cancel
  else if (k =? KEY_BACKSPACE) || (k =? 0x7F) then Erase
  else if (k >=? 0x20) && (k <=? 0x7E) then Insert k else Ignore.

Inductive answer := Line (s : list Z) | Dropped | Pending (s : list Z).

Fixpoint edit (max : nat) (keys : list Z) (line : list Z) : answer :=
  match keys with
  | [] => Pending line
  | k :: keys' =>
    match classify k with
    | Ignore => edit max keys' line
    | Accept => Line line
    | Cancel => Dropped
    | Erase => edit max keys' (removelast line)
    | Insert c => edit max keys' (if (length line <? max)%nat then line ++ [c] else line)
    end
  end.

(** What the buffer holds for an answer: the line, and zeros in all of the rest. *)
Definition holds (n : nat) (a : answer) : outcome * list Z :=
  match a with
  | Line s => (Typed (zlen s), s ++ repeat 0 (n - length s))
  | Dropped => (Cancelled, repeat 0 n)
  | Pending s => (More, s ++ repeat 0 (n - length s))
  end.

Lemma setb_end s n v : (length s < n)%nat ->
  setb (s ++ repeat 0 (n - length s)) (zlen s) v = Some (s ++ v :: repeat 0 (n - S (length s))).
Proof.
  intros H. unfold setb. rewrite length_app, repeat_length.
  assert ((zlen s <? Z.of_nat (length s + (n - length s))) = true) as -> by (apply Z.ltb_lt; lia).
  replace (0 <=? zlen s) with true by lia. cbn [andb].
  rewrite Nat2Z.id, insert_app_r_alt, Nat.sub_diag by lia.
  by replace (n - length s)%nat with (S (n - S (length s))) by lia.
Qed.

Lemma read_keys_edit ops n keys : forall s,
  Z.of_nat n < 2 ^ 32 -> (length s < n)%nat -> 
  exists out, read_keys ops (Z.of_nat n) keys (s ++ repeat 0 (n - length s)) (zlen s)
    = Some (holds n (edit (n - 1) keys s), out).
Proof.
  induction keys as [|k keys IH]; intros s Hn Hs; [by exists []|]. cbn [read_keys edit]. unfold classify.
  destruct (k <? 0). { destruct (IH s Hn Hs) as [out ->]. by eexists. }
  destruct (k =? KEY_ENTER). { by eexists. }
  destruct (k =? KEY_ESC).
  { unfold passphrase_wipe. rewrite length_app, repeat_length.
    assert ((Z.of_nat n <=? Z.of_nat (length s + (n - length s))) = true) as -> by (apply Z.leb_le; lia).
    rewrite drop_ge, app_nil_r, Nat2Z.id by (rewrite length_app, repeat_length; lia). by eexists. }
  destruct ((k =? KEY_BACKSPACE) || (k =? 127)).
  { destruct s as [|c s _] using rev_ind.
    { cbn [length Z.of_nat Z.gtb Z.compare removelast]. destruct (IH [] Hn Hs) as [out HE]. cbn in HE |- *. rewrite HE. by eexists. }
    rewrite removelast_last, length_app in *. cbn [length] in *.
    destruct (Z.gtb_spec (Z.of_nat (length s + 1)) 0); [|lia].
    replace (Z.of_nat (length s + 1) - 1) with (zlen s) by lia. rewrite <- app_assoc.
    assert (setb (s ++ [c] ++ repeat 0 (n - (length s + 1))) (zlen s) 0 = Some (s ++ repeat 0 (n - length s))) as ->.
    { unfold setb. rewrite !length_app, repeat_length. cbn [length].
      match goal with |- context[zlen s <? ?m] => assert ((zlen s <? m) = true) as -> by (apply Z.ltb_lt; lia) end.
      replace (0 <=? zlen s) with true by lia. cbn [andb].
      rewrite Nat2Z.id, insert_app_r_alt, Nat.sub_diag by lia. cbn. do 2 f_equal.
      by replace (n - length s)%nat with (S (n - (length s + 1))) by lia. }
    cbn [mbind option_bind]. destruct (IH s Hn ltac:(lia)) as [out ->]. by eexists. }
  destruct ((k >=? 32) && (k <=? 126)) eqn:Hk; cbn [andb]; [|destruct (IH s Hn Hs) as [out ->]; by eexists].
  rewrite wrap_small by lia. destruct (Z.ltb_spec (zlen s + 1) (Z.of_nat n)) as [Hl|Hl].
  - replace (length s <? n - 1)%nat with true by (symmetry; apply Nat.ltb_lt; lia).
    rewrite setb_end by lia. cbn [mbind option_bind]. rewrite u8_byte by (unfold is_byte; lia).
    specialize (IH (s ++ [k]) Hn). rewrite length_app in IH. cbn [length] in IH. specialize (IH ltac:(lia)).
    replace (n - S (length s))%nat with (n - length (s ++ [k]))%nat by (rewrite length_app; cbn; lia).
    replace (zlen s + 1) with (zlen (s ++ [k])) by (rewrite length_app; cbn; lia).
    rewrite (cons_middle k s (repeat _ _)), (app_assoc s [k] (repeat _ _)), setb_end by (rewrite length_app; cbn; lia). cbn [mbind option_bind].
    replace (0 :: repeat 0 (n - S (length (s ++ [k])))) with (repeat 0 (n - (length s + 1)))
      by (rewrite length_app; cbn [length]; by replace (n - (length s + 1))%nat with (S (n - S (length s + 1))) by lia).
    replace (zlen (s ++ [k])) with (Z.of_nat (length s + 1)) by (rewrite length_app; cbn; lia).
    destruct IH as [out ->]. by eexists.
  - replace (length s <? n - 1)%nat with false by (symmetry; apply Nat.ltb_ge; lia).
    destruct (IH s Hn Hs) as [out ->]. by eexists.
Qed.

Lemma passphrase_read_line ops buf_max prompt keys :
  0 < buf_max < 2 ^ 32 ->
  exists out, passphrase_read ops buf_max prompt keys (repeat 0 (Z.to_nat buf_max))
    = Some (holds (Z.to_nat buf_max) (edit (Z.to_nat (buf_max - 1)) keys []), out).
Proof.
  intros Hm. destruct (read_keys_edit ops (Z.to_nat buf_max) keys []) as [out HE]; [lia|cbn; lia|].
  cbn [app length] in HE. rewrite Nat.sub_0_r, Z2Nat.id in HE by lia.
  unfold passphrase_read. change (Z.of_nat 0) with 0 in HE. rewrite HE.
  replace (Z.to_nat (buf_max - 1)) with (Z.to_nat buf_max - 1)%nat by lia. cbn. by eexists.
Qed.

(** The line never outgrows the editor. *)
Lemma edit_length max keys line s : (length line <= max)%nat -> edit max keys line = Line s -> (length s <= max)%nat.
Proof.
  revert line. induction keys as [|k keys IH]; intros line Hl; [done|]. cbn [edit].
  destruct (classify k); try done; try (by apply IH).
  - by intros [= <-].
  - apply IH. destruct line as [|c line _] using rev_ind; [done|]. rewrite removelast_last. rewrite length_app in Hl. cbn [length] in Hl. lia.
  - apply IH. destruct (Nat.ltb_spec (length line) max); [|done]. rewrite length_app. cbn [length]. lia.
Qed.

(** [C32] Reading a passphrase implements a line editor: for every sequence of keys the
    code stays inside the buffer, returns the length of the line the editor has, and
    leaves the line followed by zeros, so that no erased character and nothing of a
    cancelled passphrase stays in memory. *)
Theorem passphrase_read_edits ops buf_max prompt keys :
  0 < buf_max < 2 ^ 32 ->
  exists out, passphrase_read ops buf_max prompt keys (repeat 0 (Z.to_nat buf_max))
    = Some (holds (Z.to_nat buf_max) (edit (Z.to_nat (buf_max - 1)) keys []), out).
Proof. apply passphrase_read_line. Qed.

Lemma passphrase_read_edits_witness :
  exists out, passphrase_read demo_ops 8 (cs "Passphrase: ") [-1; 97; 98; 8; 99; 13; 100] (repeat 0 8)
    = Some (Typed 2, [97; 99; 0; 0; 0; 0; 0; 0], out).
Proof.
  destruct (passphrase_read_edits demo_ops 8 (cs "Passphrase: ") [-1; 97; 98; 8; 99; 13; 100]) as [out HE]; [lia|].
  exists out. exact HE.
Defined.
End Passphrase.
