(* ===== verification/BootCount.v ===== *)
(** * BootCount: what is remembered between boots, [common/bootcount.c], [common/efivar.c]

    The counters of boot attempts and the last entry, over an interface to the
    firmware's variable store, and the part of [uefi_main] that uses them around the
    menu.  Variable names are lists of UCS-2 units without the terminator. *)

From stdpp Require Import gmap.
From S2P Require Import Prelude Config Menu.
Import Config.

Module BootCount.

(** The variables of one vendor.  [nv_set] with no data deletes the variable; an error
    of the firmware leaves the store as it was. *)
Class NvStore := {
  nv : Type;
  nv_data : nv -> list Z -> option (list Z);
  nv_set : nv -> list Z -> list Z -> nv }.

(** The store keeps what it is told to. *)
Class NvLaws `{NvStore} := {
  nv_set_same s n d : d <> [] -> nv_data (nv_set s n d) n = Some d;
  nv_set_other s n n' d : n <> n' -> nv_data (nv_set s n d) n' = nv_data s n';
  nv_set_empty s n : nv_data (nv_set s n []) n = None }.

Definition BOOTCOUNT_MAX : Z := 3.
Definition LAST_ENTRY_VAR : list Z := cs "SakuruLastEntry".

Definition build_var_name (index : Z) : list Z :=
  cs "SakuruBC" ++ (if index >=? 10 then [48 + index / 10 mod 10] else []) ++ [48 + index mod 10].

Section Store.
Context `{NvStore}.

(** [GetVariable] into a buffer of [cap] bytes: status and data; a variable that is
    too large is an error too. *)
Definition get_var (s : nv) (name : list Z) (cap : Z) : Z * list Z :=
  match nv_data s name with
  | None => (14, [])
  | Some d => if zlen d <=? cap then (0, d) else (5, [])
  end.

(** [val] starts as 0; the data overwrite its low bytes. *)
Definition bootcount_get (s : nv) (entry_index : Z) : Z :=
  let r := get_var s (build_var_name entry_index) 4 in
  if negb (fst r =? 0) then 0 else le_val (snd r).

Definition bootcount_increment (s : nv) (entry_index : Z) : nv :=
  nv_set s (build_var_name entry_index) (le_bytes 4 (u32 (bootcount_get s entry_index + 1))).

Definition bootcount_clear (s : nv) (entry_index : Z) : nv := nv_set s (build_var_name entry_index) (le_bytes 4 0).

Definition bootcount_should_fallback (s : nv) (entry_index : Z) : bool := bootcount_get s entry_index >=? BOOTCOUNT_MAX.

Definition efivar_save_last_entry (s : nv) (index : Z) : nv := nv_set s LAST_ENTRY_VAR (le_bytes 4 index).

(** [None] is the return value -1. *)
Definition efivar_load_last_entry (s : nv) : option Z :=
  let r := get_var s LAST_ENTRY_VAR 4 in
  if negb (fst r =? 0) || negb (zlen (snd r) =? 4) then None else Some (le_val (snd r)).

Definition efivar_delete (s : nv) (name16 : list Z) : nv := nv_set s name16 [].

(** ** Around the menu, in [uefi_main] *)

Definition set_default (cfg : BootConfig) (d : Z) : BootConfig :=
  {| timeout := timeout cfg; default_entry := d; theme_color := theme_color cfg; accent_color := accent_color cfg;
     entries := entries cfg |}.

Definition restore_default (s : nv) (cfg : BootConfig) : BootConfig :=
  let cfg :=
    match efivar_load_last_entry s with
    | Some last_sel => if last_sel <? num_entries cfg then set_default cfg last_sel else cfg
    | None => cfg
    end in
  if bootcount_should_fallback s (default_entry cfg) && (num_entries cfg >? 1) then set_default cfg 0 else cfg.

Definition record_boot (s : nv) (sel : Z) : nv := bootcount_increment (efivar_save_last_entry s (u32 sel)) (u32 sel).

(** One boot with what the keyboard delivers: the entry booted and the store after;
    [None] when the menu still waits. *)
Definition boot_round (ops : Menu.MenuOps) (s : nv) (cfg : BootConfig) (keys : list Z) : option (Z * nv) :=
  r ← Menu.menu_run ops (restore_default s cfg) keys;
  match fst r with Menu.Return sel => Some (sel, record_boot s sel) | Menu.Again _ => None end.

Fixpoint boot_rounds (n : nat) (ops : Menu.MenuOps) (s : nv) (cfg : BootConfig) (keys : list Z) : option (list Z) :=
  match n with
  | O => Some []
  | S n' => r ← boot_round ops s cfg keys; l ← boot_rounds n' ops (snd r) cfg keys; Some (fst r :: l)
  end.
End Store.

(** ** Names *)

Lemma build_var_name_inj i j : 0 <= i < 100 -> 0 <= j < 100 -> build_var_name i = build_var_name j -> i = j.
Proof.
  intros Hi Hj HE. unfold build_var_name in HE. apply app_inv_head in HE.
  pose proof (Z.div_mod i 10). pose proof (Z.div_mod j 10).
  assert (i / 10 mod 10 = i / 10 /\ j / 10 mod 10 = j / 10) as [Ei Ej].
  { split; apply Z.mod_small; split; try (apply Z.div_pos; lia); apply Z.div_lt_upper_bound; lia. }
  rewrite Ei, Ej in HE. destruct (Z.geb_spec i 10), (Z.geb_spec j 10); cbn in HE; simplify_eq; try lia.
Qed.

(** The digits wrap at 100. *)
Lemma build_var_name_alias i : 10 <= i -> build_var_name (i + 100) = build_var_name i.
Proof.
  intros Hi. unfold build_var_name. destruct (Z.geb_spec i 10), (Z.geb_spec (i + 100) 10); try lia.
  replace (i + 100) with (i + 10 * 10) at 2 by lia. rewrite Z_mod_plus_full.
  replace (i + 100) with (i + 10 * 10) by lia. rewrite Z.div_add by lia.
  replace (i / 10 + 10) with (i / 10 + 1 * 10) by lia. by rewrite Z_mod_plus_full.
Qed.

Lemma build_var_name_last i : build_var_name i <> LAST_ENTRY_VAR.
Proof. done. Qed.

(** ** Counters *)

Section Laws.
Context `{NvLaws}.

Lemma bootcount_get_set s i v : 0 <= v < 2 ^ 32 -> bootcount_get (nv_set s (build_var_name i) (le_bytes 4 v)) i = v.
Proof.
  intros Hv. unfold bootcount_get, get_var. rewrite nv_set_same by done. rewrite le_bytes_length. cbn [Z.leb Z.compare].
  change (Z.of_nat 4 <=? 4) with true. cbn [fst snd negb Z.eqb]. rewrite le_val_le_bytes. by apply wrap_small.
Qed.

Lemma bootcount_get_other s n i d : n <> build_var_name i -> bootcount_get (nv_set s n d) i = bootcount_get s i.
Proof. intros Hn. unfold bootcount_get, get_var. by rewrite nv_set_other by done. Qed.

Lemma load_save s v : 0 <= v < 2 ^ 32 -> efivar_load_last_entry (efivar_save_last_entry s v) = Some v.
Proof.
  intros Hv. unfold efivar_load_last_entry, efivar_save_last_entry, get_var. rewrite nv_set_same by done.
  rewrite le_bytes_length. change (Z.of_nat 4 <=? 4) with true. cbn [fst snd negb Z.eqb orb].
  rewrite le_bytes_length. change (negb (Z.of_nat 4 =? 4)) with false. cbv iota. rewrite le_val_le_bytes. by rewrite wrap_small.
Qed.

Lemma load_other s n d : n <> LAST_ENTRY_VAR -> efivar_load_last_entry (nv_set s n d) = efivar_load_last_entry s.
Proof. intros Hn. unfold efivar_load_last_entry, get_var. by rewrite nv_set_other by done. Qed.

Lemma record_boot_last s sel : 0 <= sel < 2 ^ 32 -> efivar_load_last_entry (record_boot s sel) = Some sel.
Proof.
  intros Hs. unfold record_boot, bootcount_increment. rewrite load_other by apply build_var_name_last.
  rewrite wrap_small by done. by apply load_save.
Qed.

Lemma record_boot_count s sel i :
  0 <= sel < 100 -> 0 <= i < 100 ->
  bootcount_get (record_boot s sel) i = if sel =? i then u32 (bootcount_get s i + 1) else bootcount_get s i.
Proof.
  intros Hs Hi. unfold record_boot, bootcount_increment. rewrite (wrap_small 32 sel) by lia.
  assert (forall i, bootcount_get (efivar_save_last_entry s sel) i = bootcount_get s i) as Hl.
  { intros j. apply bootcount_get_other. symmetry. apply build_var_name_last. }
  destruct (Z.eqb_spec sel i) as [->|Hne].
  - rewrite bootcount_get_set by (by apply (wrap_range 32)). by rewrite Hl.
  - rewrite bootcount_get_other; [apply Hl|]. intros ?%build_var_name_inj; lia.
Qed.

(** The counters behave as an array: incrementing the counter of one entry adds
    one to it modulo 2^32 and leaves the counters of all other entries and the last
    entry alone, clearing resets it, and the fallback is due from the third attempt
    on; the index is good for 100 entries. *)
Theorem bootcount_array s i j :
  0 <= i < 100 -> 0 <= j < 100 ->
  bootcount_get (bootcount_increment s i) j = (if i =? j then u32 (bootcount_get s j + 1) else bootcount_get s j) /\
  bootcount_get (bootcount_clear s i) j = (if i =? j then 0 else bootcount_get s j) /\
  efivar_load_last_entry (bootcount_increment s i) = efivar_load_last_entry s /\
  (bootcount_should_fallback s j = true <-> 3 <= bootcount_get s j).
Proof.
  intros Hi Hj. unfold bootcount_increment, bootcount_clear, bootcount_should_fallback, BOOTCOUNT_MAX. split_and!.
  - destruct (Z.eqb_spec i j) as [->|Hne]; [by apply bootcount_get_set, (wrap_range 32)|].
    apply bootcount_get_other. intros ?%build_var_name_inj; lia.
  - destruct (Z.eqb_spec i j) as [->|Hne]; [by apply bootcount_get_set|].
    apply bootcount_get_other. intros ?%build_var_name_inj; lia.
  - apply load_other, build_var_name_last.
  - destruct (Z.geb_spec (bootcount_get s j) 3); split; (done || lia).
Qed.

(** ** Unattended boots *)

Section Rounds.
Context (ops : Menu.MenuOps) (cfg : BootConfig) (rest : list Z) (i : Z).
Hypothesis HN : 1 < num_entries cfg <= 16.
Hypothesis Hi : 0 < i < num_entries cfg.
Hypothesis Ht : 0 < timeout cfg < 2 ^ 31.

Definition ticks : list Z := repeat (-1) (Z.to_nat (timeout cfg)) ++ rest.

(** With the last entry [l] stored, an unattended boot boots it unless its counter has
    reached the limit. *)
Lemma boot_round_unattended s l :
  0 <= l < num_entries cfg -> efivar_load_last_entry s = Some l ->
  let sel := if 3 <=? bootcount_get s l then 0 else l in
  boot_round ops s cfg ticks = Some (sel, record_boot s sel).
Proof using HN Ht.
  intros Hl HL. cbn zeta. set (sel := if 3 <=? bootcount_get s l then 0 else l).
  assert (restore_default s cfg = set_default cfg sel) as HR.
  { unfold restore_default. rewrite HL. destruct (Z.ltb_spec l (num_entries cfg)); [|lia].
    change (num_entries (set_default cfg l)) with (num_entries cfg). cbn [default_entry set_default].
    destruct (Z.gtb_spec (num_entries cfg) 1); [|lia]. rewrite andb_true_r.
    unfold sel, bootcount_should_fallback, BOOTCOUNT_MAX. rewrite Z.geb_leb. by destruct (3 <=? bootcount_get s l). }
  unfold boot_round. rewrite HR. unfold ticks. change (timeout cfg) with (timeout (set_default cfg sel)).
  destruct (Menu.menu_run_ticks ops (set_default cfg sel) rest) as [t ->]; cbn [default_entry set_default timeout].
  - change (num_entries (set_default cfg sel)) with (num_entries cfg). unfold sel. destruct (3 <=? bootcount_get s l); lia.
  - change (num_entries (set_default cfg sel)) with (num_entries cfg). lia.
  - done.
  - done.
Qed.

(** From entry 0 on, unattended boots stay there. *)
Lemma rounds_zero n s : efivar_load_last_entry s = Some 0 -> boot_rounds n ops s cfg ticks = Some (repeat 0 n).
Proof using HN Ht H0.
  revert s. induction n as [|n IH]; intros s HL; [done|]. cbn [boot_rounds repeat].
  rewrite (boot_round_unattended s 0) by (done || lia). cbn [mbind option_bind fst snd].
  replace (if 3 <=? bootcount_get s 0 then 0 else 0) with 0 by (by destruct (3 <=? bootcount_get s 0)).
  rewrite IH; [done|]. by apply record_boot_last.
Qed.

Lemma rounds_until n : forall s k,
  efivar_load_last_entry s = Some i -> bootcount_get s i = 3 - Z.of_nat k -> (k <= 3)%nat ->
  boot_rounds n ops s cfg ticks = Some (take n (repeat i k ++ repeat 0 n)).
Proof using HN Ht Hi H0.
  induction n as [|n IH]; intros s k HL HC Hk; [done|]. cbn [boot_rounds].
  rewrite (boot_round_unattended s i) by (done || lia). cbn [mbind option_bind fst snd]. rewrite HC.
  destruct k as [|k].
  - change (3 <=? 3 - Z.of_nat 0) with true. cbv iota. rewrite rounds_zero by by apply record_boot_last.
    cbn. do 2 f_equal. by rewrite take_ge by (rewrite repeat_length; lia).
  - destruct (Z.leb_spec 3 (3 - Z.of_nat (S k))); [lia|].
    rewrite (IH (record_boot s i) k); [|apply record_boot_last; lia| |lia].
    + cbn [repeat app take mbind option_bind]. do 2 f_equal.
      rewrite (repeat_cons n 0), app_assoc. symmetry. apply take_app_le. rewrite length_app, !repeat_length. lia.
    + rewrite record_boot_count, Z.eqb_refl, HC by lia. rewrite wrap_small by lia. lia.
Qed.

(** [C31] An entry that never confirms a boot is retried at most three times: left
    alone, with entry [i] selected last and not counted yet, the loader boots it three
    times in a row and entry 0 from the fourth boot on, for ever. *)
Theorem fallback_after_three n s :
  efivar_load_last_entry s = Some i -> bootcount_get s i = 0 ->
  boot_rounds n ops s cfg ticks = Some (map (fun k => if (k <? 3)%nat then i else 0) (seq 0 n)).
Proof using HN Ht Hi H0.
  intros HL HC. rewrite (rounds_until n s 3 HL) by (rewrite ?HC; done || lia). f_equal.
  assert (forall m n, map (fun k => if (k <? 3)%nat then i else 0) (seq (3 + m) n) = repeat 0 n) as Hz.
  { intros m k. revert m. induction k as [|k IH]; intros m; [done|]. cbn [seq map repeat].
    change (S (3 + m)) with (3 + S m)%nat. by rewrite IH. }
  do 3 (destruct n as [|n]; [done|]). change (S (S (S n))) with (3 + n)%nat. rewrite seq_app, map_app.
  change (0 + 3)%nat with (3 + 0)%nat. rewrite (Hz 0%nat n). change (repeat 0 (3 + n)) with (repeat 0 3 ++ repeat 0 n).
  cbn [repeat app take seq map Nat.add]. do 4 f_equal.
  change (0 :: 0 :: 0 :: repeat 0 n) with (repeat 0 3 ++ repeat 0 n). rewrite <- repeat_app, Nat.add_comm, repeat_app.
  by rewrite take_app_length' by (by rewrite repeat_length).
Qed.
End Rounds.
End Laws.

(** ** A store of variables *)

#[local] Instance map_store : NvStore :=
  {| nv := gmap (list Z) (list Z); nv_data s n := s !! n;
     nv_set s n d := match d with [] => delete n s | _ => <[n := d]> s end |}.

#[local] Instance map_laws : NvLaws.
Proof.
  split.
  - intros s n [|c d] Hd; [done|]. apply lookup_insert_eq.
  - intros s n n' [|c d] Hn; [by apply lookup_delete_ne|by apply lookup_insert_ne].
  - intros s n. apply lookup_delete_eq.
Qed.

Definition no_vars : nv := (empty : gmap (list Z) (list Z)).

Lemma bootcount_array_witness :
  bootcount_get (bootcount_increment (bootcount_increment no_vars 12) 12) 12 = 2 /\
  bootcount_get (bootcount_clear no_vars 12) 12 = 0 /\
  efivar_load_last_entry (bootcount_increment no_vars 12) = None /\
  (bootcount_should_fallback no_vars 12 = true <-> 3 <= 0).
Proof.
  destruct (bootcount_array (bootcount_increment no_vars 12) 12 12) as [H1 _]; [lia..|].
  destruct (bootcount_array no_vars 12 12) as (_ & H2 & H3 & H4); [lia..|].
  split; [exact H1|]. split; [exact H2|]. split; [exact H3|exact H4].
Defined.

Definition demo_store : nv := nv_set no_vars LAST_ENTRY_VAR (le_bytes 4 2).

Lemma fallback_after_three_witness :
  boot_rounds 6 Menu.demo_ops demo_store Menu.demo_menu (ticks Menu.demo_menu []) = Some [2; 2; 2; 0; 0; 0].
Proof. apply (fallback_after_three Menu.demo_ops Menu.demo_menu [] 2); by vm_compute. Defined.
End BootCount.
