(* ===== verification/LoaderEntry.v ===== *)
(** * LoaderEntry: Type 1 boot loader entries, [common/loader_entry.c]

    The parser of a [.conf] file walks over a buffer, here the list of the bytes not
    read yet, and the scan of [/loader/entries/] adds what it finds to the
    configuration.  A [char] array field of [BootEntry] is the string it holds.  The
    directory is the sequence of entries its [Read] delivers before it ends or fails;
    [conf_read] gives what the buffer holds after [Open] and [Read] of a file, [None]
    when it cannot be opened. *)

From S2P Require Import Prelude Config.
Import Config.

Module LoaderEntry.

Definition EFI_FILE_DIRECTORY : Z := 0x10.

(** ** Names *)

(** [s] is the name up to its terminator. *)
Definition ucs2_ends_with_conf (s : list Z) : bool :=
  if zlen s <? 5 then false
  else
    match drop (length s - 5) s with
    | [d; c; o; n; f] =>
      (d =? chr ".") && (c .| 32 =? chr "c") && (o .| 32 =? chr "o") && (n .| 32 =? chr "n") && (f .| 32 =? chr "f")
    | _ => false
    end.

(** The characters written before the terminator. *)
Definition ucs2_to_ascii_n (src : list Z) (max : Z) : list Z := map (fun c => c .& 127) (take (Z.to_nat (max - 1)) src).

(** ** One entry *)

Definition set_name (e : BootEntry) (s : list Z) : BootEntry :=
  let '(Build_BootEntry nm ty ke ir cm en kf tr) := e in Build_BootEntry s ty ke ir cm en kf tr.

(** [memcpy] of a value and a terminator. *)
Definition stored (val : list Z) : list Z := cstr (take (Z.to_nat (if zlen val <? MAX_STR_LEN - 1 then zlen val else MAX_STR_LEN - 1)) val).

Definition conf_key (e : BootEntry) (key val : list Z) : BootEntry :=
  let '(Build_BootEntry nm ty ke ir cm en kf tr) := e in
  if bool_decide (key = cs "title") then Build_BootEntry (stored val) ty ke ir cm en kf tr
  else if bool_decide (key = cs "linux") then Build_BootEntry nm ty (stored val) ir cm en kf tr
  else if bool_decide (key = cs "initrd") then Build_BootEntry nm ty ke (stored val) cm en kf tr
  else if bool_decide (key = cs "options") then Build_BootEntry nm ty ke ir (stored val) en kf tr
  else e.

Definition not_nl (c : Z) : bool := negb (c =? 10).
Definition next_line (p : list Z) : list Z := tail (skip_while not_nl p).
Definition is_conf_key (c : Z) : bool := negb (is_space c) && not_nl c.

Fixpoint conf_loop (fuel : nat) (p : list Z) (e : BootEntry) : option BootEntry :=
  match p with
  | [] => Some e
  | _ =>
    match fuel with
    | O => None
    | S f =>
      let p := skip_while is_space p in
      match p with
      | [] => Some e
      | c :: _ =>
        if (c =? chr "#") || (c =? 10) || (c =? 13) then conf_loop f (next_line p) e
        else
          let key := take_while is_conf_key p in
          let p := skip_while is_space (drop (length key) p) in
          let val := take_while (fun c => negb (is_newline c)) p in
          conf_loop f (next_line (drop (length val) p)) (conf_key e key (trim val))
      end
    end
  end.

Definition finish_entry (e : BootEntry) : BootEntry :=
  let '(Build_BootEntry nm ty ke ir cm en kf tr) := e in
  Build_BootEntry nm OS_TYPE_LINUX ke ir cm en kf (if tr =? 0 then 3 else tr).

Definition parse_entry_conf (buf : list Z) (e : BootEntry) : option BootEntry :=
  e ← conf_loop (length buf) buf e; Some (finish_entry e).

(** ** The scan *)

Section Scan.
Context (conf_read : list Z -> option (list Z)).

(** The name of the entry before the file is parsed. *)
Definition default_name (fname : list Z) : list Z :=
  take_while (fun c => negb (c =? chr ".")) (cstr (ucs2_to_ascii_n fname MAX_STR_LEN)).

(** [ents] are the entries of the directory not read yet: attribute and name. *)
Fixpoint scan_loop (ents : list (Z * list Z)) (cfg : BootConfig) : option BootConfig :=
  match ents with
  | [] => Some cfg
  | (attr, fname) :: ents =>
    if negb (num_entries cfg <? MAX_ENTRIES) then Some cfg
    else if negb (attr .& EFI_FILE_DIRECTORY =? 0) then scan_loop ents cfg
    else if negb (ucs2_ends_with_conf fname) then scan_loop ents cfg
    else
      match conf_read fname with
      | None => scan_loop ents cfg
      | Some fbuf =>
        e ← parse_entry_conf fbuf (set_name zero_entry (default_name fname));
        scan_loop ents (if bool_decide (kernel e = []) then cfg else set_entries cfg (entries cfg ++ [e]))
      end
  end.

(** [dir] is [None] when [/loader/entries/] cannot be opened. *)
Definition loader_entry_scan (dir : option (list (Z * list Z))) (cfg : BootConfig) : option BootConfig :=
  match dir with None => Some cfg | Some ents => scan_loop ents cfg end.
End Scan.

(** ** Lines *)

Fixpoint lines (p : list Z) : list (list Z) :=
  match p with
  | [] => [[]]
  | c :: p' => if c =? 10 then [] :: lines p' else match lines p' with l :: ls => (c :: l) :: ls | [] => [[c]] end
  end.

(** What one line, without its newline, does to the entry. *)
Definition conf_line (e : BootEntry) (line : list Z) : BootEntry :=
  match skip_while is_space line with
  | [] => e
  | (c :: _) as l =>
    if (c =? chr "#") || (c =? 13) then e
    else
      let key := take_while (fun c => negb (is_space c)) l in
      conf_key e key (trim (take_while (fun c => negb (c =? 13)) (skip_while is_space (drop (length key) l))))
  end.

Lemma lines_app a b : Forall (fun c => not_nl c = true) a -> lines (a ++ 10 :: b) = a :: lines b.
Proof.
  induction 1 as [|c a Hc Ha IH]; [done|]. cbn [app lines]. unfold not_nl in Hc. destruct (c =? 10); [done|]. by rewrite IH.
Qed.

Lemma lines_one a : Forall (fun c => not_nl c = true) a -> lines a = [a].
Proof.
  induction 1 as [|c a Hc Ha IH]; [done|]. cbn [lines]. unfold not_nl in Hc. destruct (c =? 10); [done|]. by rewrite IH.
Qed.

(** The first line and what follows it, from its newline on. *)
Lemma first_line p : exists a r, p = a ++ r /\ Forall (fun c => not_nl c = true) a /\ (r = [] \/ exists b, r = 10 :: b).
Proof.
  exists (take_while not_nl p), (skip_while not_nl p). rewrite take_skip_while. split; [done|]. split; [apply take_while_Forall|].
  destruct (skip_while not_nl p) as [|c b] eqn:E; [by left|]. right. exists b. apply skip_while_shape in E. unfold not_nl in E.
  by destruct (Z.eqb_spec c 10) as [->|].
Qed.

(** Loops that stop at a newline see the first line only. *)
Lemma on_line (f g : Z -> bool) a r :
  Forall (fun c => not_nl c = true) a -> (r = [] \/ exists b, r = 10 :: b) -> f 10 = false ->
  (forall c, not_nl c = true -> f c = g c) ->
  take_while f (a ++ r) = take_while g a /\ skip_while f (a ++ r) = skip_while g a ++ r.
Proof.
  intros Ha Hr H10 Hfg. induction Ha as [|c a Hc Ha [IH1 IH2]]; cbn [app].
  - destruct Hr as [-> | [b ->]]; cbn [take_while skip_while]; [done|]. by rewrite H10.
  - cbn [take_while skip_while]. rewrite Hfg by done. destruct (g c); [|done]. by rewrite IH1.
Qed.

Lemma skip_while_Forall (P : Z -> Prop) f l : Forall P l -> Forall P (skip_while f l).
Proof. induction 1 as [|c l Hc Hl IH]; cbn; [constructor|]. destruct (f c); [done|by constructor]. Qed.

Lemma drop_take_while f l : drop (length (take_while f l)) l = skip_while f l.
Proof. induction l as [|c l IH]; [done|]. cbn. by destruct (f c). Qed.

Lemma next_line_app a r : Forall (fun c => not_nl c = true) a -> (r = [] \/ exists b, r = 10 :: b) -> next_line (a ++ r) = tail r.
Proof.
  intros Ha Hr. unfold next_line. rewrite skip_while_all by done. by destruct Hr as [-> | [b ->]].
Qed.

(** One turn of the loop treats one line. *)
Lemma conf_loop_line fuel a r e :
  Forall (fun c => not_nl c = true) a -> (r = [] \/ exists b, r = 10 :: b) -> a ++ r <> [] ->
  conf_loop (S fuel) (a ++ r) e = conf_loop fuel (tail r) (conf_line e a) \/
  (tail r = [] /\ conf_loop (S fuel) (a ++ r) e = Some (conf_line e a)).
Proof.
  intros Ha Hr Hne. cbn [conf_loop]. destruct (a ++ r) eqn:E0; [done|]. rewrite <- E0. clear E0 Hne l z.
  rewrite (proj2 (on_line is_space is_space a r Ha Hr eq_refl (fun c _ => eq_refl))). unfold conf_line.
  pose proof (skip_while_Forall _ is_space a Ha) as Hl. destruct (skip_while is_space a) as [|c l] eqn:El; cbn [app].
  { destruct Hr as [-> | [b ->]]; cbn [app]; [by right|]. left. done. }
  apply Forall_cons in Hl as Hc. destruct Hc as [Hc _]. left. unfold not_nl in Hc. destruct (Z.eqb_spec c 10); [done|]. rewrite orb_false_r.
  destruct ((c =? chr "#") || (c =? 13)).
  { change (c :: l ++ r) with ((c :: l) ++ r). by rewrite next_line_app. }
  change (c :: l ++ r) with ((c :: l) ++ r).
  assert (forall x, not_nl x = true -> is_conf_key x = negb (is_space x)) as Hk.
  { intros x Hx. unfold is_conf_key. by rewrite Hx, andb_true_r. }
  rewrite (drop_take_while is_conf_key). destruct (on_line is_conf_key (fun c => negb (is_space c)) (c :: l) r Hl Hr eq_refl Hk) as [-> ->].
  rewrite (drop_take_while (fun c => negb (is_space c))). set (k := skip_while _ (c :: l)).
  assert (Forall (fun c => not_nl c = true) k) as Hkk by (by apply skip_while_Forall).
  rewrite (proj2 (on_line is_space is_space k r Hkk Hr eq_refl (fun c _ => eq_refl))). set (w := skip_while is_space k).
  assert (Forall (fun c => not_nl c = true) w) as Hw by (by apply skip_while_Forall).
  assert (forall x, not_nl x = true -> negb (is_newline x) = negb (x =? 13)) as Hv.
  { intros x Hx. unfold is_newline. unfold not_nl in Hx. by destruct (x =? 10). }
  rewrite (drop_take_while (fun c => negb (is_newline c))). destruct (on_line (fun c => negb (is_newline c)) (fun c => negb (c =? 13)) w r Hw Hr eq_refl Hv) as [-> ->].
  rewrite next_line_app by (done || by apply skip_while_Forall). done.
Qed.

Lemma conf_loop_lines fuel p e : (length p <= fuel)%nat -> conf_loop fuel p e = Some (foldl conf_line e (lines p)).
Proof.
  revert p e. induction fuel as [|fuel IH]; intros p e Hf; destruct (decide (p = [])) as [-> | Hne]; try done.
  { destruct p; [done|cbn [length] in Hf; lia]. }
  destruct (first_line p) as (a & r & -> & Ha & Hr).
  assert (length (tail r) <= fuel)%nat as Hlen.
  { rewrite length_app in Hf. destruct Hr as [-> | [b ->]]; cbn [length tail] in *; [lia|]. lia. }
  destruct (conf_loop_line fuel a r e Ha Hr Hne) as [-> | [Htl ->]].
  - rewrite IH by done. destruct Hr as [-> | [b ->]]; cbn [tail].
    + by rewrite app_nil_r, (lines_one a).
    + by rewrite lines_app.
  - destruct Hr as [-> | [b ->]]; cbn [tail] in *.
    + by rewrite app_nil_r, (lines_one a).
    + subst b. by rewrite lines_app.
Qed.
(** ** What an entry may hold *)

Lemma cstr_ok v : (length v <= 255)%nat -> str_ok (cstr v).
Proof. intros H. split; [|apply cstr_nonzero]. pose proof (cstr_length v). lia. Qed.

Lemma stored_ok val : str_ok (stored val).
Proof.
  apply cstr_ok. rewrite length_take. unfold MAX_STR_LEN. destruct (Z.ltb_spec (zlen val) (256 - 1)); lia.
Qed.

Definition strings_ok (e : BootEntry) : Prop := str_ok (name e) /\ str_ok (kernel e) /\ str_ok (initrd e) /\ str_ok (cmdline e).

Lemma conf_key_fields e key val :
  (strings_ok e -> strings_ok (conf_key e key val)) /\ luks_tries (conf_key e key val) = luks_tries e /\
  luks_keyfile (conf_key e key val) = luks_keyfile e /\ encrypted (conf_key e key val) = encrypted e.
Proof.
  destruct e. unfold conf_key, strings_ok. pose proof (stored_ok val).
  repeat case_bool_decide; cbn; tauto.
Qed.

Lemma conf_line_fields e l :
  (strings_ok e -> strings_ok (conf_line e l)) /\ luks_tries (conf_line e l) = luks_tries e /\
  luks_keyfile (conf_line e l) = luks_keyfile e /\ encrypted (conf_line e l) = encrypted e.
Proof.
  unfold conf_line. destruct (skip_while is_space l) as [|c k]; [done|]. destruct ((c =? chr "#") || (c =? 13)); [done|].
  apply conf_key_fields.
Qed.

Lemma conf_lines_fields ls e :
  (strings_ok e -> strings_ok (foldl conf_line e ls)) /\ luks_tries (foldl conf_line e ls) = luks_tries e /\
  luks_keyfile (foldl conf_line e ls) = luks_keyfile e /\ encrypted (foldl conf_line e ls) = encrypted e.
Proof.
  revert e. induction ls as [|l ls IH]; intros e; [done|]. cbn [foldl].
  destruct (IH (conf_line e l)) as (H1 & -> & -> & ->), (conf_line_fields e l) as (G1 & -> & -> & ->). tauto.
Qed.

Lemma parse_entry_conf_spec buf e : parse_entry_conf buf e = Some (finish_entry (foldl conf_line e (lines buf))).
Proof. unfold parse_entry_conf. by rewrite conf_loop_lines. Qed.

(** An entry the scan makes. *)
Definition scanned (e : BootEntry) : Prop :=
  strings_ok e /\ kernel e <> [] /\ type e = OS_TYPE_LINUX /\ luks_tries e = 3 /\ luks_keyfile e = [] /\ encrypted e = 0.

Lemma default_name_ok fname : str_ok (default_name fname).
Proof.
  unfold default_name. split.
  - pose proof (take_skip_while (fun c => negb (c =? chr ".")) (cstr (ucs2_to_ascii_n fname MAX_STR_LEN))) as H.
    apply (f_equal length) in H. rewrite length_app in H.
    pose proof (cstr_length (ucs2_to_ascii_n fname MAX_STR_LEN)) as Hc. unfold ucs2_to_ascii_n at 2 in Hc.
    rewrite length_map, length_take in Hc. change (Z.to_nat (MAX_STR_LEN - 1)) with 255%nat in Hc. lia.
  - apply take_while_nonzero, cstr_nonzero.
Qed.

Lemma parsed_scanned buf fname e :
  parse_entry_conf buf (set_name zero_entry (default_name fname)) = Some e -> kernel e <> [] -> scanned e.
Proof.
  rewrite parse_entry_conf_spec. intros [= <-] Hk.
  destruct (conf_lines_fields (lines buf) (set_name zero_entry (default_name fname))) as (H1 & H2 & H3 & H4).
  destruct (foldl conf_line _ _) as [nm ty ke ir cm en kf tr]. cbn in *. subst. split_and!; try done. apply H1.
  pose proof (default_name_ok fname). assert (str_ok []) by (split; [cbn; lia|constructor]). done.
Qed.

Lemma scan_loop_spec conf_read ents cfg : num_entries cfg <= MAX_ENTRIES ->
  exists es, scan_loop conf_read ents cfg = Some (set_entries cfg (entries cfg ++ es)) /\
    zlen (entries cfg ++ es) <= MAX_ENTRIES /\ Forall scanned es.
Proof.
  revert cfg. induction ents as [|[attr fname] ents IH]; intros cfg Hn; cbn [scan_loop].
  { exists []. rewrite app_nil_r. by destruct cfg. }
  destruct (Z.ltb_spec (num_entries cfg) MAX_ENTRIES) as [Hlt|]; cbn [negb].
  2:{ exists []. rewrite app_nil_r. by destruct cfg. }
  destruct (negb (attr .& EFI_FILE_DIRECTORY =? 0)); [by apply IH|].
  destruct (negb (ucs2_ends_with_conf fname)); [by apply IH|]. destruct (conf_read fname) as [buf|]; [|by apply IH].
  destruct (parse_entry_conf buf _) as [e|] eqn:E; [|by rewrite parse_entry_conf_spec in E]. cbn [mbind option_bind].
  case_bool_decide as Hk; [by apply IH|]. pose proof (parsed_scanned _ _ _ E Hk) as He.
  destruct (IH (set_entries cfg (entries cfg ++ [e]))) as (es & Hrun & Hlen & Hes).
  { unfold num_entries in *. cbn [entries set_entries]. rewrite length_app. cbn [length]. lia. }
  cbn [entries set_entries] in *. rewrite <- app_assoc in *. exists ([e] ++ es). rewrite Hrun. split_and!; [by destruct cfg|done|by constructor].
Qed.

(** ** Theorems *)

(** The hand-written scanner of a [.conf] file is the obvious line-by-line reading:
    split at newlines, each line on its own either ignored (blank, comment) or a key,
    blanks, and the value up to a carriage return, trimmed; it ends on every buffer
    and looks at no byte outside it. *)
Theorem parse_entry_conf_lines (buf : list Z) (e : BootEntry) :
  parse_entry_conf buf e = Some (finish_entry (foldl conf_line e (lines buf))).
Proof. apply parse_entry_conf_spec. Qed.

(** Text of a [.conf] file. *)
Definition conf_text (title linux init opts : list Z) : list Z :=
  cs "title " ++ title ++ 10 :: cs "linux   " ++ linux ++ 13 :: 10 :: cs "# comment" ++ 10 :: cs "initrd " ++ init ++ 10 ::
  cs "options " ++ opts.

Definition conf_val (v : list Z) : Prop := val_ok v /\ nonzero v.

Lemma stored_id v : conf_val v -> stored v = v.
Proof.
  intros [(_ & Hl & _) H0]. unfold stored, MAX_STR_LEN. rewrite take_ge; [by apply cstr_id|].
  destruct (Z.ltb_spec (zlen v) (256 - 1)); lia.
Qed.

Lemma val_ok_line pre v : Forall (fun c => not_nl c = true) pre -> val_ok v -> Forall (fun c => not_nl c = true) (pre ++ v).
Proof.
  intros Hp (H & _). apply Forall_app. split; [done|]. eapply Forall_impl; [exact H|]. intros c. unfold is_newline, not_nl.
  by destruct (c =? 10).
Qed.

(** One line holding a key and a value. *)
Lemma conf_line_kv e c key v : val_ok v -> Forall (fun c => is_space c = false) (c :: key) -> c <> chr "#" -> c <> 13 ->
  forall sp cr, Forall (fun c => is_space c = true) sp -> sp <> [] -> (cr = [] \/ cr = [13]) ->
  conf_line e ((c :: key) ++ sp ++ v ++ cr) = conf_key e (c :: key) v.
Proof.
  intros (Hv & _ & Htrim & Hskip) Hkey Hc1 Hc2 sp cr Hsp Hne Hcr. unfold conf_line.
  apply Forall_cons in Hkey as [Hc Hk]. cbn [app skip_while]. rewrite Hc.
  rewrite (proj2 (Z.eqb_neq _ _) Hc1), (proj2 (Z.eqb_neq _ _) Hc2). cbn [orb].
  destruct sp as [|s0 sp]; [done|]. apply Forall_cons in Hsp as [Hs0 Hsp].
  change (c :: key ++ (s0 :: sp) ++ v ++ cr) with ((c :: key) ++ s0 :: (sp ++ v ++ cr)).
  rewrite (take_while_app (fun c => negb (is_space c)) (c :: key) s0).
  2:{ constructor; [by rewrite Hc|]. eapply Forall_impl; [exact Hk|]. intros x Hx. cbn in Hx. by rewrite Hx. }
  2:{ by rewrite Hs0. }
  rewrite drop_app_length. cbn [skip_while]. rewrite Hs0, skip_while_all by done. f_equal.
  assert (Forall (fun c => negb (c =? 13) = true) v) as Hv13.
  { eapply Forall_impl; [exact Hv|]. intros x. unfold is_newline. by destruct (x =? 10), (x =? 13). }
  unfold skip_spaces in Hskip. destruct Hcr as [-> | ->].
  - rewrite app_nil_r, Hskip, take_while_id by done. exact Htrim.
  - assert (skip_while is_space (v ++ [13]) = v ++ [13]) as ->.
    { destruct v as [|x v]; [done|]. cbn [app skip_while] in *. destruct (is_space x) eqn:E; [|done].
      pose proof (skip_while_length is_space v) as Hlen. rewrite Hskip in Hlen. cbn [length] in Hlen. lia. }
    rewrite take_while_app by done. exact Htrim.
Qed.

Lemma conf_line_keyed e key v sp cr :
  val_ok v -> forallb (fun c => negb (is_space c)) key = true -> key <> [] -> deref key <> chr "#" -> deref key <> 13 ->
  forallb is_space sp = true -> sp <> [] -> (cr = [] \/ cr = [13]) ->
  conf_line e (key ++ sp ++ v ++ cr) = conf_key e key v.
Proof.
  intros Hv Hk Hne Hc1 Hc2 Hsp Hsp0 Hcr. destruct key as [|c key]; [done|]. apply conf_line_kv; try done.
  - apply Forall_forall. intros x Hx. rewrite forallb_forall in Hk. apply list_elem_of_In in Hx. specialize (Hk x Hx). by destruct (is_space x).
  - apply Forall_forall. intros x Hx. rewrite forallb_forall in Hsp. apply Hsp. by apply list_elem_of_In.
Qed.

(** Printing an entry as a [.conf] file and parsing it gives the entry back: every
    field, whatever the entry held before, with Unix or DOS line ends, extra blanks
    and comments. *)
Theorem conf_roundtrip (title linux init opts : list Z) (e : BootEntry)
    (H1 : conf_val title) (H2 : conf_val linux) (H3 : conf_val init) (H4 : conf_val opts) :
  parse_entry_conf (conf_text title linux init opts) e =
  Some {| name := title; type := OS_TYPE_LINUX; kernel := linux; initrd := init; cmdline := opts;
          encrypted := encrypted e; luks_keyfile := luks_keyfile e;
          luks_tries := if luks_tries e =? 0 then 3 else luks_tries e |}.
Proof.
  rewrite parse_entry_conf_spec. unfold conf_text.
  rewrite (app_assoc (cs "title ")), lines_app by (apply val_ok_line; [by repeat constructor|apply H1]).
  change (linux ++ 13 :: 10 :: ?r) with (linux ++ [13] ++ 10 :: r).
  rewrite (app_assoc linux), (app_assoc (cs "linux   ")), lines_app.
  2:{ rewrite app_assoc. apply Forall_app. split; [apply val_ok_line; [by repeat constructor|apply H2]|by repeat constructor]. }
  rewrite lines_app by by repeat constructor.
  rewrite (app_assoc (cs "initrd ")), lines_app by (apply val_ok_line; [by repeat constructor|apply H3]).
  rewrite (lines_one (cs "options " ++ opts)) by (apply val_ok_line; [by repeat constructor|apply H4]).
  cbn [foldl]. 
  change (cs "title " ++ title) with ((cs "title") ++ [32] ++ title).
  change (cs "linux   " ++ linux ++ [13]) with (cs "linux" ++ [32; 32; 32] ++ linux ++ [13]).
  change (cs "initrd " ++ init) with (cs "initrd" ++ [32] ++ init).
  change (cs "options " ++ opts) with (cs "options" ++ [32] ++ opts).
  rewrite <- (app_nil_r title) at 1. rewrite <- (app_nil_r init) at 1. rewrite <- (app_nil_r opts) at 1.
  rewrite (conf_line_keyed _ (cs "title") title [32] []) by (try done; (apply H1 || by left)).
  rewrite (conf_line_keyed _ (cs "linux") linux [32; 32; 32] [13]) by (try done; (apply H2 || by right)).
  change (conf_line ?e (cs "# comment")) with e.
  rewrite (conf_line_keyed _ (cs "initrd") init [32] []) by (try done; (apply H3 || by left)).
  rewrite (conf_line_keyed _ (cs "options") opts [32] []) by (try done; (apply H4 || by left)).
  rewrite <- (stored_id title H1), <- (stored_id linux H2), <- (stored_id init H3), <- (stored_id opts H4) at 2.
  by destruct e.
Qed.

Lemma conf_roundtrip_witness :
  parse_entry_conf (conf_text (cs "Arch Linux") (cs "/vmlinuz-linux") [] (cs "root=/dev/sda2 rw")) zero_entry =
  Some {| name := cs "Arch Linux"; type := OS_TYPE_LINUX; kernel := cs "/vmlinuz-linux"; initrd := [];
          cmdline := cs "root=/dev/sda2 rw"; encrypted := 0; luks_keyfile := []; luks_tries := 3 |}.
Proof.
  assert (forall v, forallb (fun c => negb (is_newline c) && negb (c =? 0)) v = true -> (length v <=? 255)%nat = true ->
    trim v = v -> skip_spaces v = v -> conf_val v) as H.
  { intros v H1 H2%Nat.leb_le H3 H4. rewrite forallb_forall in H1. split; [split_and!; try done|]; apply Forall_forall; intros c Hc;
      apply list_elem_of_In, H1 in Hc; destruct (is_newline c), (Z.eqb_spec c 0); done. }
  apply (conf_roundtrip (cs "Arch Linux") (cs "/vmlinuz-linux") [] (cs "root=/dev/sda2 rw") zero_entry); by apply H.
Defined.

(** Scanning [/loader/entries/] only appends: settings and earlier entries stay, the
    table never exceeds 16 entries, and every entry added names a kernel, has the
    Linux type and three LUKS tries, and holds strings that fit their arrays; the
    scan never fails, whatever the files hold. *)
Theorem loader_entry_scan_appends (conf_read : list Z -> option (list Z)) (dir : option (list (Z * list Z))) (cfg : BootConfig)
    (Hn : num_entries cfg <= MAX_ENTRIES) :
  exists es, loader_entry_scan conf_read dir cfg = Some (set_entries cfg (entries cfg ++ es)) /\
    zlen (entries cfg ++ es) <= MAX_ENTRIES /\ Forall scanned es.
Proof.
  destruct dir as [ents|]; [by apply scan_loop_spec|]. exists []. cbn. rewrite app_nil_r. by destruct cfg.
Qed.

Definition demo_confs (fname : list Z) : option (list Z) :=
  if bool_decide (fname = cs "arch.conf") then Some (cs "linux /vmlinuz") else Some (cs "title no kernel").
Definition demo_dir : list (Z * list Z) := [(16, cs "sub.conf"); (32, cs "arch.conf"); (32, cs "readme.txt"); (32, cs "x.conf")].
Definition empty_cfg : BootConfig := {| timeout := 5; default_entry := 0; theme_color := 5; accent_color := 14; entries := [] |}.

Example demo_scan : map name ∘ entries <$> loader_entry_scan demo_confs (Some demo_dir) empty_cfg = Some [cs "arch"].
Proof. vm_compute. reflexivity. Qed.

Lemma loader_entry_scan_appends_witness :
  exists es, loader_entry_scan demo_confs (Some demo_dir) empty_cfg = Some (set_entries empty_cfg (entries empty_cfg ++ es)) /\
    zlen (entries empty_cfg ++ es) <= MAX_ENTRIES /\ Forall scanned es.
Proof. apply (loader_entry_scan_appends demo_confs (Some demo_dir) empty_cfg). vm_compute. congruence. Defined.
End LoaderEntry.
