(* ===== verification/Ext4.v ===== *)
(** * Ext4: the ext4 reader, [uefi/ext4.c]

    Byte-granular reads over three kinds of device, mounting, inodes, the extent tree,
    directories, paths, reading a file and listing a directory.  [None] is behaviour C
    leaves undefined; an inner [None] (or the number 0 where the code returns one) is
    the failure the code reports.  The firmware protocols and the pool allocator are
    parameters. *)

From S2P Require Import Prelude Luks1 LuksVol.

Module Ext4.

Definition EXT4_SUPER_MAGIC : Z := 0xEF53.
Definition EXT4_SUPERBLOCK_OFFSET : Z := 1024.
Definition EXT4_ROOT_INO : Z := 2.
Definition EXT4_EXTENTS_FL : Z := 0x80000.
Definition EXT4_EXTENT_HEADER_MAGIC : Z := 0xF30A.
Definition EXT4_FT_DIR : Z := 2.
Definition EXT4_FEATURE_INCOMPAT_64BIT : Z := 0x80.

(** Byte offsets in the on-disk structures. *)

Definition SB_FIRST_DATA_BLOCK : Z := 20.
Definition SB_LOG_BLOCK_SIZE : Z := 24.
Definition SB_INODES_PER_GROUP : Z := 40.
Definition SB_MAGIC : Z := 56.
Definition SB_INODE_SIZE : Z := 88.
Definition SB_FEATURE_INCOMPAT : Z := 96.
Definition SB_DESC_SIZE : Z := 254.

Definition BGD_INODE_TABLE_LO : Z := 8.
Definition BGD_INODE_TABLE_HI : Z := 40.

Definition IN_SIZE_LO : Z := 4.
Definition IN_FLAGS : Z := 32.
Definition IN_BLOCK : Z := 40.
Definition IN_SIZE_HIGH : Z := 108.

Definition EH_MAGIC : Z := 0.
Definition EH_ENTRIES : Z := 2.
Definition EH_DEPTH : Z := 6.

Definition EX_BLOCK : Z := 0.
Definition EX_LEN : Z := 4.
Definition EX_START_HI : Z := 6.
Definition EX_START_LO : Z := 8.

Definition EI_BLOCK : Z := 0.
Definition EI_LEAF_LO : Z := 4.
Definition EI_LEAF_HI : Z := 8.

Definition DE_INODE : Z := 0.
Definition DE_REC_LEN : Z := 4.
Definition DE_NAME_LEN : Z := 6.
Definition DE_FILE_TYPE : Z := 7.
Definition DE_NAME : Z := 8.

(** Puts the numbers back, for arithmetic. *)
Ltac offsets :=
  unfold SB_FIRST_DATA_BLOCK, SB_LOG_BLOCK_SIZE, SB_INODES_PER_GROUP, SB_MAGIC, SB_INODE_SIZE, SB_FEATURE_INCOMPAT, SB_DESC_SIZE, BGD_INODE_TABLE_LO, BGD_INODE_TABLE_HI, IN_SIZE_LO, IN_FLAGS, IN_BLOCK, IN_SIZE_HIGH, EH_MAGIC, EH_ENTRIES, EH_DEPTH, EX_BLOCK, EX_LEN, EX_START_HI, EX_START_LO, EI_BLOCK, EI_LEAF_LO, EI_LEAF_HI, DE_INODE, DE_REC_LEN, DE_NAME_LEN, DE_FILE_TYPE, DE_NAME; try change (Z.to_nat 40) with 40%nat.

(** Bounds-checked field accessors. *)
Definition r16 (p : list Z) (off : Z) : option Z := le_val <$> sub p off 2.
Definition r32 (p : list Z) (off : Z) : option Z := le_val <$> sub p off 4.

(** [dio], [bio] with the sector size of the device, or a LUKS volume.  The scratch
    sector a LUKS read leaves in the volume is overwritten before the next read
    uses it, so the volume is not threaded through the reader. *)
Inductive backend := Dio | Bio (phys_blk_sz : Z) | Luks (lv : LuksVol.LuksVol).

Record Ext4Vol := {
  dev : backend; media_id : Z; block_size : Z; inodes_per_group : Z; inode_size : Z; first_data_block : Z;
  bgdt_off : Z; desc_size : Z; part_handle : option Z }.

Record Media := { MediaId : Z; MediaPresent : bool; LogicalPartition : bool; BlockSize : Z; LastBlock : Z }.

Section Reader.
(** [ReadDisk media off n], [ReadBlocks media lba n] give [n] bytes or an error;
    [luks_read] is the device below a LUKS volume. *)
Context (ReadDisk ReadBlocks : Z -> Z -> Z -> option (list Z)) (luks_read : Z -> Z -> option (list Z)).
Context (alloc : Z -> bool).

(** Whole sectors around the bytes wanted, then the part wanted. *)
Definition cut (byte_off byte_count first ssz : Z) (tmp : list Z) : option (option (list Z)) :=
  b ← sub tmp (byte_off - first * ssz) byte_count; Some (Some b).

Definition read_bytes (v : Ext4Vol) (byte_off byte_count : Z) : option (option (list Z)) :=
  match dev v with
  | Luks lv =>
    let first_sec := byte_off / 512 in
    let last_sec := u64 (byte_off + byte_count - 1) / 512 in
    let nsecs := u64 (last_sec - first_sec + 1) in
    if negb (alloc (u64 (nsecs * 512))) then Some None
    else
      r ← LuksVol.luks_vol_read luks_read lv first_sec (u32 nsecs);
      match fst r with
      | None => Some None
      | Some tmp => cut byte_off byte_count first_sec 512 tmp
      end
  | Dio => Some (ReadDisk (media_id v) byte_off byte_count)
  | Bio phys_blk_sz =>
    if phys_blk_sz =? 0 then None else
    let first_lba := byte_off / phys_blk_sz in
    let last_lba := u64 (byte_off + byte_count - 1) / phys_blk_sz in
    let lba_count := u64 (last_lba - first_lba + 1) in
    let total := u64 (lba_count * phys_blk_sz) in
    if negb (alloc total) then Some None
    else
      match ReadBlocks (media_id v) first_lba total with
      | None => Some None
      | Some tmp => cut byte_off byte_count first_lba phys_blk_sz tmp
      end
  end.

Definition blk_read (v : Ext4Vol) (blk_no : Z) : option (option (list Z)) :=
  read_bytes v (u64 (blk_no * block_size v)) (block_size v).

(** ** Mounting *)

(** The volume described by a superblock; the shift of a 32-bit 1024 is undefined
    from 32 on. *)
Definition parse_super (d : backend) (media : Z) (h : option Z) (sb : list Z) : option Ext4Vol :=
  log ← r32 sb SB_LOG_BLOCK_SIZE;
  ipg ← r32 sb SB_INODES_PER_GROUP;
  fdb ← r32 sb SB_FIRST_DATA_BLOCK;
  isz ← r16 sb SB_INODE_SIZE;
  f_incompat ← r32 sb SB_FEATURE_INCOMPAT;
  ds ← r16 sb SB_DESC_SIZE;
  if log >=? 32 then None else
  let bs := u32 (1024 << log) in
  Some {| dev := d; media_id := media; block_size := bs; inodes_per_group := ipg;
          inode_size := (if isz <? 128 then 128 else isz); first_data_block := fdb;
          bgdt_off := u64 (u32 (fdb + 1) * bs);
          desc_size := (if negb (f_incompat .& EXT4_FEATURE_INCOMPAT_64BIT =? 0) && (ds >=? 64) then 64 else 32);
          part_handle := h |}.

Definition sizeof_vol : Z := 72.

Definition mount_super (d : backend) (media : Z) (h : option Z) (sb : list Z) : option (option Ext4Vol) :=
  m ← r16 sb SB_MAGIC;
  if negb (m =? EXT4_SUPER_MAGIC) then Some None
  else if negb (alloc sizeof_vol) then Some None
  else v ← parse_super d media h sb; Some (Some v).

(** [bio] is the device's media, [None] when it has no Block I/O protocol. *)
Definition ext4_mount (h : Z) (bio : option Media) (has_dio : bool) : option (option Ext4Vol) :=
  match bio with
  | None => Some None
  | Some m =>
    if negb (MediaPresent m) || (BlockSize m =? 0) then Some None
    else if negb (LogicalPartition m) then Some None
    else if LastBlock m <? 2 then Some None
    else if BlockSize m =? 2048 then Some None
    else
      let d := if has_dio then Dio else Bio (BlockSize m) in
      let tmp := {| dev := d; media_id := MediaId m; block_size := BlockSize m; inodes_per_group := 0; inode_size := 0;
                    first_data_block := 0; bgdt_off := 0; desc_size := 0; part_handle := None |} in
      sb ← read_bytes tmp EXT4_SUPERBLOCK_OFFSET 1024;
      match sb with
      | None => Some None
      | Some sb => mount_super d (MediaId m) (Some h) sb
      end
  end.

Definition ext4_get_part_handle (vol : option Ext4Vol) : option Z := vol ≫= part_handle.

Definition ext4_mount_luks (lv : option LuksVol.LuksVol) : option (option Ext4Vol) :=
  match lv with
  | None => Some None
  | Some lv =>
    r ← LuksVol.luks_vol_read luks_read lv 0 3;
    match fst r with
    | None => Some None
    | Some sb_buf => mount_super (Luks lv) 0 None (drop 1024 sb_buf)
    end
  end.

(** ** Inodes *)

Definition inode_read (v : Ext4Vol) (ino : Z) : option (option (list Z)) :=
  if ino =? 0 then Some None
  else if inodes_per_group v =? 0 then None
  else
    let grp := u32 (ino - 1) / inodes_per_group v in
    let local := u32 (ino - 1) mod inodes_per_group v in
    r ← read_bytes v (u64 (bgdt_off v + grp * desc_size v)) (desc_size v);
    match r with
    | None => Some None
    | Some bgd =>
      it_lo ← r32 bgd BGD_INODE_TABLE_LO;
      it_hi ← (if desc_size v >=? 64 then r32 bgd BGD_INODE_TABLE_HI else Some 0);
      let it := it_lo .| (it_hi << 32) in
      read_bytes v (u64 (it * block_size v + local * inode_size v)) (inode_size v)
    end.

(** ** The extent tree *)

(** [n] index entries left from [ei] on; [best] is the last one not past [lblock]. *)
Fixpoint best_index (n : nat) (eh : list Z) (i : Z) (lblock : Z) (best : option Z) : option (option Z) :=
  match n with
  | O => Some best
  | S n' =>
    b ← r32 eh (12 + i * 12 + EI_BLOCK);
    if b >? lblock then Some best else best_index n' eh (i + 1) lblock (Some i)
  end.

Fixpoint leaf_scan (n : nat) (eh : list Z) (i : Z) (lblock : Z) : option Z :=
  match n with
  | O => Some 0
  | S n' =>
    ee_blk ← r32 eh (12 + i * 12 + EX_BLOCK);
    ee_len ← r16 eh (12 + i * 12 + EX_LEN);
    if (lblock >=? ee_blk) && (lblock <? u32 (ee_blk + ee_len)) then
      lo ← r32 eh (12 + i * 12 + EX_START_LO);
      hi ← r16 eh (12 + i * 12 + EX_START_HI);
      Some (u64 ((lo .| (hi << 32)) + u32 (lblock - ee_blk)))
    else leaf_scan n' eh (i + 1) lblock
  end.

Definition extent_phys (v : Ext4Vol) (eh : list Z) (lblock : Z) : option Z :=
  m ← r16 eh EH_MAGIC;
  if negb (m =? EXT4_EXTENT_HEADER_MAGIC) then Some 0 else
  entries ← r16 eh EH_ENTRIES;
  depth ← r16 eh EH_DEPTH;
  if depth >? 0 then
    best ← best_index (Z.to_nat entries) eh 0 lblock None;
    match best with
    | None => Some 0
    | Some i =>
      lo ← r32 eh (12 + i * 12 + EI_LEAF_LO);
      hi ← r16 eh (12 + i * 12 + EI_LEAF_HI);
      r ← blk_read v (lo .| (hi << 32));
      match r with
      | None => Some 0
      | Some leaf =>
        m ← r16 leaf EH_MAGIC;
        if negb (m =? EXT4_EXTENT_HEADER_MAGIC) then Some 0 else
        entries ← r16 leaf EH_ENTRIES;
        leaf_scan (Z.to_nat entries) leaf 0 lblock
      end
    end
  else leaf_scan (Z.to_nat entries) eh 0 lblock.

(** The physical block of a logical block, 0 for a hole. *)
Definition phys_of (v : Ext4Vol) (inode : list Z) (lblock : Z) : option Z :=
  flags ← r32 inode IN_FLAGS;
  if negb (flags .& EXT4_EXTENTS_FL =? 0) then extent_phys v (drop (Z.to_nat IN_BLOCK) inode) lblock
  else if lblock <? 12 then r32 (drop (Z.to_nat IN_BLOCK) inode) (lblock * 4) else Some 0.

Definition read_lblock (v : Ext4Vol) (inode : list Z) (lblock : Z) : option (option (list Z)) :=
  phys ← phys_of v inode lblock;
  if phys =? 0 then Some (Some (repeat 0 (Z.to_nat (block_size v)))) else blk_read v phys.

(** ** Directories *)

(** [dname[i] != name[i]], from the position [pos] of [dname] on.  [buf] is the block
    alone: where a name of a corrupt record runs past it, the code goes on in the
    other half of its buffer and the model gives [None]. *)
Fixpoint name_at (buf : list Z) (pos : Z) (name : list Z) : option bool :=
  match name with
  | [] => Some true
  | c :: name' => d ← getb buf pos; if negb (d =? c) then Some false else name_at buf (pos + 1) name'
  end.

(** Blocks of a file or directory of [size] bytes. *)
Definition nblk (v : Ext4Vol) (size : Z) : option Z :=
  if block_size v =? 0 then None else Some (u32 (size + block_size v - 1) / block_size v).

Definition block_limit (v : Ext4Vol) (size n blk : Z) : Z :=
  if (blk + 1 =? n) && negb (size mod block_size v =? 0) then size mod block_size v else block_size v.

Fixpoint lookup_block (fuel : nat) (dir_buf : list Z) (limit pos : Z) (name : list Z) : option Z :=
  if pos + 8 <=? limit then
    match fuel with
    | O => None
    | S fuel' =>
      ino2 ← r32 dir_buf (pos + DE_INODE);
      reclen ← r16 dir_buf (pos + DE_REC_LEN);
      nl ← getb dir_buf (pos + DE_NAME_LEN);
      if reclen =? 0 then Some 0 else
      same ← (if negb (ino2 =? 0) && (nl =? u8 (zlen name)) then name_at dir_buf (pos + DE_NAME) name else Some false);
      if (same : bool) then Some ino2 else lookup_block fuel' dir_buf limit (pos + reclen) name
    end
  else Some 0.

Fixpoint lookup_blocks (v : Ext4Vol) (inode : list Z) (size n : Z) (blks : list Z) (name : list Z) : option Z :=
  match blks with
  | [] => Some 0
  | blk :: blks' =>
    r ← read_lblock v inode blk;
    match r with
    | None => Some 0
    | Some dir_buf =>
      let limit := block_limit v size n blk in
      ino ← lookup_block (Z.to_nat limit) dir_buf limit 0 name;
      if ino =? 0 then lookup_blocks v inode size n blks' name else Some ino
    end
  end.

Definition dir_lookup_comp (v : Ext4Vol) (dir_ino : Z) (name : list Z) : option Z :=
  r ← inode_read v dir_ino;
  match r with
  | None => Some 0
  | Some inode =>
    size ← r32 inode IN_SIZE_LO;
    n ← nblk v size;
    lookup_blocks v inode size n (seqZ 0 n) name
  end.

Definition is_slash (c : Z) : bool := c =? 47.

(** [p] has no leading slash; every turn consumes a component. *)
Fixpoint walk (fuel : nat) (v : Ext4Vol) (ino : Z) (p : list Z) : option Z :=
  match p with
  | [] => Some ino
  | _ =>
    match fuel with
    | O => None
    | S fuel' =>
      let comp := take_while (fun c => negb (is_slash c)) p in
      let p := skip_while is_slash (drop (length comp) p) in
      ino ← dir_lookup_comp v ino comp;
      if ino =? 0 then Some 0 else walk fuel' v ino p
    end
  end.

Definition path_lookup (v : Ext4Vol) (path : list Z) : option Z :=
  let p := skip_while is_slash path in walk (length p) v EXT4_ROOT_INO p.

(** ** The public operations *)

Definition allocs (v : Ext4Vol) : bool := alloc (inode_size v) && alloc (u32 (block_size v * 2)).

Definition ext4_stat (v : Ext4Vol) (path : list Z) : option Z :=
  if negb (allocs v) then Some 0 else
  ino ← path_lookup v path;
  if ino =? 0 then Some 0 else
  r ← inode_read v ino;
  match r with None => Some 0 | Some inode => r32 inode IN_SIZE_LO end.

(** The blocks [blks] of a file of [fsize] bytes, appended to what has been read. *)
Fixpoint read_blocks (v : Ext4Vol) (inode : list Z) (fsize : Z) (blks : list Z) (buf : list Z) : option (option (list Z)) :=
  match blks with
  | [] => Some (Some buf)
  | blk :: blks' =>
    r ← read_lblock v inode blk;
    match r with
    | None => Some None
    | Some blk_buf =>
      let dst := blk * block_size v in
      let len := if fsize - dst >? block_size v then block_size v else fsize - dst in
      b ← sub blk_buf 0 len;
      read_blocks v inode fsize blks' (buf ++ b)
    end
  end.

Definition file_size (inode : list Z) : option Z :=
  lo ← r32 inode IN_SIZE_LO; hi ← r32 inode IN_SIZE_HIGH; Some (lo .| (hi << 32)).

Definition ext4_read_file (v : Ext4Vol) (path : list Z) : option (option (list Z)) :=
  if negb (allocs v) then Some None else
  ino ← path_lookup v path;
  if ino =? 0 then Some None else
  r ← inode_read v ino;
  match r with
  | None => Some None
  | Some inode =>
    fsize ← file_size inode;
    if (fsize =? 0) || (fsize >? 128 * 1024 * 1024) then Some None
    else if negb (alloc (fsize + 1)) then Some None
    else if block_size v =? 0 then None
    else read_blocks v inode fsize (seqZ 0 (u32 ((fsize + block_size v - 1) / block_size v))) []
  end.

(** One block of a listing: the calls made, in order. *)
Fixpoint list_block (fuel : nat) (buf : list Z) (limit pos : Z) : option (list (list Z * bool)) :=
  if pos + 8 <=? limit then
    match fuel with
    | O => None
    | S fuel' =>
      ino2 ← r32 buf (pos + DE_INODE);
      reclen ← r16 buf (pos + DE_REC_LEN);
      nl ← getb buf (pos + DE_NAME_LEN);
      ftype ← getb buf (pos + DE_FILE_TYPE);
      if reclen =? 0 then Some [] else
      if negb (ino2 =? 0) && (nl >? 0) && (nl <? 255) then
        if negb (ftype =? 1) && negb (ftype =? EXT4_FT_DIR) then list_block fuel' buf limit (pos + reclen)
        else
          name ← sub buf (pos + DE_NAME) nl;
          let fname := cstr name in
          l ← list_block fuel' buf limit (pos + reclen);
          if bool_decide (fname = cs ".") || bool_decide (fname = cs "..") then Some l
          else Some ((fname, ftype =? EXT4_FT_DIR) :: l)
      else list_block fuel' buf limit (pos + reclen)
    end
  else Some [].

Fixpoint list_blocks (v : Ext4Vol) (inode : list Z) (size n : Z) (blks : list Z) : option (list (list Z * bool)) :=
  match blks with
  | [] => Some []
  | blk :: blks' =>
    r ← read_lblock v inode blk;
    match r with
    | None => Some []
    | Some blk_buf =>
      let limit := block_limit v size n blk in
      l ← list_block (Z.to_nat limit) blk_buf limit 0;
      l' ← list_blocks v inode size n blks';
      Some (l ++ l')
    end
  end.

(** The callback is called once per element of the result, which does not depend on
    what the callback does. *)
Definition ext4_readdir (v : Ext4Vol) (path : list Z) : option (list (list Z * bool)) :=
  if negb (allocs v) then Some [] else
  ino ← path_lookup v path;
  if ino =? 0 then Some [] else
  r ← inode_read v ino;
  match r with
  | None => Some []
  | Some inode =>
    size ← r32 inode IN_SIZE_LO;
    n ← nblk v size;
    list_blocks v inode size n (seqZ 0 n)
  end.
End Reader.

(** ** The device as an array of bytes *)

Definition bytes_at (img : Z -> Z) (off n : Z) : list Z := map img (seqZ off n).

Lemma bytes_at_length img off n : 0 <= n -> zlen (bytes_at img off n) = n.
Proof. intros. unfold bytes_at. rewrite length_map, length_seqZ. lia. Qed.

Lemma bytes_at_app img off a b : 0 <= a -> 0 <= b -> bytes_at img off (a + b) = bytes_at img off a ++ bytes_at img (off + a) b.
Proof. intros. unfold bytes_at. by rewrite seqZ_app, map_app by lia. Qed.

Lemma sub_bytes_at img a m off n :
  a <= off -> 0 <= n -> off + n <= a + m -> sub (bytes_at img a m) (off - a) n = Some (bytes_at img off n).
Proof.
  intros H1 H2 H3. unfold sub. rewrite decide_True by (rewrite bytes_at_length by lia; lia). f_equal.
  replace m with ((off - a) + (n + (a + m - (off + n)))) by lia.
  rewrite !bytes_at_app by lia. replace (a + (off - a)) with off by lia.
  rewrite drop_app_length' by (pose proof (bytes_at_length img a (off - a)); lia).
  by rewrite take_app_length' by (pose proof (bytes_at_length img off n); lia).
Qed.

Section Image.
Context (ReadDisk ReadBlocks : Z -> Z -> Z -> option (list Z)) (luks_read : Z -> Z -> option (list Z)).
Context (alloc : Z -> bool) (img : Z -> Z) (size : Z).
Hypothesis Halloc : forall n, alloc n = true.
Hypothesis Hsize : 0 <= size < 2 ^ 62.

(** What each kind of device documents: it holds the first [size] bytes of [img]. *)
Definition backed (v : Ext4Vol) : Prop :=
  match dev v with
  | Dio => forall off n, 0 <= off -> 0 <= n -> off + n <= size -> ReadDisk (media_id v) off n = Some (bytes_at img off n)
  | Bio ssz =>
    0 < ssz /\ (ssz | size) /\
    forall lba n, 0 <= lba -> 0 <= n -> (ssz | n) -> lba * ssz + n <= size ->
      ReadBlocks (media_id v) lba n = Some (bytes_at img (lba * ssz) n)
  | Luks lv =>
    LuksVol.sector_size lv = 512 /\ zlen (LuksVol.decrypt_buf lv) = 4096 /\ (512 | size) /\
    0 <= LuksVol.payload_lba lv < 2 ^ 63 /\
    forall ps, 0 <= ps < size / 512 -> LuksVol.payload_plain luks_read lv ps = Some (bytes_at img (ps * 512) 512)
  end.

(** The promise of the lower half to the rest of the reader. *)
Definition reads (v : Ext4Vol) : Prop :=
  forall off n, 0 <= off -> 0 < n < 2 ^ 31 -> off + n <= size ->
    read_bytes ReadDisk ReadBlocks luks_read alloc v off n = Some (Some (bytes_at img off n)).

(** The whole sectors around a range of bytes. *)
Lemma sectors_around ssz off n (first := off / ssz) (last := (off + n - 1) / ssz) :
  0 < ssz -> 0 <= off -> 0 < n -> (ssz | size) -> off + n <= size ->
  0 <= first <= last /\ first * ssz <= off /\ off + n <= (last + 1) * ssz <= size /\ (last - first) * ssz <= n + ssz.
Proof using Hsize.
  intros Hs Ho Hn [q Hq] Hle. unfold first, last.
  pose proof (Z.div_mod off ssz). pose proof (Z.mod_pos_bound off ssz Hs).
  pose proof (Z.div_mod (off + n - 1) ssz). pose proof (Z.mod_pos_bound (off + n - 1) ssz Hs).
  pose proof (Z.div_le_mono off (off + n - 1) ssz Hs ltac:(lia)).
  pose proof (Z.div_pos off ssz Ho Hs).
  assert ((off + n - 1) / ssz < q) by (apply Z.div_lt_upper_bound; lia).
  split_and!; try lia; nia.
Qed.

(** Sectors of a LUKS volume. *)
Lemma luks_sectors lv first k :
  LuksVol.sector_size lv = 512 -> zlen (LuksVol.decrypt_buf lv) = 4096 -> 0 <= LuksVol.payload_lba lv < 2 ^ 63 ->
  (forall ps, 0 <= ps < size / 512 -> LuksVol.payload_plain luks_read lv ps = Some (bytes_at img (ps * 512) 512)) ->
  0 <= first -> 0 <= k -> (first + k) * 512 <= size ->
  exists lv', LuksVol.luks_vol_read luks_read lv first k = Some (Some (bytes_at img (first * 512) (k * 512)), lv').
Proof using Hsize.
  intros Hss Hdb Hpl Hpp Hf Hk Hle.
  destruct (LuksVol.read_loop_spec luks_read (fun ps => bytes_at img (ps * 512) 512) lv 1 ltac:(lia) ltac:(lia) Hdb
    (Z.to_nat k) lv first k []) as (lv' & HE & _); [by split_and!|lia..| |].
  { intros ps Hps. rewrite !Z.div_1_r in Hps. rewrite bytes_at_length by lia. split; [|lia]. apply Hpp.
    assert ((first + k) <= size / 512) by (apply Z.div_le_lower_bound; lia). lia. }
  exists lv'. unfold LuksVol.luks_vol_read. rewrite HE. cbn [app]. do 3 f_equal. clear HE Hle. revert k Hk.
  apply natlike_ind; [by rewrite seqZ_nil by lia|]. intros k Hk IH. unfold Z.succ.
  rewrite seqZ_app, flat_map_app, IH, (seqZ_cons (first + k)), seqZ_nil by lia. cbn [flat_map]. rewrite app_nil_r.
  replace ((k + 1) * 512) with (k * 512 + 512) by lia. rewrite bytes_at_app by lia. f_equal.
  unfold LuksVol.plain_block. rewrite Z.mod_1_r, Z.div_1_r, drop_0. replace (first * 512 + k * 512) with ((first + k) * 512) by lia.
  apply take_ge. pose proof (bytes_at_length img ((first + k) * 512) 512). lia.
Qed.

Lemma read_bytes_reads v : backed v -> reads v.
Proof using Halloc Hsize.
  intros Hb off n Ho Hn Hle. unfold read_bytes, backed in *. destruct (dev v) as [|ssz|lv].
  - by rewrite Hb by lia.
  - destruct Hb as (Hs & Hdiv & Hrb). pose proof (sectors_around ssz off n Hs Ho ltac:(lia) Hdiv Hle) as (H1 & H2 & H3 & H4).
    rewrite (proj2 (Z.eqb_neq ssz 0)) by lia.
    assert (ssz <= size) by (destruct Hdiv as [q ->]; nia).
    set (first := off / ssz) in *. rewrite (wrap_small 64 (off + n - 1)) by lia. set (last := (off + n - 1) / ssz) in *.
    assert (0 <= last - first + 1 < 2 ^ 63) by nia.
    rewrite (wrap_small 64 (last - first + 1)), wrap_small by nia. rewrite Halloc. cbn [negb].
    rewrite Hrb; [|lia|nia|by exists (last - first + 1)|nia]. unfold cut. rewrite sub_bytes_at by nia. done.
  - destruct Hb as (Hss & Hdb & Hdiv & Hpl & Hpp).
    pose proof (sectors_around 512 off n ltac:(lia) Ho ltac:(lia) Hdiv Hle) as (H1 & H2 & H3 & H4).
    set (first := off / 512) in *. rewrite (wrap_small 64 (off + n - 1)) by lia. set (last := (off + n - 1) / 512) in *.
    rewrite (wrap_small 64 (last - first + 1)), (wrap_small 64), (wrap_small 32) by lia. rewrite Halloc. cbn [negb].
    destruct (luks_sectors lv first (last - first + 1)) as [lv' ->]; [done..|lia|lia|lia|].
    cbn [mbind option_bind fst]. unfold cut. rewrite sub_bytes_at by lia. done.
Qed.
End Image.
(** ** Fields of an encoded structure *)

Lemma r16_at pre b k off : zlen pre = k -> 0 <= off -> r16 (pre ++ b) (k + off) = r16 b off.
Proof. intros <- Ho. unfold r16. rewrite sub_skip by lia. do 2 f_equal. lia. Qed.

Lemma r32_at pre b k off : zlen pre = k -> 0 <= off -> r32 (pre ++ b) (k + off) = r32 b off.
Proof. intros <- Ho. unfold r32. rewrite sub_skip by lia. do 2 f_equal. lia. Qed.

Lemma r16_skip n x b off : Z.of_nat n <= off -> r16 (le_bytes n x ++ b) off = r16 b (off - Z.of_nat n).
Proof. intros. unfold r16. rewrite sub_skip; by rewrite le_bytes_length. Qed.

Lemma r32_skip n x b off : Z.of_nat n <= off -> r32 (le_bytes n x ++ b) off = r32 b (off - Z.of_nat n).
Proof. intros. unfold r32. rewrite sub_skip; by rewrite le_bytes_length. Qed.

Lemma r16_here x b off : off = 0 -> 0 <= x < 2 ^ 16 -> r16 (le_bytes 2 x ++ b) off = Some x.
Proof.
  intros -> Hx. unfold r16. rewrite sub_here by (by rewrite le_bytes_length). cbn [fmap option_fmap option_map].
  by rewrite le_val_le_bytes, wrap_small.
Qed.

Lemma r32_here x b off : off = 0 -> 0 <= x < 2 ^ 32 -> r32 (le_bytes 4 x ++ b) off = Some x.
Proof.
  intros -> Hx. unfold r32. rewrite sub_here by (by rewrite le_bytes_length). cbn [fmap option_fmap option_map].
  by rewrite le_val_le_bytes, wrap_small.
Qed.

(** Reads the field at a constant offset of a concatenation of encoded fields. *)
Ltac field :=
  rewrite <- ?app_assoc;
  repeat first [rewrite r16_here by lia | rewrite r32_here by lia | rewrite r16_skip by lia | rewrite r32_skip by lia].

(** A 48-bit block number from its two halves. *)
Lemma join48 x : 0 <= x < 2 ^ 48 -> wrap 32 x .| ((x >> 32) << 32) = x.
Proof.
  intros H. rewrite Z.lor_comm, lor_shiftl_add by (try apply wrap_range; lia). rewrite shiftr_div by lia. unfold wrap.
  pose proof (Z.div_mod x (2 ^ 32)). lia.
Qed.

Lemma hi48 x : 0 <= x < 2 ^ 48 -> 0 <= x >> 32 < 2 ^ 16.
Proof. intros H. rewrite shiftr_div by lia. split; [apply Z.div_pos; lia|apply Z.div_lt_upper_bound; lia]. Qed.

(** ** The extent tree as a map *)

(** [(first logical block, blocks, first physical block)] *)
Abbreviation extent := (Z * Z * Z)%type.

Definition covers (l : Z) (e : extent) : bool := let '(b, n, _) := e in (b <=? l) && (l <? b + n).

(** Physical block of [l] under a list of extents, 0 for a hole. *)
Definition map_of (es : list extent) (l : Z) : Z :=
  match find (covers l) es with Some (b, _, p) => p + (l - b) | None => 0 end.

Definition extent_ok (e : extent) : Prop :=
  let '(b, n, p) := e in 0 <= b /\ 0 <= n < 2 ^ 16 /\ b + n < 2 ^ 32 /\ 0 <= p < 2 ^ 48.

(** The structures as they lie on disk. *)
Definition enc_extent (e : extent) : list Z :=
  let '(b, n, p) := e in le_bytes 4 b ++ le_bytes 2 n ++ le_bytes 2 (p >> 32) ++ le_bytes 4 (wrap 32 p).
Definition enc_index (e : Z * Z) : list Z :=
  le_bytes 4 (fst e) ++ le_bytes 4 (wrap 32 (snd e)) ++ le_bytes 2 (snd e >> 32) ++ le_bytes 2 0.
Definition enc_header (entries room depth : Z) : list Z :=
  le_bytes 2 EXT4_EXTENT_HEADER_MAGIC ++ le_bytes 2 entries ++ le_bytes 2 room ++ le_bytes 2 depth ++ le_bytes 4 0.

Lemma enc_header_length a b c : zlen (enc_header a b c) = 12.
Proof. unfold enc_header. rewrite !length_app, !le_bytes_length. done. Qed.
Lemma enc_extent_length e : length (enc_extent e) = 12%nat.
Proof. destruct e as [[b n] p]. unfold enc_extent. by rewrite !length_app, !le_bytes_length. Qed.
Lemma enc_index_length e : length (enc_index e) = 12%nat.
Proof. unfold enc_index. by rewrite !length_app, !le_bytes_length. Qed.

Lemma enc_header_fields entries room depth rest :
  0 <= entries < 2 ^ 16 -> 0 <= depth < 2 ^ 16 ->
  r16 (enc_header entries room depth ++ rest) 0 = Some EXT4_EXTENT_HEADER_MAGIC /\
  r16 (enc_header entries room depth ++ rest) 2 = Some entries /\
  r16 (enc_header entries room depth ++ rest) 6 = Some depth.
Proof. intros. unfold enc_header, EXT4_EXTENT_HEADER_MAGIC. split_and!; by field. Qed.

Lemma enc_extent_fields b n p rest :
  extent_ok (b, n, p) ->
  r32 (enc_extent (b, n, p) ++ rest) 0 = Some b /\ r16 (enc_extent (b, n, p) ++ rest) 4 = Some n /\
  r16 (enc_extent (b, n, p) ++ rest) 6 = Some (p >> 32) /\ r32 (enc_extent (b, n, p) ++ rest) 8 = Some (wrap 32 p).
Proof.
  intros (Hb & Hn & Hbn & Hp). pose proof (hi48 p Hp). pose proof (wrap_range 32 p ltac:(lia)).
  unfold enc_extent. split_and!; by field.
Qed.

Lemma enc_index_fields b p rest :
  0 <= b < 2 ^ 32 -> 0 <= p < 2 ^ 48 ->
  r32 (enc_index (b, p) ++ rest) 0 = Some b /\ r32 (enc_index (b, p) ++ rest) 4 = Some (wrap 32 p) /\
  r16 (enc_index (b, p) ++ rest) 8 = Some (p >> 32).
Proof.
  intros Hb Hp. pose proof (hi48 p Hp). pose proof (wrap_range 32 p ltac:(lia)). unfold enc_index. cbn [fst snd].
  split_and!; by field.
Qed.

Lemma leaf_scan_enc pre es rest i l :
  zlen pre = 12 + i * 12 -> 0 <= i -> Forall extent_ok es -> 0 <= l < 2 ^ 32 ->
  leaf_scan (length es) (pre ++ flat_map enc_extent es ++ rest) i l = Some (map_of es l).
Proof.
  intros Hpre Hi Hes Hl. revert pre i Hpre Hi. induction Hes as [|[[b n] p] es He Hes IH]; intros; [done|].
  cbn [length leaf_scan flat_map]. offsets.
  rewrite !(r32_at pre), !(r16_at pre) by (done || lia). rewrite <- app_assoc.
  destruct (enc_extent_fields b n p (flat_map enc_extent es ++ rest) He) as (-> & -> & -> & ->).
  destruct He as (Hb & Hn & Hbn & Hp). cbn [mbind option_bind]. rewrite (wrap_small 32 (b + n)) by lia.
  unfold map_of. cbn [find covers]. rewrite Z.geb_leb.
  destruct ((b <=? l) && (l <? b + n)) eqn:E.
  - apply andb_true_iff in E as [E1%Z.leb_le E2%Z.ltb_lt]. rewrite join48 by lia. rewrite (wrap_small 32), wrap_small by lia. done.
  - rewrite app_assoc. apply IH; [|lia]. rewrite length_app, enc_extent_length. lia.
Qed.

(** A tree of depth 0 or 1: a leaf, or index entries with the leaf below each. *)
Inductive etree := Leaf (es : list extent) | Index (kids : list (Z * Z * list extent)).

Definition extents (t : etree) : list extent := match t with Leaf es => es | Index kids => concat (map snd kids) end.

Definition enc_leaf (room : Z) (es : list extent) : list Z := enc_header (zlen es) room 0 ++ flat_map enc_extent es.
Definition enc_tree (room : Z) (t : etree) : list Z :=
  match t with
  | Leaf es => enc_leaf room es
  | Index kids => enc_header (zlen kids) room 1 ++ flat_map (fun k => enc_index (fst k)) kids
  end.

(** The kids in the order of their first logical blocks, the extents of each between
    its own and the next. *)
Fixpoint in_order (kids : list (Z * Z * list extent)) : Prop :=
  match kids with
  | [] => True
  | (b, _, es) :: rest =>
    Forall (fun e : extent => b <= fst (fst e)) es /\
    match rest with [] => True | (b', _, _) :: _ => b <= b' /\ Forall (fun e : extent => fst (fst e) + snd (fst e) <= b') es end /\
    in_order rest
  end.

Definition tree_ok (t : etree) : Prop :=
  Forall extent_ok (extents t) /\
  match t with
  | Leaf es => zlen es < 2 ^ 16
  | Index kids => zlen kids < 2 ^ 16 /\ in_order kids /\
      Forall (fun k : Z * Z * list extent => 0 <= fst (fst k) < 2 ^ 32 /\ 0 <= snd (fst k) < 2 ^ 48 /\ zlen (snd k) < 2 ^ 16) kids
  end.

(** The last kid that does not start past [l]. *)
Fixpoint pick (kids : list (Z * Z * list extent)) (i l : Z) (best : option Z) : option Z :=
  match kids with
  | [] => best
  | (b, _, _) :: kids' => if b >? l then best else pick kids' (i + 1) l (Some i)
  end.

Lemma best_index_enc pre kids rest i l best :
  zlen pre = 12 + i * 12 -> 0 <= i ->
  Forall (fun k : Z * Z * list extent => 0 <= fst (fst k) < 2 ^ 32 /\ 0 <= snd (fst k) < 2 ^ 48 /\ zlen (snd k) < 2 ^ 16) kids ->
  best_index (length kids) (pre ++ flat_map (fun k => enc_index (fst k)) kids ++ rest) i l best = Some (pick kids i l best).
Proof.
  intros Hpre Hi Hk. revert pre i best Hpre Hi. induction Hk as [|[[b p] es] kids (Hb & Hp & _) Hk IH]; intros; [done|].
  cbn [fst snd] in *. cbn [length best_index flat_map pick fst]. offsets.
  rewrite (r32_at pre) by (done || lia). rewrite <- app_assoc.
  destruct (enc_index_fields b p (flat_map (fun k => enc_index (fst k)) kids ++ rest) Hb Hp) as (-> & _ & _).
  cbn [mbind option_bind]. destruct (b >? l); [done|].
  rewrite app_assoc. apply IH; [|lia]. rewrite length_app, enc_index_length. lia.
Qed.

Lemma find_none {A} (f : A -> bool) l : Forall (fun x => f x = false) l -> find f l = None.
Proof. induction 1 as [|x l Hx Hl IH]; [done|]. cbn. by rewrite Hx. Qed.

Lemma find_app_none {A} (f : A -> bool) l k : Forall (fun x => f x = false) l -> find f (l ++ k) = find f k.
Proof. induction 1 as [|x l Hx Hl IH]; [done|]. cbn. by rewrite Hx. Qed.

Lemma find_app_none_r {A} (f : A -> bool) l k : Forall (fun x => f x = false) k -> find f (l ++ k) = find f l.
Proof. intros H. induction l as [|x l IH]; cbn; [by apply find_none|]. by rewrite IH. Qed.

Lemma in_order_above kids l : in_order kids -> (match kids with (b, _, _) :: _ => b > l | [] => True end) ->
  Forall (fun e => covers l e = false) (concat (map snd kids)).
Proof.
  induction kids as [|[[b p] es] kids IH]; cbn [in_order map concat snd]; [constructor|]. intros (H1 & H2 & H3) Hb.
  apply Forall_app. split.
  - eapply Forall_impl; [exact H1|]. intros [[b' n] q] Hle. cbn [fst] in Hle. unfold covers. lia.
  - apply IH; [done|]. destruct kids as [|[[b' ?] ?] ?]; [done|]. lia.
Qed.

(** The extents of the kid at an index. *)
Definition kid_es (all : list (Z * Z * list extent)) (best : option Z) : list extent :=
  match best with None => [] | Some j => match all !! Z.to_nat j with Some k => snd k | None => [] end end.

(** Only the kid picked can cover [l]. *)
Lemma pick_find (all kids : list (Z * Z * list extent)) i l best :
  in_order kids -> (forall j, 0 <= j < zlen kids -> all !! Z.to_nat (i + j) = kids !! Z.to_nat j) -> 0 <= i ->
  (match kids with (b, _, _) :: _ => Forall (fun e : extent => fst (fst e) + snd (fst e) <= b) (kid_es all best) | [] => True end) ->
  find (covers l) (kid_es all best ++ concat (map snd kids)) = find (covers l) (kid_es all (pick kids i l best)).
Proof.
  revert i best. induction kids as [|[[b p] es] kids IH]; intros i best Ho Hall Hi Hacc; cbn [pick].
  { cbn [map concat]. by rewrite app_nil_r. }
  rewrite Z.gtb_ltb. destruct (Z.ltb_spec l b) as [Hlt|Hge].
  - apply find_app_none_r. apply in_order_above; [done|]. lia.
  - assert (kid_es all (Some i) = es) as Hes.
    { specialize (Hall 0). rewrite Z.add_0_r in Hall. cbn [kid_es]. rewrite Hall by (cbn [length]; lia). done. }
    rewrite find_app_none.
    2:{ eapply Forall_impl; [exact Hacc|]. intros [[b' n] q] Hle. cbn [fst snd] in Hle. unfold covers. lia. }
    cbn [in_order] in Ho. destruct Ho as (_ & Ho2 & Ho3). cbn [map concat snd].
    rewrite <- (IH (i + 1) (Some i)); [by rewrite Hes|done| |lia|].
    + intros j Hj. replace (i + 1 + j) with (i + (1 + j)) by lia. rewrite Hall by (cbn [length]; lia). by rewrite Z2Nat.inj_add by lia.
    + rewrite Hes. destruct kids as [|[[b' ?] ?] ?]; [done|]. tauto.
Qed.

Lemma pick_range kids i l best j : pick kids i l best = Some j -> best = Some j \/ i <= j < i + zlen kids.
Proof.
  revert i best. induction kids as [|[[b p] es] kids IH]; intros i best; cbn [pick length]; [by left|].
  destruct (b >? l); [by left|]. intros [[= <-]|H]%IH; lia.
Qed.

(** ** A mounted volume over an image *)

Section Volume.
Context (ReadDisk ReadBlocks : Z -> Z -> Z -> option (list Z)) (luks_read : Z -> Z -> option (list Z)).
Context (alloc : Z -> bool) (img : Z -> Z) (size : Z) (v : Ext4Vol).
Hypothesis Hreads : reads ReadDisk ReadBlocks luks_read alloc img size v.
Hypothesis Hsize : 0 <= size < 2 ^ 62.
Hypothesis Hbs : 0 < block_size v < 2 ^ 31.

Local Abbreviation bs := (block_size v).

Definition block_in (p : Z) : Prop := 0 <= p /\ p * bs + bs <= size.
Definition block_at (p : Z) : list Z := bytes_at img (p * bs) bs.

Lemma block_at_length p : zlen (block_at p) = bs.
Proof using Hbs. apply bytes_at_length. lia. Qed.

Lemma blk_read_block p : block_in p -> blk_read ReadDisk ReadBlocks luks_read alloc v p = Some (Some (block_at p)).
Proof using Hreads Hsize Hbs. intros [H1 H2]. unfold blk_read. rewrite wrap_small by nia. apply Hreads; [nia|lia..]. Qed.

(** The leaves of a tree are in the blocks its index names. *)
Definition tree_on_disk (t : etree) : Prop :=
  match t with
  | Leaf _ => True
  | Index kids => Forall (fun k : Z * Z * list extent => block_in (snd (fst k)) /\
      exists room pad, block_at (snd (fst k)) = enc_leaf room (snd k) ++ pad) kids
  end.

Lemma leaf_lookup room es rest l :
  Forall extent_ok es -> zlen es < 2 ^ 16 -> 0 <= l < 2 ^ 32 ->
  r16 (enc_leaf room es ++ rest) 0 = Some EXT4_EXTENT_HEADER_MAGIC /\
  r16 (enc_leaf room es ++ rest) 2 = Some (zlen es) /\ r16 (enc_leaf room es ++ rest) 6 = Some 0 /\
  leaf_scan (Z.to_nat (zlen es)) (enc_leaf room es ++ rest) 0 l = Some (map_of es l).
Proof using.
  clear. intros Hes Hn Hl. unfold enc_leaf. rewrite <- app_assoc.
  destruct (enc_header_fields (zlen es) room 0 (flat_map enc_extent es ++ rest)) as (-> & -> & ->); [lia..|].
  split_and!; try done. rewrite Nat2Z.id. apply leaf_scan_enc; [|lia|done..]. by rewrite enc_header_length.
Qed.

Lemma extent_phys_tree room t rest l :
  tree_ok t -> tree_on_disk t -> 0 <= l < 2 ^ 32 ->
  extent_phys ReadDisk ReadBlocks luks_read alloc v (enc_tree room t ++ rest) l = Some (map_of (extents t) l).
Proof using Hreads Hsize Hbs.
  intros [Hext Hok] Hdisk Hl. unfold extent_phys. offsets. destruct t as [es|kids]; cbn [enc_tree extents] in *.
  - destruct (leaf_lookup room es rest l) as (-> & -> & -> & Hscan); [done..|]. exact Hscan.
  - destruct Hok as (Hlen & Hord & Hk). rewrite <- app_assoc.
    destruct (enc_header_fields (zlen kids) room 1 (flat_map (fun k => enc_index (fst k)) kids ++ rest)) as (-> & -> & ->);
      [lia..|]. cbn [mbind option_bind]. change (negb (EXT4_EXTENT_HEADER_MAGIC =? EXT4_EXTENT_HEADER_MAGIC)) with false.
    change (1 >? 0) with true. cbv iota. rewrite Nat2Z.id, best_index_enc by (done || lia || by rewrite enc_header_length).
    cbn [mbind option_bind]. pose proof (pick_find kids kids 0 l None Hord) as Hpick.
    cbn [kid_es app] in Hpick. unfold map_of. rewrite Hpick; [|done|lia|by destruct kids as [|[[? ?] ?] ?]].
    destruct (pick kids 0 l None) as [j|] eqn:Ej; [|done]. apply pick_range in Ej as [|Hj]; [done|]. rewrite Z.add_0_l in Hj.
    cbn [kid_es]. destruct (kids !! Z.to_nat j) as [[[b p] es]|] eqn:Ekid; [|apply lookup_ge_None in Ekid; lia].
    pose proof (Forall_lookup_1 _ _ _ _ Hk Ekid) as (Hb & Hp & Hes). cbn [fst snd] in *.
    pose proof (Forall_lookup_1 _ _ _ _ Hdisk Ekid) as (Hin & room' & pad & Hblk). cbn [fst snd] in *.
    assert (forall off, 0 <= off -> r32 (enc_header (zlen kids) room 1 ++ flat_map (fun k => enc_index (fst k)) kids ++ rest) (12 + j * 12 + off)
       = r32 (enc_index (b, p) ++ (flat_map (fun k => enc_index (fst k)) (drop (S (Z.to_nat j)) kids) ++ rest)) off /\
       r16 (enc_header (zlen kids) room 1 ++ flat_map (fun k => enc_index (fst k)) kids ++ rest) (12 + j * 12 + off)
       = r16 (enc_index (b, p) ++ (flat_map (fun k => enc_index (fst k)) (drop (S (Z.to_nat j)) kids) ++ rest)) off) as Hat.
    { intros off Ho. rewrite <- (take_drop_middle kids (Z.to_nat j) _ Ekid) at 2 5. rewrite flat_map_app. cbn [flat_map fst].
      rewrite <- !app_assoc. rewrite (app_assoc (enc_header _ _ _)).
      rewrite !(r32_at (enc_header _ _ _ ++ _)), !(r16_at (enc_header _ _ _ ++ _)); try done;
      rewrite length_app, Nat2Z.inj_add, enc_header_length; rewrite (flat_map_const_length _ 12) by (intros; apply enc_index_length);
      rewrite length_take; lia. }
    destruct (enc_index_fields b p (flat_map (fun k => enc_index (fst k)) (drop (S (Z.to_nat j)) kids) ++ rest)) as (_ & F2 & F3); [done..|].
    rewrite (proj1 (Hat 4 ltac:(lia))), (proj2 (Hat 8 ltac:(lia))), F2, F3. cbn [mbind option_bind]. rewrite join48 by done.
    rewrite blk_read_block by done. cbn [mbind option_bind]. rewrite Hblk.
    destruct (leaf_lookup room' es pad l) as (-> & -> & _ & Hscan); [|done..|exact Hscan].
    rewrite Forall_concat in Hext. apply (Forall_lookup_1 _ _ (Z.to_nat j) es Hext). by rewrite list_lookup_fmap, Ekid.
Qed.
(** ** Inodes *)

Definition field32 (l : list Z) (off : Z) : Z := default 0 (r32 l off).

Lemma r32_field l off : 0 <= off -> off + 4 <= zlen l -> r32 l off = Some (field32 l off).
Proof using. clear. intros. unfold field32, r32, sub. rewrite decide_True by lia. done. Qed.

Definition group_off (ino : Z) : Z := bgdt_off v + (ino - 1) / inodes_per_group v * desc_size v.
Definition group_desc (ino : Z) : list Z := bytes_at img (group_off ino) (desc_size v).
Definition inode_table (ino : Z) : Z :=
  field32 (group_desc ino) 8 .| ((if desc_size v >=? 64 then field32 (group_desc ino) 40 else 0) << 32).
Definition inode_off (ino : Z) : Z := inode_table ino * bs + (ino - 1) mod inodes_per_group v * inode_size v.
Definition inode_bytes (ino : Z) : list Z := bytes_at img (inode_off ino) (inode_size v).

(** What [parse_super] makes sure of, but for the number of inodes per group. *)
Definition geometry : Prop :=
  0 < inodes_per_group v < 2 ^ 32 /\ 0 <= bgdt_off v /\ (desc_size v = 32 \/ desc_size v = 64) /\ 128 <= inode_size v < 2 ^ 16.

Definition inode_in (ino : Z) : Prop :=
  0 < ino < 2 ^ 32 /\ group_off ino + desc_size v <= size /\ 0 <= inode_off ino /\ inode_off ino + inode_size v <= size.

Lemma inode_read_at ino : geometry -> inode_in ino ->
  inode_read ReadDisk ReadBlocks luks_read alloc v ino = Some (Some (inode_bytes ino)).
Proof using Hreads Hsize Hbs.
  intros (Hipg & Hbg & Hds & His) (Hino & Hg & Ho & Hi). unfold inode_read. offsets.
  rewrite (proj2 (Z.eqb_neq ino 0)), (proj2 (Z.eqb_neq (inodes_per_group v) 0)) by lia.
  rewrite (wrap_small 32 (ino - 1)) by lia. fold (group_off ino).
  assert (0 <= (ino - 1) / inodes_per_group v) by (apply Z.div_pos; lia).
  assert (0 <= group_off ino) by (unfold group_off; nia).
  rewrite (wrap_small 64 (group_off ino)), (Hreads (group_off ino)) by lia. cbn [mbind option_bind]. fold (group_desc ino).
  assert (zlen (group_desc ino) = desc_size v) as Hlen by (apply bytes_at_length; lia).
  rewrite (r32_field (group_desc ino) 8) by lia. cbn [mbind option_bind].
  assert ((if desc_size v >=? 64 then r32 (group_desc ino) 40 else Some 0) =
    Some (if desc_size v >=? 64 then field32 (group_desc ino) 40 else 0)) as ->.
  { destruct (Z.geb_spec (desc_size v) 64); [|done]. by rewrite r32_field by lia. }
  cbn [mbind option_bind]. fold (inode_table ino). fold (inode_off ino). rewrite wrap_small by lia. by rewrite Hreads by lia.
Qed.

(** The map from logical to physical blocks an inode describes. *)
Inductive inode_maps (inode : list Z) : (Z -> Z) -> Prop :=
| via_extents t room rest :
    field32 inode 32 .& EXT4_EXTENTS_FL <> 0 -> drop 40 inode = enc_tree room t ++ rest -> tree_ok t -> tree_on_disk t ->
    inode_maps inode (map_of (extents t))
| via_direct :
    field32 inode 32 .& EXT4_EXTENTS_FL = 0 ->
    inode_maps inode (fun l => if l <? 12 then field32 (drop 40 inode) (l * 4) else 0).

Lemma phys_of_maps inode pm l : inode_maps inode pm -> 128 <= zlen inode -> 0 <= l < 2 ^ 32 ->
  phys_of ReadDisk ReadBlocks luks_read alloc v inode l = Some (pm l).
Proof using Hreads Hsize Hbs.
  intros Hm Hlen Hl. unfold phys_of. offsets. rewrite (r32_field inode 32) by lia. cbn [mbind option_bind]. destruct Hm as [t room rest Hf Hd Hok Hdisk|Hf].
  - rewrite (proj2 (Z.eqb_neq _ 0)) by done. cbn [negb]. rewrite Hd. by apply extent_phys_tree.
  - rewrite Hf. cbn [Z.eqb negb]. destruct (Z.ltb_spec l 12); [|done]. rewrite r32_field; [done|lia|]. rewrite length_drop. lia.
Qed.

(** ** Files *)

Definition data_block (p : Z) : list Z := if p =? 0 then repeat 0 (Z.to_nat bs) else block_at p.

Lemma data_block_length p : zlen (data_block p) = bs.
Proof using Hbs. unfold data_block. destruct (p =? 0); [rewrite repeat_length; lia|apply block_at_length]. Qed.

Lemma read_lblock_at inode pm l : inode_maps inode pm -> 128 <= zlen inode -> 0 <= l < 2 ^ 32 -> (pm l = 0 \/ block_in (pm l)) ->
  read_lblock ReadDisk ReadBlocks luks_read alloc v inode l = Some (Some (data_block (pm l))).
Proof using Hreads Hsize Hbs.
  intros Hm Hlen Hl Hp. unfold read_lblock. rewrite (phys_of_maps inode pm) by done. cbn [mbind option_bind]. unfold data_block.
  destruct (Z.eqb_spec (pm l) 0) as [|Hne]; [done|]. destruct Hp; [done|]. by apply blk_read_block.
Qed.

(** The blocks [k], .. of a file. *)
Definition run (pm : Z -> Z) (k n : Z) : list Z := flat_map (fun l => data_block (pm l)) (seqZ k n).

Lemma run_cons pm k n : 0 < n -> run pm k n = data_block (pm k) ++ run pm (k + 1) (n - 1).
Proof using. clear. intros. unfold run. rewrite seqZ_cons by lia. cbn [flat_map]. do 3 f_equal; lia. Qed.

Lemma read_blocks_run inode pm fsize n k m buf :
  inode_maps inode pm -> 128 <= zlen inode -> 0 <= k -> k + m = n -> 0 <= m -> n < 2 ^ 32 ->
  (n - 1) * bs < fsize <= n * bs -> (forall l, 0 <= l < n -> pm l = 0 \/ block_in (pm l)) ->
  read_blocks ReadDisk ReadBlocks luks_read alloc v inode fsize (seqZ k m) buf =
    Some (Some (buf ++ take (Z.to_nat (fsize - k * bs)) (run pm k m))).
Proof using Hreads Hsize Hbs.
  intros Hm Hlen Hk Hkm Hm0 Hn Hf Hin. revert k Hk Hkm buf. pattern m. revert m Hm0. apply natlike_ind.
  { intros k Hk Hkm buf. unfold run. rewrite seqZ_nil by lia. cbn [read_blocks flat_map]. by rewrite take_nil, app_nil_r. }
  intros m Hm0 IH k Hk Hkm buf. rewrite seqZ_cons by lia. cbn [read_blocks].
  rewrite (read_lblock_at inode pm) by (done || lia || (apply Hin; lia)). cbn [mbind option_bind]. rewrite Z.gtb_ltb.
  pose proof (data_block_length (pm k)) as Hdl. rewrite run_cons by lia. rewrite Z.add_1_r.
  replace (Z.pred (Z.succ m)) with m by lia. replace (Z.succ m - 1) with m by lia.
  destruct (Z.ltb_spec bs (fsize - k * bs)) as [Hlt|Hge].
  - rewrite <- (app_nil_r (data_block (pm k))) at 1. rewrite sub_here by done. cbn [mbind option_bind].
    rewrite IH by lia. rewrite <- app_assoc. do 3 f_equal. rewrite take_app_ge by lia. do 2 f_equal. nia.
  - assert (m = 0) as -> by nia. rewrite seqZ_nil by lia. unfold sub. rewrite decide_True by nia. cbn [mbind option_bind read_blocks].
    rewrite drop_0. do 3 f_equal. rewrite take_app_le by lia. done.
Qed.

(** A regular file: its inode, its size field and the bytes of its blocks. *)
Definition file_at (ino : Z) (data : list Z) : Prop :=
  exists pm n, inode_in ino /\ inode_maps (inode_bytes ino) pm /\
    field32 (inode_bytes ino) 4 .| (field32 (inode_bytes ino) 108 << 32) = zlen data /\
    (n - 1) * bs < zlen data <= n * bs /\ 0 <= n < 2 ^ 32 /\ (forall l, 0 <= l < n -> pm l = 0 \/ block_in (pm l)) /\
    data = take (length data) (run pm 0 n).

Lemma read_inode_data ino data :
  geometry -> file_at ino data -> 0 < zlen data <= 128 * 1024 * 1024 -> (forall n, alloc n = true) ->
  exists inode, inode_read ReadDisk ReadBlocks luks_read alloc v ino = Some (Some inode) /\ file_size inode = Some (zlen data) /\
    read_blocks ReadDisk ReadBlocks luks_read alloc v inode (zlen data)
      (seqZ 0 (u32 ((zlen data + bs - 1) / bs))) [] = Some (Some data).
Proof using Hreads Hsize Hbs.
  intros Hgeo (pm & n & Hin & Hm & Hsz & Hn & Hn2 & Hp & Hdata) Hlen Halloc.
  exists (inode_bytes ino). rewrite inode_read_at by done. split; [done|].
  assert (zlen (inode_bytes ino) = inode_size v) as Hil by (apply bytes_at_length; destruct Hgeo; lia).
  assert (128 <= zlen (inode_bytes ino)) by (destruct Hgeo as (? & ? & ? & ?); lia).
  split. { unfold file_size. offsets. rewrite !r32_field by lia. cbn [mbind option_bind]. by rewrite Hsz. }
  assert ((zlen data + bs - 1) / bs = n) as ->.
  { symmetry. apply Z.div_unique with (zlen data + bs - 1 - bs * n). { left. lia. } lia. }
  rewrite wrap_small by lia. rewrite (read_blocks_run (inode_bytes ino) pm (zlen data) n 0 n []); try done; try lia.
  cbn [app]. rewrite Z.mul_0_l, Z.sub_0_r, Nat2Z.id. by rewrite <- Hdata.
Qed.

(** ** Directories *)

(** [(inode, file type, name, padding)] *)
Record dirent := { d_ino : Z; d_type : Z; d_name : list Z; d_pad : list Z }.

Definition enc_dirent (d : dirent) : list Z :=
  le_bytes 4 (d_ino d) ++ le_bytes 2 (8 + zlen (d_name d) + zlen (d_pad d)) ++ [zlen (d_name d); d_type d] ++ d_name d ++ d_pad d.

Definition dirent_ok (d : dirent) : Prop :=
  0 <= d_ino d < 2 ^ 32 /\ zlen (d_name d) < 256 /\ 8 + zlen (d_name d) + zlen (d_pad d) < 2 ^ 16.

Definition matches (name : list Z) (d : dirent) : bool := negb (d_ino d =? 0) && bool_decide (d_name d = name).

(** The inode number a directory gives a name, 0 when it has no such entry. *)
Definition entry_of (ds : list dirent) (name : list Z) : Z :=
  match find (matches name) ds with Some d => d_ino d | None => 0 end.

Lemma enc_dirent_length d : zlen (enc_dirent d) = 8 + zlen (d_name d) + zlen (d_pad d).
Proof using. clear. unfold enc_dirent. rewrite !length_app, !le_bytes_length. cbn [length]. lia. Qed.

Lemma dirent_fields pre d rest :
  dirent_ok d ->
  let buf := pre ++ enc_dirent d ++ rest in
  r32 buf (zlen pre + 0) = Some (d_ino d) /\ r16 buf (zlen pre + 4) = Some (8 + zlen (d_name d) + zlen (d_pad d)) /\
  getb buf (zlen pre + 6) = Some (zlen (d_name d)) /\ getb buf (zlen pre + 7) = Some (d_type d) /\
  sub buf (zlen pre + 8) (zlen (d_name d)) = Some (d_name d) /\
  buf = (pre ++ le_bytes 4 (d_ino d) ++ le_bytes 2 (8 + zlen (d_name d) + zlen (d_pad d)) ++ [zlen (d_name d); d_type d])
    ++ d_name d ++ d_pad d ++ rest.
Proof using.
  clear. intros (Hi & Hn & Hl) buf. unfold buf, enc_dirent. split_and!.
  - rewrite r32_at by done. by field.
  - rewrite r16_at by done. by field.
  - rewrite <- !app_assoc. rewrite !getb_skip by (rewrite ?le_bytes_length; lia). rewrite !le_bytes_length.
    by replace (_ - _) with 0 by lia.
  - rewrite <- !app_assoc. rewrite !getb_skip by (rewrite ?le_bytes_length; lia). rewrite !le_bytes_length.
    by replace (_ - _) with 1 by lia.
  - rewrite <- !app_assoc. rewrite !sub_skip by (rewrite ?le_bytes_length; cbn [length]; lia). rewrite !le_bytes_length.
    cbn [length]. replace (_ - _) with 0 by lia. by rewrite sub_here.
  - by rewrite <- !app_assoc.
Qed.

Lemma name_at_spec pre a rest name :
  length a = length name -> name_at (pre ++ a ++ rest) (zlen pre) name = Some (bool_decide (a = name)).
Proof using.
  clear. revert pre a. induction name as [|c name IH]; intros pre a Hlen; destruct a as [|x a]; try done.
  cbn [name_at]. rewrite getb_skip by lia. rewrite Z.sub_diag. change (getb ((x :: a) ++ rest) 0) with (Some x).
  cbn [mbind option_bind app].
  destruct (Z.eqb_spec x c) as [->|Hne]; cbn [negb].
  - replace (zlen pre + 1) with (zlen (pre ++ [c])) by (rewrite length_app; cbn [length]; lia).
    replace (pre ++ c :: a ++ rest) with ((pre ++ [c]) ++ a ++ rest) by (by rewrite <- app_assoc).
    rewrite IH by (cbn [length] in *; lia). f_equal. apply bool_decide_ext. split; congruence.
  - rewrite bool_decide_false; [done|]. congruence.
Qed.

Lemma lookup_block_enc fuel pre ds name :
  Forall dirent_ok ds -> zlen name < 256 -> (length (flat_map enc_dirent ds) <= 8 * fuel)%nat ->
  lookup_block fuel (pre ++ flat_map enc_dirent ds) (zlen (pre ++ flat_map enc_dirent ds)) (zlen pre) name =
    Some (entry_of ds name).
Proof using.
  clear. intros Hds Hname. revert pre fuel. induction Hds as [|d ds Hd Hds IH]; intros pre fuel Hfuel.
  { cbn [flat_map]. rewrite app_nil_r. destruct fuel; cbn [lookup_block]; rewrite (proj2 (Z.leb_gt _ _)) by lia; done. }
  pose proof (enc_dirent_length d) as Hl. cbn [flat_map] in *. rewrite length_app in Hfuel.
  destruct fuel as [|fuel]; [lia|]. cbn [lookup_block]. offsets.
  rewrite (proj2 (Z.leb_le _ _)) by (rewrite !length_app; lia).
  destruct (dirent_fields pre d (flat_map enc_dirent ds) Hd) as (-> & -> & -> & _ & _ & Hsplit). cbn [mbind option_bind].
  rewrite (proj2 (Z.eqb_neq _ 0)) by lia. rewrite (wrap_small 8 (zlen name)) by lia.
  assert ((if negb (d_ino d =? 0) && (zlen (d_name d) =? zlen name)
    then name_at (pre ++ enc_dirent d ++ flat_map enc_dirent ds) (zlen pre + 8) name else Some false) = Some (matches name d)) as ->.
  { unfold matches. destruct (d_ino d =? 0); [done|]. cbn [negb andb].
    destruct (Z.eqb_spec (zlen (d_name d)) (zlen name)) as [Heq|Hne].
    - rewrite Hsplit.
      replace (zlen pre + 8) with (zlen (pre ++ le_bytes 4 (d_ino d) ++ le_bytes 2 (8 + zlen (d_name d) + zlen (d_pad d)) ++
        [zlen (d_name d); d_type d])) by (rewrite !length_app, !le_bytes_length; cbn [length]; lia).
      apply name_at_spec. lia.
    - rewrite bool_decide_false; [done|]. congruence. }
  cbn [mbind option_bind]. unfold entry_of. cbn [find]. destruct (matches name d); [done|]. fold (entry_of ds name).
  replace (zlen pre + (8 + zlen (d_name d) + zlen (d_pad d))) with (zlen (pre ++ enc_dirent d)) by (rewrite length_app; lia).
  rewrite app_assoc. apply IH. lia.
Qed.

(** What a listing shows of an entry. *)
Definition shown (d : dirent) : list (list Z * bool) :=
  if negb (d_ino d =? 0) && (0 <? zlen (d_name d)) && (zlen (d_name d) <? 255)
     && ((d_type d =? 1) || (d_type d =? EXT4_FT_DIR))
     && negb (bool_decide (cstr (d_name d) = cs ".")) && negb (bool_decide (cstr (d_name d) = cs ".."))
  then [(cstr (d_name d), d_type d =? EXT4_FT_DIR)] else [].

Lemma list_block_enc fuel pre ds :
  Forall dirent_ok ds -> (length (flat_map enc_dirent ds) <= 8 * fuel)%nat ->
  list_block fuel (pre ++ flat_map enc_dirent ds) (zlen (pre ++ flat_map enc_dirent ds)) (zlen pre) = Some (flat_map shown ds).
Proof using.
  clear. intros Hds. revert pre fuel. induction Hds as [|d ds Hd Hds IH]; intros pre fuel Hfuel.
  { cbn [flat_map]. rewrite app_nil_r. destruct fuel; cbn [list_block]; rewrite (proj2 (Z.leb_gt _ _)) by lia; done. }
  pose proof (enc_dirent_length d) as Hl. cbn [flat_map] in *. rewrite length_app in Hfuel.
  destruct fuel as [|fuel]; [lia|]. cbn [list_block]. offsets.
  rewrite (proj2 (Z.leb_le _ _)) by (rewrite !length_app; lia).
  destruct (dirent_fields pre d (flat_map enc_dirent ds) Hd) as (-> & -> & -> & -> & Hsub & _). cbn [mbind option_bind].
  rewrite Hsub.
  rewrite (proj2 (Z.eqb_neq _ 0)) by lia.
  replace (zlen pre + (8 + zlen (d_name d) + zlen (d_pad d))) with (zlen (pre ++ enc_dirent d)) by (rewrite length_app; lia).
  rewrite app_assoc, IH by lia. unfold shown. rewrite Z.gtb_ltb. cbn [mbind option_bind].
  destruct (negb (d_ino d =? 0)), (0 <? zlen (d_name d)), (zlen (d_name d) <? 255), (d_type d =? 1), (d_type d =? EXT4_FT_DIR),
    (bool_decide (cstr (d_name d) = cs ".")), (bool_decide (cstr (d_name d) = cs "..")); done.
Qed.

(** A directory whose blocks hold the entries [dss], block by block. *)
Definition dir_at (ino : Z) (dss : list (list dirent)) : Prop :=
  exists pm, inode_in ino /\ inode_maps (inode_bytes ino) pm /\ field32 (inode_bytes ino) 4 = zlen dss * bs /\
    zlen dss * bs + bs < 2 ^ 32 /\
    forall l ds, dss !! Z.to_nat l = Some ds -> 0 <= l ->
      (pm l = 0 \/ block_in (pm l)) /\ data_block (pm l) = flat_map enc_dirent ds /\ Forall dirent_ok ds.

Lemma block_limit_full n l : block_limit v (n * bs) n l = bs.
Proof using. clear. unfold block_limit. rewrite Z_mod_mult. by rewrite andb_false_r. Qed.

Lemma nblk_full n : 0 <= n -> n * bs + bs < 2 ^ 32 -> nblk v (n * bs) = Some n.
Proof using Hbs.
  clear - Hbs. intros Hn Hlt. unfold nblk. rewrite (proj2 (Z.eqb_neq bs 0)) by lia. f_equal.
  rewrite wrap_small by nia. symmetry. apply Z.div_unique with (bs - 1); lia.
Qed.

(** The blocks of a directory one after the other, for a lookup and for a listing. *)
Lemma dir_block inode pm l ds :
  inode_maps inode pm -> 128 <= zlen inode -> 0 <= l < 2 ^ 32 ->
  (pm l = 0 \/ block_in (pm l)) /\ data_block (pm l) = flat_map enc_dirent ds /\ Forall dirent_ok ds ->
  exists buf, read_lblock ReadDisk ReadBlocks luks_read alloc v inode l = Some (Some buf) /\
    (forall name, zlen name < 256 -> lookup_block (Z.to_nat bs) buf bs 0 name = Some (entry_of ds name)) /\
    list_block (Z.to_nat bs) buf bs 0 = Some (flat_map shown ds).
Proof using Hreads Hsize Hbs.
  intros Hm Hlen Hl (Hp & Hblk & Hok). exists (flat_map enc_dirent ds).
  rewrite (read_lblock_at inode pm) by done. rewrite Hblk. split; [done|].
  pose proof (data_block_length (pm l)) as Hbl. rewrite Hblk in Hbl. split.
  - intros name Hname. pose proof (lookup_block_enc (Z.to_nat bs) [] ds name Hok Hname ltac:(lia)) as H.
    cbn [app length] in H. by rewrite Hbl in H.
  - pose proof (list_block_enc (Z.to_nat bs) [] ds Hok ltac:(lia)) as H. cbn [app length] in H. by rewrite Hbl in H.
Qed.

Lemma entry_of_app a b name : Forall dirent_ok a -> entry_of (a ++ b) name = if entry_of a name =? 0 then entry_of b name else entry_of a name.
Proof using.
  clear. intros Ha. unfold entry_of. induction Ha as [|d a Hd Ha IH]; [done|]. cbn [app find].
  destruct (matches name d) eqn:E; [|done]. unfold matches in E. apply andb_true_iff in E as [E _]. by destruct (d_ino d =? 0).
Qed.

Lemma dir_blocks inode pm n dss k name :
  inode_maps inode pm -> 128 <= zlen inode -> 0 <= k -> n < 2 ^ 32 -> zlen dss = n - k -> zlen name < 256 ->
  (forall l ds, dss !! Z.to_nat (l - k) = Some ds -> k <= l ->
     (pm l = 0 \/ block_in (pm l)) /\ data_block (pm l) = flat_map enc_dirent ds /\ Forall dirent_ok ds) ->
  lookup_blocks ReadDisk ReadBlocks luks_read alloc v inode (n * bs) n (seqZ k (n - k)) name = Some (entry_of (concat dss) name) /\
  list_blocks ReadDisk ReadBlocks luks_read alloc v inode (n * bs) n (seqZ k (n - k)) = Some (flat_map shown (concat dss)).
Proof using Hreads Hsize Hbs.
  intros Hm Hlen Hk Hn Hlens Hname. revert k Hk Hlens. induction dss as [|ds dss IH]; intros k Hk Hlens Hds.
  { cbn [length] in Hlens. rewrite seqZ_nil by lia. done. }
  cbn [length] in Hlens. rewrite seqZ_cons by lia. cbn [lookup_blocks list_blocks concat].
  destruct (Hds k ds) as (Hp & Hblk & Hok); [by rewrite Z.sub_diag|lia|].
  destruct (dir_block inode pm k ds) as (buf & -> & Hlook & Hlist); [done..|lia|done|].
  cbn [mbind option_bind]. rewrite !block_limit_full, Hlook, Hlist by done. cbn [mbind option_bind].
  destruct (IH (k + 1)) as [IH1 IH2]; [lia|lia|..].
  { intros l ds' Hl Hle. apply Hds; [|lia]. replace (Z.to_nat (l - k)) with (S (Z.to_nat (l - (k + 1)))) by lia. done. }
  replace (Z.pred (n - k)) with (n - (k + 1)) by lia. replace (Z.succ k) with (k + 1) by lia. rewrite IH1, IH2.
  rewrite flat_map_app, entry_of_app by done. split; [|done]. by destruct (entry_of ds name =? 0).
Qed.

Lemma dir_read ino dss name :
  geometry -> dir_at ino dss -> zlen name < 256 ->
  dir_lookup_comp ReadDisk ReadBlocks luks_read alloc v ino name = Some (entry_of (concat dss) name) /\
  exists inode, inode_read ReadDisk ReadBlocks luks_read alloc v ino = Some (Some inode) /\ r32 inode 4 = Some (zlen dss * bs) /\
    nblk v (zlen dss * bs) = Some (zlen dss) /\
    list_blocks ReadDisk ReadBlocks luks_read alloc v inode (zlen dss * bs) (zlen dss) (seqZ 0 (zlen dss)) =
      Some (flat_map shown (concat dss)).
Proof using Hreads Hsize Hbs.
  intros Hgeo (pm & Hin & Hm & Hsz & Hbig & Hds) Hname.
  assert (zlen (inode_bytes ino) = inode_size v) as Hil by (apply bytes_at_length; destruct Hgeo; lia).
  assert (128 <= zlen (inode_bytes ino)) by (destruct Hgeo as (? & ? & ? & ?); lia).
  unfold dir_lookup_comp. offsets. rewrite inode_read_at by done. cbn [mbind option_bind].
  destruct (dir_blocks (inode_bytes ino) pm (zlen dss) dss 0 name) as [Hlook Hlist]; [done|done|lia|nia|lia|done|..].
  { intros l ds Hl H0. rewrite Z.sub_0_r in Hl. by apply Hds. }
  rewrite r32_field by lia. rewrite Hsz. cbn [mbind option_bind]. rewrite nblk_full by lia. cbn [mbind option_bind].
  rewrite Z.sub_0_r in *. split; [done|]. exists (inode_bytes ino). rewrite r32_field, Hsz by lia. by split_and!.
Qed.

(** ** Paths *)

(** The components of a path: its maximal runs of characters other than a slash. *)
Fixpoint components_from (cur p : list Z) : list (list Z) :=
  match p with
  | [] => match cur with [] => [] | _ => [cur] end
  | c :: p' =>
    if is_slash c then match cur with [] => components_from [] p' | _ => cur :: components_from [] p' end
    else components_from (cur ++ [c]) p'
  end.
Definition components (p : list Z) : list (list Z) := components_from [] p.

Lemma components_slashes p : components (skip_while is_slash p) = components p.
Proof using. clear. induction p as [|c p IH]; [done|]. cbn. by destruct (is_slash c) eqn:E; [|cbn; rewrite E]. Qed.

Lemma components_from_take cur p : cur <> [] ->
  components_from cur p = (cur ++ take_while (fun c => negb (is_slash c)) p) ::
    components (drop (length (take_while (fun c => negb (is_slash c)) p)) p).
Proof using.
  clear. revert cur. induction p as [|c p IH]; intros cur Hc; cbn.
  { destruct cur; [done|]. by rewrite app_nil_r. }
  destruct (is_slash c) eqn:E; cbn.
  - destruct cur as [|x cur]; [done|]. rewrite app_nil_r. f_equal. unfold components. cbn. by rewrite E.
  - rewrite IH by (by destruct cur). by rewrite <- app_assoc.
Qed.

Lemma components_step c p : is_slash c = false ->
  let comp := take_while (fun c => negb (is_slash c)) (c :: p) in
  components (c :: p) = comp :: components (skip_while is_slash (drop (length comp) (c :: p))).
Proof using.
  clear. intros Hc. cbn zeta. rewrite components_slashes. unfold components at 1. cbn. rewrite Hc. cbn.
  by rewrite (components_from_take [c]) by done.
Qed.

(** What the directories of the volume make of a list of components: the inode
    number reached, or 0 at the first name that is missing. *)
Inductive resolves : Z -> list (list Z) -> Z -> Prop :=
| res_here ino : resolves ino [] ino
| res_missing ino dss c cs : dir_at ino dss -> entry_of (concat dss) c = 0 -> resolves ino (c :: cs) 0
| res_step ino dss c cs r : dir_at ino dss -> entry_of (concat dss) c <> 0 -> resolves (entry_of (concat dss) c) cs r ->
    resolves ino (c :: cs) r.

Lemma walk_resolves fuel ino p r :
  geometry -> (length p <= fuel)%nat -> (match p with c :: _ => is_slash c = false | [] => True end) ->
  Forall (fun c => zlen c < 256) (components p) -> resolves ino (components p) r ->
  walk ReadDisk ReadBlocks luks_read alloc fuel v ino p = Some r.
Proof using Hreads Hsize Hbs.
  intros Hgeo. revert ino p. induction fuel as [|fuel IH]; intros ino p Hf Hp Hshort Hres; destruct p as [|c p]; cbn [length] in Hf.
  1,3: inversion Hres; subst; done.
  { lia. }
  cbn [walk]. rewrite components_step in Hres, Hshort by done. set (comp := take_while _ (c :: p)) in *.
  assert (length comp <> 0)%nat as Hne by (unfold comp; cbn; rewrite Hp; done).
  apply Forall_cons in Hshort as [Hc Hshort].
  set (p' := skip_while is_slash (drop (length comp) (c :: p))) in *.
  assert (length p' <= fuel)%nat as Hp'.
  { pose proof (skip_while_length is_slash (drop (length comp) (c :: p))). rewrite length_drop in *. cbn [length] in *. fold p' in H. lia. }
  inversion Hres as [|? dss ? ? Hdir H0|? dss ? ? ? Hdir H0 Hrest]; subst; destruct (dir_read ino dss comp Hgeo Hdir Hc) as [-> _]; cbn [mbind option_bind].
  - by rewrite H0.
  - rewrite (proj2 (Z.eqb_neq _ 0)) by done. apply IH; [done| |done|done].
    unfold p'. clear. generalize (drop (length comp) (c :: p)). intros l. induction l as [|x l IHl]; [done|]. cbn.
    by destruct (is_slash x) eqn:E.
Qed.

Lemma path_resolves path r : geometry -> Forall (fun c => zlen c < 256) (components path) -> resolves EXT4_ROOT_INO (components path) r ->
  path_lookup ReadDisk ReadBlocks luks_read alloc v path = Some r.
Proof using Hreads Hsize Hbs.
  intros Hgeo Hs Hr. unfold path_lookup. rewrite <- components_slashes in Hs, Hr. apply walk_resolves; try done.
  clear. induction path as [|x l IHl]; [done|]. cbn. by destruct (is_slash x) eqn:E.
Qed.
End Volume.

(** ** A small file system

    Blocks of 1024 bytes: the superblock in 1, one group descriptor in 2, inodes of 128
    bytes from 5 on; a root directory in 8 and a file of 2500 bytes whose second
    block is a hole, with an extent tree of depth 1. *)

Definition pad_to (n : nat) (l : list Z) : list Z := take n (l ++ repeat 0 n).

Definition demo_dirents : list dirent :=
  [{| d_ino := 2; d_type := 2; d_name := cs "."; d_pad := repeat 0 3 |};
   {| d_ino := 2; d_type := 2; d_name := cs ".."; d_pad := repeat 0 2 |};
   {| d_ino := 0; d_type := 0; d_name := cs "gone"; d_pad := [] |};
   {| d_ino := 13; d_type := 7; d_name := cs "link"; d_pad := [] |};
   {| d_ino := 12; d_type := 1; d_name := cs "vmlinuz"; d_pad := repeat 0 961 |}].

Definition demo_tree : etree := Index [(0, 10, [(0, 1, 11); (2, 1, 12)])].

Definition demo_inode (isize : Z) (t : etree) : list Z :=
  pad_to 128 (repeat 0 4 ++ le_bytes 4 isize ++ repeat 0 24 ++ le_bytes 4 EXT4_EXTENTS_FL ++ repeat 0 4 ++ enc_tree 4 t).

Definition demo_sb : list Z :=
  repeat 0 20 ++ le_bytes 4 1 ++ le_bytes 4 0 ++ repeat 0 12 ++ le_bytes 4 16 ++ repeat 0 12 ++ le_bytes 2 EXT4_SUPER_MAGIC ++
  repeat 0 30 ++ le_bytes 2 128 ++ repeat 0 934.

Definition demo_block (b : Z) : list Z :=
  if b =? 1 then demo_sb
  else if b =? 2 then pad_to 1024 (repeat 0 8 ++ le_bytes 4 5)
  else if b =? 5 then pad_to 1024 (repeat 0 128 ++ demo_inode 1024 (Leaf [(0, 1, 8)]))
  else if b =? 6 then pad_to 1024 (repeat 0 384 ++ demo_inode 2500 demo_tree)
  else if b =? 8 then flat_map enc_dirent demo_dirents
  else if b =? 10 then pad_to 1024 (enc_leaf 84 [(0, 1, 11); (2, 1, 12)])
  else if b =? 11 then repeat 7 1024
  else if b =? 12 then repeat 9 1024
  else repeat 0 1024.

Definition demo_img (a : Z) : Z := nthZ (demo_block (a / 1024)) (a mod 1024).
Definition demo_size : Z := 13 * 1024.
Definition demo_disk (media off n : Z) : option (list Z) := Some (bytes_at demo_img off n).
Definition demo_blocks (media lba n : Z) : option (list Z) := Some (bytes_at demo_img (lba * 512) n).
Definition no_luks (lba n : Z) : option (list Z) := None.
Definition demo_media : Media := {| MediaId := 3; MediaPresent := true; LogicalPartition := true; BlockSize := 512; LastBlock := 25 |}.
Definition demo_vol (d : backend) : Ext4Vol :=
  {| dev := d; media_id := 3; block_size := 1024; inodes_per_group := 16; inode_size := 128; first_data_block := 1;
     bgdt_off := 2048; desc_size := 32; part_handle := Some 77 |}.
Definition demo_alloc (n : Z) : bool := true.
Definition demo_data : list Z := repeat 7 1024 ++ repeat 0 1024 ++ repeat 9 452.

Example demo_mounts : ext4_mount demo_disk demo_blocks no_luks demo_alloc 77
    (Some demo_media) true =
  Some (Some (demo_vol Dio)).
Proof. vm_compute. reflexivity. Qed.

Example demo_reads_file : ext4_read_file demo_disk demo_blocks no_luks demo_alloc (demo_vol (Bio 512)) (cs "//vmlinuz") = Some (Some demo_data).
Proof. vm_compute. reflexivity. Qed.

Lemma demo_backed d : d = Dio \/ d = Bio 512 -> backed demo_disk demo_blocks no_luks demo_img demo_size (demo_vol d).
Proof. intros [-> | ->]; [done|]. split_and!; [done| |done]. by exists 26. Qed.

Lemma demo_vol_reads d : d = Dio \/ d = Bio 512 -> reads demo_disk demo_blocks no_luks demo_alloc demo_img demo_size (demo_vol d).
Proof. intros Hd. apply read_bytes_reads; [done|done|]. by apply demo_backed. Qed.

Lemma demo_geometry : geometry (demo_vol Dio).
Proof. unfold geometry. cbn. lia. Qed.

Lemma demo_leaf_ok : tree_ok (Leaf [(0, 1, 8)]).
Proof. split; [by repeat constructor|done]. Qed.

Lemma demo_tree_ok : tree_ok demo_tree /\ tree_on_disk demo_img demo_size (demo_vol Dio) demo_tree.
Proof.
  split; [split; [by repeat constructor|]|].
  - split_and!; [done|by repeat constructor|]. by repeat constructor.
  - constructor; [|constructor]. split; [done|]. exists 84, (repeat 0 988). vm_compute. reflexivity.
Qed.

Lemma demo_root : dir_at demo_img demo_size (demo_vol Dio) 2 [demo_dirents].
Proof.
  exists (map_of (extents (Leaf [(0, 1, 8)]))). split_and!.
  - by split_and!; vm_compute.
  - apply (via_extents _ _ _ _ (Leaf [(0, 1, 8)]) 4 (repeat 0 64)); [by vm_compute|vm_compute; reflexivity|apply demo_leaf_ok|done].
  - by vm_compute.
  - done.
  - intros l ds Hl H0. assert (l = 0) as ->. { apply lookup_lt_Some in Hl. cbn [length] in Hl. lia. }
    injection Hl as <-. split_and!; [by right|by vm_compute|by repeat constructor].
Qed.

Lemma demo_file : file_at demo_img demo_size (demo_vol Dio) 12 demo_data.
Proof.
  exists (map_of (extents demo_tree)), 3. split_and!; try by vm_compute.
  - apply (via_extents _ _ _ _ demo_tree 4 (repeat 0 64)); [by vm_compute|vm_compute; reflexivity|apply demo_tree_ok..].
  - intros l Hl. assert (l = 0 \/ l = 1 \/ l = 2) as [-> | [-> | ->]] by lia; [right|left|right]; by vm_compute.
Qed.

Lemma demo_path : resolves demo_img demo_size (demo_vol Dio) EXT4_ROOT_INO (components (cs "/vmlinuz")) 12.
Proof.
  change (components (cs "/vmlinuz")) with [cs "vmlinuz"]. change 12 with (entry_of (concat [demo_dirents]) (cs "vmlinuz")).
  apply (res_step _ _ _ _ [demo_dirents]); [apply demo_root|done|constructor].
Qed.

(** ** Theorems *)

(** [C23] The three kinds of device give the same bytes: over a device that holds the
    first [size] bytes of an image, with Disk I/O, with Block I/O of any sector
    size, or through LUKS decryption, every read inside the image gives exactly the
    bytes wanted, however they lie across sectors. *)
Theorem read_bytes_image (ReadDisk ReadBlocks : Z -> Z -> Z -> option (list Z)) (luks_read : Z -> Z -> option (list Z))
    (alloc : Z -> bool) (img : Z -> Z) (size : Z) (v : Ext4Vol) (off n : Z)
    (Halloc : forall n, alloc n = true) (Hsize : 0 <= size < 2 ^ 62)
    (Hback : backed ReadDisk ReadBlocks luks_read img size v) (Hoff : 0 <= off) (Hn : 0 < n < 2 ^ 31) (Hend : off + n <= size) :
  read_bytes ReadDisk ReadBlocks luks_read alloc v off n = Some (Some (bytes_at img off n)).
Proof. by apply (read_bytes_reads ReadDisk ReadBlocks luks_read alloc img size Halloc Hsize v Hback). Qed.

Lemma read_bytes_image_witness :
  read_bytes demo_disk demo_blocks no_luks demo_alloc (demo_vol (Bio 512)) 2040 1040 = Some (Some (bytes_at demo_img 2040 1040)).
Proof.
  apply (read_bytes_image demo_disk demo_blocks no_luks demo_alloc demo_img demo_size (demo_vol (Bio 512)) 2040 1040);
    [done|done|apply demo_backed; by right|lia|lia|by vm_compute].
Defined.

(** [C22] The extent tree in an inode is a map: looking up a logical block in an encoded
    tree of depth 0 or 1 gives the physical block the tree's extents, taken
    together in order, give it, and 0 where they leave a hole. *)
Theorem extent_phys_lookup (ReadDisk ReadBlocks : Z -> Z -> Z -> option (list Z)) (luks_read : Z -> Z -> option (list Z))
    (alloc : Z -> bool) (img : Z -> Z) (size : Z) (v : Ext4Vol) (t : etree) (room : Z) (rest : list Z) (lblock : Z)
    (Hreads : reads ReadDisk ReadBlocks luks_read alloc img size v) (Hsize : 0 <= size < 2 ^ 62) (Hbs : 0 < block_size v < 2 ^ 31)
    (Hok : tree_ok t) (Hdisk : tree_on_disk img size v t) (Hl : 0 <= lblock < 2 ^ 32) :
  extent_phys ReadDisk ReadBlocks luks_read alloc v (enc_tree room t ++ rest) lblock = Some (map_of (extents t) lblock).
Proof. by apply (extent_phys_tree ReadDisk ReadBlocks luks_read alloc img size). Qed.

Lemma extent_phys_lookup_witness :
  extent_phys demo_disk demo_blocks no_luks demo_alloc (demo_vol Dio) (enc_tree 4 demo_tree ++ repeat 0 60) 2 = Some 12.
Proof.
  rewrite (extent_phys_lookup demo_disk demo_blocks no_luks demo_alloc demo_img demo_size (demo_vol Dio) demo_tree 4 (repeat 0 60) 2);
    [reflexivity|apply demo_vol_reads; by left|done|done|apply demo_tree_ok|apply demo_tree_ok|done].
Defined.

(** [C2] Reading a file: when the path's components lead through the volume's
    directories to a file of at most 128 MiB, the file read has exactly its bytes,
    in order, holes as zeros, the last block cut at the file's size. *)
Theorem ext4_read_file_contents (ReadDisk ReadBlocks : Z -> Z -> Z -> option (list Z)) (luks_read : Z -> Z -> option (list Z))
    (alloc : Z -> bool) (img : Z -> Z) (size : Z) (v : Ext4Vol) (path : list Z) (ino : Z) (data : list Z)
    (Hreads : reads ReadDisk ReadBlocks luks_read alloc img size v) (Hsize : 0 <= size < 2 ^ 62) (Hbs : 0 < block_size v < 2 ^ 31)
    (Hgeo : geometry v) (Halloc : forall n, alloc n = true) (Hshort : Forall (fun c => zlen c < 256) (components path))
    (Hres : resolves img size v EXT4_ROOT_INO (components path) ino) (Hino : ino <> 0)
    (Hfile : file_at img size v ino data) (Hlen : 0 < zlen data <= 128 * 1024 * 1024) :
  ext4_read_file ReadDisk ReadBlocks luks_read alloc v path = Some (Some data).
Proof.
  unfold ext4_read_file, allocs. rewrite !Halloc. cbn [negb andb].
  rewrite (path_resolves ReadDisk ReadBlocks luks_read alloc img size v Hreads Hsize Hbs path ino) by done.
  cbn [mbind option_bind]. rewrite (proj2 (Z.eqb_neq ino 0)) by done.
  destruct (read_inode_data ReadDisk ReadBlocks luks_read alloc img size v Hreads Hsize Hbs ino data) as (inode & -> & Hsz & Hrun);
    [done..|]. cbn [mbind option_bind]. rewrite Hsz. cbn [mbind option_bind].
  rewrite (proj2 (Z.eqb_neq (zlen data) 0)) by lia. rewrite Z.gtb_ltb, (proj2 (Z.ltb_ge _ _)) by lia. cbn [orb].
  rewrite Halloc, (proj2 (Z.eqb_neq (block_size v) 0)) by lia. exact Hrun.
Qed.

Lemma ext4_read_file_contents_witness :
  ext4_read_file demo_disk demo_blocks no_luks demo_alloc (demo_vol Dio) (cs "/vmlinuz") = Some (Some demo_data).
Proof.
  apply (ext4_read_file_contents demo_disk demo_blocks no_luks demo_alloc demo_img demo_size (demo_vol Dio) (cs "/vmlinuz") 12 demo_data);
    [apply demo_vol_reads; by left|done|done|apply demo_geometry|done|by repeat constructor|apply demo_path|done|apply demo_file|done].
Defined.

(** Looking up a path and listing a directory: a path with a component missing
    gives nothing (no file, size 0, an empty listing); a directory that is
    reached is listed entry by entry in the order of its blocks, without
    deleted entries, the dot entries and anything neither file nor directory. *)
Theorem ext4_readdir_lists (ReadDisk ReadBlocks : Z -> Z -> Z -> option (list Z)) (luks_read : Z -> Z -> option (list Z))
    (alloc : Z -> bool) (img : Z -> Z) (size : Z) (v : Ext4Vol) (path : list Z) (ino : Z)
    (Hreads : reads ReadDisk ReadBlocks luks_read alloc img size v) (Hsize : 0 <= size < 2 ^ 62) (Hbs : 0 < block_size v < 2 ^ 31)
    (Hgeo : geometry v) (Halloc : forall n, alloc n = true) (Hshort : Forall (fun c => zlen c < 256) (components path))
    (Hres : resolves img size v EXT4_ROOT_INO (components path) ino) :
  (ino = 0 -> ext4_read_file ReadDisk ReadBlocks luks_read alloc v path = Some None /\
     ext4_stat ReadDisk ReadBlocks luks_read alloc v path = Some 0 /\
     ext4_readdir ReadDisk ReadBlocks luks_read alloc v path = Some []) /\
  (forall dss, ino <> 0 -> dir_at img size v ino dss ->
     ext4_stat ReadDisk ReadBlocks luks_read alloc v path = Some (zlen dss * block_size v) /\
     ext4_readdir ReadDisk ReadBlocks luks_read alloc v path = Some (flat_map shown (concat dss))).
Proof.
  unfold ext4_read_file, ext4_stat, ext4_readdir, allocs. offsets. rewrite !Halloc. cbn [negb andb].
  rewrite (path_resolves ReadDisk ReadBlocks luks_read alloc img size v Hreads Hsize Hbs path ino) by done.
  cbn [mbind option_bind]. split; [by intros ->|]. intros dss Hino Hdir. rewrite (proj2 (Z.eqb_neq ino 0)) by done.
  destruct (dir_read ReadDisk ReadBlocks luks_read alloc img size v Hreads Hsize Hbs ino dss [] Hgeo Hdir ltac:(done))
    as (_ & inode & -> & Hsz & Hn & Hl). cbn [mbind option_bind]. rewrite Hsz. cbn [mbind option_bind]. by rewrite Hn.
Qed.

Lemma ext4_readdir_lists_witness :
  ext4_readdir demo_disk demo_blocks no_luks demo_alloc (demo_vol Dio) (cs "/") = Some [(cs "vmlinuz", false)].
Proof.
  destruct (ext4_readdir_lists demo_disk demo_blocks no_luks demo_alloc demo_img demo_size (demo_vol Dio) (cs "/") 2) as [_ H];
    [apply demo_vol_reads; by left|done|done|apply demo_geometry|done|by repeat constructor|constructor|].
  destruct (H [demo_dirents]) as [_ ->]; [done|apply demo_root|reflexivity].
Defined.
(** What a superblock says, without the device it was read from. *)
Definition described (v : Ext4Vol) : list Z :=
  [block_size v; inodes_per_group v; inode_size v; first_data_block v; bgdt_off v; desc_size v].

Lemma field_prefix a b off : 0 <= off ->
  (off + 2 <= zlen a -> r16 (a ++ b) off = r16 a off) /\ (off + 4 <= zlen a -> r32 (a ++ b) off = r32 a off).
Proof.
  intros Ho. unfold r16, r32, sub. rewrite length_app.
  split; intros H; rewrite !decide_True by lia; cbn [fmap option_fmap option_map]; do 2 f_equal; rewrite drop_app_le by lia;
    rewrite take_app_le by (rewrite length_drop; lia); done.
Qed.

Lemma mount_super_described alloc d d' media media' h h' sb sb' r r' :
  zlen sb = 512 -> mount_super alloc d media h (sb ++ sb') = Some r -> mount_super alloc d' media' h' sb = Some r' ->
  described <$> r = described <$> r'.
Proof.
  intros Hlen. unfold mount_super, parse_super. offsets.
  assert (forall off, 0 <= off -> off + 2 <= zlen sb -> r16 (sb ++ sb') off = r16 sb off) as H16 by (intros; by apply field_prefix).
  assert (forall off, 0 <= off -> off + 4 <= zlen sb -> r32 (sb ++ sb') off = r32 sb off) as H32 by (intros; by apply field_prefix).
  rewrite !H16, !H32 by lia.
  destruct (r16 sb 56) as [m|]; [|done]. cbn [mbind option_bind]. destruct (negb (m =? EXT4_SUPER_MAGIC)); [congruence|].
  destruct (negb (alloc sizeof_vol)); [congruence|].
  destruct (r32 sb 24) as [log|], (r32 sb 40), (r32 sb 20), (r16 sb 88), (r32 sb 96), (r16 sb 254); try done.
  cbn [mbind option_bind]. destruct (log >=? 32); [done|]. by intros [= <-] [= <-].
Qed.

(** A file system mounted through LUKS and the same file system mounted from a plain
    partition have the same geometry: the LUKS path reads three sectors only, but
    every field of the superblock the driver uses is in them. *)
Theorem mount_luks_agrees (ReadDisk ReadBlocks : Z -> Z -> Z -> option (list Z)) (luks_read : Z -> Z -> option (list Z))
    (alloc : Z -> bool) (img : Z -> Z) (size h : Z) (m : Media) (lv : LuksVol.LuksVol) (r r' : option Ext4Vol)
    (Hsize : 2048 <= size < 2 ^ 62)
    (Hm : MediaPresent m = true /\ LogicalPartition m = true /\ 2 <= LastBlock m /\ BlockSize m <> 0 /\ BlockSize m <> 2048)
    (Hdisk : ReadDisk (MediaId m) 1024 1024 = Some (bytes_at img 1024 1024))
    (Hlv : LuksVol.sector_size lv = 512 /\ zlen (LuksVol.decrypt_buf lv) = 4096 /\ 0 <= LuksVol.payload_lba lv < 2 ^ 63)
    (Hplain : forall ps, 0 <= ps < size / 512 -> LuksVol.payload_plain luks_read lv ps = Some (bytes_at img (ps * 512) 512))
    (Hr : ext4_mount ReadDisk ReadBlocks luks_read alloc h (Some m) true = Some r)
    (Hr' : ext4_mount_luks luks_read alloc (Some lv) = Some r') :
  described <$> r = described <$> r'.
Proof.
  destruct Hm as (Hp & Hlog & Hlast & Hb0 & Hb1). destruct Hlv as (Hss & Hdb & Hpl). unfold ext4_mount in Hr.
  rewrite Hp, Hlog, (proj2 (Z.eqb_neq _ _) Hb0), (proj2 (Z.eqb_neq _ _) Hb1), (proj2 (Z.ltb_ge _ _)) in Hr by lia.
  cbn [negb orb] in Hr. unfold read_bytes in Hr. cbn [dev media_id] in Hr.
  change EXT4_SUPERBLOCK_OFFSET with 1024 in Hr. rewrite Hdisk in Hr. cbn [mbind option_bind] in Hr.
  unfold ext4_mount_luks in Hr'.
  destruct (luks_sectors luks_read img size ltac:(lia) lv 0 3) as [lv' E]; [done..|lia|lia|lia|].
  rewrite E in Hr'. cbn [mbind option_bind fst] in Hr'.
  change (bytes_at img (0 * 512) (3 * 512)) with (bytes_at img 0 (1024 + 512)) in Hr'.
  rewrite bytes_at_app, drop_app_length' in Hr' by (lia || (pose proof (bytes_at_length img 0 1024); lia)).
  change 1024 with (512 + 512) in Hr at 2. rewrite bytes_at_app in Hr by lia.
  eapply mount_super_described; [|exact Hr|exact Hr']. by apply bytes_at_length.
Qed.

(** The same file system behind XTS with 512-byte sectors from sector 8 on. *)
Definition demo_lv : LuksVol.LuksVol :=
  {| LuksVol.payload_lba := 8; LuksVol.sector_size := 512; LuksVol.vol_mode := Cipher.CIPHER_XTS; LuksVol.xts := Cipher.demo_xts;
     LuksVol.cbc := LuksVol.zero_cbc; LuksVol.decrypt_buf := repeat 0 4096 |}.
Definition demo_luks (lba n : Z) : option (list Z) :=
  Some (Cipher.xts_crypt Cipher.demo_xts (lba - 8) (bytes_at demo_img ((lba - 8) * 512) 512) 512 false).

Definition demo_vol_luks (lv : LuksVol.LuksVol) : Ext4Vol :=
  {| dev := Luks lv; media_id := 0; block_size := 1024; inodes_per_group := 16; inode_size := 128; first_data_block := 1;
     bgdt_off := 2048; desc_size := 32; part_handle := None |}.

Lemma mount_luks_agrees_witness : exists r r',
  ext4_mount demo_disk demo_blocks no_luks demo_alloc 77 (Some demo_media) true = Some r /\
  ext4_mount_luks demo_luks demo_alloc (Some demo_lv) = Some r' /\ described <$> r = described <$> r' /\ r <> None.
Proof.
  eexists (Some (demo_vol Dio)), (Some (demo_vol_luks demo_lv)).
  assert (ext4_mount demo_disk demo_blocks demo_luks demo_alloc 77 (Some demo_media) true = Some (Some (demo_vol Dio))) as E1
    by (vm_compute; reflexivity).
  assert (ext4_mount_luks demo_luks demo_alloc (Some demo_lv) = Some (Some (demo_vol_luks demo_lv))) as E2 by (vm_compute; reflexivity).
  split_and!; [exact E1|exact E2| |done].
  apply (mount_luks_agrees demo_disk demo_blocks demo_luks demo_alloc demo_img 2048 77 demo_media demo_lv);
    [lia|cbn; lia|reflexivity|cbn; lia| |exact E1|exact E2].
  intros ps Hps. assert (ps = 0 \/ ps = 1 \/ ps = 2 \/ ps = 3) as Hcases by (change (2048 / 512) with 4 in Hps; lia).
  destruct Hcases as [-> | [-> | [-> | ->]]]; vm_compute; reflexivity.
Defined.
End Ext4.
