(* ===== verification/Elf.v ===== *)
(** * Elf: loading ELF64 kernels, [os/elf_loader.c] and [os/vios.c]

    The file lies in physical memory at [buf]; headers are read from there at every
    turn of the loop, as the code does, so a segment loaded over the buffer would
    change the headers still to come. *)

From S2P Require Import Prelude Mem Config.
Import Mem Config.

Module Elf.

(** The machine the loader is compiled for. *)
Inductive arch := X86_64 | AARCH64.

#[export] Instance arch_eq_dec : EqDecision arch.
Proof. solve_decision. Defined.

Definition EM (a : arch) : Z := match a with X86_64 => 62 | AARCH64 => 183 end.
Definition ET_EXEC : Z := 2.
Definition ET_DYN : Z := 3.
Definition PT_LOAD : Z := 1.
Definition sizeof_Ehdr : Z := 64.

(** A little-endian field of [n] bytes. *)
Definition rd (m : mem) (a n : Z) : Z := le_val (load m a n).

Definition mem_set (m : mem) (dst val len : Z) : mem := foldl (fun m i => upd m (u64 (dst + i)) val) m (seqZ 0 len).
Definition mem_copy (m : mem) (dst src len : Z) : mem := foldl (fun m i => upd m (u64 (dst + i)) (m (u64 (src + i)))) m (seqZ 0 len).

Definition e_type (m : mem) (buf : Z) : Z := rd m (buf + 16) 2.
Definition e_machine (m : mem) (buf : Z) : Z := rd m (buf + 18) 2.
Definition e_entry (m : mem) (buf : Z) : Z := rd m (buf + 24) 8.
Definition e_phoff (m : mem) (buf : Z) : Z := rd m (buf + 32) 8.
Definition e_phentsize (m : mem) (buf : Z) : Z := rd m (buf + 54) 2.
Definition e_phnum (m : mem) (buf : Z) : Z := rd m (buf + 56) 2.

Definition elf_magic (m : mem) (buf : Z) : bool :=
  (rd m buf 1 =? 0x7F) && (rd m (buf + 1) 1 =? chr "E") && (rd m (buf + 2) 1 =? chr "L") && (rd m (buf + 3) 1 =? chr "F").

Definition elf64_valid (a : arch) (m : mem) (buf size : Z) : bool :=
  if size <? sizeof_Ehdr then false
  else if negb (elf_magic m buf) then false
  else if negb (rd m (buf + 4) 1 =? 2) then false
  else if negb (rd m (buf + 5) 1 =? 1) then false
  else if negb (e_type m buf =? ET_EXEC) && negb (e_type m buf =? ET_DYN) then false
  else e_machine m buf =? EM a.

(** Address of program header [i]. *)
Definition phdr (m : mem) (buf i : Z) : Z := u64 (buf + e_phoff m buf + i * e_phentsize m buf).

Definition p_type (m : mem) (ph : Z) : Z := rd m ph 4.
Definition p_offset (m : mem) (ph : Z) : Z := rd m (ph + 8) 8.
Definition p_paddr (m : mem) (ph : Z) : Z := rd m (ph + 24) 8.
Definition p_filesz (m : mem) (ph : Z) : Z := rd m (ph + 32) 8.
Definition p_memsz (m : mem) (ph : Z) : Z := rd m (ph + 40) 8.

(** The fields are read before and between the copy and the clearing. *)
Definition load_segment (m : mem) (buf ph : Z) : mem :=
  if negb (p_type m ph =? PT_LOAD) || (p_memsz m ph =? 0) then m
  else
    let dest := p_paddr m ph in
    let m := if p_filesz m ph =? 0 then m else mem_copy m dest (u64 (buf + p_offset m ph)) (p_filesz m ph) in
    if p_memsz m ph >? p_filesz m ph then mem_set m (u64 (dest + p_filesz m ph)) 0 (p_memsz m ph - p_filesz m ph) else m.

(** The 16-bit counter never wraps: it stays below a 16-bit count. *)
Fixpoint segments (fuel : nat) (m : mem) (buf i : Z) : option mem :=
  if negb (i <? e_phnum m buf) then Some m
  else match fuel with O => None | S f => segments f (load_segment m buf (phdr m buf i)) buf (u16 (i + 1)) end.

Definition elf64_load (a : arch) (m : mem) (buf size : Z) : option (Z * mem) :=
  if negb (elf64_valid a m buf size) then Some (0, m)
  else m' ← segments (Z.to_nat (2 ^ 16)) m buf 0; Some (e_entry m' buf, m').

(** ** The ViOS loader *)

(** The requests made to [AllocatePages]: address and number of pages. *)
Definition vios_reserve_elf_pages (m : mem) (buf size : Z) : list (Z * Z) :=
  if size <? sizeof_Ehdr then []
  else if negb (elf_magic m buf) then []
  else
    flat_map (fun i =>
      let ph := phdr m buf i in
      if negb (p_type m ph =? PT_LOAD) || (p_memsz m ph =? 0) then []
      else [(p_paddr m ph, u64 (p_memsz m ph + 0xFFF) >> 12)]) (seqZ 0 (e_phnum m buf)).

Definition vios_can_load (e : BootEntry) : bool := bool_decide (type e = OS_TYPE_ELF64).

(** [read_file] gives the address and the size of the file in memory; the result is the
    entry point, the pages asked for and the memory. *)
Definition vios_load (a : arch) (read_file : list Z -> mem -> option (Z * Z * mem)) (m : mem) (e : BootEntry)
    : option (Z * list (Z * Z) * mem) :=
  match read_file (kernel e) m with
  | None => Some (0, [], m)
  | Some (buf, size, m) =>
    if size =? 0 then Some (0, [], m)
    else r ← elf64_load a m buf size; Some (fst r, vios_reserve_elf_pages m buf size, snd r)
  end.

(** ** The loops *)

Lemma mem_set_spec m d v n : 0 <= d -> 0 <= n -> d + n < 2 ^ 64 -> mem_set m d v n ≡ splat m d n (fun _ => v).
Proof.
  intros Hd Hn. pattern n. apply natlike_ind; [..|done].
  { intros _ x. unfold mem_set. rewrite seqZ_nil by lia. by rewrite splat_out by lia. }
  intros k Hk IH Hlt x. unfold mem_set. unfold Z.succ. rewrite seqZ_app, foldl_app by lia.
  change (seqZ (0 + k) 1) with [k]. cbn [foldl]. fold (mem_set m d v k). unfold upd.
  rewrite wrap_small by lia. rewrite (IH ltac:(lia) x).
  destruct (Z.eqb_spec x (d + k)) as [->|]; [by rewrite splat_in by lia|].
  destruct (decide (d <= x < d + k)); [by rewrite !splat_in by lia|by rewrite !splat_out by lia].
Qed.

(** The source is not overwritten by the copy. *)
Lemma mem_copy_spec m d s n : 0 <= d -> 0 <= s -> 0 <= n -> d + n < 2 ^ 64 -> s + n < 2 ^ 64 -> (d + n <= s \/ s + n <= d) ->
  mem_copy m d s n ≡ splat m d n (fun i => m (s + i)).
Proof.
  intros Hd Hs Hn. pattern n. apply natlike_ind; [..|done].
  { intros _ _ _ x. unfold mem_copy. rewrite seqZ_nil by lia. by rewrite splat_out by lia. }
  intros k Hk IH Hlt1 Hlt2 Hdis x. unfold mem_copy. unfold Z.succ in *. rewrite seqZ_app, foldl_app by lia.
  change (seqZ (0 + k) 1) with [k]. cbn [foldl]. fold (mem_copy m d s k). unfold upd.
  rewrite !wrap_small by lia. rewrite !(IH ltac:(lia) ltac:(lia) ltac:(lia) _).
  destruct (Z.eqb_spec x (d + k)) as [->|].
  - rewrite splat_out by lia. rewrite splat_in by lia. f_equal. lia.
  - destruct (decide (d <= x < d + k)); [by rewrite !splat_in by lia|by rewrite !splat_out by lia].
Qed.

(** ** The file as bytes *)

Definition field (F : list Z) (off n : Z) : Z := default 0 (le_val <$> sub F off n).

Record segment := { s_type : Z; s_offset : Z; s_paddr : Z; s_filesz : Z; s_memsz : Z }.

(** Program header [i] of the file [F]. *)
Definition segment_of (F : list Z) (i : Z) : segment :=
  let ph := field F 32 8 + i * field F 54 2 in
  {| s_type := field F ph 4; s_offset := field F (ph + 8) 8; s_paddr := field F (ph + 24) 8;
     s_filesz := field F (ph + 32) 8; s_memsz := field F (ph + 40) 8 |}.

Definition loadable (s : segment) : bool := (s_type s =? PT_LOAD) && negb (s_memsz s =? 0).

(** Memory after loading [s]: bytes of the file, then zeros. *)
Definition place (F : list Z) (m : mem) (s : segment) : mem :=
  if loadable s then
    fun x =>
      let i := x - s_paddr s in
      if (0 <=? i) && (i <? s_filesz s) then nthZ F (s_offset s + i)
      else if (0 <=? i) && (i <? s_memsz s) then 0 else m x
  else m.

(** The header is inside the file, and loading [s] takes bytes of the file to
    addresses outside the buffer. *)
Definition segment_ok (F : list Z) (buf i : Z) : Prop :=
  field F 32 8 + i * field F 54 2 + 56 <= zlen F /\
  let s := segment_of F i in
  loadable s = true ->
    s_offset s + s_filesz s <= zlen F /\ s_paddr s + Z.max (s_filesz s) (s_memsz s) < 2 ^ 64 /\
    (s_paddr s + Z.max (s_filesz s) (s_memsz s) <= buf \/ buf + zlen F <= s_paddr s).

Lemma rd_field m buf F off n :
  load m buf (zlen F) = F -> 0 <= off -> 0 <= n -> off + n <= zlen F -> rd m (buf + off) n = field F off n.
Proof.
  intros HF Ho Hn Hle. unfold rd, field. rewrite <- HF at 1. by rewrite load_sub by lia.
Qed.

Lemma field_nonneg F off n : bytes F -> 0 <= field F off n.
Proof.
  intros HF. unfold field. destruct (sub F off n) as [l|] eqn:E; cbn; [|lia].
  apply le_val_bound. unfold sub in E. case_decide; [|done]. injection E as <-. by apply Forall_take, Forall_drop.
Qed.

Lemma load_nth m buf F i : load m buf (zlen F) = F -> 0 <= i < zlen F -> m (buf + i) = nthZ F i.
Proof.
  intros HF Hi. rewrite <- HF at 1. unfold load, nthZ. rewrite nth_lookup, list_lookup_fmap. 
  rewrite lookup_seqZ_lt by lia. cbn. f_equal. lia.
Qed.

Lemma place_outside F m s x : ~ (s_paddr s <= x < s_paddr s + Z.max (s_filesz s) (s_memsz s)) -> place F m s x = m x.
Proof.
  intros H. unfold place. destruct (loadable s); [|done].
  destruct (Z.leb_spec 0 (x - s_paddr s)), (Z.ltb_spec (x - s_paddr s) (s_filesz s)),
    (Z.ltb_spec (x - s_paddr s) (s_memsz s)); cbn [andb]; done || lia.
Qed.
Lemma le_val_lt l n : bytes l -> zlen l = n -> le_val l < 2 ^ (8 * n).
Proof. intros Hl <-. by apply le_val_bound. Qed.

Section File.
Context (F : list Z) (buf : Z).
Hypothesis HF : bytes F.
Hypothesis Hbuf : 0 <= buf /\ buf + zlen F < 2 ^ 64.
Hypothesis Hlen : 64 <= zlen F.

(** The file is still there. *)
Definition holds (m : mem) : Prop := load m buf (zlen F) = F.

Lemma header_reads m : holds m ->
  e_phoff m buf = field F 32 8 /\ e_phentsize m buf = field F 54 2 /\ e_phnum m buf = field F 56 2 /\ e_entry m buf = field F 24 8.
Proof using Hlen. intros Hm. unfold e_phoff, e_phentsize, e_phnum, e_entry. by rewrite !(rd_field m buf F) by (done || lia). Qed.

Lemma phdr_reads m i : holds m -> 0 <= i -> field F 32 8 + i * field F 54 2 + 56 <= zlen F ->
  let ph := phdr m buf i in let s := segment_of F i in
  p_type m ph = s_type s /\ p_offset m ph = s_offset s /\ p_paddr m ph = s_paddr s /\ p_filesz m ph = s_filesz s /\ p_memsz m ph = s_memsz s.
Proof using HF Hbuf Hlen.
  intros Hm Hi Hle. unfold phdr. destruct (header_reads m Hm) as (-> & -> & _ & _).
  pose proof (field_nonneg F 32 8 HF). pose proof (field_nonneg F 54 2 HF). cbn zeta.
  rewrite wrap_small by nia. unfold p_type, p_offset, p_paddr, p_filesz, p_memsz, segment_of. cbn [s_type s_offset s_paddr s_filesz s_memsz].
  rewrite <- !Z.add_assoc. rewrite !(rd_field m buf F) by (done || nia). by split_and!.
Qed.

Lemma segment_nonneg i : let s := segment_of F i in 0 <= s_offset s /\ 0 <= s_paddr s /\ 0 <= s_filesz s /\ 0 <= s_memsz s.
Proof using HF. cbn. split_and!; by apply field_nonneg. Qed.

Lemma holds_outside m m' : holds m -> (forall x, buf <= x < buf + zlen F -> m' x = m x) -> holds m'.
Proof using. clear. intros Hm H. unfold holds in *. rewrite <- Hm at 2. by apply load_ext. Qed.

(** One segment. *)
Lemma load_segment_place m i : holds m -> 0 <= i -> segment_ok F buf i ->
  load_segment m buf (phdr m buf i) ≡ place F m (segment_of F i) /\ holds (load_segment m buf (phdr m buf i)).
Proof using HF Hbuf Hlen.
  intros Hm Hi (Hph & Hok). pose proof (segment_nonneg i) as (N1 & N2 & N3 & N4).
  destruct (phdr_reads m i Hm Hi Hph) as (E1 & E2 & E3 & E4 & E5). set (ph := phdr m buf i) in *. set (s := segment_of F i) in *.
  unfold load_segment. rewrite E1, E2, E3, E4, E5. unfold place, loadable in *.
  destruct (s_type s =? PT_LOAD) eqn:Et, (s_memsz s =? 0) eqn:Em; cbn [negb orb andb] in *; try done.
  destruct (Hok eq_refl) as (H1 & H2 & H3). clear Hok. apply Z.eqb_neq in Em.
  set (m1 := if s_filesz s =? 0 then m else mem_copy m (s_paddr s) (u64 (buf + s_offset s)) (s_filesz s)).
  assert (m1 ≡ splat m (s_paddr s) (s_filesz s) (fun j => nthZ F (s_offset s + j))) as Hm1.
  { unfold m1. intros x. destruct (Z.eqb_spec (s_filesz s) 0) as [Hz|Hz].
    - rewrite splat_out by lia. done.
    - rewrite wrap_small by lia. rewrite (mem_copy_spec m (s_paddr s) (buf + s_offset s) (s_filesz s) N2 ltac:(lia) N3 ltac:(lia) ltac:(lia) ltac:(lia) x).
      destruct (decide (s_paddr s <= x < s_paddr s + s_filesz s)).
      + rewrite !splat_in by lia. rewrite <- Z.add_assoc. apply load_nth; [done|lia].
      + by rewrite !splat_out by lia. }
  assert (holds m1) as Hh1.
  { apply (holds_outside m); [done|]. intros x Hx. rewrite (Hm1 x). apply splat_out. lia. }
  assert (phdr m1 buf i = ph) as Eph.
  { unfold ph, phdr. destruct (header_reads m Hm) as (-> & -> & _ & _), (header_reads m1 Hh1) as (-> & -> & _ & _). done. }
  destruct (phdr_reads m1 i Hh1 Hi Hph) as (_ & _ & _ & G4 & G5). cbn zeta in *. rewrite Eph in G4, G5. fold s in G4, G5. rewrite G4, G5.
  assert ((if s_memsz s >? s_filesz s then mem_set m1 (u64 (s_paddr s + s_filesz s)) 0 (s_memsz s - s_filesz s) else m1) ≡
    (fun x => let j := x - s_paddr s in if (0 <=? j) && (j <? s_filesz s) then nthZ F (s_offset s + j)
      else if (0 <=? j) && (j <? s_memsz s) then 0 else m x)) as Hfin.
  { intros x. cbn zeta. destruct (Z.gtb_spec (s_memsz s) (s_filesz s)).
    - rewrite wrap_small by lia.
      rewrite (mem_set_spec m1 (s_paddr s + s_filesz s) 0 (s_memsz s - s_filesz s) ltac:(lia) ltac:(lia) ltac:(lia) x).
      destruct (Z.leb_spec 0 (x - s_paddr s)), (Z.ltb_spec (x - s_paddr s) (s_filesz s)), (Z.ltb_spec (x - s_paddr s) (s_memsz s));
        cbn [andb]; try lia; first [rewrite splat_in by lia; done | rewrite splat_out by lia; rewrite (Hm1 x);
          first [rewrite splat_in by lia; done | rewrite splat_out by lia; done]].
    - rewrite (Hm1 x).
      destruct (Z.leb_spec 0 (x - s_paddr s)), (Z.ltb_spec (x - s_paddr s) (s_filesz s)), (Z.ltb_spec (x - s_paddr s) (s_memsz s));
        cbn [andb]; try lia; first [rewrite splat_in by lia; done | rewrite splat_out by lia; done]. }
  split; [exact Hfin|]. apply (holds_outside m); [done|]. intros x Hx. rewrite (Hfin x). cbn zeta.
  destruct (Z.leb_spec 0 (x - s_paddr s)), (Z.ltb_spec (x - s_paddr s) (s_filesz s)), (Z.ltb_spec (x - s_paddr s) (s_memsz s));
    cbn [andb]; done || lia.
Qed.

Lemma place_proper m m' s : m ≡ m' -> place F m s ≡ place F m' s.
Proof using.
  clear. intros H x. unfold place. destruct (loadable s); [|apply H]. cbn zeta.
  destruct ((0 <=? x - s_paddr s) && (x - s_paddr s <? s_filesz s)); [done|].
  by destruct ((0 <=? x - s_paddr s) && (x - s_paddr s <? s_memsz s)).
Qed.

Lemma places_proper ss m m' : m ≡ m' -> foldl (place F) m ss ≡ foldl (place F) m' ss.
Proof using. clear. revert m m'. induction ss as [|s ss IH]; intros m m' H; [done|]. cbn [foldl]. by apply IH, place_proper. Qed.

Lemma segments_spec fuel m i :
  holds m -> 0 <= i <= field F 56 2 -> field F 56 2 - i <= Z.of_nat fuel -> field F 56 2 < 2 ^ 16 ->
  (forall j, i <= j < field F 56 2 -> segment_ok F buf j) ->
  exists m', segments fuel m buf i = Some m' /\ holds m' /\
    m' ≡ foldl (place F) m (map (segment_of F) (seqZ i (field F 56 2 - i))).
Proof using HF Hbuf Hlen.
  revert m i. induction fuel as [|fuel IH]; intros m i Hm Hi Hf Hn Hok; cbn [segments];
    destruct (header_reads m Hm) as (_ & _ & -> & _); destruct (Z.ltb_spec i (field F 56 2)); cbn [negb]; try lia.
  1,3: exists m; rewrite seqZ_nil by lia; done.
  destruct (load_segment_place m i Hm ltac:(lia) (Hok i ltac:(lia))) as [Hpl Hh].
  rewrite wrap_small by lia. destruct (IH _ (i + 1) Hh ltac:(lia) ltac:(lia) Hn) as (m' & Hrun & Hm' & Heq).
  { intros j Hj. apply Hok. lia. }
  exists m'. split; [done|]. split; [done|]. rewrite Heq, (seqZ_cons i) by lia. cbn [map foldl].
  replace (Z.pred (field F 56 2 - i)) with (field F 56 2 - (i + 1)) by lia. replace (Z.succ i) with (i + 1) by lia.
  by apply places_proper.
Qed.
End File.

(** The header the loader accepts. *)
Definition header_ok (a : arch) (F : list Z) : bool :=
  (64 <=? zlen F) && bool_decide (take 6 F = [0x7F; chr "E"; chr "L"; chr "F"; 2; 1]) &&
  ((field F 16 2 =? 2) || (field F 16 2 =? 3)) && (field F 18 2 =? EM a).

Lemma elf64_valid_header a m buf F : bytes F -> holds F buf m -> elf64_valid a m buf (zlen F) = header_ok a F.
Proof.
  intros HF Hm. unfold elf64_valid, header_ok, sizeof_Ehdr. rewrite Z.ltb_antisym.
  destruct (Z.leb_spec 64 (zlen F)); cbn [negb andb]; [|done].
  assert (forall i, 0 <= i < 6 -> rd m (buf + i) 1 = nthZ F i) as Hb.
  { intros i Hi. unfold rd. change (load m (buf + i) 1) with [m (buf + i + 0)]. rewrite Z.add_0_r, (load_nth m buf F) by (done || lia).
    rewrite le_val_cons by auto with word. apply Z.add_0_r. }
  unfold elf_magic. rewrite <- (Z.add_0_r buf) at 1. rewrite !Hb by lia.
  unfold e_type, e_machine. rewrite !(rd_field m buf F) by (done || lia).
  generalize (field F 16 2), (field F 18 2). intros ty ma. do 6 (destruct F as [|? F]; [cbn in *; lia|]).
  change (take 6 (z :: z0 :: z1 :: z2 :: z3 :: z4 :: F)) with [z; z0; z1; z2; z3; z4]. unfold nthZ, ET_EXEC, ET_DYN.
  change (Z.to_nat 0) with 0%nat. change (Z.to_nat 1) with 1%nat. change (Z.to_nat 2) with 2%nat. change (Z.to_nat 3) with 3%nat.
  change (Z.to_nat 4) with 4%nat. change (Z.to_nat 5) with 5%nat. cbn [nth].
  assert (bool_decide ([z; z0; z1; z2; z3; z4] = [127; chr "E"; chr "L"; chr "F"; 2; 1]) =
    (z =? 127) && (z0 =? chr "E") && (z1 =? chr "L") && (z2 =? chr "F") && (z3 =? 2) && (z4 =? 1)) as ->.
  { case_bool_decide as E; [by injection E as -> -> -> -> -> ->|]. symmetry. apply not_true_iff_false. intros Hc. apply E.
    repeat (apply andb_true_iff in Hc as [Hc ?%Z.eqb_eq]). apply Z.eqb_eq in Hc. by subst. }
  destruct (z =? 127), (z0 =? chr "E"), (z1 =? chr "L"), (z2 =? chr "F"), (z3 =? 2), (z4 =? 1), (ty =? 2), (ty =? 3); done.
Qed.

(** ** Theorems *)

Lemma elf64_load_accepts (a : arch) (m : mem) (buf : Z) (F : list Z) :
  bytes F -> holds F buf m -> 0 <= buf /\ buf + zlen F < 2 ^ 64 ->
  header_ok a F = true -> (forall i, 0 <= i < field F 56 2 -> segment_ok F buf i) ->
  exists m', elf64_load a m buf (zlen F) = Some (field F 24 8, m') /\
    m' ≡ foldl (place F) m (map (segment_of F) (seqZ 0 (field F 56 2))).
Proof.
  intros HF Hm Hbuf Hh Hok. unfold elf64_load. rewrite (elf64_valid_header a m buf F HF Hm), Hh. cbn [negb].
  assert (64 <= zlen F) as Hlen by (unfold header_ok in Hh; destruct (Z.leb_spec 64 (zlen F)); done).
  pose proof (field_nonneg F 56 2 HF) as H0.
  assert (field F 56 2 < 2 ^ 16) as H16.
  { unfold field, sub. rewrite decide_True by lia. cbn [fmap option_fmap option_map default].
    unfold id. apply (le_val_lt _ 2); [by apply Forall_take, Forall_drop|]. rewrite length_take, length_drop. lia. }
  destruct (segments_spec F buf HF Hbuf Hlen (Z.to_nat (2 ^ 16)) m 0 Hm ltac:(lia) ltac:(lia) H16 Hok) as (m' & -> & Hm' & Heq).
  exists m'. cbn [mbind option_bind]. destruct (header_reads F buf Hlen m' Hm') as (_ & _ & _ & ->). by rewrite Z.sub_0_r in Heq.
Qed.

Lemma elf64_load_refuses (a : arch) (m : mem) (buf : Z) (F : list Z) :
  bytes F -> holds F buf m -> header_ok a F = false -> elf64_load a m buf (zlen F) = Some (0, m).
Proof. intros HF Hm Hh. unfold elf64_load. by rewrite (elf64_valid_header a m buf F HF Hm), Hh. Qed.

(** [C10] Loading a kernel: a file whose header is not that of a 64-bit little-endian
    executable for this machine is refused and memory is untouched.  Otherwise,
    when the program headers and their bytes lie in the file and no segment is
    loaded over the file itself, the entry point is the header's and memory is
    what placing the loadable segments in order makes of it: the bytes of the
    file, zeros up to the segment's memory size, everything else as it was. *)
Theorem elf64_load_image (a : arch) (m : mem) (buf : Z) (F : list Z)
    (HF : bytes F) (Hm : holds F buf m) (Hbuf : 0 <= buf /\ buf + zlen F < 2 ^ 64) :
  (header_ok a F = false -> elf64_load a m buf (zlen F) = Some (0, m)) /\
  (header_ok a F = true -> (forall i, 0 <= i < field F 56 2 -> segment_ok F buf i) ->
   exists m', elf64_load a m buf (zlen F) = Some (field F 24 8, m') /\
     m' ≡ foldl (place F) m (map (segment_of F) (seqZ 0 (field F 56 2)))).
Proof. split; [by apply elf64_load_refuses|by apply elf64_load_accepts]. Qed.

(** A kernel of one segment of 4 bytes, 10 in memory. *)
Definition demo_elf : list Z :=
  [0x7F; chr "E"; chr "L"; chr "F"; 2; 1] ++ repeat 0 10 ++ le_bytes 2 2 ++ le_bytes 2 62 ++ le_bytes 4 1 ++ le_bytes 8 0x100000 ++
  le_bytes 8 64 ++ repeat 0 14 ++ le_bytes 2 56 ++ le_bytes 2 1 ++ repeat 0 6 ++
  le_bytes 4 1 ++ le_bytes 4 5 ++ le_bytes 8 120 ++ le_bytes 8 0 ++ le_bytes 8 0x100000 ++ le_bytes 8 4 ++ le_bytes 8 10 ++
  le_bytes 8 4096 ++ [0xDE; 0xAD; 0xBE; 0xEF].
Definition demo_mem (x : Z) : Z := if (4096 <=? x) && (x <? 4096 + zlen demo_elf) then nthZ demo_elf (x - 4096) else 0xAA.

Lemma demo_elf_bytes : bytes demo_elf.
Proof. apply (bool_decide_unpack _). vm_compute. exact I. Qed.

Lemma demo_elf_holds : holds demo_elf 4096 demo_mem.
Proof. vm_compute. reflexivity. Qed.

Lemma demo_segments_ok i : 0 <= i < field demo_elf 56 2 -> segment_ok demo_elf 4096 i.
Proof.
  intros Hi. change (field demo_elf 56 2) with 1 in Hi. assert (i = 0) as -> by lia. split; [by vm_compute|].
  cbn zeta. intros _. split_and!; [by vm_compute..|]. right. by vm_compute.
Qed.

Lemma elf64_load_image_witness :
  exists m', elf64_load X86_64 demo_mem 4096 (zlen demo_elf) = Some (0x100000, m') /\
    load m' 0xFFFFF 12 = [0xAA; 0xDE; 0xAD; 0xBE; 0xEF; 0; 0; 0; 0; 0; 0; 0xAA].
Proof.
  destruct (elf64_load_image X86_64 demo_mem 4096 demo_elf demo_elf_bytes demo_elf_holds ltac:(vm_compute; intuition discriminate))
    as [_ H].
  destruct (H ltac:(vm_compute; reflexivity) demo_segments_ok) as (m' & E & Hm'). exists m'. split; [exact E|].
  rewrite Hm'. vm_compute. reflexivity.
Defined.

Lemma reserve_pages memsz : 0 < memsz -> memsz + 0xFFF < 2 ^ 64 ->
  let n := u64 (memsz + 0xFFF) >> 12 in memsz <= n * 4096 < memsz + 4096.
Proof.
  intros H1 H2. cbn zeta. rewrite wrap_small by lia. rewrite shiftr_div by lia. change (2 ^ 12) with 4096.
  pose proof (Z.div_mod (memsz + 0xFFF) 4096). pose proof (Z.mod_pos_bound (memsz + 0xFFF) 4096). lia.
Qed.

(** Before a ViOS kernel is loaded its memory is asked for: one request per loadable
    segment, in order, for the segment's address and the least number of pages as
    large as the segment (so a segment that does not start at a page boundary can
    reach behind the pages asked for). *)
Theorem vios_reserves_segments (m : mem) (buf : Z) (F : list Z)
    (HF : bytes F) (Hm : holds F buf m) (Hbuf : 0 <= buf /\ buf + zlen F < 2 ^ 64) (Hh : header_ok X86_64 F = true \/ header_ok AARCH64 F = true)
    (Hok : forall i, 0 <= i < field F 56 2 -> segment_ok F buf i /\ s_memsz (segment_of F i) + 0xFFF < 2 ^ 64) :
  let segs := filter (fun s => loadable s = true) (map (segment_of F) (seqZ 0 (field F 56 2))) in
  vios_reserve_elf_pages m buf (zlen F) = map (fun s => (s_paddr s, (s_memsz s + 0xFFF) / 4096)) segs /\
  (forall s, s ∈ segs -> let n := (s_memsz s + 0xFFF) / 4096 in s_memsz s <= n * 4096 < s_memsz s + 4096).
Proof.
  assert (64 <= zlen F) as Hlen by (unfold header_ok in Hh; destruct (Z.leb_spec 64 (zlen F)); destruct Hh; done).
  cbn zeta. split.
  - unfold vios_reserve_elf_pages, sizeof_Ehdr. rewrite (proj2 (Z.ltb_ge _ _)) by lia.
    assert (elf_magic m buf = true) as ->.
    { assert (elf64_valid X86_64 m buf (zlen F) = true \/ elf64_valid AARCH64 m buf (zlen F) = true) as Hv
        by (by rewrite !(elf64_valid_header _ m buf F HF Hm)).
      unfold elf64_valid in Hv. destruct (zlen F <? sizeof_Ehdr); [by destruct Hv|]. destruct (elf_magic m buf); [done|by destruct Hv]. }
    cbn [negb]. destruct (header_reads F buf Hlen m Hm) as (_ & _ & -> & _).
    assert (forall i, i ∈ seqZ 0 (field F 56 2) -> 0 <= i < field F 56 2) as Hin by (intros i Hi%elem_of_seqZ; lia).
    induction (seqZ 0 (field F 56 2)) as [|i l IH]; [done|]. cbn [flat_map map].
    assert (0 <= i < field F 56 2) as Hi by (apply Hin; set_solver). destruct (Hok i Hi) as [[Hph _] Hsz].
    destruct (phdr_reads F buf HF Hbuf Hlen m i Hm ltac:(lia) Hph) as (-> & _ & -> & _ & ->).
    assert (negb (s_type (segment_of F i) =? PT_LOAD) || (s_memsz (segment_of F i) =? 0) = negb (loadable (segment_of F i))) as ->.
    { unfold loadable. by rewrite negb_andb, negb_involutive. }
    destruct (segment_nonneg F HF i) as (_ & _ & _ & N4). rewrite IH by (intros j Hj; apply Hin; set_solver). rewrite filter_cons.
    destruct (decide (loadable (segment_of F i) = true)) as [-> | ->%not_true_is_false]; cbn [negb app map]; [|done].
    do 2 f_equal. rewrite wrap_small by lia. by rewrite shiftr_div.
  - intros s [Hl Hs]%list_elem_of_filter. apply list_elem_of_fmap in Hs as (i & -> & Hi%elem_of_seqZ).
    destruct (Hok i ltac:(lia)) as [_ Hsz]. destruct (segment_nonneg F HF i) as (_ & _ & _ & N4).
    assert (s_memsz (segment_of F i) <> 0) as Hne.
    { unfold loadable in Hl. destruct (Z.eqb_spec (s_memsz (segment_of F i)) 0); [|done]. by rewrite andb_false_r in Hl. }
    pose proof (reserve_pages (s_memsz (segment_of F i)) ltac:(lia) Hsz) as H. cbn zeta in H.
    rewrite wrap_small, shiftr_div in H by lia. exact H.
Qed.

Lemma vios_reserves_segments_witness : vios_reserve_elf_pages demo_mem 4096 (zlen demo_elf) = [(0x100000, 1)].
Proof.
  destruct (vios_reserves_segments demo_mem 4096 demo_elf demo_elf_bytes demo_elf_holds) as [-> _];
    [vm_compute; intuition discriminate|left; vm_compute; reflexivity| |vm_compute; reflexivity].
  intros i Hi. split; [by apply demo_segments_ok|]. change (field demo_elf 56 2) with 1 in Hi. assert (i = 0) as -> by lia. by vm_compute.
Defined.
End Elf.
