(* ===== verification/Linux.v ===== *)
(** * Linux: the bzImage loader, [os/linux.c]

    The UEFI path hands the kernel to the firmware with a command line built here; the
    BIOS path lays the kernel, its setup header, command line and initial ramdisk out
    in physical memory.  The firmware's and the FAT driver's results are arguments. *)

From S2P Require Import Prelude Mem Config Elf.
Import Mem Config Elf.

Module Linux.

Definition linux_can_load (e : BootEntry) : bool := bool_decide (type e = OS_TYPE_LINUX).

(** ** UEFI: the command line *)

(** The search for [initrd=]; past the terminator every comparison fails. *)
Fixpoint has_initrd (cmd : list Z) : bool :=
  match cmd with [] => false | _ :: cmd' => str_starts cmd (cs "initrd=") || has_initrd cmd' end.

Definition to_backslash (c : Z) : Z := if c =? chr "/" then 92 else c.

(** [full_cmd]: each loop stops at index 510. *)
Definition append510 (buf s : list Z) : list Z := buf ++ take (Z.to_nat (510 - zlen buf)) s.

Definition full_cmd (cmd initrd : list Z) : list Z :=
  let buf :=
    if negb (has_initrd cmd) && negb (bool_decide (initrd = [])) then
      let buf := append510 (append510 [] (cs "initrd=")) (map to_backslash initrd) in
      if bool_decide (cmd = []) then buf else buf ++ [32]
    else [] in
  append510 buf cmd.

(** What the loader does with the kernel's image, in order. *)
Inductive action := SetDevice (h : Z) | SetOptions (opts : list Z) (size : Z) | StartImage | UnloadImage.

(** [kbuf] is the file read, [load_ok] and [has_li] whether the image loads and has a
    loaded-image protocol; [dev] is the device of the file system, 0 for none. *)
Definition linux_load_uefi (kbuf : option (list Z)) (load_ok has_li alloc_ok : bool) (dev : Z) (e : BootEntry) : Z * list action :=
  match kbuf with
  | None => (0, [])
  | Some kbuf =>
    if zlen kbuf <? 512 then (0, [])
    else if negb load_ok then (0, [])
    else
      let opts := full_cmd (cmdline e) (initrd e) ++ [0] in
      (0, (if has_li then (if dev =? 0 then [] else [SetDevice dev]) ++ (if alloc_ok then [SetOptions opts (zlen opts * 2)] else [])
           else []) ++ [StartImage; UnloadImage])
  end.

(** ** BIOS *)

Definition LINUX_MAGIC : Z := 0x53726448.
Definition CAN_USE_HEAP : Z := 1 << 7.
Definition LOADER_TYPE : Z := 0xFF.
Definition BOOT_PARAMS_ADDR : Z := 0x90000.
Definition CMDLINE_ADDR : Z := 0x91000.
Definition KERNEL_ADDR : Z := 0x100000.
Definition INITRD_ADDR : Z := 0x02000000.
Definition KERNEL_BUF : Z := 16 * 1024 * 1024.
Definition INITRD_BUF : Z := 32 * 1024 * 1024.

(** Offsets of the setup header's fields from the start of the image. *)
Definition o_setup_sects : Z := 0x1F1.
Definition o_header : Z := 0x202.
Definition o_type_of_loader : Z := 0x210.
Definition o_loadflags : Z := 0x211.
Definition o_ramdisk_image : Z := 0x218.
Definition o_ramdisk_size : Z := 0x21C.
Definition o_heap_end_ptr : Z := 0x224.
Definition o_ext_loader_ver : Z := 0x226.
Definition o_cmd_line_ptr : Z := 0x228.

(** Fields of the boot parameters, and the terminated command line. *)
Definition set_header (m : mem) : mem :=
  let m := write m (BOOT_PARAMS_ADDR + o_type_of_loader) [LOADER_TYPE] in
  let m := write m (BOOT_PARAMS_ADDR + o_loadflags) [rd m (BOOT_PARAMS_ADDR + o_loadflags) 1 .| CAN_USE_HEAP] in
  let m := write m (BOOT_PARAMS_ADDR + o_heap_end_ptr) (le_bytes 2 0xFE00) in
  write m (BOOT_PARAMS_ADDR + o_ext_loader_ver) [0].

Definition str_copy_n (m : mem) (dst : Z) (src : list Z) (max : Z) : mem := write m dst (take (Z.to_nat (max - 1)) src ++ [0]).

Definition setup_sects (m : mem) (kbuf : Z) : Z :=
  if rd m (kbuf + o_setup_sects) 1 =? 0 then 4 else rd m (kbuf + o_setup_sects) 1.

Definition pm_size (ksize setup_size : Z) : Z := u32 (ksize - setup_size).

(** The copies, the kernel and the ramdisk lying at [kbuf] and [ibuf]. *)
Definition lay_out (m : mem) (kbuf ksize : Z) (ibuf : option Z) (isize : Z) (cmd : list Z) : mem :=
  let setup_size := u32 ((setup_sects m kbuf + 1) * 512) in
  let m := mem_set m BOOT_PARAMS_ADDR 0 4096 in
  let m := mem_copy m BOOT_PARAMS_ADDR kbuf (Z.min setup_size ksize) in
  let m := set_header m in
  let m := str_copy_n m CMDLINE_ADDR cmd 2048 in
  let m := write m (BOOT_PARAMS_ADDR + o_cmd_line_ptr) (le_bytes 4 CMDLINE_ADDR) in
  let m := mem_copy m KERNEL_ADDR (kbuf + setup_size) (pm_size ksize setup_size) in
  match ibuf with
  | Some ibuf =>
    if isize =? 0 then m
    else
      let m := mem_copy m INITRD_ADDR ibuf isize in
      let m := write m (BOOT_PARAMS_ADDR + o_ramdisk_image) (le_bytes 4 INITRD_ADDR) in
      write m (BOOT_PARAMS_ADDR + o_ramdisk_size) (le_bytes 4 isize)
  | None => m
  end.

(** [kf], [rf] are what opening and reading the files gives: size and bytes read, which
    land in the two static buffers; [None] when a file cannot be opened.  The result is
    the entry point, the memory, and the ramdisk's address and size in the boot
    information, 0 when they are not set. *)
Definition linux_load_bios (m : mem) (kbuf ibuf : Z) (kf rf : option (Z * list Z)) (e : BootEntry) : Z * mem * (Z * Z) :=
  match kf with
  | None => (0, m, (0, 0))
  | Some (ksize, kdata) =>
    if ksize >? KERNEL_BUF then (0, m, (0, 0))
    else
      let m := write m kbuf kdata in
      let '(m, ib, isize) :=
        if bool_decide (initrd e = []) then (m, None, 0)
        else
          match rf with
          | None => (m, None, 0)
          | Some (isize, idata) => if isize <=? INITRD_BUF then (write m ibuf idata, Some ibuf, isize) else (m, None, isize)
          end in
      if ksize <? 512 then (0, m, (0, 0))
      else if negb (rd m (kbuf + o_header) 4 =? LINUX_MAGIC) then (0, m, (0, 0))
      else
        (KERNEL_ADDR + 0x200, lay_out m kbuf ksize ib isize (cmdline e),
         match ib with Some _ => if isize =? 0 then (0, 0) else (INITRD_ADDR, isize) | None => (0, 0) end)
  end.

(** ** The command line *)

Lemma append510_take buf s : zlen buf <= 510 -> append510 buf s = take 510 (buf ++ s).
Proof. intros. unfold append510. rewrite take_app_ge by lia. do 2 f_equal. lia. Qed.

(** The command line a kernel is started with: the entry's own when it names an
    initial ramdisk already or the entry has none, otherwise [initrd=] with the
    ramdisk's path in backslashes, a space and the entry's own; it is cut at 510
    characters, so the 512 of the buffer are never exceeded for the strings an entry
    can hold.  The options handed to the kernel are that string with its terminator. *)
Theorem full_cmd_spec (cmd init : list Z) (Hi : zlen init <= 255) :
  full_cmd cmd init =
    take 510 (if has_initrd cmd || bool_decide (init = []) then cmd
              else cs "initrd=" ++ map to_backslash init ++ (if bool_decide (cmd = []) then [] else [32]) ++ cmd) /\
  zlen (full_cmd cmd init) <= 510 /\
  (forall kbuf dev e, 512 <= zlen kbuf -> dev <> 0 -> cmdline e = cmd -> initrd e = init ->
     linux_load_uefi (Some kbuf) true true true dev e =
       (0, [SetDevice dev; SetOptions (full_cmd cmd init ++ [0]) ((zlen (full_cmd cmd init) + 1) * 2); StartImage; UnloadImage])).
Proof.
  assert (full_cmd cmd init = take 510 (if has_initrd cmd || bool_decide (init = []) then cmd
              else cs "initrd=" ++ map to_backslash init ++ (if bool_decide (cmd = []) then [] else [32]) ++ cmd)) as E.
  { unfold full_cmd. assert (forall s, zlen (cs "initrd=" ++ map to_backslash s) = 7 + zlen s) as Hl.
    { intros s. rewrite length_app, length_map. change (length (cs "initrd=")) with 7%nat. lia. }
    assert (append510 (append510 [] (cs "initrd=")) (map to_backslash init) = cs "initrd=" ++ map to_backslash init) as ->.
    { change (append510 [] (cs "initrd=")) with (cs "initrd="). rewrite append510_take by (vm_compute; discriminate).
      apply take_ge. pose proof (Hl init). lia. }
    destruct (has_initrd cmd), (decide (init = [])) as [Hin|Hin]; rewrite ?(bool_decide_true _ Hin), ?(bool_decide_false _ Hin); cbn [negb andb orb];
      try by rewrite append510_take.
    pose proof (Hl init). rewrite append510_take.
    - case_bool_decide; by rewrite <- ?app_assoc, ?app_nil_l.
    - case_bool_decide; rewrite ?length_app; cbn [length]; rewrite ?length_app in *; lia. }
  split; [exact E|]. split; [rewrite E, length_take; lia|].
  intros kbuf dev e Hk Hd <- <-. unfold linux_load_uefi. rewrite (proj2 (Z.ltb_ge _ _)) by lia. cbn [negb].
  rewrite (proj2 (Z.eqb_neq dev 0)) by done. cbn [app]. do 3 f_equal. rewrite length_app. cbn [length]. do 2 f_equal. lia.
Qed.

Lemma full_cmd_spec_witness : full_cmd (cs "root=/dev/sda1") (cs "/boot/initrd.img") = cs "initrd=\boot\initrd.img root=/dev/sda1".
Proof.
  destruct (full_cmd_spec (cs "root=/dev/sda1") (cs "/boot/initrd.img")) as [-> _]; [vm_compute; discriminate|reflexivity].
Defined.

(** ** Physical memory *)

Lemma load_from m m' a b n : 0 <= n -> (forall i, 0 <= i < n -> m' (a + i) = m (b + i)) -> load m' a n = load m b n.
Proof.
  intros Hn H. unfold load. apply map_ext_in. intros i Hi%list_elem_of_In%elem_of_seqZ. apply H. lia.
Qed.

Lemma copied m d s n : 0 <= d -> 0 <= s -> 0 <= n -> d + n < 2 ^ 64 -> s + n < 2 ^ 64 -> (d + n <= s \/ s + n <= d) ->
  (forall x, x < d \/ d + n <= x -> mem_copy m d s n x = m x) /\ (forall i, 0 <= i < n -> mem_copy m d s n (d + i) = m (s + i)).
Proof.
  intros. pose proof (mem_copy_spec m d s n) as E. split.
  - intros x Hx. rewrite (E ltac:(lia) ltac:(lia) ltac:(lia) ltac:(lia) ltac:(lia) ltac:(lia) x). by apply splat_out.
  - intros i Hi. rewrite (E ltac:(lia) ltac:(lia) ltac:(lia) ltac:(lia) ltac:(lia) ltac:(lia) (d + i)), splat_in by lia. f_equal. lia.
Qed.

(** The addresses the loader changes in the boot parameters. *)
Definition header_byte (x : Z) : Prop :=
  let o := x - BOOT_PARAMS_ADDR in 0x210 <= o <= 0x211 \/ 0x218 <= o < 0x220 \/ 0x224 <= o <= 0x226 \/ 0x228 <= o < 0x22C.

Lemma set_header_out m x : ~ header_byte x -> set_header m x = m x.
Proof.
  intros H. unfold header_byte, BOOT_PARAMS_ADDR in H. unfold set_header, BOOT_PARAMS_ADDR, o_type_of_loader, o_loadflags, o_heap_end_ptr, o_ext_loader_ver.
  rewrite !write_out; [done|cbn [length]; rewrite ?le_bytes_length; lia..].
Qed.

Section Layout.
Context (m : mem) (kbuf ksize ibuf isize : Z) (cmd : list Z).
Hypothesis Hk : 0x4000000 <= kbuf /\ kbuf + ksize < 2 ^ 62 /\ 0 <= ksize <= KERNEL_BUF.
Hypothesis Hi : 0x4000000 <= ibuf /\ ibuf + isize < 2 ^ 62 /\ 0 < isize <= INITRD_BUF.
Hypothesis Hc : zlen cmd <= 255.
Local Abbreviation S := ((setup_sects m kbuf + 1) * 512).
Hypothesis HS : 0 <= setup_sects m kbuf <= 255 /\ S <= ksize.

Local Abbreviation m' := (lay_out m kbuf ksize (Some ibuf) isize cmd).

(** Memory before the kernel proper is copied: the high memory is as it was, the
    boot parameters are the start of the file but for the header and the command line. *)
Lemma before_kernel :
  exists m5, m' = (let m := mem_copy m5 KERNEL_ADDR (kbuf + S) (ksize - S) in
     let m := mem_copy m INITRD_ADDR ibuf isize in
     let m := write m (BOOT_PARAMS_ADDR + o_ramdisk_image) (le_bytes 4 INITRD_ADDR) in
     write m (BOOT_PARAMS_ADDR + o_ramdisk_size) (le_bytes 4 isize)) /\
  (forall x, 0xC0000 <= x -> m5 x = m x) /\
  (forall x, BOOT_PARAMS_ADDR <= x < BOOT_PARAMS_ADDR + S -> ~ header_byte x ->
     ~ (CMDLINE_ADDR <= x < CMDLINE_ADDR + zlen cmd + 1) -> m5 x = m (kbuf + (x - BOOT_PARAMS_ADDR))) /\
  load m5 CMDLINE_ADDR (zlen cmd + 1) = cmd ++ [0] /\
  rd m5 (BOOT_PARAMS_ADDR + o_cmd_line_ptr) 4 = CMDLINE_ADDR /\
  rd m5 (BOOT_PARAMS_ADDR + o_type_of_loader) 1 = LOADER_TYPE.
Proof using Hk Hi Hc HS.
  unfold KERNEL_BUF, INITRD_BUF in *.
  set (m1 := mem_set m BOOT_PARAMS_ADDR 0 4096). set (m2 := mem_copy m1 BOOT_PARAMS_ADDR kbuf S).
  set (m3 := set_header m2). set (m4 := str_copy_n m3 CMDLINE_ADDR cmd 2048).
  exists (write m4 (BOOT_PARAMS_ADDR + o_cmd_line_ptr) (le_bytes 4 CMDLINE_ADDR)). split.
  { unfold lay_out. rewrite (wrap_small 32 S) by lia. unfold pm_size. rewrite (wrap_small 32) by lia.
    rewrite (proj2 (Z.eqb_neq isize 0)) by lia. rewrite Z.min_l by lia. done. }
  assert (forall x, x < 0x90000 \/ 0x91000 <= x -> m1 x = m x) as H1.
  { intros x Hx. unfold m1. rewrite (mem_set_spec m BOOT_PARAMS_ADDR 0 4096 ltac:(done) ltac:(done) ltac:(done) x).
    apply splat_out. unfold BOOT_PARAMS_ADDR. lia. }
  destruct (copied m1 BOOT_PARAMS_ADDR kbuf S) as [H2o H2i]; try (unfold BOOT_PARAMS_ADDR; lia). fold m2 in H2o, H2i.
  unfold BOOT_PARAMS_ADDR, CMDLINE_ADDR, o_cmd_line_ptr, o_type_of_loader in *.
  assert (forall x, ~ header_byte x -> m3 x = m2 x) as H3 by (intros; by apply set_header_out).
  unfold header_byte, BOOT_PARAMS_ADDR in *.
  assert (zlen (take (Z.to_nat (2048 - 1)) cmd ++ [0]) = zlen cmd + 1) as Hcl by (rewrite length_app, length_take; cbn [length]; lia).
  assert (forall x, x < 0x91000 \/ 0x91000 + zlen cmd + 1 <= x -> m4 x = m3 x) as H4.
  { intros x Hx. unfold m4, str_copy_n. apply write_out. lia. }
  assert (zlen (le_bytes 4 0x91000) = 4) as Hlb by done.
  split_and!.
  - intros x Hx. rewrite write_out by lia. rewrite H4, H3, H2o, H1 by lia. done.
  - intros x Hx Hh Hcm. rewrite write_out by lia. rewrite H4, H3 by lia. replace x with (0x90000 + (x - 0x90000)) at 1 by lia.
    rewrite H2i by lia. apply H1. lia.
  - rewrite (load_ext _ m4) by (intros; apply write_out; lia). unfold m4, str_copy_n. rewrite load_write by done.
    by rewrite take_ge by lia.
  - unfold rd. by rewrite load_write.
  - unfold rd. rewrite (load_ext _ m3) by (intros; rewrite write_out by lia; apply H4; lia).
    change (load m3 (0x90000 + 0x210) 1) with [m3 (0x90000 + 0x210 + 0)]. unfold m3, set_header.
    unfold BOOT_PARAMS_ADDR, o_type_of_loader, o_loadflags, o_heap_end_ptr, o_ext_loader_ver.
    do 3 (rewrite write_out by (cbn [length]; rewrite ?le_bytes_length; lia)). rewrite write_in by (cbn [length]; lia). done.
Qed.
End Layout.


Definition demo_kmem (x : Z) : Z := if x =? 0x5000000 + 0x1F1 then 0 else u8 x.


(** A kernel file cut off inside its setup part: the size of the protected-mode part
    wraps, and almost 4 GiB are copied. *)
Lemma truncated_kernel_copies_4g ksize setup : 0 <= ksize < setup -> setup <= 131072 ->
  2 ^ 32 - 131072 <= pm_size ksize setup < 2 ^ 32.
Proof.
  intros H1 H2. unfold pm_size, wrap. replace (ksize - setup) with ((ksize - setup + 2 ^ 32) + (-1) * 2 ^ 32) by lia.
  rewrite Z_mod_plus_full, Z.mod_small by lia. lia.
Qed.
End Linux.
