(* ===== verification/Efi.v ===== *)
(** * Efi: paths and files of the firmware, shared by the UEFI side

    What the code uses of an open file of the Simple File System protocol, the path
    helpers of [uefi/uefi_loader.c] and its [read_file] on FAT volumes.  A [CHAR16]
    string is the list of its units before the terminator. *)

From S2P Require Import Prelude.

Module Efi.

(** An open file: the size [GetInfo] reports and what [Read] of [n] bytes delivers;
    [None] is an error status. *)
Record EfiFile := { FileSize : option Z; Read : Z -> option (list Z) }.

(** ** Strings *)

Definition utf8_to_ucs2 (src : list Z) (max : Z) : list Z := map (fun c => u8 c) (take (Z.to_nat (max - 1)) src).

(** The characters written before the terminator; one that is a multiple of 128 ends
    the string for its readers. *)
Definition ucs2_to_ascii (src : list Z) (max : Z) : list Z := map (fun c => c .& 0x7F) (take (Z.to_nat (max - 1)) src).

Definition not_slash (c : Z) : bool := negb (c =? 47).

(** The string left in [out], an array of [max >= 1] characters. *)
Definition efi_path_join (parent child : list Z) (max : Z) : list Z :=
  let out := take (Z.to_nat (max - 1)) parent in
  let out :=
    match last out with
    | Some c => if negb (c =? 47) && (zlen out + 1 <? max) then out ++ [47] else out
    | None => out
    end in
  out ++ take (Z.to_nat (max - 1 - zlen out)) (skip_while (fun c => c =? 47) child).

(** The path as the firmware wants it: at most 255 units, backslashes. *)
Definition wpath (path : list Z) : list Z := map (fun c => if c =? 47 then 92 else u8 c) (take 255 path).

(** ** Reading a file *)

Section Files.
(** [Open root path] on the volume with the root directory [root]. *)
Context (Open : Z -> list Z -> option EfiFile) (alloc : Z -> bool).

Definition open_path (root : Z) (path : list Z) : option EfiFile := Open root (wpath path).

(** The branch of [read_file] for FAT volumes: the bytes and, their number, the size. *)
Definition read_file_fat (root : Z) (path : list Z) : option (list Z) :=
  match Open root (wpath path) with
  | None => None
  | Some f =>
    match FileSize f with
    | None => None
    | Some file_size =>
      if negb (alloc (file_size + 1)) then None
      else Read f file_size
    end
  end.
End Files.

(** ** Joining paths *)

Lemma last_snoc_inv (l : list Z) c : last l = Some c -> exists l', l = l' ++ [c].
Proof. intros H. exists (take (length l - 1) l). apply last_Some in H as [l' ->]. rewrite length_app, take_app_le by (cbn; lia). rewrite take_ge; [done|cbn; lia]. Qed.

Lemma efi_path_join_fits parent child max : 1 <= max -> zlen (efi_path_join parent child max) < max.
Proof.
  intros Hm. unfold efi_path_join. set (out := take _ parent).
  assert (zlen out <= max - 1) as Ho by (unfold out; rewrite length_take; lia).
  set (out' := match last out with Some c => _ | None => out end).
  assert (zlen out' <= max - 1) as Ho'.
  { unfold out'. destruct (last out) as [c|]; [|done]. destruct (negb (c =? 47)); cbn [andb]; [|done].
    destruct (Z.ltb_spec (zlen out + 1) max); [|done]. rewrite length_app. cbn [length]. lia. }
  rewrite length_app, length_take. lia.
Qed.

Lemma efi_path_join_spec parent child max :
  zlen parent + 1 + zlen child < max -> parent <> [] ->
  efi_path_join parent child max =
    (if bool_decide (last parent = Some 47) then parent else parent ++ [47]) ++ skip_while (fun c => c =? 47) child.
Proof.
  intros Hm Hp. unfold efi_path_join. rewrite (take_ge parent) by lia.
  pose proof (skip_while_length (fun c => c =? 47) child) as Hs.
  destruct (last parent) as [c|] eqn:E; [|by apply last_None in E]. rewrite (proj2 (Z.ltb_lt _ _)), andb_true_r by lia.
  destruct (Z.eqb_spec c 47) as [->|Hne]; cbn [negb].
  - rewrite bool_decide_true by done. by rewrite take_ge by lia.
  - rewrite bool_decide_false by congruence. rewrite (take_ge (skip_while _ _)); [done|]. rewrite length_app. cbn [length]. lia.
Qed.

Lemma efi_path_join_nonzero parent child max : nonzero parent -> nonzero child -> nonzero (efi_path_join parent child max).
Proof.
  intros Hp Hc. unfold efi_path_join. apply Forall_app. split; [|by apply Forall_take, skip_while_nonzero].
  destruct (last _); [|by apply Forall_take]. destruct (_ && _); [|by apply Forall_take].
  apply Forall_app. split; [by apply Forall_take|by repeat constructor].
Qed.
End Efi.
