(* ===== verification/Windows.v ===== *)
(** * Windows: chain-loading the Windows Boot Manager, [os/windows.c]

    Under UEFI the loader looks for the boot manager's image on the boot volume and then
    on every volume; under BIOS it picks a partition from the partition table and loads
    its boot record.  Volumes, image loading and disk sectors are arguments. *)

From S2P Require Import Prelude Mem Config Efi.
Import Mem Config Efi.

Module Windows.

Definition windows_can_load (e : BootEntry) : bool := bool_decide (type e = OS_TYPE_WINDOWS).

(** ** UEFI *)

Definition backslashed (s : list Z) : list Z := map (fun c => if c =? 47 then 92 else c) s.

Definition WIN_BOOTMGR_PATHS : list (list Z) :=
  map backslashed [cs "/EFI/Microsoft/Boot/bootmgfw.efi"; cs "/EFI/Boot/bootmgfw.efi"; cs "/bootmgfw.efi"].

Definition ascii_to_ucs2_path (src : list Z) (max : Z) : list Z :=
  map (fun c => if c =? 47 then 92 else u8 c) (take (Z.to_nat (max - 1)) src).

Inductive action := SetDevice (img sfs : Z) | StartImage (img : Z) | UnloadImage (img : Z).

Section Uefi.
(** Whether a volume opens; its files; the pool, with what it holds when it is
    allocated; the handle of an image loaded with or without boot policy; whether an
    image has a loaded-image protocol. *)
Context (opens : Z -> bool) (Open : Z -> list Z -> option EfiFile) (alloc : Z -> bool) (pool : list Z).
Context (LoadImage : bool -> list Z -> option Z) (has_li : Z -> bool).

(** The buffer, of the size [GetInfo] reports, 0 when it fails; a short read leaves the
    end of it as it was. *)
Definition read_efi_file (sfs : Z) (path : list Z) : option (list Z) :=
  match Open sfs (ascii_to_ucs2_path path 256) with
  | None => None
  | Some fh =>
    let file_sz := default 0 (FileSize fh) in
    if negb (file_sz >? 0) || negb (alloc file_sz) then None
    else
      match Read fh file_sz with
      | None => None
      | Some d => if zlen d =? 0 then None else Some (d ++ take (Z.to_nat (file_sz - zlen d)) (drop (length d) pool))
      end
  end.

(** The loop over the paths; [None] is an error status. *)
Fixpoint try_paths (sfs : Z) (paths : list (list Z)) : option Z :=
  match paths with
  | [] => None
  | p :: paths =>
    match read_efi_file sfs p with
    | None => try_paths sfs paths
    | Some fbuf =>
      if zlen fbuf <? 2 then try_paths sfs paths
      else if negb (nthZ fbuf 0 =? 0x4D) || negb (nthZ fbuf 1 =? 0x5A) then try_paths sfs paths
      else
        match (match LoadImage true fbuf with Some i => Some i | None => LoadImage false fbuf end) with
        | Some img => Some img
        | None => try_paths sfs paths
        end
    end
  end.

Definition paths_of (explicit : list Z) : list (list Z) := (if bool_decide (explicit = []) then [] else [explicit]) ++ WIN_BOOTMGR_PATHS.

(** Status and handle; the handle is 0 when none was stored. *)
Definition try_load_bootmgr_on_handle (sfs : Z) (explicit : list Z) : option Z * list action :=
  if negb (opens sfs) then (None, [])
  else
    match try_paths sfs (paths_of explicit) with
    | Some img => (Some img, if negb (img =? 0) && has_li img then [SetDevice img sfs] else [])
    | None => (None, [])
    end.

(** The scan of all volumes until a handle is stored. *)
Fixpoint scan_handles (handles : list Z) (explicit : list Z) (acts : list action) : option Z * list action :=
  match handles with
  | [] => (None, acts)
  | h :: handles =>
    let '(r, a) := try_load_bootmgr_on_handle h explicit in
    match r with
    | Some img => if img =? 0 then scan_handles handles explicit (acts ++ a) else (Some img, acts ++ a)
    | None => scan_handles handles explicit (acts ++ a)
    end
  end.

(** [boot_dev] is 0 when the file system is no FAT volume; the loader always returns 0. *)
Definition windows_load (boot_dev : Z) (handles : list Z) (e : BootEntry) : Z * list action :=
  let '(r, acts) :=
    if boot_dev =? 0 then (None, [])
    else try_load_bootmgr_on_handle boot_dev (kernel e) in
  let '(r, acts) :=
    match r with
    | Some img => if img =? 0 then scan_handles handles (kernel e) acts else (Some img, acts)
    | None => scan_handles handles (kernel e) acts
    end in
  match r with
  | Some img => (0, acts ++ [StartImage img; UnloadImage img])
  | None => (0, acts)
  end.

(** ** The candidates in order *)

(** Every volume and path the loader may try. *)
Definition candidates (vols : list Z) (explicit : list Z) : list (Z * list Z) :=
  flat_map (fun sfs => if opens sfs then map (pair sfs) (paths_of explicit) else []) vols.

(** The image a candidate gives, if it is a PE file the firmware accepts. *)
Definition image_of (c : Z * list Z) : option (Z * Z) :=
  match read_efi_file (fst c) (snd c) with
  | Some fbuf =>
    if (2 <=? zlen fbuf) && (nthZ fbuf 0 =? 0x4D) && (nthZ fbuf 1 =? 0x5A) then
      match LoadImage true fbuf, LoadImage false fbuf with
      | Some i, _ => Some (fst c, i)
      | None, Some i => Some (fst c, i)
      | None, None => None
      end
    else None
  | None => None
  end.

Definition hand_off (img : option (Z * Z)) : list action :=
  match img with
  | Some (sfs, i) => (if has_li i then [SetDevice i sfs] else []) ++ [StartImage i; UnloadImage i]
  | None => []
  end.

(** A loaded image has a handle. *)
Hypothesis Himg : forall policy buf, LoadImage policy buf <> Some 0.

Lemma try_paths_head sfs paths : try_paths sfs paths = snd <$> head (omap image_of (map (pair sfs) paths)).
Proof using.
  clear. induction paths as [|p ps IH]; [done|]. cbn [try_paths map omap list_omap]. unfold image_of at 1. cbn [fst snd].
  destruct (read_efi_file sfs p) as [fbuf|]; [|done]. rewrite Z.ltb_antisym.
  destruct (2 <=? zlen fbuf); cbn [negb andb]; [|done].
  destruct (nthZ fbuf 0 =? 77), (nthZ fbuf 1 =? 90); cbn [negb orb andb]; try done.
  by destruct (LoadImage true fbuf), (LoadImage false fbuf).
Qed.

Lemma try_handle sfs explicit :
  let imgs := omap image_of (candidates [sfs] explicit) in
  try_load_bootmgr_on_handle sfs explicit =
    (snd <$> head imgs, match head imgs with Some (v, i) => if has_li i then [SetDevice i v] else [] | None => [] end) /\
  (forall v i, head imgs = Some (v, i) -> v = sfs /\ i <> 0).
Proof using Himg.
  cbn zeta. unfold try_load_bootmgr_on_handle, candidates. cbn [flat_map]. rewrite app_nil_r. destruct (opens sfs); cbn [negb]; [|done].
  rewrite try_paths_head.
  assert (forall v i, head (omap image_of (map (pair sfs) (paths_of explicit))) = Some (v, i) -> v = sfs /\ i <> 0) as H.
  { intros v i Hh. assert ((v, i) ∈ omap image_of (map (pair sfs) (paths_of explicit))) as Hin.
    { destruct (omap _ _); [done|]. injection Hh as ->. set_solver. }
    apply list_elem_of_omap in Hin as ([sfs' p] & Hp & Himg').
    apply list_elem_of_fmap in Hp as (p' & [= -> ->] & _). unfold image_of in Himg'. cbn [fst snd] in Himg'.
    destruct (read_efi_file sfs p') as [fb|]; [|done]. destruct (_ && _); [|done].
    destruct (LoadImage true fb) as [j|] eqn:E1, (LoadImage false fb) as [k|] eqn:E2; simplify_eq; split; try done; intros ->;
      by eapply Himg. }
  split; [|done]. destruct (head _) as [[v i]|] eqn:E; [|done]. destruct (H v i eq_refl) as [-> Hi]. cbn [fmap option_fmap option_map snd].
  by rewrite (proj2 (Z.eqb_neq i 0)).
Qed.

Lemma candidates_cons sfs vols explicit : candidates (sfs :: vols) explicit = candidates [sfs] explicit ++ candidates vols explicit.
Proof using. clear. unfold candidates. cbn [flat_map]. by rewrite app_nil_r. Qed.

Lemma scan_handles_head vols explicit acts :
  scan_handles vols explicit acts =
    let imgs := omap image_of (candidates vols explicit) in
    (snd <$> head imgs, acts ++ match head imgs with Some (v, i) => if has_li i then [SetDevice i v] else [] | None => [] end).
Proof using Himg.
  revert acts. induction vols as [|sfs vols IH]; intros acts; cbn [scan_handles]; [by rewrite app_nil_r|].
  rewrite candidates_cons, omap_app. destruct (try_handle sfs explicit) as [-> H]. cbn zeta.
  destruct (omap image_of (candidates [sfs] explicit)) as [|[v i] l]; cbn [head fmap option_fmap option_map snd app].
  - rewrite IH. by rewrite app_nil_r.
  - destruct (H v i eq_refl) as [-> Hi]. by rewrite (proj2 (Z.eqb_neq i 0)).
Qed.
End Uefi.

(** Of all the places it looks in, the loader starts the first that holds an image: the
    volume the entry was found on before all others, on each volume the entry's own path
    before the three well-known ones, and only files that start with MZ and that the
    firmware loads; the image is told the volume it came from. *)
Theorem windows_first_image (opens : Z -> bool) (Open : Z -> list Z -> option EfiFile) (alloc : Z -> bool) (pool : list Z)
    (LoadImage : bool -> list Z -> option Z) (has_li : Z -> bool) (boot_dev : Z) (handles : list Z) (e : BootEntry)
    (Himg : forall policy buf, LoadImage policy buf <> Some 0) :
  let vols := (if boot_dev =? 0 then [] else [boot_dev]) ++ handles in
  windows_load opens Open alloc pool LoadImage has_li boot_dev handles e =
    (0, hand_off has_li (head (omap (image_of Open alloc pool LoadImage) (candidates opens vols (kernel e))))).
Proof.
  cbn zeta. unfold windows_load. destruct (boot_dev =? 0) eqn:E0; cbn [app].
  - rewrite scan_handles_head by done. cbn zeta. cbn [app].
    by destruct (head (omap (image_of Open alloc pool LoadImage) (candidates opens handles (kernel e)))) as [[v i]|].
  - destruct (try_handle opens Open alloc pool LoadImage has_li Himg boot_dev (kernel e)) as [-> H].
    rewrite (candidates_cons opens boot_dev handles), omap_app.
    destruct (omap _ (candidates opens [boot_dev] (kernel e))) as [|[v i] l]; cbn [head fmap option_fmap option_map snd app].
    + rewrite scan_handles_head by done. cbn zeta. cbn [app].
      by destruct (head (omap (image_of Open alloc pool LoadImage) (candidates opens handles (kernel e)))) as [[v i]|].
    + destruct (H v i eq_refl) as [-> Hi]. by rewrite (proj2 (Z.eqb_neq i 0)).
Qed.

Definition file_of (l : list Z) : EfiFile := {| FileSize := Some (zlen l); Read := fun n => Some (take (Z.to_nat n) l) |}.
Definition demo_files (sfs : Z) (wpath : list Z) : option EfiFile :=
  if (sfs =? 7) && bool_decide (wpath = backslashed (cs "/EFI/Boot/bootmgfw.efi")) then Some (file_of [0x4D; 0x5A; 1; 2])
  else if (sfs =? 5) && bool_decide (wpath = backslashed (cs "/win.efi")) then Some (file_of [0x4D; 0x5B]) else None.
Definition demo_entry : BootEntry :=
  {| name := []; type := OS_TYPE_WINDOWS; kernel := cs "/win.efi"; initrd := []; cmdline := []; encrypted := 0;
     luks_keyfile := []; luks_tries := 0 |}.
Definition demo_image (policy : bool) (buf : list Z) : option Z := if policy then None else Some 33.

Lemma windows_first_image_witness :
  windows_load (fun _ => true) demo_files (fun _ => true) [] demo_image (fun _ => true) 5 [5; 6; 7] demo_entry =
    (0, [SetDevice 33 7; StartImage 33; UnloadImage 33]).
Proof.
  rewrite (windows_first_image (fun _ => true) demo_files (fun _ => true) [] demo_image (fun _ => true) 5 [5; 6; 7]);
    [reflexivity|by intros [] ?].
Defined.

(** ** BIOS *)

Record WinMBRPart := { status : Z; ptype : Z; first_lba : Z }.

Definition part (mbr : list Z) (i : Z) : WinMBRPart :=
  {| status := nthZ mbr (446 + i * 16); ptype := nthZ mbr (446 + i * 16 + 4);
     first_lba := le_val (map (nthZ mbr) (seqZ (446 + i * 16 + 8) 4)) |}.

Definition is_win_part_type (t : Z) : bool := (t =? 0x07) || (t =? 0x0C) || (t =? 0x0B).

Definition VBR_LOAD_ADDR : Z := 0x7C00.
Definition VBR_BOOT_SIG : Z := 0xAA55.

(** The loop over the table: first Windows partition, first active one. *)
Definition pick_part (acc : Z * Z) (p : WinMBRPart) : Z * Z :=
  let '(win_lba, active_lba) := acc in
  if negb (is_win_part_type (ptype p)) then acc
  else (if win_lba =? 0 then first_lba p else win_lba,
        if (status p =? 0x80) && (active_lba =? 0) then first_lba p else active_lba).

(** The first sector of the partition chosen, 0 for none. *)
Definition windows_target (mbr : list Z) : Z :=
  let '(win_lba, active_lba) := foldl pick_part (0, 0) (map (part mbr) (seqZ 0 4)) in
  if active_lba =? 0 then win_lba else active_lba.

(** [sector lba] is the buffer after [disk_read], whose result is ignored. *)
Definition windows_load_bios (sector : Z -> list Z) (m : mem) : Z * mem :=
  let target_lba := windows_target (sector 0) in
  if target_lba =? 0 then (0, m)
  else
    let vbr := sector target_lba in
    if negb (nthZ vbr 510 .| (nthZ vbr 511 << 8) =? VBR_BOOT_SIG) then (0, m)
    else (VBR_LOAD_ADDR, write m VBR_LOAD_ADDR (take 512 vbr)).

(** A Windows partition that starts somewhere, and an active one. *)
Definition win_part (p : WinMBRPart) : bool := is_win_part_type (ptype p) && negb (first_lba p =? 0).
Definition active_part (p : WinMBRPart) : bool := win_part p && (status p =? 0x80).

Definition lba_of (p : option WinMBRPart) : Z := match p with Some p => first_lba p | None => 0 end.

Lemma pick_part_find ps a b :
  foldl pick_part (a, b) ps =
    (if a =? 0 then lba_of (find win_part ps) else a, if b =? 0 then lba_of (find active_part ps) else b).
Proof.
  revert a b. induction ps as [|p ps IH]; intros a b; cbn [foldl find].
  { cbn. destruct (Z.eqb_spec a 0), (Z.eqb_spec b 0); by subst. }
  assert (active_part p = win_part p && (status p =? 128)) as -> by done.
  assert (win_part p = is_win_part_type (ptype p) && negb (first_lba p =? 0)) as -> by done. unfold pick_part at 2.
  destruct (is_win_part_type (ptype p)); cbn [negb andb]; [|apply IH]. rewrite IH.
  destruct (Z.eqb_spec a 0), (Z.eqb_spec b 0), (status p =? 128), (Z.eqb_spec (first_lba p) 0) as [E|E]; cbn [negb andb lba_of];
    rewrite ?E, ?(proj2 (Z.eqb_neq _ _) E); subst; rewrite ?(proj2 (Z.eqb_neq _ _)) by done; try done.
Qed.

(** Under BIOS the partition chosen is the first active Windows partition, else the
    first Windows partition, that starts at a sector other than 0; its boot record is
    put at 0x7C00 when it carries the boot signature, and in every other case memory
    is left alone and the loader reports failure. *)
Theorem windows_bios_partition (sector : Z -> list Z) (m : mem) :
  let parts := map (part (sector 0)) (seqZ 0 4) in
  let target := match find active_part parts with Some p => first_lba p | None => lba_of (find win_part parts) end in
  let vbr := sector target in
  windows_load_bios sector m =
    if negb (target =? 0) && (nthZ vbr 510 .| (nthZ vbr 511 << 8) =? VBR_BOOT_SIG)
    then (VBR_LOAD_ADDR, write m VBR_LOAD_ADDR (take 512 vbr)) else (0, m).
Proof.
  cbn zeta. unfold windows_load_bios, windows_target. rewrite pick_part_find. cbn [Z.eqb].
  assert (forall ps, match find active_part ps with Some p => first_lba p | None => lba_of (find win_part ps) end =
    if lba_of (find active_part ps) =? 0 then lba_of (find win_part ps) else lba_of (find active_part ps)) as ->.
  { intros ps. destruct (find active_part ps) as [p|] eqn:E; cbn [lba_of]; [|done]. apply find_some in E as [_ E].
    unfold active_part, win_part in E. destruct (first_lba p =? 0); [|done]. by rewrite !andb_false_r in E. }
  cbn [Z.eqb]. change (0 =? 0) with true. cbv iota.
  generalize (if lba_of (find active_part (map (part (sector 0)) (seqZ 0 4))) =? 0
    then lba_of (find win_part (map (part (sector 0)) (seqZ 0 4)))
    else lba_of (find active_part (map (part (sector 0)) (seqZ 0 4)))). intros t.
  destruct (t =? 0); cbn [negb andb]; [done|]. by destruct (_ =? VBR_BOOT_SIG).
Qed.
End Windows.
