(* ===== verification/Handover.v ===== *)
(** * Handover: the loaders under BIOS, and entering the kernel, [os/vios.c], [os/linux.c], [os/windows.c]

    Reading a kernel through the FAT driver into the loaders' static buffers, the
    [load] functions of the BIOS build on top of it, and the assembly of the [boot]
    functions over the registers they touch.  [None] outside is behaviour C leaves
    undefined. *)

From S2P Require Import Prelude Iface Mem Disk Fat Config Elf Linux Windows.
Import Mem Config.

Module Handover.

(** ** Loading under BIOS *)

Definition VIOS_BUF : Z := 8 * 1024 * 1024.

Section Bios.
Context `{BlockDev} (stack : list Z).

(** A file opened, measured, read into a static buffer of [limit] bytes unless it is
    larger, and closed: its size and the bytes read. *)
Definition read_static (limit : Z) (f : Fat.fat) (path : list Z) : option (option (Z * option (list Z)) * Fat.fat) :=
  o ← Fat.fat_open stack f path;
  match o with
  | (None, f) => Some (None, f)
  | (Some h, f) =>
    sz ← Fat.fat_file_size f (Some h);
    if sz >? limit then Some (Some (sz, None), Fat.fat_close f (Some h))
    else d ← Fat.fat_read f (Some h) sz; Some (Some (sz, Some (fst d)), Fat.fat_close (snd d) (Some h))
  end.

(** The size and what has been read; [None] is the null pointer. *)
Definition read_kernel_bios (f : Fat.fat) (e : BootEntry) : option (option (Z * list Z) * Fat.fat) :=
  r ← read_static VIOS_BUF f (kernel e);
  Some (match fst r with Some (sz, Some d) => Some (sz, d) | _ => None end, snd r).

(** [kernel_buf] is the address of the static buffer. *)
Definition vios_load_bios (a : Elf.arch) (kernel_buf : Z) (f : Fat.fat) (m : mem) (e : BootEntry) : option (Z * mem * Fat.fat) :=
  r ← read_kernel_bios f e;
  match fst r with
  | None => Some (0, m, snd r)
  | Some (size, d) =>
    let m := write m kernel_buf d in
    if size =? 0 then Some (0, m, snd r)
    else l ← Elf.elf64_load a m kernel_buf size; Some (l, snd r)
  end.

(** What the Linux loader sees of a file. *)
Definition seen (x : option (Z * option (list Z))) : option (Z * list Z) := (fun p => (fst p, default [] (snd p))) <$> x.

(** The two files of a Linux entry; the ramdisk is looked for only once the kernel has
    been read. *)
Definition linux_files (f : Fat.fat) (e : BootEntry) : option (option (Z * list Z) * option (Z * list Z) * Fat.fat) :=
  k ← read_static Linux.KERNEL_BUF f (kernel e);
  r ← (match fst k with
       | Some (_, Some _) => if bool_decide (initrd e = []) then Some (None, snd k) else read_static Linux.INITRD_BUF (snd k) (initrd e)
       | _ => Some (None, snd k)
       end);
  Some (seen (fst k), seen (fst r), snd r).

Definition linux_load_fat (kbuf ibuf : Z) (f : Fat.fat) (m : mem) (e : BootEntry) : option (Z * mem * (Z * Z) * Fat.fat) :=
  r ← linux_files f e;
  Some (Linux.linux_load_bios m kbuf ibuf (fst (fst r)) (snd (fst r)) e, snd r).
End Bios.

(** ** Entering the kernel *)

Inductive reg := RAX | RBX | RCX | RDX | RSI | RDI | RBP | RSP | R8 | R9 | R10 | R11 | R12 | R13 | R14 | R15.

#[export] Instance reg_eq_dec : EqDecision reg.
Proof. solve_decision. Defined.

(** The general registers, the address and the code segment execution continues at, and
    the words on the stack, its top first. *)
Record cpu := { regs : reg -> Z; rip : Z; csel : Z; words : list Z }.

Inductive instr := Xor (r : reg) | MovI (v : Z) (d : reg) | Mov (s d : reg) | MovB (s d : reg) | PushI (v : Z) | Jmp (r : reg) | LRet.

Definition set (c : cpu) (r : reg) (v : Z) : cpu :=
  {| regs := fun x => if decide (x = r) then v else regs c x; rip := rip c; csel := csel c; words := words c |}.

(** [Xor] of a register with itself; [MovB] replaces the low byte. *)
Definition exec (c : cpu) (i : instr) : option cpu :=
  match i with
  | Xor r => Some (set c r 0)
  | MovI v d => Some (set c d v)
  | Mov s d => Some (set c d (regs c s))
  | MovB s d => Some (set c d ((regs c d - u8 (regs c d)) + u8 (regs c s)))
  | PushI v => Some {| regs := regs c; rip := rip c; csel := csel c; words := u64 v :: words c |}
  | Jmp r => Some {| regs := regs c; rip := regs c r; csel := csel c; words := words c |}
  | LRet =>
    match words c with
    | ip :: sel :: w => Some {| regs := regs c; rip := ip; csel := u16 sel; words := w |}
    | _ => None
    end
  end.

Definition run (c : cpu) (code : list instr) : option cpu := foldlO exec c code.

(** The statements of the 64-bit builds; [op] is the register the compiler has chosen
    for the operand with the constraint "r". *)
Definition vios_boot (op : reg) : list instr := [Mov op RDI; Jmp RAX].

Definition linux_boot (op : reg) : list instr :=
  [Xor RAX; Xor RBX; Xor RCX; Xor RDX; Xor RDI; MovI Linux.BOOT_PARAMS_ADDR RSI; Jmp op].

Definition windows_boot (op : reg) : list instr := [MovB op RDX; PushI 0; PushI Windows.VBR_LOAD_ADDR; LRet].

(** ** Proofs *)


Section Reading.
Context `{BlockDev} (sector : Z -> list Z) `{!BlockDevImage sector} (stack : list Z).

Lemma file_bytes_bytes f x : bytes (Fat.file_bytes sector f x).
Proof using BlockDevImage0.
  unfold Fat.file_bytes, Fat.chain_data, Fat.cluster_data. apply Forall_take, flat_map_bytes. intros k. apply flat_map_bytes.
  intros lba. apply sector_bytes.
Qed.

(** A file that fits is read whole, and its handle is free again. *)
Lemma read_static_file limit f n names e i :
  Fat.wf f -> 0 < Fat.g_spc f -> length (Fat.g_file_pool f) = length (Fat.g_pool_used f) ->
  Forall Fat.name_ok (n :: names) -> Fat.resolves stack f (Fat.g_root_cluster f) (n :: names) e ->
  Fat.first_free (Fat.g_pool_used f) = Some i -> Fat.chain_ok sector f (Fat.fresh e) -> Fat.de_size e <= limit ->
  exists f', read_static stack limit f (Fat.path_of (n :: names)) = Some (Some (Fat.de_size e, Some (Fat.file_bytes sector f (Fat.fresh e))), f') /\
    Fat.g_pool_used f' = Fat.g_pool_used f.
Proof using BlockDevImage0.
  intros Hw Hspc Hpool Hok Hr Hi Hch Hsz.
  destruct (Fat.fat_open_resolves sector stack f n names e i) as (f1 & HO & [Hp Hu Hfree Hw1 Hc Hat Hch1 Hb]); [done..|].
  unfold read_static. rewrite HO. cbn [mbind option_bind Fat.fat_file_size]. rewrite Hp. cbn [mbind option_bind Fat.file_size Fat.fresh].
  destruct (Z.gtb_spec (Fat.de_size e) limit); [lia|].
  assert (0 <= Fat.de_size e) as Hs0 by (destruct Hat as (Ho & _); cbn in Ho; lia).
  assert (0 < Fat.csize f1) as Hc1 by (rewrite Hc; unfold Fat.csize; lia).
  destruct (Fat.fat_read_spec sector f1 i (Fat.fresh e) (Fat.de_size e)) as (f2 & x' & HR & _ & Hsb & _); auto.
  cbn zeta in HR. rewrite HR. cbn [mbind option_bind fst snd]. eexists. split.
  - do 5 f_equal. cbn [Fat.offset Fat.fresh Fat.file_size]. rewrite Z.sub_0_r, Z.min_id, drop_0, Hb. apply take_ge.
    pose proof (Fat.file_bytes_length sector f1 (Fat.fresh e) Hw1 Hc1 Hs0) as Hl. rewrite Hb in Hl. cbn [Fat.file_size Fat.fresh] in Hl. lia.
  - cbn. by rewrite <- (Fat.sb_used i f1 f2 Hsb).
Qed.
End Reading.

(** ** Theorems *)

(** [C11] The ViOS loader under BIOS, through the file system: an entry whose path leads
    to a file of 1 byte to 8 MiB is loaded as the ELF file that the cluster chain
    holds.  With the wrong header the entry point is 0 and memory has only the file in
    the static buffer; with the right one, and its segments inside the file and away
    from the buffer, the entry point is the header's and memory is the file with its
    segments placed in order.  In both cases the file is closed again. *)
Theorem vios_load_bios_places `{BlockDev} (sector : Z -> list Z) `{!BlockDevImage sector} (stack : list Z)
    (a : Elf.arch) (kernel_buf : Z) (f : Fat.fat) (m : mem) (e : BootEntry) (n : list Z) (names : list (list Z)) (de : list Z) (i : nat)
    (Hw : Fat.wf f) (Hspc : 0 < Fat.g_spc f) (Hpool : length (Fat.g_file_pool f) = length (Fat.g_pool_used f))
    (Hok : Forall Fat.name_ok (n :: names)) (Hpath : kernel e = Fat.path_of (n :: names))
    (Hr : Fat.resolves stack f (Fat.g_root_cluster f) (n :: names) de)
    (Hi : Fat.first_free (Fat.g_pool_used f) = Some i) (Hch : Fat.chain_ok sector f (Fat.fresh de))
    (Hsz : 0 < Fat.de_size de <= VIOS_BUF) (Hbuf : 0 <= kernel_buf /\ kernel_buf + Fat.de_size de < 2 ^ 64) :
  let F := Fat.file_bytes sector f (Fat.fresh de) in
  let m1 := write m kernel_buf F in
  exists f', Fat.g_pool_used f' = Fat.g_pool_used f /\
    (Elf.header_ok a F = false -> vios_load_bios stack a kernel_buf f m e = Some (0, m1, f')) /\
    (Elf.header_ok a F = true -> (forall i, 0 <= i < Elf.field F 56 2 -> Elf.segment_ok F kernel_buf i) ->
     exists m', vios_load_bios stack a kernel_buf f m e = Some (Elf.field F 24 8, m', f') /\
       m' ≡ foldl (Elf.place F) m1 (map (Elf.segment_of F) (seqZ 0 (Elf.field F 56 2)))).
Proof.
  cbn zeta. set (F := Fat.file_bytes sector f (Fat.fresh de)). set (m1 := write m kernel_buf F).
  destruct (read_static_file sector stack VIOS_BUF f n names de i) as (f' & HR & Hu); [done..|by destruct Hsz|].
  assert (zlen F = Fat.de_size de) as HF.
  { assert (0 < Fat.csize f) by (unfold Fat.csize; lia). assert (0 <= Fat.file_size (Fat.fresh de)) by (destruct Hsz; cbn [Fat.file_size Fat.fresh]; lia).
    by apply (Fat.file_bytes_length sector f (Fat.fresh de)). }
  assert (bytes F) as HB by by apply file_bytes_bytes. assert (Elf.holds F kernel_buf m1) as Hm by by apply load_write.
  exists f'. split; [done|]. unfold vios_load_bios, read_kernel_bios. rewrite Hpath, HR. cbn [mbind option_bind fst snd]. fold F. fold m1.
  rewrite (proj2 (Z.eqb_neq _ _)) by lia. rewrite <- HF in Hbuf |- *. split.
  - intros Hh. by rewrite (Elf.elf64_load_refuses a m1 kernel_buf F HB Hm Hh).
  - intros Hh Hseg. destruct (Elf.elf64_load_accepts a m1 kernel_buf F HB Hm Hbuf Hh Hseg) as (m2 & -> & Hm2). by exists m2.
Qed.

(** A volume with one kernel. *)
Definition kernel_dirent : list Z := Fat.mk_dirent (cs "KERNEL  ") (cs "ELF") 0x20 3 (zlen Elf.demo_elf).
Definition kernel_img (lba : Z) : list Z :=
  if lba =? 1 then Fat.pad512 (flat_map (le_bytes 4) [0x0FFFFFFF; 0x0FFFFFFF; 0x0FFFFFFF; 0x0FFFFFFF])
  else if lba =? 2 then Fat.pad512 kernel_dirent
  else if lba =? 3 then Fat.pad512 Elf.demo_elf
  else repeat 0 512.

Definition kernel_dev : BlockDev := disk_dev true (Fat.serve kernel_img) 0x80.

Lemma kernel_image : @BlockDevImage kernel_img kernel_dev.
Proof.
  apply disk_dev_image; [done|apply Fat.bios_serve|..]; intros lba; unfold kernel_img; repeat case_match;
    try (apply Fat.pad512_length || apply repeat_length || apply zeros_bytes); apply Fat.pad512_bytes; by apply (bool_decide_unpack _).
Qed.

Definition kernel_entry : BootEntry :=
  {| name := cs "Demo"; type := OS_TYPE_ELF64; kernel := cs "/kernel.elf"; initrd := []; cmdline := []; encrypted := 0; luks_keyfile := []; luks_tries := 0 |}.

Lemma kernel_file : Fat.file_bytes kernel_img Fat.demo_fat (Fat.fresh kernel_dirent) = Elf.demo_elf.
Proof. by vm_compute. Qed.

Lemma kernel_chain : Fat.chain_ok kernel_img Fat.demo_fat (Fat.fresh kernel_dirent).
Proof.
  intros k Hk. assert (Fat.nclus Fat.demo_fat (Fat.file_size (Fat.fresh kernel_dirent)) = 1%nat) as E by by vm_compute.
  rewrite E in Hk. assert (k = 0%nat) as -> by lia. by vm_compute.
Qed.

Lemma vios_load_bios_places_witness :
  exists m' f', @vios_load_bios kernel_dev (repeat 0 256) Elf.X86_64 4096 Fat.demo_fat (fun _ => 0xAA) kernel_entry = Some (0x100000, m', f') /\
    load m' 0xFFFFF 12 = [0xAA; 0xDE; 0xAD; 0xBE; 0xEF; 0; 0; 0; 0; 0; 0; 0xAA].
Proof.
  destruct (@vios_load_bios_places kernel_dev kernel_img kernel_image (repeat 0 256) Elf.X86_64 4096 Fat.demo_fat (fun _ => 0xAA) kernel_entry
    (cs "kernel.elf") [] kernel_dirent 0) as (f' & _ & _ & H).
  - exact Fat.demo_wf.
  - reflexivity.
  - reflexivity.
  - by apply (bool_decide_unpack _).
  - reflexivity.
  - apply Fat.resolves_last, Fat.lookup_fst. by vm_compute.
  - reflexivity.
  - exact kernel_chain.
  - vm_compute. intuition discriminate.
  - vm_compute. intuition discriminate.
  - cbn zeta in H. rewrite kernel_file in H. destruct (H ltac:(vm_compute; reflexivity) Elf.demo_segments_ok) as (m' & E & Hm').
    exists m', f'. split; [exact E|]. rewrite Hm'. vm_compute. reflexivity.
Defined.

(** Entering a kernel.  The ViOS kernel gets the boot information in the first argument
    register at its entry point whatever register the compiler picks.  The boot record
    is entered at 0x7C00 in segment 0 with the drive in DL and the stack as it was. *)
Theorem boot_enters (c : cpu) (op : reg) :
  (exists c', run c (vios_boot op) = Some c' /\ rip c' = regs (set c RDI (regs c op)) RAX /\ regs c' RDI = regs c op /\ words c' = words c) /\
  (exists c', run c (windows_boot op) = Some c' /\ rip c' = Windows.VBR_LOAD_ADDR /\ csel c' = 0 /\ words c' = words c /\
     u8 (regs c' RDX) = u8 (regs c op) /\ forall r, r <> RDX -> regs c' r = regs c r).
Proof.
  split; [by eexists|]. eexists. split; [reflexivity|]. cbn [rip csel words set]. split_and!; [done..| |].
  - cbn [regs exec set]. rewrite decide_True by done. unfold wrap. div_lia.
  - intros r Hr. cbn. by rewrite decide_False.
Qed.

Definition cleared : list reg := [RAX; RBX; RCX; RDX; RDI].

(** Entering Linux: the statement clears five registers and loads a sixth before it
    jumps through the operand, without telling the compiler that it changes them.  The
    kernel's entry point is reached exactly when the operand is kept in none of them;
    in one of the five the jump goes to address 0, in RSI to the boot parameters. *)
Theorem linux_boot_target (c : cpu) (op : reg) :
  exists c', run c (linux_boot op) = Some c' /\ regs c' RSI = Linux.BOOT_PARAMS_ADDR /\ Forall (fun r => regs c' r = 0) cleared /\
    rip c' = (if decide (op ∈ cleared) then 0 else if decide (op = RSI) then Linux.BOOT_PARAMS_ADDR else regs c op).
Proof. eexists. split; [reflexivity|]. split; [done|]. split; [by repeat constructor|]. by destruct op. Qed.

End Handover.
