(* ===== verification/Scan.v ===== *)
(** * Scan: finding what can be booted, the first half of [uefi/uefi_loader.c]

    Every FAT volume is searched for [sakuru.cfg], loader entries and kernels, every
    ext4 partition for kernels; each entry found is bound to the file system it was
    found on.  The volumes' directories and files are arguments; [None] is behaviour
    C leaves undefined. *)

From stdpp Require Import gmap.
From S2P Require Import Prelude Config Efi LuksVol Ext4 LoaderEntry.
Import Config Efi.

Module Scan.

(** A FAT volume's root directory with its handle, or an ext4 volume. *)
Inductive FsCtx := CtxFat (fat sfs_handle : Z) | CtxExt4 (vol : Ext4.Ext4Vol).

(** 0 for none. *)
Definition get_device_handle (c : option FsCtx) : Z := match c with Some (CtxFat _ h) => h | _ => 0 end.

(** The configuration and [g_entry_ctx]. *)
Record state := { cfg : BootConfig; ctxs : gmap Z FsCtx }.

Definition EFI_FILE_DIRECTORY : Z := 0x10.

(** ** Strings *)

Definition sl_copy (s : list Z) (max : Z) : list Z := take (Z.to_nat (max - 1)) s.
Definition sl_cat (d : list Z) (max : Z) (s : list Z) : list Z := d ++ take (Z.to_nat (max - 1 - zlen d)) s.
Definition backslashes (s : list Z) : list Z := map (fun c => if c =? chr "/" then 92 else c) s.

(** The name of a directory entry as the scanners see it. *)
Definition ascii_name (fname : list Z) : list Z := cstr (ucs2_to_ascii fname 256).

(** A kernel is offered to the table and bound to its file system if it is new. *)
Definition add_kernel (st : state) (nm : list Z) (ty : OSType) (path initrd : list Z) (c : FsCtx) : state :=
  let cfg' := snd (config_add_kernel (cfg st) nm ty path (if bool_decide (initrd = []) then None else Some initrd)) in
  {| cfg := cfg'; ctxs := if num_entries cfg' >? num_entries (cfg st) then <[num_entries cfg' - 1 := c]> (ctxs st) else ctxs st |}.

(** ** Names of kernels and ramdisks *)

Definition is_uki (nm : list Z) : bool := (zlen nm >? 4) && ends_with_ci nm (cs ".efi").

Definition kernel_type (nm : list Z) (allow_efi : bool) : OSType :=
  let ty := config_guess_type nm in
  if bool_decide (ty = OS_TYPE_UNKNOWN) && allow_efi && is_uki nm then OS_TYPE_LINUX else ty.

Definition std_initrds : list (list Z) :=
  [cs "initramfs-linux.img"; cs "initramfs-linux-fallback.img"; cs "initrd.img"; cs "initramfs.img"; cs "initrd"; cs "initramfs"].

(** The candidates in order; [None] when the second of the two buffers of 80 characters
    overflows. *)
Definition initrd_candidates (nm : list Z) : option (list (list Z)) :=
  let suffix := if str_starts nm (cs "vmlinuz-") then take 63 (drop 8 nm) else [] in
  if bool_decide (suffix = []) then Some std_initrds
  else
    let c0 := cs "initramfs-" ++ take 64 suffix ++ cs ".img" in
    let c1 := cs "initramfs-" ++ take 60 suffix ++ cs "-fallback.img" in
    if (zlen c0 >=? 80) || (zlen c1 >=? 80) then None else Some (c0 :: c1 :: std_initrds).

(** ** Entries of the boot loader specification *)

Record conf := { c_title : list Z; c_linux : list Z; c_options : list Z; c_initrds : list (list Z) }.

Definition no_conf : conf := {| c_title := []; c_linux := []; c_options := []; c_initrds := [] |}.

(** [key], [val] as the zero-filled arrays of 32 and 256 characters hold them. *)
Definition conf_set (c : conf) (key val : list Z) : conf :=
  let '(Build_conf t l o i) := c in
  if str_eq key (cs "title") then Build_conf (sl_copy val 256) l o i
  else if str_eq key (cs "linux") then Build_conf t (sl_copy val 256) o i
  else if str_eq key (cs "initrd") && (zlen i <? 4) then Build_conf t l o (i ++ [sl_copy val 256])
  else if str_eq key (cs "options") then Build_conf t l (sl_copy val 256) i
  else c.

Definition conf_line (c : conf) (line : list Z) : conf :=
  if bool_decide (line = []) || (deref line =? chr "#") then c
  else
    let key := take_while (fun c => negb (is_space c)) line in
    let val := skip_while is_space (drop (length key) line) in
    if bool_decide (key = []) || bool_decide (val = []) then c
    else conf_set c (cstr (take 31 key)) (cstr (take 255 val)).

(** The loop over the lines of the file. *)
Fixpoint conf_lines (fuel : nat) (p : list Z) (c : conf) : option conf :=
  match p with
  | [] => Some c
  | _ =>
    match fuel with
    | O => None
    | S f =>
      let line := take_while (fun c => negb (is_newline c)) p in
      conf_lines f (skip_while is_newline (drop (length line) p)) (conf_line c line)
    end
  end.

(** [options] and an [initrd=] for each ramdisk. *)
Definition add_initrd (cmd ird : list Z) : list Z :=
  if bool_decide (ird = []) then cmd
  else
    let cmd := if bool_decide (cmd = []) then cmd else sl_cat cmd 256 [32] in
    sl_cat (sl_cat cmd 256 (cs "initrd=")) 256 (backslashes (sl_copy ird 256)).

Definition conf_cmdline (c : conf) : list Z := foldl add_initrd (sl_copy (c_options c) 256) (c_initrds c).

Definition set_cmdline (e : BootEntry) (s : list Z) : BootEntry :=
  let '(Build_BootEntry nm ty ke ir cm en kf tr) := e in Build_BootEntry nm ty ke ir s en kf tr.

Definition is_conf_name (fname : list Z) : bool := negb (zlen fname <? 6) && bool_decide (drop (length fname - 5) fname = cs ".conf").

(** An entry parsed from [fname]: nothing without a kernel. *)
Definition add_conf (st : state) (fname : list Z) (c : conf) (fs : FsCtx) : state :=
  if bool_decide (c_linux c = []) then st
  else
    let title := if bool_decide (c_title c = []) then sl_copy fname 256 else c_title c in
    let st' := add_kernel st title OS_TYPE_LINUX (c_linux c) (match c_initrds c with i :: _ => i | [] => [] end) fs in
    if num_entries (cfg st') >? num_entries (cfg st) then
      {| cfg := set_entries (cfg st') (alter (fun e => set_cmdline e (sl_copy (conf_cmdline c) 256)) (length (entries (cfg st)))
                  (entries (cfg st'))); ctxs := ctxs st' |}
    else st'.

(** Entries of a directory up to the first that does not fit the buffer, which is an
    error and ends the enumeration. *)
Fixpoint delivered (bufsz : Z) (l : list (Z * list Z)) : list (Z * list Z) :=
  match l with [] => [] | e :: l' => if 80 + 2 * (zlen (snd e) + 1) <=? bufsz then e :: delivered bufsz l' else [] end.

(** ** FAT volumes *)

Section Fat.
(** A file or directory that can be opened; the entries a directory's [Read] delivers,
    attribute and name; the pool; the root of the volume of a handle, if it opens. *)
Context (Open : Z -> list Z -> option EfiFile) (Entries : Z -> list Z -> list (Z * list Z)) (alloc : Z -> bool).
Context (OpenVolume : Z -> option Z).

Definition opens (root : Z) (path : list Z) : bool := match open_path Open root path with Some _ => true | None => false end.

Definition find_initrd (root : Z) (dir : list Z) (cands : list (list Z)) : list Z :=
  match find (fun c => opens root (efi_path_join dir c 256)) cands with Some c => efi_path_join dir c 256 | None => [] end.

Definition scan_file (st : state) (root sfs : Z) (dir nm : list Z) (allow_efi : bool) : option state :=
  let ty := kernel_type nm allow_efi in
  if bool_decide (ty = OS_TYPE_UNKNOWN) then Some st
  else
    ird ← (if bool_decide (ty = OS_TYPE_LINUX) && negb allow_efi
           then c ← initrd_candidates nm; Some (find_initrd root dir c) else Some []);
    Some (add_kernel st (config_make_name dir nm ty 256) ty (efi_path_join dir nm 256) ird (CtxFat root sfs)).

(** [levels] of subdirectories are still searched. *)
Fixpoint scan_dir (levels : nat) (root sfs : Z) (allow_efi : bool) (st : state) (dir : list Z) : option state :=
  if negb (opens root dir) then Some st
  else
    foldlO (fun st (e : Z * list Z) =>
      let nm := ascii_name (snd e) in
      if bool_decide (nm = cs ".") || bool_decide (nm = cs "..") then Some st
      else if negb (fst e .& EFI_FILE_DIRECTORY =? 0) then
        match levels with O => Some st | S l => scan_dir l root sfs allow_efi st (efi_path_join dir nm 256) end
      else scan_file st root sfs dir nm allow_efi) st (delivered 512 (Entries root (wpath dir))).

Definition scan_dir_uefi (st : state) (root sfs : Z) (dir : list Z) (allow_efi : bool) : option state :=
  scan_dir 1 root sfs allow_efi st dir.

Definition scan_conf (st : state) (root sfs : Z) (e : Z * list Z) : option state :=
  if negb (fst e .& EFI_FILE_DIRECTORY =? 0) then Some st
  else
    let fname := ascii_name (snd e) in
    if negb (is_conf_name fname) then Some st
    else
      match read_file_fat Open alloc root (efi_path_join (cs "/loader/entries") fname 256) with
      | None => Some st
      | Some cbuf => c ← conf_lines (length cbuf) cbuf no_conf; Some (add_conf st fname c (CtxFat root sfs))
      end.

Definition scan_loader_entries (st : state) (root sfs : Z) : option state :=
  if negb (opens root (cs "/loader/entries")) then Some st
  else foldlO (fun st e => scan_conf st root sfs e) st (delivered 600 (Entries root (wpath (cs "/loader/entries")))).

(** Entries from [before] on get the context unless they have one. *)
Definition bind_new (before : Z) (fs : FsCtx) (st : state) : state :=
  {| cfg := cfg st;
     ctxs := foldl (fun cx j => match cx !! j with Some _ => cx | None => <[j := fs]> cx end) (ctxs st)
               (seqZ before (num_entries (cfg st) - before)) |}.

Definition read_cfg (st : state) (root sfs : Z) : option state :=
  match read_file_fat Open alloc root (cs "/sakuru.cfg") with
  | None => Some st
  | Some buf =>
    let before := num_entries (cfg st) in
    r ← (if before =? 0 then config_parse (cstr buf) (cfg st) else config_parse_merge (cstr buf) (cfg st));
    Some (bind_new before (CtxFat root sfs) {| cfg := snd r; ctxs := ctxs st |})
  end.

Definition scan_volume (st : state) (h : Z) : option state :=
  match OpenVolume h with
  | None => Some st
  | Some root =>
    st ← read_cfg st root h;
    st ← scan_loader_entries st root h;
    st ← scan_dir_uefi st root h (cs "/boot") false;
    st ← scan_dir_uefi st root h (cs "/EFI/Linux") true;
    scan_dir_uefi st root h (cs "/") false
  end.

(** The boot volume's handle swapped to the front; 0 when it is not known. *)
Definition boot_first (boot : Z) (handles : list Z) : list Z :=
  if boot =? 0 then handles
  else
    match list_find (fun h => h = boot) handles, handles with
    | Some (S i, _), h0 :: rest => boot :: <[i := h0]> rest
    | _, _ => handles
    end.

(** [handles] is [None] when none are found. *)
Definition scan_all_filesystems (st : state) (boot : Z) (handles : option (list Z)) : option state :=
  match handles with
  | None | Some [] => Some st
  | Some hs => foldlO scan_volume st (boot_first boot hs)
  end.
End Fat.

(** ** ext4 partitions *)

(** What a handle's Block I/O and Disk I/O protocols do. *)
Record BlockDev := {
  bd_media : option Ext4.Media; bd_dio : bool; bd_ReadDisk : Z -> Z -> Z -> option (list Z);
  bd_ReadBlocks : Z -> Z -> Z -> option (list Z) }.

Section Ext.
Context (alloc : Z -> bool) (dev : Z -> BlockDev).

Definition no_luks (lba n : Z) : option (list Z) := None.

Definition ext4_initrds : list (list Z) :=
  [cs "initramfs.img"; cs "initrd.img"; cs "initramfs"; cs "initrd"; cs "initramfs-linux.img"; cs "initramfs-linux-fallback.img"].

(** The first candidate with a size other than 0. *)
Fixpoint ext4_find_initrd (d : BlockDev) (vol : Ext4.Ext4Vol) (dir : list Z) (cands : list (list Z)) : option (list Z) :=
  match cands with
  | [] => Some []
  | c :: cands =>
    let try_path := efi_path_join dir c 256 in
    sz ← Ext4.ext4_stat (bd_ReadDisk d) (bd_ReadBlocks d) no_luks alloc vol try_path;
    if sz >? 0 then Some try_path else ext4_find_initrd d vol dir cands
  end.

Definition ext4_scan_cb (d : BlockDev) (vol : Ext4.Ext4Vol) (dir : list Z) (st : state) (e : list Z * bool) : option state :=
  if snd e then Some st
  else
    let nm := fst e in
    let ty := config_guess_type nm in
    if bool_decide (ty = OS_TYPE_UNKNOWN) then Some st
    else
      ird ← (if bool_decide (ty = OS_TYPE_LINUX) then ext4_find_initrd d vol dir ext4_initrds else Some []);
      Some (add_kernel st (config_make_name dir nm ty 256) ty (efi_path_join dir nm 256) ird (CtxExt4 vol)).

Definition scan_ext4_dir (d : BlockDev) (vol : Ext4.Ext4Vol) (st : state) (dir : list Z) : option state :=
  l ← Ext4.ext4_readdir (bd_ReadDisk d) (bd_ReadBlocks d) no_luks alloc vol dir;
  foldlO (ext4_scan_cb d vol dir) st l.

Definition scan_ext4 (st : state) (h : Z) : option state :=
  let d := dev h in
  v ← Ext4.ext4_mount (bd_ReadDisk d) (bd_ReadBlocks d) no_luks alloc h (bd_media d) (bd_dio d);
  match v with
  | None => Some st
  | Some vol => st ← scan_ext4_dir d vol st (cs "/"); scan_ext4_dir d vol st (cs "/boot")
  end.

Definition scan_all_ext4 (st : state) (handles : option (list Z)) : option state :=
  match handles with None => Some st | Some hs => foldlO scan_ext4 st hs end.
End Ext.
(** ** The table only grows *)

(** The number of entries never leaves the table. *)
Lemma parse_loop_num fuel p cf cur merge r : num_entries cf <= MAX_ENTRIES -> parse_loop fuel p cf cur merge = Some r -> num_entries r <= MAX_ENTRIES.
Proof.
  revert p cf cur. induction fuel as [|f IH]; intros p cf cur Hn H; [done|]. cbn [parse_loop] in H.
  destruct (skip_while _ p) as [|c p']; [by injection H as <-|].
  destruct ((c =? chr "#") || (c =? chr ";")); [by eapply IH|].
  destruct (c =? chr "[").
  - destruct (parse_section p' cf cur) as [[p'' cf'] cur'] eqn:E. eapply IH; [|exact H]. unfold parse_section in E.
    destruct (str_starts p' (cs "entry:")); [destruct (Z.ltb_spec (num_entries cf) MAX_ENTRIES)|]; injection E as _ <- _; try done.
    unfold num_entries, set_entries in *. cbn [entries]. rewrite length_app. cbn [length]. lia.
  - eapply IH; [|exact H]. unfold parse_line. destruct (parse_kv _ 64 MAX_STR_LEN) as [[key val]|]; [|done].
    destruct cur as [i|].
    + unfold num_entries, set_entries in *. cbn [entries]. by rewrite length_alter.
    + destruct merge; [done|]. unfold num_entries in *. by rewrite global_key_entries.
Qed.

(** [st'] has the entries of [st] with their contexts, and new ones whose contexts satisfy [P]. *)
Definition grows (P : FsCtx -> Prop) (st st' : state) : Prop :=
  num_entries (cfg st) <= MAX_ENTRIES -> (forall i, num_entries (cfg st) <= i -> ctxs st !! i = None) ->
  (exists es, entries (cfg st') = entries (cfg st) ++ es) /\ num_entries (cfg st') <= MAX_ENTRIES /\
  (forall i, i < num_entries (cfg st) -> ctxs st' !! i = ctxs st !! i) /\
  (forall i, num_entries (cfg st) <= i < num_entries (cfg st') -> exists c, ctxs st' !! i = Some c /\ P c) /\
  (forall i, num_entries (cfg st') <= i -> ctxs st' !! i = None).

Lemma grows_refl P st : grows P st st.
Proof. intros Hn Hc. split_and!; try done; [exists []; by rewrite app_nil_r|lia]. Qed.

Lemma grows_trans P st1 st2 st3 : grows P st1 st2 -> grows P st2 st3 -> grows P st1 st3.
Proof.
  intros H12 H23 Hn Hc. destruct (H12 Hn Hc) as ((es1 & E1) & N1 & A1 & B1 & C1).
  destruct (H23 N1 C1) as ((es2 & E2) & N2 & A2 & B2 & C2).
  assert (num_entries (cfg st1) <= num_entries (cfg st2)) by (unfold num_entries; rewrite E1, length_app; lia).
  split_and!; [exists (es1 ++ es2); by rewrite E2, E1, app_assoc|done|..|done].
  - intros i Hi. rewrite A2 by lia. by apply A1.
  - intros i Hi. destruct (Z.lt_ge_cases i (num_entries (cfg st2))); [|apply B2; lia].
    rewrite A2 by lia. apply B1; lia.
Qed.

Lemma grows_impl (P Q : FsCtx -> Prop) st st' : (forall c, P c -> Q c) -> grows P st st' -> grows Q st st'.
Proof.
  intros HPQ H Hn Hc. destruct (H Hn Hc) as (A & B & C & D & E). split_and!; try done.
  intros i Hi. destruct (D i Hi) as (c & ? & ?). eauto.
Qed.

Lemma grows_foldlO {B} P (f : state -> B -> option state) l st st' :
  (forall st x st', x ∈ l -> f st x = Some st' -> grows P st st') -> foldlO f st l = Some st' -> grows P st st'.
Proof.
  intros Hf. apply (foldlO_Some (fun s => grows P st s)); [|apply grows_refl].
  intros s x s' Hx Hs E. eapply grows_trans; [exact Hs|by eapply Hf].
Qed.

Lemma config_add_kernel_grow cf nm ty path ird : num_entries cf <= MAX_ENTRIES ->
  let cf' := snd (config_add_kernel cf nm ty path ird) in
  cf' = cf \/ exists e, cf' = set_entries cf (entries cf ++ [e]) /\ num_entries cf < MAX_ENTRIES.
Proof.
  intros Hn. unfold config_add_kernel. destruct (existsb _ _); [by left|].
  destruct (Z.geb_spec (num_entries cf) MAX_ENTRIES); [by left|]. right. eexists. split; [reflexivity|lia].
Qed.

Lemma num_snoc cf e : num_entries (set_entries cf (entries cf ++ [e])) = num_entries cf + 1.
Proof. unfold num_entries, set_entries. cbn [entries]. rewrite length_app. cbn [length]. lia. Qed.

(** A state with one more entry, bound to [c]. *)
Lemma grows_snoc (P : FsCtx -> Prop) st e c : P c -> num_entries (cfg st) < MAX_ENTRIES ->
  grows P st {| cfg := set_entries (cfg st) (entries (cfg st) ++ [e]); ctxs := <[num_entries (cfg st) := c]> (ctxs st) |}.
Proof.
  intros Hc Hlt Hn Hfree. cbn [cfg ctxs]. rewrite num_snoc. split_and!.
  - by exists [e].
  - lia.
  - intros i Hi. by rewrite lookup_insert_ne by lia.
  - intros i Hi. assert (i = num_entries (cfg st)) as -> by lia. exists c. by rewrite lookup_insert_eq.
  - intros i Hi. rewrite lookup_insert_ne by lia. apply Hfree. lia.
Qed.

Lemma add_kernel_cases st nm ty path ird c : num_entries (cfg st) <= MAX_ENTRIES ->
  add_kernel st nm ty path ird c = st \/
  exists e, add_kernel st nm ty path ird c =
    {| cfg := set_entries (cfg st) (entries (cfg st) ++ [e]); ctxs := <[num_entries (cfg st) := c]> (ctxs st) |} /\
    num_entries (cfg st) < MAX_ENTRIES.
Proof.
  intros Hn. unfold add_kernel.
  destruct (config_add_kernel_grow (cfg st) nm ty path (if bool_decide (ird = []) then None else Some ird) Hn) as [-> | (e & -> & Hlt)].
  - left. rewrite Z.gtb_ltb, Z.ltb_irrefl. by destruct st.
  - right. exists e. split; [|done]. rewrite num_snoc, Z.gtb_ltb, (proj2 (Z.ltb_lt _ _)) by lia. do 2 f_equal. lia.
Qed.

Lemma add_kernel_grows (P : FsCtx -> Prop) st nm ty path ird c : P c -> grows P st (add_kernel st nm ty path ird c).
Proof.
  intros Hc Hn. destruct (add_kernel_cases st nm ty path ird c Hn) as [-> | (e & -> & Hlt)]; [by apply grows_refl|]. by apply grows_snoc.
Qed.

Lemma add_conf_grows (P : FsCtx -> Prop) st fname c fs : P fs -> grows P st (add_conf st fname c fs).
Proof.
  intros Hfs Hn. unfold add_conf. case_bool_decide; [by apply grows_refl|].
  destruct (add_kernel_cases st (if bool_decide (c_title c = []) then sl_copy fname 256 else c_title c) OS_TYPE_LINUX (c_linux c)
    (match c_initrds c with i :: _ => i | [] => [] end) fs Hn) as [-> | (e & -> & Hlt)].
  - rewrite Z.gtb_ltb, Z.ltb_irrefl. by apply grows_refl.
  - cbn [cfg ctxs entries set_entries]. rewrite num_snoc, Z.gtb_ltb, (proj2 (Z.ltb_lt _ _)) by lia.
    rewrite alter_app_r_alt, Nat.sub_diag by lia. by apply (grows_snoc P st).
Qed.

(** ** FAT volumes *)

Section FatGrows.
Context (Open : Z -> list Z -> option EfiFile) (Entries : Z -> list Z -> list (Z * list Z)) (alloc : Z -> bool).
Context (OpenVolume : Z -> option Z) (root sfs : Z).

Definition here (c : FsCtx) : Prop := c = CtxFat root sfs.

Lemma scan_file_grows st dir nm allow_efi st' : scan_file Open st root sfs dir nm allow_efi = Some st' -> grows here st st'.
Proof using.
  unfold scan_file. case_bool_decide; [intros [= <-]; apply grows_refl|].
  match goal with |- context [?x ≫= _] => destruct x as [ird|]; [|done] end. intros [= <-]. by apply add_kernel_grows.
Qed.

Lemma scan_dir_grows levels allow_efi st dir st' : scan_dir Open Entries levels root sfs allow_efi st dir = Some st' -> grows here st st'.
Proof using.
  revert st dir st'. induction levels as [|l IH]; intros st dir st'; cbn [scan_dir];
    (destruct (negb (opens Open root dir)); [intros [= <-]; apply grows_refl|]); apply grows_foldlO; intros s e s' _;
    (destruct (_ || _); [intros [= <-]; apply grows_refl|]);
    (destruct (negb (fst e .& EFI_FILE_DIRECTORY =? 0)); [|apply scan_file_grows]).
  - intros [= <-]. apply grows_refl.
  - apply IH.
Qed.

Lemma scan_loader_entries_grows st st' : scan_loader_entries Open Entries alloc st root sfs = Some st' -> grows here st st'.
Proof using.
  unfold scan_loader_entries. destruct (negb _); [intros [= <-]; apply grows_refl|]. apply grows_foldlO. intros s e s' _. unfold scan_conf.
  destruct (negb (fst e .& EFI_FILE_DIRECTORY =? 0)); [intros [= <-]; apply grows_refl|].
  destruct (negb (is_conf_name _)); [intros [= <-]; apply grows_refl|].
  destruct (read_file_fat _ _ _ _) as [cbuf|]; [|intros [= <-]; apply grows_refl].
  destruct (conf_lines _ cbuf no_conf) as [c|]; [|done]. intros [= <-]. by apply add_conf_grows.
Qed.

Lemma bind_new_lookup before (fs : FsCtx) (cx : gmap Z FsCtx) n i : 0 <= n ->
  foldl (fun (cx : gmap Z FsCtx) j => match cx !! j with Some _ => cx | None => <[j := fs]> cx end) cx (seqZ before n) !! i =
  match cx !! i with
  | Some c => Some c
  | None => if decide (before <= i < before + n) then Some fs else None
  end.
Proof using.
  clear. intros Hn. revert i. pattern n. revert n Hn. apply natlike_ind.
  - intros i. rewrite seqZ_nil by lia. cbn [foldl]. case_decide; [lia|]. by destruct (cx !! i).
  - intros n Hn IH i. unfold Z.succ. rewrite seqZ_app, foldl_app by lia. change (seqZ (before + n) 1) with [before + n].
    cbn [foldl]. rewrite (IH (before + n)). destruct (cx !! (before + n)) as [c|] eqn:E.
    + rewrite IH. destruct (cx !! i) eqn:Ei; [done|]. destruct (decide (i = before + n)) as [->|]; [congruence|].
      destruct (decide (before <= i < before + n)), (decide (before <= i < before + (n + 1))); done || lia.
    + rewrite decide_False by lia. destruct (decide (i = before + n)) as [->|Hne].
      * rewrite lookup_insert_eq, E. by rewrite decide_True by lia.
      * rewrite lookup_insert_ne, IH by done. destruct (cx !! i); [done|].
        destruct (decide (before <= i < before + n)), (decide (before <= i < before + (n + 1))); done || lia.
Qed.

Lemma read_cfg_grows st st' : read_cfg Open alloc st root sfs = Some st' -> grows here st st'.
Proof using.
  unfold read_cfg. destruct (read_file_fat _ _ _ _) as [buf|]; [|intros [= <-]; apply grows_refl].
  set (r := if num_entries (cfg st) =? 0 then config_parse (cstr buf) (cfg st) else config_parse_merge (cstr buf) (cfg st)). destruct r as [[ret cf]|] eqn:Er; [|done]. cbn [mbind option_bind snd].
  intros [= <-] Hn Hfree.
  assert ((exists es, entries cf = entries (cfg st) ++ es) /\ num_entries cf <= MAX_ENTRIES) as [(es & Hes) Hn'].
  { unfold r in Er. destruct (Z.eqb_spec (num_entries (cfg st)) 0) as [H0|H0].
    - destruct (do_parse_run (cstr buf) (cfg st) false) as (q & Hq & Hd). unfold config_parse in Er. rewrite Hd in Er.
      injection Er as _ <-. rewrite clamp_entries, clamp_num.
      apply parse_loop_num in Hq; [|done]. split; [|done]. exists (entries q).
      unfold num_entries in H0. destruct (entries (cfg st)); [done|]. cbn [length] in H0. lia.
    - destruct (do_parse_run (cstr buf) (cfg st) true) as (q & Hq & Hd). unfold config_parse_merge in Er. rewrite Hd in Er.
      injection Er as _ <-. rewrite clamp_entries, clamp_num. split; [|by apply parse_loop_num in Hq].
      apply (parse_loop_extends _ _ (cfg st)) in Hq as (_ & _ & _ & _ & H); [done| |done].
      split_and!; try done. exists []. by rewrite app_nil_r. }
  assert (num_entries (cfg st) <= num_entries cf) as Hle by (unfold num_entries; rewrite Hes, length_app; lia).
  unfold bind_new. cbn [cfg ctxs]. split_and!; [by exists es|done|..]; intros i Hi; rewrite bind_new_lookup by lia.
  - destruct (ctxs st !! i); [done|]. by rewrite decide_False by lia.
  - rewrite Hfree by lia. rewrite decide_True by lia. by exists (CtxFat root sfs).
  - rewrite Hfree by lia. by rewrite decide_False by lia.
Qed.
End FatGrows.

Section All.
Context (Open : Z -> list Z -> option EfiFile) (Entries : Z -> list Z -> list (Z * list Z)) (alloc : Z -> bool).
Context (OpenVolume : Z -> option Z) (dev : Z -> BlockDev).

(** Bound to the volume of the handle [h]. *)
Definition on_fat (h : Z) (c : FsCtx) : Prop := exists root, OpenVolume h = Some root /\ c = CtxFat root h.
Definition on_ext4 (h : Z) (c : FsCtx) : Prop :=
  exists vol, Ext4.ext4_mount (bd_ReadDisk (dev h)) (bd_ReadBlocks (dev h)) no_luks alloc h (bd_media (dev h)) (bd_dio (dev h)) =
    Some (Some vol) /\ c = CtxExt4 vol.

Lemma scan_volume_grows st h st' : scan_volume Open Entries alloc OpenVolume st h = Some st' -> grows (on_fat h) st st'.
Proof using.
  unfold scan_volume. destruct (OpenVolume h) as [root|] eqn:E; [|intros [= <-]; apply grows_refl]. intros H.
  apply (grows_impl (here root h)); [intros c ->; by exists root|].
  apply bind_Some in H as (s1 & H1%read_cfg_grows & H). apply bind_Some in H as (s2 & H2%scan_loader_entries_grows & H).
  apply bind_Some in H as (s3 & H3%scan_dir_grows & H). apply bind_Some in H as (s4 & H4%scan_dir_grows & H5%scan_dir_grows).
  repeat (eapply grows_trans; [eassumption|]). apply grows_refl.
Qed.

Lemma scan_ext4_grows st h st' : scan_ext4 alloc dev st h = Some st' -> grows (on_ext4 h) st st'.
Proof using.
  unfold scan_ext4. intros H. apply bind_Some in H as ([vol|] & E & H); [|injection H as <-; apply grows_refl].
  assert (forall st dir st', scan_ext4_dir alloc (dev h) vol st dir = Some st' -> grows (on_ext4 h) st st') as Hdir.
  { intros s dir s' Hs. unfold scan_ext4_dir in Hs. apply bind_Some in Hs as (l & _ & Hs). revert Hs. apply grows_foldlO.
    intros t e t' _. unfold ext4_scan_cb. destruct (snd e); [intros [= <-]; apply grows_refl|].
    case_bool_decide; [intros [= <-]; apply grows_refl|]. intros Ht. apply bind_Some in Ht as (ird & _ & [= <-]).
    apply add_kernel_grows. by exists vol. }
  apply bind_Some in H as (s1 & H1%Hdir & H2%Hdir). by eapply grows_trans.
Qed.

Lemma boot_first_in boot hs h : h ∈ boot_first boot hs -> h ∈ hs.
Proof using.
  clear. unfold boot_first. destruct (boot =? 0); [done|].
  destruct (list_find (fun h => h = boot) hs) as [[[|i] x]|] eqn:E; [by destruct hs| |by destruct hs].
  destruct hs as [|h0 rest]; [done|]. apply list_find_Some in E as (E & -> & _). intros Hin.
  apply elem_of_cons in Hin as [-> | Hin].
  - apply elem_of_cons. right. by eapply list_elem_of_lookup_2.
  - apply list_elem_of_lookup in Hin as [j Hj]. apply elem_of_cons. apply list_lookup_insert_Some in Hj as [(_ & <- & _)|(_ & Hj)]; [by left|].
    right. by eapply list_elem_of_lookup_2.
Qed.

(** All FAT volumes, then all ext4 partitions. *)
Definition scan_all (st : state) (boot : Z) (fats exts : option (list Z)) : option state :=
  st ← scan_all_filesystems Open Entries alloc OpenVolume st boot fats; scan_all_ext4 alloc dev st exts.

Lemma scan_all_grows st boot fats exts st' : scan_all st boot fats exts = Some st' ->
  grows (fun c => (exists h, h ∈ default [] fats /\ on_fat h c) \/ (exists h, h ∈ default [] exts /\ on_ext4 h c)) st st'.
Proof using.
  intros H. apply bind_Some in H as (s1 & H1 & H2). eapply grows_trans.
  - unfold scan_all_filesystems in H1. destruct fats as [[|h0 hs]|]; [injection H1 as <-; apply grows_refl| |injection H1 as <-; apply grows_refl].
    revert H1. apply grows_foldlO. intros s h s' Hin%boot_first_in Hs%scan_volume_grows.
    eapply grows_impl; [|exact Hs]. intros c Hc. left. by exists h.
  - unfold scan_all_ext4 in H2. destruct exts as [hs|]; [|injection H2 as <-; apply grows_refl].
    revert H2. apply grows_foldlO. intros s h s' Hin Hs%scan_ext4_grows. eapply grows_impl; [|exact Hs]. intros c Hc. right. by exists h.
Qed.
End All.

Definition start : state :=
  {| cfg := {| timeout := DEFAULT_TIMEOUT; default_entry := 0; theme_color := 5; accent_color := 14; entries := [] |}; ctxs := ∅ |}.

(** ** Theorems *)


(** Two volumes: the first with a configuration file, the second, which was booted from,
    with a kernel and its ramdisk in [/boot]. *)
Definition file_of (l : list Z) : EfiFile := {| FileSize := Some (zlen l); Read := fun n => Some (take (Z.to_nat n) l) |}.
Definition demo_open (root : Z) (p : list Z) : option EfiFile :=
  if (root =? 101) && bool_decide (p = wpath (cs "/sakuru.cfg")) then Some (file_of (cs "[entry:ViOS]" ++ [10] ++ cs "kernel = /k.elf"))
  else if (root =? 102) && (bool_decide (p = wpath (cs "/boot")) || bool_decide (p = wpath (cs "/boot/initrd.img"))) then Some (file_of [])
  else None.
Definition demo_entries (root : Z) (p : list Z) : list (Z * list Z) := [(16, cs "."); (32, cs "vmlinuz-6.1"); (32, cs "notes")].
Definition demo_volume (h : Z) : option Z := if (h =? 1) || (h =? 2) then Some (100 + h) else None.
Definition demo_dev (h : Z) : BlockDev :=
  {| bd_media := None; bd_dio := false; bd_ReadDisk := fun _ _ _ => None; bd_ReadBlocks := fun _ _ _ => None |}.

Example demo_scan_all :
  (fun st => (map name (entries (cfg st)), map initrd (entries (cfg st)), map (fun i => ctxs st !! i) [0; 1; 2])) <$>
    scan_all demo_open demo_entries (fun _ => true) demo_volume demo_dev start 2 (Some [1; 2; 3]) (Some [7]) =
  Some ([cs "Linux 6.1"; cs "ViOS"], [cs "/boot/initrd.img"; []], [Some (CtxFat 102 2); Some (CtxFat 101 1); None]).
Proof. vm_compute. reflexivity. Qed.


(** A later volume never disturbs what an earlier one contributed: scanning a volume
    keeps all entries and their contexts as they were and binds every new one to the
    volume scanned. *)
Theorem scan_volume_keeps (Open : Z -> list Z -> option EfiFile) (Entries : Z -> list Z -> list (Z * list Z)) (alloc : Z -> bool)
    (OpenVolume : Z -> option Z) (h root : Z) (st st' : state)
    (Hvol : OpenVolume h = Some root) (Hn : num_entries (cfg st) <= MAX_ENTRIES)
    (Hfree : forall i, num_entries (cfg st) <= i -> ctxs st !! i = None)
    (Hscan : scan_volume Open Entries alloc OpenVolume st h = Some st') :
  (exists es, entries (cfg st') = entries (cfg st) ++ es) /\
  (forall i, i < num_entries (cfg st) -> ctxs st' !! i = ctxs st !! i) /\
  (forall i, num_entries (cfg st) <= i < num_entries (cfg st') -> ctxs st' !! i = Some (CtxFat root h)).
Proof.
  apply scan_volume_grows in Hscan. destruct (Hscan Hn Hfree) as (H1 & _ & H2 & H3 & _). split_and!; [done|done|].
  intros i Hi. destruct (H3 i Hi) as (c & -> & root' & Hr & ->). congruence.
Qed.

Lemma scan_volume_keeps_witness :
  exists st', scan_volume demo_open demo_entries (fun _ => true) demo_volume start 2 = Some st' /\
    forall i, 0 <= i < num_entries (cfg st') -> ctxs st' !! i = Some (CtxFat 102 2).
Proof.
  destruct (scan_volume demo_open demo_entries (fun _ => true) demo_volume start 2) as [st'|] eqn:E; [|exfalso; vm_compute in E; discriminate].
  exists st'. split; [done|].
  apply (scan_volume_keeps demo_open demo_entries (fun _ => true) demo_volume 2 102 start st');
    [reflexivity|vm_compute; discriminate|done|exact E].
Defined.

(** Looking for a ramdisk next to a kernel overruns a buffer of 80 characters when the
    kernel is named [vmlinuz-] and a suffix of 57 characters or more, and never
    otherwise. *)
Theorem initrd_names_overflow (nm : list Z) :
  initrd_candidates nm = None <-> (str_starts nm (cs "vmlinuz-") = true /\ 65 <= zlen nm).
Proof.
  unfold initrd_candidates. destruct (str_starts nm (cs "vmlinuz-")); [|by split; [|intros [? _]]].
  set (suffix := take 63 (drop 8 nm)).
  assert (length suffix = Nat.min 63 (length nm - 8)) as Hs by (unfold suffix; by rewrite length_take, length_drop).
  case_bool_decide as E; [split; [done|intros [_ H]]; rewrite E in Hs; cbn [length] in Hs; lia|].
  assert (zlen (cs "initramfs-" ++ take 64 suffix ++ cs ".img") = 14 + zlen suffix) as ->.
  { rewrite !length_app, length_take. change (length (cs "initramfs-")) with 10%nat. change (length (cs ".img")) with 4%nat. lia. }
  assert (zlen (cs "initramfs-" ++ take 60 suffix ++ cs "-fallback.img") = 23 + Z.min 60 (zlen suffix)) as ->.
  { rewrite !length_app, length_take. change (length (cs "initramfs-")) with 10%nat. change (length (cs "-fallback.img")) with 13%nat. lia. }
  destruct (Z.geb_spec (14 + zlen suffix) 80), (Z.geb_spec (23 + Z.min 60 (zlen suffix)) 80); cbn [orb]; split; intros; try done; lia.
Qed.

Lemma sl_cat_take d s : sl_cat (take 255 d) 256 s = take 255 (d ++ s).
Proof.
  unfold sl_cat. rewrite length_take. destruct (Nat.le_ge_cases (length d) 255) as [H|H].
  - rewrite (take_ge d), take_app_ge by lia. do 2 f_equal. lia.
  - rewrite (take_app_le d) by lia. replace (Z.to_nat _) with 0%nat by lia. by rewrite take_0, app_nil_r.
Qed.

(** The command line without a limit. *)
Definition ideal_initrd (cmd ird : list Z) : list Z :=
  if bool_decide (ird = []) then cmd
  else cmd ++ (if bool_decide (cmd = []) then [] else [32]) ++ cs "initrd=" ++ backslashes ird.

Lemma conf_lines_total fuel p c : (length p <= fuel)%nat -> exists c', conf_lines fuel p c = Some c'.
Proof.
  revert p c. induction fuel as [|f IH]; intros p c Hf; destruct p as [|x p]; cbn [length] in Hf; try lia; [by exists c|by exists c|].
  cbn [conf_lines]. apply IH. set (line := take_while _ (x :: p)).
  pose proof (skip_while_length is_newline (drop (length line) (x :: p))) as H1. rewrite length_drop in H1. cbn [length] in H1.
  destruct (is_newline x) eqn:E.
  - unfold line in *. cbn [take_while] in *. rewrite E in *. cbn [negb length drop skip_while] in *. rewrite E in *.
    pose proof (skip_while_length is_newline p). lia.
  - assert (0 < length line)%nat by (unfold line; cbn [take_while]; rewrite E; cbn; lia). lia.
Qed.

Lemma add_initrd_ideal cmd ird : zlen ird <= 255 -> add_initrd (take 255 cmd) ird = take 255 (ideal_initrd cmd ird).
Proof.
  intros Hi. unfold add_initrd, ideal_initrd. case_bool_decide; [done|].
  unfold sl_copy. rewrite (take_ge ird) by lia.
  destruct (decide (cmd = [])) as [->|Hne].
  - rewrite take_nil. rewrite !bool_decide_true by done. rewrite <- (take_nil 255) at 1. by rewrite !sl_cat_take.
  - rewrite !bool_decide_false; [|done|by destruct cmd]. rewrite !sl_cat_take. by rewrite <- !app_assoc.
Qed.

(** The command line made of a loader entry is its options followed, for every ramdisk
    it names, by a space and [initrd=] with the path in backslashes, cut at the 255
    characters an entry can hold. *)
Theorem conf_cmdline_joins (c : conf) (Hi : Forall (fun i => zlen i <= 255) (c_initrds c)) :
  conf_cmdline c = take 255 (foldl ideal_initrd (c_options c) (c_initrds c)).
Proof.
  unfold conf_cmdline, sl_copy. change (Z.to_nat (256 - 1)) with 255%nat. generalize (c_options c).
  induction Hi as [|i l Hi Hl IH]; intros o; [done|]. cbn [foldl]. by rewrite add_initrd_ideal by done.
Qed.

Lemma conf_cmdline_joins_witness :
  conf_cmdline {| c_title := []; c_linux := cs "/vmlinuz"; c_options := cs "root=/dev/sda2"; c_initrds := [cs "/ucode.img"; cs "/initrd"] |} =
  cs "root=/dev/sda2 initrd=\ucode.img initrd=\initrd".
Proof.
  rewrite conf_cmdline_joins; [reflexivity|]. by repeat constructor.
Defined.
End Scan.
