(* ===== verification/Console.v ===== *)
(** * Console: output and keys of the two editions

    The firmware console of [uefi/uefi_loader.c] (lines 571 to 680), the VGA text
    screen and the keyboard of [bios/stage2/main.c], and the debug port of
    [common/serial.c].  What a device receives is the list of the calls or port
    writes made; the keys it delivers are lists of what successive polls read. *)

From S2P Require Import Prelude Menu.

Module Console.

(** ** Numbers *)

Definition dec_digit (d : Z) : Z := 48 + d.
Definition hex_upper (d : Z) : Z := nthZ (cs "0123456789ABCDEF") d.

(** [while (n > 0)], filling a buffer downwards; [None] when the [room] characters left
    in front are not enough. *)
Fixpoint put_dec (room : nat) (n : Z) (acc : list Z) : option (list Z) :=
  if n >? 0 then
    match room with O => None | S r => put_dec r (n / 10) (dec_digit (n mod 10) :: acc) end
  else Some acc.

(** The string printed: [char buf[16]], its last character the terminator. *)
Definition int_text (n : Z) : option (list Z) :=
  if n =? 0 then Some [48] else put_dec 15 n [].

(** [do ... while (n)] *)
Fixpoint put_hex (room : nat) (n : Z) (acc : list Z) : option (list Z) :=
  match room with
  | O => None
  | S r =>
    let acc := hex_upper (n .& 0xF) :: acc in
    if n >> 4 =? 0 then Some acc else put_hex r (n >> 4) acc
  end.

(** [char buf[20]]: sixteen digits fit between the prefix and the terminator at 18. *)
Definition hex_text (n : Z) : option (list Z) :=
  ds ← put_hex 16 n []; Some (48 :: 120 :: ds).

(** ** The firmware's console *)

(** [buf] and the strings passed to [OutputString] so far. *)
Definition con : Type := list Z * list (list Z).

Definition con_flush (st : con) : con := if zlen (fst st) >=? 126 then ([], snd st ++ [fst st]) else st.

Definition con_unit (wc : Z) (st : con) : con := con_flush (fst st ++ [wc], snd st).

(** One turn of the loop on a string that is not empty. *)
Definition con_step (s : list Z) (st : con) : list Z * con :=
  let c := deref s in
  let s1 := deref (drop 1 s) in
  let s2 := deref (drop 2 s) in
  if c =? 10 then (drop 1 s, con_unit 10 (con_unit 13 st))
  else if c <? 0x80 then (drop 1 s, con_unit c st)
  else if (c .& 0xE0 =? 0xC0) && (s1 >=? 0x80) then
    (drop 2 s, con_unit (u16 (((c .& 0x1F) << 6) .| (s1 .& 0x3F))) st)
  else if (c .& 0xF0 =? 0xE0) && (s1 >=? 0x80) && (s2 >=? 0x80) then
    (drop 3 s, con_unit (u16 (((c .& 0x0F) << 12) .| ((s1 .& 0x3F) << 6) .| (s2 .& 0x3F))) st)
  else (drop 1 s, con_unit c st).

Fixpoint con_loop (fuel : nat) (s : list Z) (st : con) : option con :=
  match s with
  | [] => Some st
  | _ => match fuel with O => None | S f => let r := con_step s st in con_loop f (fst r) (snd r) end
  end.

Definition con_puts (s : list Z) : option (list (list Z)) :=
  st ← con_loop (length s) s ([], []);
  Some (if zlen (fst st) >? 0 then snd st ++ [fst st] else snd st).

Definition con_puts_int (n : Z) : option (list (list Z)) := s ← int_text n; con_puts s.
Definition con_puts_hex (n : Z) : option (list (list Z)) := s ← hex_text n; con_puts s.

(** The attribute set, from [g_theme_bg] and [g_accent_fg]. *)
Definition con_set_color (theme_bg accent_fg fg : Z) : Z :=
  let theme_fg := (theme_bg >> 4) .| 8 in
  if fg =? Menu.MENU_COLOR_BORDER then theme_fg
  else if fg =? Menu.MENU_COLOR_TITLE then accent_fg
  else if fg =? Menu.MENU_COLOR_HIGHLIGHT then 15 .| theme_bg
  else if fg =? Menu.MENU_COLOR_ACCENT then accent_fg .| theme_bg
  else if fg =? Menu.MENU_COLOR_NORMAL then 15
  else if fg =? 3 then theme_fg
  else if fg =? Menu.MENU_COLOR_HINT then accent_fg
  else 15.

(** [g_theme_bg], [g_accent_fg] as [uefi_main] derives them from the configuration. *)
Definition theme_of (theme_color : Z) : Z := (theme_color .& 7) << 4.
Definition accent_of (accent_color : Z) : Z := accent_color .& 0xF.

(** A key stroke, scan code and character, as the code sees it. *)
Definition key_code (k : Z * Z) : Z :=
  if fst k =? 1 then 0x100
  else if fst k =? 2 then 0x101
  else if (snd k =? 13) || (snd k =? 10) then 13
  else snd k.

(** From the [i]-th of 100 polls; [None] while it would still poll. *)
Fixpoint poll_keys (i : Z) (polls : list (option (Z * Z))) : option Z :=
  if i <? 100 then
    match polls with
    | [] => None
    | Some k :: _ => Some (key_code k)
    | None :: polls => poll_keys (i + 1) polls
    end
  else Some (-1).

Definition con_read_key (polls : list (option (Z * Z))) : option Z := poll_keys 0 polls.

(** ** The VGA text screen *)

Definition VGA_COLS : Z := 80.
Definition VGA_ROWS : Z := 25.
Definition VGA_ATTR (fg bg : Z) : Z := u8 ((bg << 4) .| fg).

(** The cells at 0xB8000 and [g_col], [g_row], [g_attr]. *)
Record vga := { cells : list Z; g_col : Z; g_row : Z; g_attr : Z }.

Definition cell (attr c : Z) : Z := u16 ((attr << 8) .| u8 c).

(** A write to the array; [None] is outside of it. *)
Definition put_cell (b : list Z) (i v : Z) : option (list Z) :=
  if (0 <=? i) && (i <? zlen b) then Some (<[Z.to_nat i := v]> b) else None.

Definition copy_up (b : list Z) (i : Z) : option (list Z) :=
  v ← getb b (i + VGA_COLS); put_cell b i v.

Definition vga_scroll (v : vga) : option vga :=
  b ← foldlO copy_up (cells v) (seqZ 0 ((VGA_ROWS - 1) * VGA_COLS));
  b ← foldlO (fun b c => put_cell b ((VGA_ROWS - 1) * VGA_COLS + c) (cell (g_attr v) 32)) b (seqZ 0 VGA_COLS);
  Some {| cells := b; g_col := g_col v; g_row := VGA_ROWS - 1; g_attr := g_attr v |}.

Definition scroll_check (v : vga) : option vga := if g_row v >=? VGA_ROWS then vga_scroll v else Some v.

Definition vga_putc (v : vga) (c : Z) : option vga :=
  if c =? 13 then Some {| cells := cells v; g_col := 0; g_row := g_row v; g_attr := g_attr v |}
  else if c =? 10 then scroll_check {| cells := cells v; g_col := 0; g_row := g_row v + 1; g_attr := g_attr v |}
  else
    b ← put_cell (cells v) (g_row v * VGA_COLS + g_col v) (cell (g_attr v) c);
    scroll_check
      (if g_col v + 1 >=? VGA_COLS
       then {| cells := b; g_col := 0; g_row := g_row v + 1; g_attr := g_attr v |}
       else {| cells := b; g_col := g_col v + 1; g_row := g_row v; g_attr := g_attr v |}).

Definition vga_puts (v : vga) (s : list Z) : option vga := foldlO vga_putc v s.

Definition vga_puts_int (v : vga) (n : Z) : option vga := s ← int_text n; vga_puts v s.

Definition vga_clear (v : vga) : vga :=
  let a := VGA_ATTR 13 0 in
  {| cells := repeat (cell a 32) (Z.to_nat (VGA_ROWS * VGA_COLS)) ++ drop (Z.to_nat (VGA_ROWS * VGA_COLS)) (cells v);
     g_col := 0; g_row := 0; g_attr := a |}.

Definition vga_set_color (v : vga) (fg : Z) : vga :=
  {| cells := cells v; g_col := g_col v; g_row := g_row v;
     g_attr := if fg =? Menu.MENU_COLOR_HIGHLIGHT then VGA_ATTR 0 5
               else if fg =? Menu.MENU_COLOR_ACCENT then VGA_ATTR 14 0 else VGA_ATTR 13 0 |}.

(** ** The keyboard controller *)

Definition sc_to_ascii : list Z :=
  [0; 0] ++ cs "1234567890-=" ++ [8; 9] ++ cs "qwertyuiop[]" ++ [13; 0] ++ cs "asdfghjkl;'`" ++ [0; 92] ++
  cs "zxcvbnm,./" ++ [0] ++ cs "*" ++ [0; 32] ++ repeat 0 70.

(** The polls from [timeout] on: the status, and the byte port 0x60 gives. *)
Fixpoint kbd_poll (timeout : Z) (polls : list (Z * Z)) : option Z :=
  if timeout <? 100000000 then
    match polls with
    | [] => None
    | (status, scan) :: polls =>
      if status .& 1 =? 0 then kbd_poll (timeout + 1) polls
      else if negb (scan .& 0x80 =? 0) then kbd_poll (timeout + 1) polls
      else if scan =? 0x48 then Some 0x100
      else if scan =? 0x50 then Some 0x101
      else if (scan <? 128) && negb (nthZ sc_to_ascii scan =? 0) then Some (nthZ sc_to_ascii scan)
      else kbd_poll (timeout + 1) polls
    end
  else Some (-1).

Definition kbd_read_key (polls : list (Z * Z)) : option Z := kbd_poll 0 polls.

(** ** The serial port *)

Inductive wire := Reset | Write (s : list Z) | Outb (port val : Z).

(** [s_serial], [s_x86_fallback]. *)
Inductive serial := SerialIo | Com1 | NoSerial.

Definition COM1 : Z := 0x3F8.

Definition com1_init : list wire :=
  [Outb (COM1 + 1) 0; Outb (COM1 + 3) 0x80; Outb COM1 1; Outb (COM1 + 1) 0; Outb (COM1 + 3) 3; Outb (COM1 + 2) 0xC7; Outb (COM1 + 4) 0x0B].

(** Whether the firmware has the protocol, and whether it has a [Reset]. *)
Definition serial_init (located has_reset : bool) : serial * list wire :=
  if located then (SerialIo, if has_reset then [Reset] else []) else (Com1, com1_init).

(** The line status register is polled for an empty transmitter: the polls left. *)
Fixpoint com1_wait (status : list Z) : option (list Z) :=
  match status with [] => None | s :: status => if s .& 0x20 =? 0 then com1_wait status else Some status end.

Definition com1_putc (st : list Z * list wire) (c : Z) : option (list Z * list wire) :=
  status ← com1_wait (fst st); Some (status, snd st ++ [Outb COM1 (u8 c)]).

Definition serial_putc (p : serial) (st : list Z * list wire) (c : Z) : option (list Z * list wire) :=
  match p with
  | SerialIo => Some (fst st, snd st ++ [Write [c]])
  | Com1 => com1_putc st c
  | NoSerial => Some st
  end.

Definition serial_puts (p : serial) (st : list Z * list wire) (s : list Z) : option (list Z * list wire) :=
  match p with
  | SerialIo => Some (fst st, snd st ++ [Write s])
  | Com1 => foldlO com1_putc st s
  | NoSerial => Some st
  end.

Definition nibble_char (nibble : Z) : Z := if nibble <? 10 then 48 + nibble else 97 + nibble - 10.

Definition hex64_text (val : Z) : list Z :=
  [48; 120] ++ map (fun i => nibble_char ((val >> (60 - i * 4)) .& 0xF)) (seqZ 0 16) ++ [10].

Definition serial_puthex64 (p : serial) (st : list Z * list wire) (val : Z) : option (list Z * list wire) :=
  match p with
  | SerialIo => Some (fst st, snd st ++ [Write (hex64_text val)])
  | Com1 => foldlO com1_putc st (hex64_text val)
  | NoSerial => Some st
  end.

(** ** What is printed *)

Definition utf8 (cp : Z) : list Z :=
  if cp <? 0x80 then [cp]
  else if cp <? 0x800 then [0xC0 .| (cp >> 6); 0x80 .| (cp .& 0x3F)]
  else [0xE0 .| (cp >> 12); 0x80 .| ((cp >> 6) .& 0x3F); 0x80 .| (cp .& 0x3F)].

(** What the firmware wants for a code point. *)
Definition units (cp : Z) : list Z := if cp =? 10 then [13; 10] else [cp].

Definition code_point (cp : Z) : Prop := 0 < cp < 0x10000.

(** [st] has printed [l], in pieces that fit the buffer with their terminator. *)
Definition printed (st : con) (l : list Z) : Prop :=
  concat (snd st) ++ fst st = l /\ zlen (fst st) < 126 /\ Forall (fun b => 0 < zlen b <= 126) (snd st).

Lemma con_unit_printed wc st l : printed st l -> printed (con_unit wc st) (l ++ [wc]).
Proof.
  destruct st as [buf out]. unfold printed, con_unit, con_flush. cbn [fst snd]. intros (<- & Hb & Ho).
  rewrite length_app. cbn [length]. destruct (Z.geb_spec (Z.of_nat (length buf + 1)) 126); cbn [fst snd].
  - rewrite concat_app. cbn [concat]. rewrite !app_nil_r, app_assoc. split_and!; [done|done|].
    apply Forall_app. split; [done|]. constructor; [|constructor]. rewrite length_app. cbn [length]. lia.
  - rewrite app_assoc, length_app. cbn [length]. split_and!; [done|lia|done].
Qed.

Lemma utf8_bits x y : 0 <= x -> 0 <= y < 64 -> (x << 6) .| y = x * 64 + y.
Proof. intros. by apply (lor_shiftl_add x y 6). Qed.

(** The lead and continuation bytes, checked over all their values. *)
Lemma lead2 x : 0 <= x < 32 ->
  let c := 0xC0 .| x in (c =? 10) = false /\ (c <? 0x80) = false /\ (c .& 0xE0 =? 0xC0) = true /\ c .& 0x1F = x.
Proof.
  intros Hx. cbn zeta. assert (x ∈ seqZ 0 32) as He by (apply elem_of_seqZ; lia). clear Hx; revert x He.
  apply Forall_forall. vm_compute. repeat constructor.
Qed.

Lemma lead3 x : 0 <= x < 16 ->
  let c := 0xE0 .| x in (c =? 10) = false /\ (c <? 0x80) = false /\ (c .& 0xE0 =? 0xC0) = false /\ (c .& 0xF0 =? 0xE0) = true /\ c .& 0x0F = x.
Proof.
  intros Hx. cbn zeta. assert (x ∈ seqZ 0 16) as He by (apply elem_of_seqZ; lia). clear Hx; revert x He.
  apply Forall_forall. vm_compute. repeat constructor.
Qed.

Lemma cont y : 0 <= y < 64 -> (0x80 .| y >=? 0x80) = true /\ (0x80 .| y) .& 0x3F = y.
Proof.
  intros Hy. assert (y ∈ seqZ 0 64) as He by (apply elem_of_seqZ; lia). clear Hy; revert y He.
  apply Forall_forall. vm_compute. repeat constructor.
Qed.

Lemma low6 x : x .& 0x3F = x mod 64.
Proof. exact (Z.land_ones x 6 ltac:(lia)). Qed.

Lemma con_step_utf8 cp rest st : code_point cp ->
  con_step (utf8 cp ++ rest) st = (rest, foldl (fun st u => con_unit u st) st (units cp)).
Proof.
  intros Hcp. unfold code_point in Hcp. unfold utf8, units.
  destruct (Z.ltb_spec cp 0x80) as [H1|H1]; [|destruct (Z.ltb_spec cp 0x800) as [H2|H2]].
  - unfold con_step. cbn [app deref hd drop]. destruct (Z.eqb_spec cp 10) as [->|]; [done|].
    by rewrite (proj2 (Z.ltb_lt _ _) H1).
  - rewrite low6, shiftr_div by lia. change (2 ^ 6) with 64. destruct (lead2 (cp / 64)) as (E1 & E2 & E3 & E4); [div_lia|]. destruct (cont (cp mod 64)) as [E5 E6]; [div_lia|].
    unfold con_step. cbn [app deref hd drop]. rewrite E1, E2, E3, E5, E4, E6. cbn [andb].
    rewrite utf8_bits, wrap_small by div_lia. rewrite (proj2 (Z.eqb_neq cp 10)) by lia. cbn [foldl].
    by replace (cp / 64 * 64 + cp mod 64) with cp by div_lia.
  - rewrite !low6, !shiftr_div by lia. change (2 ^ 6) with 64. change (2 ^ 12) with 4096. destruct (lead3 (cp / 4096)) as (E1 & E2 & E3 & E4 & E5); [div_lia|].
    destruct (cont (cp mod 64)) as [E6 E7]; [div_lia|]. destruct (cont (cp / 64 mod 64)) as [E8 E9]; [div_lia|].
    unfold con_step. cbn [app deref hd drop]. rewrite E1, E2, E3, E4, E5, E6, E7, E8, E9. cbn [andb].
    change 12 with (6 + 6). rewrite <- Z.shiftl_shiftl, <- Z.shiftl_lor, (utf8_bits (cp / 4096)), utf8_bits, wrap_small by div_lia.
    rewrite (proj2 (Z.eqb_neq cp 10)) by lia. cbn [foldl].
    by replace ((cp / 4096 * 64 + cp / 64 mod 64) * 64 + cp mod 64) with cp by div_lia.
Qed.

Lemma con_units_printed us st l : printed st l -> printed (foldl (fun st u => con_unit u st) st us) (l ++ us).
Proof.
  revert st l. induction us as [|u us IH]; intros st l H; cbn [foldl]; [by rewrite app_nil_r|].
  rewrite (app_assoc l [u] us : l ++ u :: us = _). apply IH. by apply con_unit_printed.
Qed.

Lemma utf8_nonempty cp : utf8 cp <> [].
Proof. unfold utf8. by repeat case_match. Qed.

Lemma con_loop_utf8 l fuel st p : Forall code_point l -> (length (flat_map utf8 l) <= fuel)%nat -> printed st p ->
  exists st', con_loop fuel (flat_map utf8 l) st = Some st' /\ printed st' (p ++ flat_map units l).
Proof.
  intros Hl. revert fuel st p. induction Hl as [|cp l Hcp Hl IH]; intros fuel st p Hf Hp; cbn [flat_map] in *.
  { exists st. rewrite app_nil_r. by destruct fuel. }
  rewrite length_app in Hf. pose proof (utf8_nonempty cp) as Hne. pose proof (con_step_utf8 cp (flat_map utf8 l) st Hcp) as Hs.
  destruct (utf8 cp) as [|c r]; [done|]. destruct fuel as [|f]; [cbn [length] in Hf; lia|].
  cbn [con_loop app] in *. rewrite Hs. cbn [fst snd]. rewrite app_assoc. apply IH; [cbn [length] in Hf; lia|].
  by apply con_units_printed.
Qed.

Lemma con_finish st l : printed st l ->
  let out := if zlen (fst st) >? 0 then snd st ++ [fst st] else snd st in
  concat out = l /\ Forall (fun b => 0 < zlen b <= 126) out.
Proof.
  intros (<- & Hb & Ho). cbn zeta. destruct (Z.gtb_spec (zlen (fst st)) 0).
  - rewrite concat_app. cbn [concat]. rewrite app_nil_r. split; [done|]. apply Forall_app. split; [done|]. constructor; [lia|constructor].
  - assert (fst st = []) as -> by (apply nil_length_inv; lia). by rewrite app_nil_r.
Qed.

Lemma con_puts_utf8 l : Forall code_point l ->
  exists out, con_puts (flat_map utf8 l) = Some out /\ concat out = flat_map units l /\ Forall (fun b => 0 < zlen b <= 126) out.
Proof.
  intros Hl. destruct (con_loop_utf8 l (length (flat_map utf8 l)) ([], []) [] Hl) as (st & E & Hp); [lia|done|].
  unfold con_puts. rewrite E. cbn [mbind option_bind]. eexists. split; [done|]. by apply con_finish.
Qed.

(** Any string is printed to its end, in pieces that fit. *)
Lemma con_loop_total fuel s st p : (length s <= fuel)%nat -> printed st p -> exists st' l, con_loop fuel s st = Some st' /\ printed st' l.
Proof.
  revert s st p. induction fuel as [|f IH]; intros s st p Hf Hp; (destruct s as [|c s]; [by exists st, p|]); [cbn [length] in Hf; lia|].
  cbn [con_loop].
  assert (exists k, fst (con_step (c :: s) st) = drop (S k) (c :: s) /\ exists l, printed (snd (con_step (c :: s) st)) l) as (k & E & l & Hl).
  { unfold con_step. repeat case_match; cbn [fst snd]; eexists _; (split; [reflexivity|]); eexists; repeat apply con_unit_printed; exact Hp. }
  rewrite E. eapply IH; [|exact Hl]. cbn [drop]. rewrite length_drop. cbn [length] in Hf. lia.
Qed.

(** ** Numbers read back *)

Definition value (base : Z) (digit : Z -> Z) (ds : list Z) : Z := foldl (fun v c => v * base + digit c) 0 ds.
Definition dec_value : list Z -> Z := value 10 (fun c => c - 48).
Definition hex_value : list Z -> Z := value 16 (fun c => if c <=? 57 then c - 48 else if c <=? 70 then c - 55 else c - 87).

Lemma value_snoc base digit ds c : value base digit (ds ++ [c]) = value base digit ds * base + digit c.
Proof. unfold value. by rewrite foldl_app. Qed.

Definition is_hex (c : Z) : Prop := 48 <= c < 58 \/ 65 <= c < 71 \/ 97 <= c < 103.

#[export] Instance is_hex_dec c : Decision (is_hex c).
Proof. unfold is_hex. apply _. Defined.

Lemma put_dec_spec room n acc : 0 <= n < 10 ^ Z.of_nat room ->
  exists ds, put_dec room n acc = Some (ds ++ acc) /\ dec_value ds = n /\ Forall (fun c => 48 <= c < 58) ds /\
    (head ds = None -> n = 0) /\ head ds <> Some 48 /\ (length ds <= room)%nat.
Proof.
  revert n acc. induction room as [|r IH]; intros n acc Hn; cbn [put_dec]; destruct (Z.gtb_spec n 0).
  - cbn in Hn. lia.
  - assert (n = 0) as -> by lia. by exists [].
  - rewrite Nat2Z.inj_succ, Z.pow_succ_r in Hn by lia.
    destruct (IH (n / 10) (dec_digit (n mod 10) :: acc)) as (ds & E & V & F & Z0 & H0 & L); [div_lia|].
    exists (ds ++ [dec_digit (n mod 10)]). rewrite <- app_assoc. unfold dec_digit in *. split_and!.
    + exact E.
    + unfold dec_value in *. rewrite value_snoc, V. div_lia.
    + apply Forall_app. split; [done|]. constructor; [div_lia|constructor].
    + by destruct ds.
    + destruct ds; [|done]. specialize (Z0 eq_refl). cbn. intros [= E']. div_lia.
    + rewrite length_app. cbn [length]. lia.
  - assert (n = 0) as -> by lia. exists []. split_and!; try done. cbn [length]. lia.
Qed.

Lemma put_dec_room room room' n acc s : (room <= room')%nat -> put_dec room n acc = Some s -> put_dec room' n acc = Some s.
Proof.
  revert room' n acc. induction room as [|r IH]; intros room' n acc Hr; destruct room' as [|r']; cbn [put_dec]; try lia;
    destruct (n >? 0); try done. apply IH. lia.
Qed.

Lemma nibbles d : 0 <= d < 16 ->
  is_hex (hex_upper d) /\ hex_value [hex_upper d] = d /\ is_hex (nibble_char d) /\ hex_value [nibble_char d] = d.
Proof.
  intros Hd. assert (d ∈ seqZ 0 16) as He by (apply elem_of_seqZ; lia). clear Hd; revert d He.
  apply Forall_forall. apply (bool_decide_unpack _). vm_compute. exact I.
Qed.

Lemma hex_value_snoc ds c : hex_value (ds ++ [c]) = hex_value ds * 16 + hex_value [c].
Proof. unfold hex_value. rewrite value_snoc. unfold value. cbn [foldl]. lia. Qed.

Lemma low4 x : x .& 0xF = x mod 16.
Proof. exact (Z.land_ones x 4 ltac:(lia)). Qed.

Lemma put_hex_spec room n acc : 0 <= n < 16 ^ Z.of_nat room -> (0 < room)%nat ->
  exists ds, put_hex room n acc = Some (ds ++ acc) /\ hex_value ds = n /\ Forall is_hex ds /\ (0 < length ds <= room)%nat.
Proof.
  revert n acc. induction room as [|r IH]; intros n acc Hn Hr; [lia|]. cbn [put_hex].
  rewrite low4, shiftr_div by lia. change (2 ^ 4) with 16. destruct (nibbles (n mod 16)) as (Hx & Hv & _); [div_lia|].
  destruct (Z.eqb_spec (n / 16) 0).
  - exists [hex_upper (n mod 16)]. split_and!; [done| |by constructor|cbn; lia..]. rewrite Hv. div_lia.
  - rewrite Nat2Z.inj_succ, Z.pow_succ_r in Hn by lia.
    assert (0 < r)%nat as Hr'. { destruct r; [|lia]. cbn in Hn. div_lia. }
    destruct (IH (n / 16) (hex_upper (n mod 16) :: acc)) as (ds & E & V & F & L); [div_lia|done|].
    exists (ds ++ [hex_upper (n mod 16)]). rewrite <- app_assoc, hex_value_snoc, V, Hv, length_app. cbn [length].
    split_and!; [done|div_lia| |lia..]. apply Forall_app. split; [done|]. by constructor.
Qed.

Lemma hex64_value val : 0 <= val < 2 ^ 64 ->
  hex64_text val = [48; 120] ++ map (fun i => nibble_char (val / 16 ^ (15 - i) mod 16)) (seqZ 0 16) ++ [10].
Proof.
  intros Hv. unfold hex64_text. do 2 f_equal. apply map_ext_in. intros i Hi%list_elem_of_In%elem_of_seqZ.
  rewrite low4, shiftr_div by lia. replace (60 - i * 4) with (4 * (15 - i)) by lia. by rewrite Z.pow_mul_r by lia.
Qed.

Lemma hex_prefix val k : 0 <= val -> (k <= 16)%nat ->
  hex_value (map (fun i => nibble_char (val / 16 ^ (15 - i) mod 16)) (seqZ 0 (Z.of_nat k))) = val / 16 ^ (16 - Z.of_nat k) mod 16 ^ Z.of_nat k /\
  Forall is_hex (map (fun i => nibble_char (val / 16 ^ (15 - i) mod 16)) (seqZ 0 (Z.of_nat k))).
Proof.
  intros Hv. induction k as [|k IH]; intros Hk. { cbn. rewrite Z.mod_1_r. by split. }
  rewrite Nat2Z.inj_succ. unfold Z.succ. rewrite seqZ_app by lia. change (seqZ (0 + Z.of_nat k) 1) with [0 + Z.of_nat k].
  rewrite map_app. cbn [map]. rewrite hex_value_snoc. destruct IH as [-> IH]; [lia|].
  set (q := val / 16 ^ (15 - (0 + Z.of_nat k))). destruct (nibbles (q mod 16)) as (_ & _ & Hx & ->); [apply Z.mod_pos_bound; lia|].
  split; [|apply Forall_app; split; [done|by constructor]].
  replace (val / 16 ^ (16 - Z.of_nat k)) with (q / 16).
  - replace (16 - (Z.of_nat k + 1)) with (15 - (0 + Z.of_nat k)) by lia. fold q.
    rewrite (Z.pow_add_r 16 (Z.of_nat k) 1), Z.pow_1_r, (Z.mul_comm (16 ^ Z.of_nat k) 16), Z.rem_mul_r by lia. lia.
  - unfold q. rewrite Z.div_div by lia. f_equal. rewrite Z.mul_comm, <- Z.pow_succ_r by lia. f_equal. lia.
Qed.

(** ** The screen and an endless terminal *)

(** The rows written so far, at least a screenful, and the place of the next character. *)
Record tty := { t_rows : list (list Z); t_row : nat; t_col : Z; t_attr : Z }.

Definition blank_row (attr : Z) : list Z := repeat (cell attr 32) 80.

Definition tty_newline (t : tty) : tty :=
  {| t_rows := if bool_decide (S (t_row t) < length (t_rows t))%nat then t_rows t else t_rows t ++ [blank_row (t_attr t)];
     t_row := S (t_row t); t_col := 0; t_attr := t_attr t |}.

Definition tty_putc (t : tty) (c : Z) : tty :=
  if c =? 13 then {| t_rows := t_rows t; t_row := t_row t; t_col := 0; t_attr := t_attr t |}
  else if c =? 10 then tty_newline t
  else
    let t := {| t_rows := alter (<[Z.to_nat (t_col t) := cell (t_attr t) c]>) (t_row t) (t_rows t);
                t_row := t_row t; t_col := t_col t + 1; t_attr := t_attr t |} in
    if t_col t =? 80 then tty_newline t else t.

(** The rows above the last 25 have scrolled away. *)
Definition gone (t : tty) : nat := length (t_rows t) - 25.
Definition visible (t : tty) : list Z := concat (drop (gone t) (t_rows t)).

Definition shows (v : vga) (t : tty) : Prop :=
  cells v = visible t /\ g_col v = t_col t /\ g_attr v = t_attr t /\ 0 <= t_col t < 80 /\
  Forall (fun r => length r = 80%nat) (t_rows t) /\ (25 <= length (t_rows t))%nat /\
  (gone t <= t_row t < length (t_rows t))%nat /\ g_row v = Z.of_nat (t_row t - gone t).

Lemma foldlO_app {A B} (f : A -> B -> option A) a l1 l2 : foldlO f a (l1 ++ l2) = (a ← foldlO f a l1; foldlO f a l2).
Proof. revert a. induction l1 as [|x l IH]; intros a; [done|]. cbn [foldlO app]. by destruct (f a x). Qed.

Lemma seqZ_S k : seqZ 0 (Z.of_nat (S k)) = seqZ 0 (Z.of_nat k) ++ [Z.of_nat k].
Proof. rewrite Nat2Z.inj_succ. unfold Z.succ. rewrite seqZ_app by lia. by rewrite Z.add_0_l. Qed.

Lemma copy_up_loop b k : (k + 80 <= length b)%nat ->
  foldlO copy_up b (seqZ 0 (Z.of_nat k)) = Some (take k (drop 80 b) ++ drop k b).
Proof.
  induction k as [|k IH]; intros Hk; [by rewrite take_0|]. rewrite seqZ_S, foldlO_app, IH by lia. cbn [mbind option_bind foldlO].
  assert (length (take k (drop 80 b)) = k) as Hl by (rewrite length_take, length_drop; lia).
  unfold copy_up, VGA_COLS. rewrite getb_skip, Hl by lia. unfold getb. rewrite decide_True, lookup_drop by lia.
  replace (k + Z.to_nat (Z.of_nat k + 80 - Z.of_nat k))%nat with (80 + k)%nat by lia.
  destruct (lookup_lt_is_Some_2 b (80 + k)) as [x Hx]; [lia|]. rewrite Hx. cbn [mbind option_bind].
  unfold put_cell. rewrite length_app, Hl, length_drop.
  rewrite (proj2 (Z.leb_le _ _)), (proj2 (Z.ltb_lt _ _)) by lia. cbn [andb]. f_equal. rewrite Nat2Z.id.
  rewrite (take_S_r _ _ x) by (by rewrite lookup_drop). rewrite insert_app_r_alt, Hl, Nat.sub_diag by lia.
  destruct (lookup_lt_is_Some_2 b k) as [y Hy]; [lia|]. rewrite (drop_S _ y k) by done. by rewrite <- app_assoc.
Qed.

Lemma fill_loop b off v k : (off + k <= length b)%nat ->
  foldlO (fun b c => put_cell b (Z.of_nat off + c) v) b (seqZ 0 (Z.of_nat k)) = Some (take off b ++ repeat v k ++ drop (off + k) b).
Proof.
  induction k as [|k IH]; intros Hk. { cbn [foldlO seqZ repeat app]. by rewrite Nat.add_0_r, take_drop. }
  rewrite seqZ_S, foldlO_app, IH by lia. cbn [mbind option_bind foldlO].
  unfold put_cell. rewrite !length_app, length_take, repeat_length, length_drop.
  rewrite (proj2 (Z.leb_le _ _)), (proj2 (Z.ltb_lt _ _)) by lia. cbn [andb]. f_equal.
  rewrite insert_app_r_alt by (rewrite length_take; lia). rewrite insert_app_r_alt by (rewrite length_take, repeat_length; lia).
  rewrite length_take, repeat_length. replace (Z.to_nat _ - _ - _)%nat with 0%nat by lia.
  destruct (lookup_lt_is_Some_2 b (off + k)) as [y Hy]; [lia|]. rewrite (drop_S _ y _) by done. cbn [insert list_insert].
  rewrite <- (Nat.add_1_r k), repeat_app, <- !app_assoc, Nat.add_assoc, Nat.add_1_r. done.
Qed.

Lemma vga_scroll_up v b : cells v = b -> length b = 2000%nat ->
  vga_scroll v = Some {| cells := drop 80 b ++ blank_row (g_attr v); g_col := g_col v; g_row := 24; g_attr := g_attr v |}.
Proof.
  intros Hb Hl. unfold vga_scroll. rewrite Hb. change ((VGA_ROWS - 1) * VGA_COLS) with (Z.of_nat 1920). change VGA_COLS with (Z.of_nat 80).
  rewrite copy_up_loop by lia. cbn [mbind option_bind].
  rewrite fill_loop by (rewrite length_app, length_take, !length_drop; lia). cbn [mbind option_bind]. do 2 f_equal.
  rewrite (take_ge (drop 80 b)) by (rewrite length_drop; lia). rewrite take_app_length' by (rewrite length_drop; lia).
  rewrite (drop_ge _ (1920 + 80)) by (rewrite length_app, !length_drop; lia). by rewrite app_nil_r.
Qed.

Lemma concat_put rows r c x : Forall (fun l : list Z => length l = 80%nat) rows -> (r < length rows)%nat -> (c < 80)%nat ->
  <[(r * 80 + c)%nat := x]> (concat rows) = concat (alter (<[c := x]>) r rows).
Proof.
  intros Hr. revert r. induction Hr as [|l rows Hl Hr IH]; intros r Hlt Hc; [cbn in Hlt; lia|].
  destruct r as [|r]; cbn [concat alter list_alter].
  - by rewrite insert_app_l by lia.
  - rewrite insert_app_r_alt by lia. f_equal. rewrite <- IH by (cbn [length] in Hlt; lia). f_equal. lia.
Qed.

Lemma concat_rows_length rows : Forall (fun l : list Z => length l = 80%nat) rows -> length (concat rows) = (length rows * 80)%nat.
Proof. induction 1 as [|l rows Hl Hr IH]; [done|]. cbn [concat length]. rewrite length_app, IH, Hl. lia. Qed.

Lemma visible_length t : Forall (fun r => length r = 80%nat) (t_rows t) -> (25 <= length (t_rows t))%nat -> length (visible t) = 2000%nat.
Proof.
  intros Hr Hn. unfold visible. rewrite concat_rows_length by by apply Forall_drop. rewrite length_drop. unfold gone. lia.
Qed.

(** [shows] without what it says of the column. *)
Definition shows_rows (v : vga) (t : tty) : Prop :=
  cells v = visible t /\ g_attr v = t_attr t /\
  Forall (fun r => length r = 80%nat) (t_rows t) /\ (25 <= length (t_rows t))%nat /\
  (gone t <= t_row t < length (t_rows t))%nat /\ g_row v = Z.of_nat (t_row t - gone t).

Lemma newline_shows v t : shows_rows v t ->
  exists v', scroll_check {| cells := cells v; g_col := 0; g_row := g_row v + 1; g_attr := g_attr v |} = Some v' /\ shows v' (tty_newline t).
Proof.
  intros (Hc & Ha & Hr & Hn & Hg & Hrow). unfold scroll_check, tty_newline, shows, gone in *. cbn [g_row t_rows t_row t_col t_attr].
  case_bool_decide as Hlast.
  - change VGA_ROWS with 25. destruct (Z.geb_spec (g_row v + 1) 25); [lia|]. eexists. split; [reflexivity|].
    cbn [cells g_col g_row g_attr]. unfold visible, gone in *. cbn [t_rows]. split_and!; try done; lia.
  - change VGA_ROWS with 25. destruct (Z.geb_spec (g_row v + 1) 25); [|lia].
    erewrite vga_scroll_up; [|exact Hc|by apply visible_length]. eexists. split; [reflexivity|].
    cbn [cells g_col g_row g_attr]. rewrite length_app. cbn [length]. split_and!; try done; try lia.
    + unfold visible, gone. cbn [t_rows]. rewrite length_app, Ha. cbn [length].
      replace (length (t_rows t) + 1 - 25)%nat with (S (length (t_rows t) - 25)) by lia.
      rewrite drop_app_le, concat_app by lia. cbn [concat]. rewrite app_nil_r. f_equal.
      destruct (lookup_lt_is_Some_2 (t_rows t) (length (t_rows t) - 25)) as [r0 Hr0]; [lia|].
      rewrite (drop_S (t_rows t) r0) by done. cbn [concat]. rewrite drop_app_length'; [done|].
      symmetry. by eapply Forall_lookup_1 in Hr.
    + apply Forall_app. split; [done|]. constructor; [done|constructor].
Qed.

Lemma putc_shows v t c : shows v t -> exists v', vga_putc v c = Some v' /\ shows v' (tty_putc t c).
Proof.
  intros (Hc & Hcol & Ha & Hb & Hr & Hn & Hg & Hrow). unfold vga_putc, tty_putc.
  destruct (c =? 13). { eexists. split; [reflexivity|]. unfold shows, visible, gone in *. cbn [cells g_col g_row g_attr t_rows t_row t_col t_attr]. split_and!; done || lia. }
  destruct (c =? 10). { by apply newline_shows. }
  assert (Hl : zlen (cells v) = 2000) by (rewrite Hc, visible_length; done).
  set (t1 := {| t_rows := alter _ _ _; t_row := _; t_col := _; t_attr := _ |}).
  set (b := <[Z.to_nat (g_row v * VGA_COLS + g_col v) := cell (g_attr v) c]> (cells v)).
  assert (put_cell (cells v) (g_row v * VGA_COLS + g_col v) (cell (g_attr v) c) = Some b) as ->.
  { unfold put_cell, VGA_COLS, gone in *. rewrite Hl, (proj2 (Z.leb_le _ _)), (proj2 (Z.ltb_lt _ _)) by lia. done. }
  cbn [mbind option_bind]. assert (Hlen : length (t_rows t1) = length (t_rows t)) by (unfold t1; cbn; apply length_alter).
  assert (H1 : shows_rows {| cells := b; g_col := g_col v; g_row := g_row v; g_attr := g_attr v |} t1).
  { unfold shows_rows. cbn [cells g_attr g_row]. rewrite Hlen. unfold gone in *. rewrite Hlen. change (t_row t1) with (t_row t). split_and!; try done; try lia.
    - unfold b, visible, gone. rewrite Hlen, Hc. unfold visible, gone, t1. cbn [t_rows].
      rewrite drop_alter_ge by lia. rewrite <- concat_put; [|by apply Forall_drop|rewrite length_drop; lia|lia].
      rewrite Ha, Hrow, Hcol. f_equal. unfold VGA_COLS. lia.
    - unfold t1. cbn [t_rows]. apply Forall_alter; [done|]. intros r _ Hlr. by rewrite length_insert. }
  change (t_col t1) with (t_col t + 1). change VGA_COLS with 80. rewrite Hcol.
  destruct (Z.eqb_spec (t_col t + 1) 80); destruct (Z.geb_spec (t_col t + 1) 80); try lia.
  - apply newline_shows in H1. exact H1.
  - destruct H1 as (E1 & E2 & E3 & E4 & E5 & E6). cbn [cells g_attr g_row] in *. unfold scroll_check. cbn [g_row].
    change VGA_ROWS with 25. destruct (Z.geb_spec (g_row v) 25); [unfold gone in *; lia|]. eexists. split; [reflexivity|].
    unfold shows. cbn [cells g_col g_row g_attr]. change (t_col t1) with (t_col t + 1). split_and!; done || lia.
Qed.

Lemma puts_shows s v t : shows v t -> exists v', vga_puts v s = Some v' /\ shows v' (foldl tty_putc t s).
Proof.
  revert v t. induction s as [|c s IH]; intros v t H; [by exists v|]. unfold vga_puts. cbn [foldlO foldl].
  destruct (putc_shows v t c H) as (v1 & -> & H1). by apply IH.
Qed.

Definition tty_clear : tty := {| t_rows := repeat (blank_row (VGA_ATTR 13 0)) 25; t_row := 0; t_col := 0; t_attr := VGA_ATTR 13 0 |}.

Lemma clear_shows v : length (cells v) = 2000%nat -> shows (vga_clear v) tty_clear.
Proof.
  intros Hl. unfold vga_clear, shows, gone, visible, gone. cbn [cells g_col g_row g_attr t_rows t_row t_col t_attr tty_clear].
  change (Z.to_nat (VGA_ROWS * VGA_COLS)) with 2000%nat. rewrite drop_ge, app_nil_r by lia. rewrite repeat_length.
  split_and!; try done; try lia; try (vm_compute; reflexivity). apply Forall_forall. by intros r ->%list_elem_of_In%repeat_spec.
Qed.

(** What COM1 transmits of the port writes made. *)
Definition transmitted (w : list wire) : list Z :=
  flat_map (fun x => match x with Outb p v => if p =? COM1 then [v] else [] | Write s => s | Reset => [] end) w.

Lemma com1_puts s status out : bytes s ->
  (length s <= length (List.filter (fun x => negb (x .& 0x20 =? 0)%Z) status))%nat ->
  exists status' w, foldlO com1_putc (status, out) s = Some (status', out ++ w) /\ transmitted w = s.
Proof.
  intros Hs. revert status out. induction Hs as [|c s Hc Hs IH]; intros status out Hn; [by exists status, []; rewrite app_nil_r|].
  cbn [foldlO length] in *.
  assert (exists status', com1_wait status = Some status' /\
    (length s <= length (List.filter (fun x => negb (x .& 0x20 =? 0)%Z) status'))%nat) as (status' & E & Hn').
  { clear -Hn. induction status as [|x st IH]; cbn [List.filter com1_wait length] in *; [lia|].
    destruct (x .& 0x20 =? 0); cbn [negb] in Hn; [by apply IH|]. exists st. cbn [length] in Hn. split; [done|lia]. }
  unfold com1_putc at 1. cbn [fst snd]. rewrite E. cbn [mbind option_bind]. destruct (IH status' (out ++ [Outb COM1 (u8 c)]) Hn') as (s2 & w & E2 & T).
  exists s2, (Outb COM1 (u8 c) :: w). rewrite E2, <- app_assoc. split; [done|]. unfold transmitted in *. cbn [flat_map].
  rewrite Z.eqb_refl, T, u8_byte by done. done.
Qed.

(** ** Properties *)

(** [C36] Text of the Basic Multilingual Plane, encoded in UTF-8, reaches the firmware as its
    UCS-2 units with every newline as carriage return and newline, in pieces of 1 to 126
    units, so that the buffer of 128 always holds them and their terminator. *)
Theorem con_puts_decodes (l : list Z) (Hl : Forall code_point l) :
  exists out, con_puts (flat_map utf8 l) = Some out /\ concat out = flat_map units l /\ Forall (fun b => 0 < zlen b <= 126) out.
Proof. by apply con_puts_utf8. Qed.

Lemma con_puts_decodes_witness :
  Forall code_point [9553; 955; 10; 65] /\
  exists out, con_puts (flat_map utf8 [9553; 955; 10; 65]) = Some out /\ concat out = [9553; 955; 13; 10; 65] /\
    Forall (fun b => 0 < zlen b <= 126) out.
Proof.
  assert (Forall code_point [9553; 955; 10; 65]) as H by (unfold code_point; repeat constructor; lia).
  split; [exact H|]. exact (con_puts_decodes [9553; 955; 10; 65] H).
Defined.

(** The printers of numbers: a non-negative [int] is printed as its decimal digits, a
    64-bit value as 0x and one to sixteen hexadecimal digits, on the debug port as exactly
    sixteen; the buffers are large enough, and reading the digits gives the value back. *)
Theorem numbers_print (n v : Z) (Hn : 0 <= n < 2 ^ 31) (Hv : 0 <= v < 2 ^ 64) :
  (exists ds, int_text n = Some ds /\ dec_value ds = n /\ Forall (fun c => 48 <= c < 58) ds /\ 0 < zlen ds <= 10 /\
    (head ds = Some 48 -> ds = [48])) /\
  (exists ds, hex_text v = Some ([48; 120] ++ ds) /\ hex_value ds = v /\ Forall is_hex ds /\ 0 < zlen ds <= 16) /\
  (exists ds, hex64_text v = [48; 120] ++ ds ++ [10] /\ hex_value ds = v /\ Forall is_hex ds /\ zlen ds = 16).
Proof.
  split_and!.
  - unfold int_text. destruct (Z.eqb_spec n 0) as [->|Hne]; [by exists [48]; split_and!; repeat constructor|].
    destruct (put_dec_spec 10 n []) as (ds & E & V & F & Z0 & H0 & L); [lia|]. exists ds.
    rewrite (put_dec_room 10 15 _ _ _ ltac:(lia) E), app_nil_r. split_and!; try done; [|lia].
    destruct ds; [by specialize (Z0 eq_refl)|cbn; lia].
  - unfold hex_text. destruct (put_hex_spec 16 v []) as (ds & E & V & F & L); [lia|lia|]. rewrite E, app_nil_r. cbn [mbind option_bind].
    exists ds. split_and!; try done; lia.
  - destruct (hex_prefix v 16) as [V F]; [lia|done|]. change (Z.of_nat 16) with 16 in *. eexists. split; [by apply hex64_value|]. split_and!; [|exact F|done].
    rewrite V. rewrite Z.div_1_r. apply Z.mod_small. lia.
Qed.

Lemma numbers_print_witness :
  (0 <= 2147483647 < 2 ^ 31 /\ 0 <= 2 ^ 64 - 1 < 2 ^ 64) /\
  exists ds, hex_text (2 ^ 64 - 1) = Some ([48; 120] ++ ds) /\ hex_value ds = 2 ^ 64 - 1 /\ Forall is_hex ds /\ 0 < zlen ds <= 16.
Proof.
  split; [lia|]. exact (proj1 (proj2 (numbers_print 2147483647 (2 ^ 64 - 1) ltac:(lia) ltac:(lia)))).
Defined.

(** [C35] The VGA text screen refines an endless terminal: after any string printed to a
    cleared screen no cell outside of it was touched, the 2000 cells are the terminal's
    last 25 rows, everything above having scrolled away, and the cursor is where the
    terminal has it. *)
Theorem vga_is_terminal (v : vga) (s : list Z) (Hl : length (cells v) = 2000%nat) :
  exists v', vga_puts (vga_clear v) s = Some v' /\ shows v' (foldl tty_putc tty_clear s).
Proof. by apply puts_shows, clear_shows. Qed.

Definition demo_screen : vga := {| cells := repeat 0 2000; g_col := 7; g_row := 9; g_attr := 0 |}.

Lemma vga_is_terminal_witness :
  length (cells demo_screen) = 2000%nat /\
  exists v', vga_puts (vga_clear demo_screen) (cs "SakuruBoot" ++ [13; 10]) = Some v' /\
    shows v' (foldl tty_putc tty_clear (cs "SakuruBoot" ++ [13; 10])).
Proof. split; [reflexivity|]. exact (vga_is_terminal demo_screen _ eq_refl). Defined.

(** [serial_puts] delivers the bytes of the string in order and nothing else, through
    the firmware's protocol or, once the transmitter has become free for each, through
    COM1. *)
Theorem serial_puts_delivers (located has_reset : bool) (s status : list Z)
    (Hs : bytes s) (Hready : (length s <= length (List.filter (fun x => negb (x .& 0x20 =? 0)%Z) status))%nat) :
  let (p, w) := serial_init located has_reset in
  exists status' w', serial_puts p (status, w) s = Some (status', w ++ w') /\ transmitted w' = s.
Proof.
  destruct located; cbn [serial_init serial_puts fst snd].
  - exists status, [Write s]. split; [done|]. unfold transmitted. cbn. by rewrite app_nil_r.
  - by apply com1_puts.
Qed.

Lemma serial_puts_delivers_witness :
  (bytes (cs "ok") /\ (length (cs "ok") <= length (List.filter (fun x => negb (x .& 0x20 =? 0)%Z) [0; 0x60; 0; 0; 0x20]%Z))%nat) /\
  exists status' w', serial_puts Com1 ([0; 0x60; 0; 0; 0x20], com1_init) (cs "ok") = Some (status', com1_init ++ w') /\ transmitted w' = cs "ok".
Proof.
  assert (bytes (cs "ok")) as H by (apply (bool_decide_unpack _); vm_compute; exact I).
  split; [split; [exact H|vm_compute; lia]|].
  exact (serial_puts_delivers false true (cs "ok") [0; 0x60; 0; 0; 0x20] H ltac:(vm_compute; lia)).
Defined.

(** A hundred polls without a key are a timeout, the menu's tick. *)
Lemma con_read_key_timeout polls : (length polls = 100)%nat -> Forall (fun p => p = None) polls -> con_read_key polls = Some (-1).
Proof.
  unfold con_read_key. intros Hl Hn.
  assert (forall k i p, (length p = k)%nat -> Forall (fun p => p = None) p -> i = 100 - Z.of_nat k -> poll_keys i p = Some (-1)) as H.
  { induction k as [|k IH]; intros i p Hk Hp Hi; destruct p as [|q p]; try done; cbn [poll_keys].
    - rewrite (proj2 (Z.ltb_ge _ _)) by lia. done.
    - inversion Hp as [|? ? -> Hp']; subst. cbn [length] in *.
      destruct (Z.ltb_spec (100 - Z.of_nat (S k)) 100); [|lia]. apply IH; [lia|done|lia]. }
  by apply (H 100%nat).
Qed.

End Console.
