(* ===== verification/Uefi.v ===== *)
(** * Uefi: the steps between the firmware and the kernel, [uefi/uefi_loader.c]

    The boot volume, the table the menu shows, unlocking an encrypted entry, the choice
    of an operating system loader, the frame buffer and the ACPI root pointer, as
    [uefi_main] uses them.  The firmware's protocols are arguments; [None] outside is
    behaviour C leaves undefined. *)

From stdpp Require Import gmap.
From S2P Require Import Prelude Sha Hmac Cipher Config Menu Passphrase Efi Luks1 Luks2 LuksVol Ext4 LoaderEntry Elf Linux Windows Scan.
Import Config Efi.

Module Uefi.

(** ** The boot volume *)

Section Boot.
(** Whether a handle has the file system protocol, the root of its volume, and files. *)
Context (has_sfs : Z -> bool) (OpenVolume : Z -> option Z) (Open : Z -> list Z -> option EfiFile).

Definition open_root (h : Z) : option Z := if has_sfs h then OpenVolume h else None.

Definition sfs_has_file (h : Z) (path : list Z) : bool :=
  match open_root h with
  | None => false
  | Some root => match Open root (wpath path) with Some _ => true | None => false end
  end.

Definition BOOTX64 : list Z := cs "/EFI/BOOT/BOOTX64.EFI".
Definition CONFIG : list Z := cs "/sakuru.cfg".

(** The three passes. *)
Definition best_volume (handles : list Z) : option Z :=
  match find (fun h => sfs_has_file h BOOTX64) handles with
  | Some h => Some h
  | None =>
    match find (fun h => sfs_has_file h CONFIG) handles with
    | Some h => Some h
    | None => find has_sfs handles
    end
  end.

(** [device] is the device the loader itself came from; the handle and the open root. *)
Definition find_boot_volume (device : option Z) (handles : option (list Z)) : option (Z * Z) :=
  match device ≫= (fun d => root ← open_root d; Some (d, root)) with
  | Some b => Some b
  | None => best ← best_volume (default [] handles); root ← open_root best; Some (best, root)
  end.

(** The wait for the boot volume: what each of the at most 20 polls enumerates; the
    number of pauses made. *)
Fixpoint await_boot_volume (attempts : nat) (polls : nat -> option (list Z)) : nat :=
  match attempts with
  | O => O
  | S n =>
    if existsb (fun h => sfs_has_file h BOOTX64 || sfs_has_file h CONFIG) (default [] (polls O)) then O
    else S (await_boot_volume n (fun i => polls (S i)))
  end.
End Boot.

(** ** The table of entries *)

Section Discover.
Context (Open : Z -> list Z -> option EfiFile) (Entries : Z -> list Z -> list (Z * list Z)) (alloc : Z -> bool).
Context (OpenVolume : Z -> option Z) (dev : Z -> Scan.BlockDev).
(** [/loader/entries/] of a volume as [loader_entry_scan] reads it. *)
Context (le_dir : Z -> option (list (Z * list Z))) (le_read : Z -> list Z -> option (list Z)).
(** What the unused element of the table on the stack holds. *)
Context (junk : BootEntry).

(** The boot volume once more, in case the enumeration has missed it. *)
Definition rescan_boot (st : Scan.state) (boot : Z * Z) : option Scan.state :=
  let (h, root) := boot in
  st ← (if num_entries (Scan.cfg st) =? 0 then Scan.read_cfg Open alloc st root h else Some st);
  st ← Scan.scan_dir_uefi Open Entries st root h (cs "/boot") false;
  Scan.scan_dir_uefi Open Entries st root h (cs "/EFI/Linux") true.

Definition shell_entry : BootEntry :=
  {| name := cs "UEFI Shell"; type := OS_TYPE_UEFI_SHELL; kernel := []; initrd := []; cmdline := [];
     encrypted := encrypted junk; luks_keyfile := luks_keyfile junk; luks_tries := luks_tries junk |}.

Definition add_shell (st : Scan.state) : Scan.state :=
  if num_entries (Scan.cfg st) <? MAX_ENTRIES
  then {| Scan.cfg := set_entries (Scan.cfg st) (entries (Scan.cfg st) ++ [shell_entry]); Scan.ctxs := Scan.ctxs st |}
  else st.

(** [boot] is the boot volume's handle and root, when there is one. *)
Definition discover (boot : option (Z * Z)) (fats exts : option (list Z)) : option Scan.state :=
  st ← Scan.scan_all Open Entries alloc OpenVolume dev Scan.start (match boot with Some (h, _) => h | None => 0 end) fats exts;
  st ← (match boot with Some b => rescan_boot st b | None => Some st end);
  let st := add_shell st in
  match boot with
  | None => Some st
  | Some (_, root) =>
    cf ← LoaderEntry.loader_entry_scan (le_read root) (le_dir root) (Scan.cfg st);
    Some {| Scan.cfg := cf; Scan.ctxs := Scan.ctxs st |}
  end.
End Discover.

(** ** Unlocking *)

Definition passphrase_size : Z := 256.

Definition prompt (attempt tries : Z) : list Z :=
  if attempt >? 0
  then cstr (cs "LUKS passphrase (" ++ [u8 (49 + attempt); 47; u8 (48 + tries); 41])
  else cs "LUKS passphrase".

Inductive unlock_result := Unlocked (v : Ext4.Ext4Vol) | Locked | Waiting.

Section Unlock.
(** Block I/O of the partition. *)
Context (ReadBlocks : Z -> Z -> Z -> option (list Z)) (MediaId : Z) (alloc : Z -> bool) (sizeof_vol : Z).
(** What uninitialised and static memory holds when an attempt starts. *)
Context (junk key0 : Z -> list Z) (st1 : Z -> Luks1.scratch) (st2 : Z -> Luks2.scratch2).
(** The keys the keyboard delivers during an attempt. *)
Context (ops : Menu.MenuOps) (keys : Z -> list Z).

(** The volume opened with a passphrase and mounted: the inner [None] is a failure of
    either step. *)
Definition try_passphrase (attempt : Z) (pass : list Z) : option (option Ext4.Ext4Vol) :=
  lv ← LuksVol.luks_open_efi ReadBlocks MediaId alloc sizeof_vol (junk attempt) pass (key0 attempt) (st1 attempt) (st2 attempt);
  match lv with
  | None => Some None
  | Some lv => Ext4.ext4_mount_luks (LuksVol.efi_bio_read ReadBlocks MediaId) alloc (Some lv)
  end.

(** The loop; [keyfile]: the entry names a key file; [n] attempts of [tries] are left. *)
Fixpoint unlock_loop (keyfile : bool) (tries : Z) (n : nat) (attempt : Z) (buf : list Z) : option (unlock_result * list Z * list (list Z)) :=
  match n with
  | O => Some (Locked, buf, [])
  | S n =>
    p ← (if keyfile then
           if bool_decide (0 ∈ buf) then Some (Some (cstr buf, buf), []) else None
         else
           r ← Passphrase.passphrase_read ops passphrase_size [] (keys attempt) buf;
           match fst (fst r) with
           | Passphrase.Typed len => Some (Some (take (Z.to_nat len) (snd (fst r)), snd (fst r)), [prompt attempt tries])
           | Passphrase.Cancelled => Some (Some ([], snd (fst r)), [prompt attempt tries])
           | Passphrase.More => Some (None, [prompt attempt tries])
           end);
    match fst p with
    | None => Some (Waiting, buf, snd p)
    | Some (pass, buf) =>
      v ← try_passphrase attempt pass;
      buf ← Passphrase.passphrase_wipe buf passphrase_size;
      match v with
      | Some v => Some (Unlocked v, buf, snd p)
      | None => r ← unlock_loop keyfile tries n (attempt + 1) buf; Some (fst r, snd p ++ snd r)
      end
    end
  end.

(** [key_data]: what opening the key file on the boot volume and reading 255 bytes of it
    gives.  A file that opens but cannot be read leaves the size undetermined. *)
Definition unlock (e : BootEntry) (key_file : option EfiFile) : option (unlock_result * list Z * list (list Z)) :=
  let tries := if luks_tries e >? 0 then luks_tries e else 3 in
  let buf := repeat 0 (Z.to_nat passphrase_size) in
  if bool_decide (luks_keyfile e = []) then unlock_loop false tries (Z.to_nat tries) 0 buf
  else
    match key_file with
    | None => unlock_loop true tries (Z.to_nat tries) 0 buf
    | Some f =>
      d ← Read f 255;
      if zlen d <=? 255 then unlock_loop true 1 1 0 (d ++ [0] ++ drop (S (length d)) buf) else None
    end.
End Unlock.

(** ** Which loader, from which file system *)

Inductive OSLoader := vios_loader | linux_loader | windows_loader.

Definition loader_registry : list OSLoader := [vios_loader; linux_loader; windows_loader].

Definition can_load (l : OSLoader) (e : BootEntry) : bool :=
  match l with
  | vios_loader => Elf.vios_can_load e
  | linux_loader => Linux.linux_can_load e
  | windows_loader => Windows.windows_can_load e
  end.

Definition find_loader (e : BootEntry) : option OSLoader := find (fun l => can_load l e) loader_registry.

(** How the attempt to boot an entry goes on. *)
Inductive launch := LaunchShell | AccessDenied | NoLoader | OutOfMemory | NoContext | AtPrompt
  | Load (l : OSLoader) (cmdline : list Z) (ctx : Scan.FsCtx).

Section Launch.
(** Block I/O of a handle, if it has it: its [ReadBlocks] and media id. *)
Context (bio : Z -> option ((Z -> Z -> Z -> option (list Z)) * Z)) (Open : Z -> list Z -> option EfiFile).
Context (alloc : Z -> bool) (sizeof_vol sizeof_info : Z).
Context (junk key0 : Z -> list Z) (st1 : Z -> Luks1.scratch) (st2 : Z -> Luks2.scratch2).
Context (ops : Menu.MenuOps) (keys : Z -> list Z).

(** The file system context after the block on encrypted entries; [inr] ends the boot. *)
Definition unlock_context (e : BootEntry) (root : option Z) (ctx : Scan.FsCtx) : option (Scan.FsCtx + launch) :=
  if encrypted e =? 0 then Some (inl ctx)
  else
    match ctx with
    | Scan.CtxFat _ _ => Some (inl ctx)
    | Scan.CtxExt4 vol =>
      match Ext4.ext4_get_part_handle (Some vol) ≫= bio with
      | None => Some (inl ctx)
      | Some (ReadBlocks, MediaId) =>
        let key_file := root ← root; Open root (utf8_to_ucs2 (luks_keyfile e) 256) in
        r ← unlock ReadBlocks MediaId alloc sizeof_vol junk key0 st1 st2 ops keys e key_file;
        match fst (fst r) with
        | Unlocked v => Some (inl (Scan.CtxExt4 v))
        | Locked => Some (inr AccessDenied)
        | Waiting => Some (inr AtPrompt)
        end
      end
    end.

Definition boot_entry (e : BootEntry) (root : option Z) (ctx : option Scan.FsCtx) : option launch :=
  if bool_decide (type e = OS_TYPE_UEFI_SHELL) then Some LaunchShell
  else
    let load_ctx := default (Scan.CtxFat (default 0 root) 0) ctx in
    c ← unlock_context e root load_ctx;
    match c with
    | inr l => Some l
    | inl load_ctx =>
      match find_loader e with
      | None => Some NoLoader
      | Some l =>
        if negb (alloc sizeof_info) then Some OutOfMemory
        else
          match load_ctx with
          | Scan.CtxFat 0 _ => Some NoContext
          | _ => Some (Load l (take 255 (cmdline e)) load_ctx)
          end
      end
    end.
End Launch.

(** ** The frame buffer *)

Definition PixelBitMask : Z := 2.
Definition PixelBltOnly : Z := 3.

Record ModeInfo := { HorizontalResolution : Z; VerticalResolution : Z; PixelFormat : Z; PixelsPerScanLine : Z }.

(** A graphics output: the current mode, what [QueryMode] says of the others, and what
    the mode record shows after [SetMode]. *)
Record Gop := {
  FrameBufferBase : Z; Info : ModeInfo; MaxMode : Z;
  QueryMode : Z -> option ModeInfo; SetMode : Z -> Z * ModeInfo }.

Definition linear (base : Z) : bool := (base .& 0xFFF =? 0) && (base >=? 0x100000).

Fixpoint best_mode (g : Gop) (ms : list Z) (best_m best_w : Z) : Z :=
  match ms with
  | [] => best_m
  | m :: ms =>
    match QueryMode g m with
    | None => best_mode g ms best_m best_w
    | Some mi =>
      if PixelFormat mi =? PixelBltOnly then best_mode g ms best_m best_w
      else if (HorizontalResolution mi =? 1920) && (VerticalResolution mi =? 1080) && negb (PixelFormat mi =? PixelBitMask) then m
      else if HorizontalResolution mi >? best_w then best_mode g ms m (HorizontalResolution mi)
      else best_mode g ms best_m best_w
    end
  end.

Definition set_mode (g : Gop) (m : Z) : Gop :=
  {| FrameBufferBase := fst (SetMode g m); Info := snd (SetMode g m); MaxMode := MaxMode g; QueryMode := QueryMode g; SetMode := SetMode g |}.

(** Handles without the protocol or without a mode are [None]. *)
Fixpoint scan_gops (handles : list (option Gop)) (best : option Gop) : option Gop :=
  match handles with
  | [] => best
  | None :: hs => scan_gops hs best
  | Some g :: hs =>
    if linear (FrameBufferBase g) && negb (PixelFormat (Info g) =? PixelBltOnly) then Some g
    else
      let m := best_mode g (seqZ 0 (MaxMode g)) (MaxMode g) 0 in
      let found := m <? MaxMode g in
      let g := if found then set_mode g m else g in
      if found && linear (FrameBufferBase g) then Some g
      else scan_gops hs (match best with None => Some g | Some _ => best end)
  end.

(** The fields [fb_*] of the boot information, zero when there is no frame buffer. *)
Record Framebuffer := { fb_addr : Z; fb_width : Z; fb_height : Z; fb_pitch : Z; fb_bpp : Z; fb_pixel_format : Z }.

Definition gather_gop (handles : option (list (option Gop))) : option Framebuffer :=
  g ← scan_gops (default [] handles) None;
  if negb (FrameBufferBase g .& 0xFFF =? 0) || (FrameBufferBase g <? 0x100000) then None
  else
    Some {| fb_addr := FrameBufferBase g; fb_width := HorizontalResolution (Info g); fb_height := VerticalResolution (Info g);
            fb_pitch := u32 (PixelsPerScanLine (Info g) * 4); fb_bpp := 32; fb_pixel_format := PixelFormat (Info g) |}.

(** ** The ACPI root pointer *)

(** The first three fields of a GUID. *)
Definition guid : Type := Z * Z * Z.
Definition ACPI_20_TABLE_GUID : guid := (0x8868e871, 0xe4f1, 0x11d3).

Definition gather_rsdp (tables : list (guid * Z)) : option Z :=
  snd <$> find (fun t : guid * Z => bool_decide (fst t = ACPI_20_TABLE_GUID)) tables.

(** ** The memory map *)

Record MemMap := { mem_map_addr : Z; mem_map_size : Z; mem_map_entry_size : Z; mem_map_version : Z }.

(** [GetMemoryMap] before and after the allocation of the buffer: size, key, size of an
    entry, version; [inr] is the status reported. *)
Definition exit_boot_services (before : Z * Z) (alloc : Z -> Z + Z) (after : Z -> (Z * Z * Z * Z) + Z) (exit : Z -> Z) : (MemMap * Z) + Z :=
  let (size, desc) := before in
  let size := u64 (size + u64 (2 * desc)) in
  match alloc size with
  | inr s => inr s
  | inl mmap =>
    match after size with
    | inr s => inr s
    | inl (size, key, desc, ver) =>
      inl ({| mem_map_addr := mmap; mem_map_size := size; mem_map_entry_size := desc; mem_map_version := ver |}, exit key)
    end
  end.

(** ** The boot volume *)

Section BootLaws.
Context (has_sfs : Z -> bool) (OpenVolume : Z -> option Z) (Open : Z -> list Z -> option EfiFile).

Abbreviation has := (sfs_has_file has_sfs OpenVolume Open).

Lemma has_opens h p : has h p = true -> exists root, open_root has_sfs OpenVolume h = Some root.
Proof using. unfold sfs_has_file. destruct (open_root _ _ h) as [root|]; [by exists root|done]. Qed.

Lemma find_not {A} (f : A -> bool) l : find f l = None -> forall x, x ∈ l -> f x = false.
Proof using. clear. intros H x Hx%list_elem_of_In. by eapply find_none. Qed.

Lemma best_volume_some handles h : best_volume has_sfs OpenVolume Open handles = Some h ->
  h ∈ handles /\
  (has h BOOTX64 = true \/
   (forall x, x ∈ handles -> has x BOOTX64 = false) /\
   (has h CONFIG = true \/ (forall x, x ∈ handles -> has x CONFIG = false) /\ has_sfs h = true)).
Proof using.
  unfold best_volume.
  destruct (find _ handles) as [h1|] eqn:E1. { intros [= <-]. apply find_some in E1 as [Hin%list_elem_of_In H]. tauto. }
  pose proof (find_not _ _ E1). destruct (find _ handles) as [h2|] eqn:E2 at 1.
  { intros [= <-]. apply find_some in E2 as [Hin%list_elem_of_In H2]. tauto. }
  pose proof (find_not _ _ E2). intros [Hin%list_elem_of_In H3]%find_some. tauto.
Qed.

Lemma best_volume_found handles x p : x ∈ handles -> (p = BOOTX64 \/ p = CONFIG) -> has x p = true ->
  exists h root, best_volume has_sfs OpenVolume Open handles = Some h /\ open_root has_sfs OpenVolume h = Some root.
Proof using.
  intros Hx Hp Hh. unfold best_volume.
  destruct (find _ handles) as [h1|] eqn:E1. { apply find_some in E1 as [_ H]. destruct (has_opens _ _ H) as [r ?]. by exists h1, r. }
  pose proof (find_not _ _ E1 x Hx). destruct (find _ handles) as [h2|] eqn:E2 at 1.
  { apply find_some in E2 as [_ H2]. destruct (has_opens _ _ H2) as [r ?]. by exists h2, r. }
  pose proof (find_not _ _ E2 x Hx). destruct Hp as [-> | ->]; congruence.
Qed.
End BootLaws.

(** ** The table *)

Section DiscoverLaws.
Context (Open : Z -> list Z -> option EfiFile) (Entries : Z -> list Z -> list (Z * list Z)) (alloc : Z -> bool).
Context (OpenVolume : Z -> option Z) (dev : Z -> Scan.BlockDev).

Lemma rescan_boot_grows st h root st' : rescan_boot Open Entries alloc st (h, root) = Some st' -> Scan.grows (Scan.here root h) st st'.
Proof using.
  unfold rescan_boot. intros H. apply bind_Some in H as (s1 & H1 & H). apply bind_Some in H as (s2 & H2%Scan.scan_dir_grows & H3%Scan.scan_dir_grows).
  apply (Scan.grows_trans _ st s1 st'); [|by apply (Scan.grows_trans _ s1 s2 st')]. destruct (num_entries (Scan.cfg st) =? 0); [by eapply Scan.read_cfg_grows|].
  injection H1 as <-. apply Scan.grows_refl.
Qed.
End DiscoverLaws.

(** ** The passphrase loop *)

Lemma ask_line ops keys :
  exists out, Passphrase.passphrase_read ops passphrase_size [] keys (repeat 0 256) = Some (Passphrase.holds 256 (Passphrase.edit 255 keys []), out).
Proof. exact (Passphrase.passphrase_read_line ops 256 [] keys ltac:(lia)). Qed.

Lemma wipe_all buf : length buf = 256%nat -> Passphrase.passphrase_wipe buf passphrase_size = Some (repeat 0 256).
Proof.
  intros Hb. unfold Passphrase.passphrase_wipe, passphrase_size. rewrite (proj2 (Z.leb_le _ _)) by lia. f_equal.
  change (Z.to_nat 256) with 256%nat. rewrite drop_ge by lia. by rewrite app_nil_r.
Qed.

Section UnlockLaws.
Context (ReadBlocks : Z -> Z -> Z -> option (list Z)) (MediaId : Z) (alloc : Z -> bool) (sizeof_vol : Z).
Context (junk key0 : Z -> list Z) (st1 : Z -> Luks1.scratch) (st2 : Z -> Luks2.scratch2).
Context (ops : Menu.MenuOps) (keys : Z -> list Z).

Abbreviation try := (try_passphrase ReadBlocks MediaId alloc sizeof_vol junk key0 st1 st2).

(** The passphrase of attempt [j] when the loop stands before attempt [a]: the key data
    at once and the empty passphrase later, or the line typed; [None] while the user is
    still typing. *)
Definition passphrase_at (keyfile : bool) (buf : list Z) (a j : Z) : option (list Z) :=
  if keyfile then Some (if j =? a then cstr buf else [])
  else match Passphrase.edit 255 (keys j) [] with Passphrase.Line s => Some s | Passphrase.Dropped => Some [] | Passphrase.Pending _ => None end.

Definition refused (pass : Z -> option (list Z)) (j : Z) : Prop := exists p, pass j = Some p /\ try j p = Some None.

(** What the loop from attempt [a] on, with [n] left, may say. *)
Definition explains (pass : Z -> option (list Z)) (a n : Z) (r : unlock_result) : Prop :=
  match r with
  | Unlocked v => exists k p, a <= k < a + n /\ pass k = Some p /\ try k p = Some (Some v) /\ forall j, a <= j < k -> refused pass j
  | Locked => forall j, a <= j < a + n -> refused pass j
  | Waiting => exists k, a <= k < a + n /\ pass k = None /\ forall j, a <= j < k -> refused pass j
  end.

Lemma explains_ext pass pass' a n r : (forall j, a <= j -> pass j = pass' j) -> explains pass a n r -> explains pass' a n r.
Proof using.
  intros He. assert (forall j, a <= j -> refused pass j -> refused pass' j) as Hr.
  { intros j Hj (p & Hp & Ht). exists p. by rewrite <- He. }
  destruct r as [v| |]; cbn [explains].
  - intros (k & p & Hk & Hp & Ht & Hb). exists k, p. rewrite <- He by lia. split_and!; try done; try lia. intros j Hj. apply Hr, Hb; lia.
  - intros Hb j Hj. apply Hr, Hb; lia.
  - intros (k & Hk & Hp & Hb). exists k. rewrite <- He by lia. split_and!; try done; try lia. intros j Hj. apply Hr, Hb; lia.
Qed.

Lemma explains_next pass a n r : refused pass a -> explains pass (a + 1) n r -> explains pass a (n + 1) r.
Proof using.
  intros Ha. destruct r as [v| |]; cbn [explains].
  - intros (k & p & Hk & Hp & Ht & Hb). exists k, p. split; [lia|]. split; [exact Hp|]. split; [exact Ht|]. intros j Hj. destruct (Z.eq_dec j a) as [->|]; [exact Ha|]. apply Hb. lia.
  - intros Hb j Hj. destruct (Z.eq_dec j a) as [->|]; [exact Ha|]. apply Hb. lia.
  - intros (k & Hk & Hp & Hb). exists k. split; [lia|]. split; [exact Hp|]. intros j Hj. destruct (Z.eq_dec j a) as [->|]; [exact Ha|]. apply Hb. lia.
Qed.

(** The first part of a turn: the passphrase and the buffer it was taken from. *)
Definition get_passphrase (keyfile : bool) (tries attempt : Z) (buf : list Z) : option (option (list Z * list Z) * list (list Z)) :=
  if keyfile then
    if bool_decide (0 ∈ buf) then Some (Some (cstr buf, buf), []) else None
  else
    r ← Passphrase.passphrase_read ops passphrase_size [] (keys attempt) buf;
    match fst (fst r) with
    | Passphrase.Typed len => Some (Some (take (Z.to_nat len) (snd (fst r)), snd (fst r)), [prompt attempt tries])
    | Passphrase.Cancelled => Some (Some ([], snd (fst r)), [prompt attempt tries])
    | Passphrase.More => Some (None, [prompt attempt tries])
    end.

Lemma get_passphrase_spec keyfile tries a buf :
  length buf = 256%nat -> 0 ∈ buf -> (keyfile = false -> buf = repeat 0 256) ->
  exists o ps, get_passphrase keyfile tries a buf = Some (o, ps) /\
    passphrase_at keyfile buf a a = fst <$> o /\ forall p b, o = Some (p, b) -> length b = 256%nat.
Proof using.
  intros Hl H0 Hz. unfold get_passphrase, passphrase_at. destruct keyfile.
  { rewrite bool_decide_true by done. eexists _, _. split; [reflexivity|]. rewrite Z.eqb_refl. split; [done|]. by intros p b [= _ <-]. }
  rewrite (Hz eq_refl). destruct (ask_line ops (keys a)) as [out ->]. cbn [mbind option_bind fst snd].
  destruct (Passphrase.edit 255 (keys a) []) as [s| |s] eqn:E; cbn [Passphrase.holds fst snd]; (eexists _, _; split; [reflexivity|]).
  - apply Passphrase.edit_length in E; [|cbn; lia]. split; [|intros p b [= _ <-]; rewrite length_app, repeat_length; lia].
    cbn [fmap option_fmap option_map fst]. rewrite Nat2Z.id. f_equal. symmetry. apply take_app_length.
  - split; [done|]. by intros p b [= _ <-].
  - by split.
Qed.

Lemma unlock_loop_spec keyfile tries n a buf :
  length buf = 256%nat -> 0 ∈ buf -> (keyfile = false -> buf = repeat 0 256) ->
  (forall r b ps, unlock_loop ReadBlocks MediaId alloc sizeof_vol junk key0 st1 st2 ops keys keyfile tries n a buf = Some (r, b, ps) ->
     explains (passphrase_at keyfile buf a) a (Z.of_nat n) r /\ ((0 < n)%nat -> r <> Waiting -> b = repeat 0 256) /\ (n = 0%nat -> b = buf)) /\
  ((forall j p, try j p <> None) ->
     exists r, unlock_loop ReadBlocks MediaId alloc sizeof_vol junk key0 st1 st2 ops keys keyfile tries n a buf = Some r).
Proof using.
  revert a buf. induction n as [|n IH]; intros a buf Hl H0 Hz; cbn [unlock_loop].
  { split; [|by eexists]. intros r b ps [= <- <- <-]. split_and!; try done; try lia. cbn. intros j Hj. lia. }
  fold (get_passphrase keyfile tries a buf). destruct (get_passphrase_spec keyfile tries a buf Hl H0 Hz) as (o & ps & -> & Hp & Hb).
  cbn [mbind option_bind fst snd]. destruct o as [[p b]|]; cbn in Hp.
  2:{ split; [|by eexists]. intros r b ps' [= <- <- <-]. split_and!; try done. exists a. split_and!; try done; lia. }
  rewrite (wipe_all b) by by eapply Hb.
  destruct (IH (a + 1) (repeat 0 256)) as [IH1 IH2]; [done|apply list_elem_of_In; by left|done|].
  destruct (try a p) as [[v|]|] eqn:E; cbn [mbind option_bind].
  - split; [|by eexists]. intros r b' ps' [= <- <- <-]. split_and!; try done. exists a, p. split; [lia|]. split; [exact Hp|]. split; [exact E|]. intros j Hj. lia.
  - split.
    + intros r b' ps' H. apply bind_Some in H as ([[r1 b1] ps1] & H & [= <- <- <-]). destruct (IH1 _ _ _ H) as (He & Hb1 & Hb0). cbn [fst snd].
      rewrite Nat2Z.inj_succ. split; [|split; [intros _ Hw; destruct n; [by apply Hb0|apply Hb1; [lia|done]]|done]].
      apply explains_next; [by exists p|]. revert He. apply explains_ext. intros j Hj. unfold passphrase_at. destruct keyfile; [|done].
      rewrite (proj2 (Z.eqb_neq j a)) by lia. f_equal. by destruct (j =? a + 1).
    + intros Ht. destruct (IH2 Ht) as [r ->]. by eexists.
  - split; [done|]. intros Ht. by destruct (Ht a p).
Qed.
End UnlockLaws.

Lemma cstr_app a b : cstr (a ++ 0 :: b) = cstr a.
Proof. induction a as [|c a IH]; [done|]. cbn. by rewrite IH. Qed.

(** What the attempts on an entry try, and how many there are. *)
Definition key_data (key_file : option EfiFile) : list Z := default [] (key_file ≫= (fun f => Read f 255)).

Definition tries_for (e : BootEntry) (key_file : option EfiFile) : Z :=
  if bool_decide (luks_keyfile e <> [] /\ is_Some key_file) then 1 else if luks_tries e >? 0 then luks_tries e else 3.

Definition passphrase_for (e : BootEntry) (keys : Z -> list Z) (key_file : option EfiFile) (j : Z) : option (list Z) :=
  passphrase_at keys (bool_decide (luks_keyfile e <> [])) (key_data key_file) 0 j.

Section UnlockSpec.
Context (ReadBlocks : Z -> Z -> Z -> option (list Z)) (MediaId : Z) (alloc : Z -> bool) (sizeof_vol : Z).
Context (junk key0 : Z -> list Z) (st1 : Z -> Luks1.scratch) (st2 : Z -> Luks2.scratch2).
Context (ops : Menu.MenuOps) (keys : Z -> list Z).

Abbreviation try := (try_passphrase ReadBlocks MediaId alloc sizeof_vol junk key0 st1 st2).
Abbreviation unlock_ := (unlock ReadBlocks MediaId alloc sizeof_vol junk key0 st1 st2 ops keys).
Abbreviation explains_ := (explains ReadBlocks MediaId alloc sizeof_vol junk key0 st1 st2).

Lemma unlock_is_loop e key_file :
  (match key_file with Some f => luks_keyfile e <> [] -> exists d, Read f 255 = Some d /\ zlen d <= 255 | None => True end) ->
  exists keyfile buf n, unlock_ e key_file = unlock_loop ReadBlocks MediaId alloc sizeof_vol junk key0 st1 st2 ops keys keyfile (Z.of_nat n) n 0 buf /\
    length buf = 256%nat /\ 0 ∈ buf /\ (keyfile = false -> buf = repeat 0 256) /\ (0 < n)%nat /\ Z.of_nat n = tries_for e key_file /\
    forall j, passphrase_at keys keyfile buf 0 j = passphrase_for e keys key_file j.
Proof using.
  intros Hk. unfold unlock, tries_for, passphrase_for, passphrase_at. change (Z.to_nat passphrase_size) with 256%nat.
  set (t := if luks_tries e >? 0 then luks_tries e else 3). assert (0 < t) as Ht by (unfold t; destruct (Z.gtb_spec (luks_tries e) 0); lia).
  assert (0 ∈ repeat 0 256) as Hz by (apply list_elem_of_In; by left).
  destruct (decide (luks_keyfile e = [])) as [He|He].
  { exists false, (repeat 0 256), (Z.to_nat t). rewrite (bool_decide_true (luks_keyfile e = [])) by done.
    rewrite (bool_decide_false (luks_keyfile e <> [])) by tauto. rewrite (bool_decide_false (_ /\ _)) by tauto.
    rewrite Z2Nat.id by lia. split_and!; try done; lia. }
  rewrite (bool_decide_false (luks_keyfile e = [])) by done. rewrite (bool_decide_true (luks_keyfile e <> [])) by done.
  destruct key_file as [f|].
  - destruct (Hk He) as (d & Hd & Hlen). rewrite Hd. cbn [mbind option_bind]. rewrite (proj2 (Z.leb_le _ _)) by lia.
    rewrite bool_decide_true by (split; [done|by eexists]). exists true, (d ++ [0] ++ drop (S (length d)) (repeat 0 256)), 1%nat.
    split; [reflexivity|]. split; [rewrite !length_app, length_drop, repeat_length; cbn [length]; lia|].
    split; [apply elem_of_app; right; left|]. split; [done|]. split; [lia|]. split; [done|]. intros j.
    unfold key_data. cbn [mbind option_bind]. rewrite Hd. cbn [default app]. by rewrite cstr_app.
  - rewrite bool_decide_false by (intros [_ [? ?]]; done). exists true, (repeat 0 256), (Z.to_nat t).
    rewrite Z2Nat.id by lia. split; [done|]. split; [done|]. split; [done|]. split; [done|]. split; [lia|]. split; [done|]. done.
Qed.

Lemma unlock_spec e key_file :
  (match key_file with Some f => luks_keyfile e <> [] -> exists d, Read f 255 = Some d /\ zlen d <= 255 | None => True end) ->
  (forall r b ps, unlock_ e key_file = Some (r, b, ps) ->
     explains_ (passphrase_for e keys key_file) 0 (tries_for e key_file) r /\ (r <> Waiting -> b = repeat 0 256)) /\
  ((forall j p, try j p <> None) -> exists r, unlock_ e key_file = Some r).
Proof using.
  intros (keyfile & buf & n & -> & Hl & H0 & Hz & Hn & Ht & Hp)%unlock_is_loop.
  destruct (unlock_loop_spec ReadBlocks MediaId alloc sizeof_vol junk key0 st1 st2 ops keys keyfile (Z.of_nat n) n 0 buf Hl H0 Hz) as [H1 H2].
  split; [|exact H2]. intros r b ps H. destruct (H1 _ _ _ H) as (He & Hb & _). rewrite <- Ht. split; [|by apply Hb].
  revert He. apply explains_ext. intros j _. apply Hp.
Qed.

(** A key file that cannot be read that far leaves the outcome undetermined. *)
Lemma unlock_readable e f r : unlock_ e (Some f) = Some r -> luks_keyfile e <> [] -> exists d, Read f 255 = Some d /\ zlen d <= 255.
Proof using.
  unfold unlock. intros H He. rewrite bool_decide_false in H by done. apply bind_Some in H as (d & Hd & H).
  exists d. split; [done|]. destruct (Z.leb_spec (zlen d) 255); done.
Qed.
End UnlockSpec.

(** ** Frame buffers *)

Lemma best_mode_cases g ms best_m best_w :
  best_mode g ms best_m best_w = best_m \/
  exists mi, best_mode g ms best_m best_w ∈ ms /\ QueryMode g (best_mode g ms best_m best_w) = Some mi /\ PixelFormat mi <> PixelBltOnly.
Proof.
  revert best_m best_w. induction ms as [|m ms IH]; intros best_m best_w; cbn [best_mode]; [by left|].
  assert (forall bm bw, (bm = best_m \/ bm = m /\ exists mi, QueryMode g m = Some mi /\ PixelFormat mi <> PixelBltOnly) ->
    best_mode g ms bm bw = best_m \/
    exists mi, best_mode g ms bm bw ∈ m :: ms /\ QueryMode g (best_mode g ms bm bw) = Some mi /\ PixelFormat mi <> PixelBltOnly) as Hrest.
  { intros bm bw Hbm. destruct (IH bm bw) as [-> | (mi & Hin & Hq)].
    - destruct Hbm as [-> | (-> & mi & Hq)]; [by left|]. right. exists mi. split; [by left|done].
    - right. exists mi. split; [by right|done]. }
  destruct (QueryMode g m) as [mi|] eqn:Eq; [|by apply Hrest; left].
  destruct (Z.eqb_spec (PixelFormat mi) PixelBltOnly); [by apply Hrest; left|].
  destruct (_ && _); [right; exists mi; split; [by left|done]|].
  destruct (HorizontalResolution mi >? best_w); [|by apply Hrest; left]. apply Hrest. right. split; [done|]. by exists mi.
Qed.

(** Outputs in the state the scan may leave them in. *)
Inductive configured (handles : list (option Gop)) : Gop -> Prop :=
  | as_found g : Some g ∈ handles -> configured handles g
  | switched g m mi : Some g ∈ handles -> 0 <= m < MaxMode g -> QueryMode g m = Some mi -> PixelFormat mi <> PixelBltOnly ->
      configured handles (set_mode g m).

Lemma scan_gops_configured all hs best g : (forall x, x ∈ hs -> x ∈ all) -> (forall b, best = Some b -> configured all b) ->
  scan_gops hs best = Some g -> configured all g.
Proof.
  revert best. induction hs as [|[g0|] hs IH]; intros best Hin Hbest; cbn [scan_gops]; [apply Hbest| |apply IH; [set_solver|done]].
  destruct (_ && _). { intros [= <-]. constructor. apply Hin. by left. }
  set (m := best_mode g0 _ _ _). assert (configured all (if m <? MaxMode g0 then set_mode g0 m else g0)) as Hc.
  { destruct (Z.ltb_spec m (MaxMode g0)); [|constructor; apply Hin; by left].
    destruct (best_mode_cases g0 (seqZ 0 (MaxMode g0)) (MaxMode g0) 0) as [E | (mi & Hm & Hq & Hf)]; [fold m in E; lia|].
    fold m in Hm, Hq. apply elem_of_seqZ in Hm. eapply switched; [apply Hin; by left|lia|done|done]. }
  destruct (_ && _); [by intros [= <-]|]. apply IH; [set_solver|]. intros b Hb. destruct best as [b0|]; [by apply Hbest|]. by injection Hb as <-.
Qed.

Definition usable (g : Gop) : Prop := linear (FrameBufferBase g) = true /\ PixelFormat (Info g) <> PixelBltOnly.

Lemma scan_gops_found hs best g : Some g ∈ hs -> usable g -> exists g', scan_gops hs best = Some g' /\ linear (FrameBufferBase g') = true.
Proof.
  intros Hin [Hl Hf]. revert best. induction hs as [|[g0|] hs IH]; intros best; [set_solver| |].
  - cbn [scan_gops]. destruct (linear (FrameBufferBase g0) && negb (PixelFormat (Info g0) =? PixelBltOnly)) eqn:E0.
    { apply andb_true_iff in E0 as [E0 _]. by exists g0. }
    apply elem_of_cons in Hin as [[= ->] | Hin].
    { rewrite Hl in E0. destruct (Z.eqb_spec (PixelFormat (Info g0)) PixelBltOnly); done. }
    set (m := best_mode g0 _ _ _). set (g1 := if m <? MaxMode g0 then _ else g0).
    destruct ((m <? MaxMode g0) && linear (FrameBufferBase g1)) eqn:E; [|by apply IH].
    apply andb_true_iff in E as [_ E]. by exists g1.
  - cbn [scan_gops]. apply IH. by apply elem_of_cons in Hin as [? | ?].
Qed.

Definition framebuffer_of (g : Gop) : Framebuffer :=
  {| fb_addr := FrameBufferBase g; fb_width := HorizontalResolution (Info g); fb_height := VerticalResolution (Info g);
     fb_pitch := u32 (PixelsPerScanLine (Info g) * 4); fb_bpp := 32; fb_pixel_format := PixelFormat (Info g) |}.

Lemma gather_gop_linear handles :
  gather_gop handles = (g ← scan_gops (default [] handles) None; if linear (FrameBufferBase g) then Some (framebuffer_of g) else None).
Proof.
  unfold gather_gop. destruct (scan_gops _ None) as [g|]; [|done]. cbn [mbind option_bind]. unfold linear.
  rewrite Z.geb_leb, Z.leb_antisym. destruct (_ =? 0), (_ <? 0x100000); done.
Qed.

(** ** Properties *)


(** A partition none of whose blocks can be read. *)
Definition no_blocks (m lba n : Z) : option (list Z) := None.
Definition no_scratch : Luks1.scratch := {| Luks1.s_slot_key := []; Luks1.s_km_dec := [] |}.
Definition no_scratch2 : Luks2.scratch2 := {| Luks2.s2_dk := []; Luks2.s2_dec := [] |}.
Definition demo_secret : BootEntry :=
  {| name := cs "Arch"; type := OS_TYPE_LINUX; kernel := cs "/vmlinuz-linux"; initrd := []; cmdline := cs "quiet"; encrypted := 1;
     luks_keyfile := []; luks_tries := 2 |}.
Definition demo_keys (attempt : Z) : list Z := cs "hunter" ++ [50 + attempt; 13].

Example demo_unlock :
  unlock no_blocks 1 (fun _ => true) 600 (fun _ => []) (fun _ => []) (fun _ => no_scratch) (fun _ => no_scratch2) Menu.demo_ops demo_keys demo_secret None =
    Some (Locked, repeat 0 256, [cs "LUKS passphrase"; cs "LUKS passphrase (2/2)"]).
Proof. vm_compute. reflexivity. Qed.

(** A partition with a key slot for the passphrase "pw" in sector 8 and, from the same
    sector on, an ext4 file system under the master key. *)
Definition vault_encrypt (key : list Z) (sec : Z) (d : list Z) : list Z :=
  match xts_init (key ++ repeat 0 32) 64 with Some ctx => xts_crypt ctx sec d (zlen d) false | None => [] end.

Definition vault_sector (lba : Z) : list Z :=
  let pad l := take 512 (l ++ repeat 0 512) in
  if lba =? 0 then pad (cs "LUKS" ++ [0xba; 0xbe] ++ repeat 0 18 ++ le_bytes 8 512 ++ le_bytes 8 (zlen Luks2.demo3_json))
  else if lba =? 1 then pad Luks2.demo3_json
  else if lba <? 8 then repeat 0 512
  else if lba =? 8 then
    pad (vault_encrypt (default [] (pbkdf2 (repeat 0 64) (repeat 0 64) HASH_SHA256 (cs "pw") [0; 1; 2] 1 32)) 0
           (Luks1.af_split HASH_SHA256 32 [repeat 0 32] Luks2.demo3_mk))
  else vault_encrypt Luks2.demo3_mk (lba - 8) (take 512 (drop (Z.to_nat ((lba - 8) mod 2 * 512)) (Ext4.demo_block ((lba - 8) / 2)))).

Definition vault_blocks (m lba n : Z) : option (list Z) := Some (take (Z.to_nat n) (flat_map vault_sector (seqZ lba ((n + 511) / 512)))).
Definition vault_keys (attempt : Z) : list Z := cs "pv" ++ [8] ++ cs "w" ++ [13].

Abbreviation vault_unlock := (unlock vault_blocks 1 (fun _ => true) 600 (fun _ => repeat 0 64) (fun _ => repeat 0 64) (fun _ => no_scratch)
  (fun _ => {| Luks2.s2_dk := repeat 0 64; Luks2.s2_dec := repeat 0 512 |}) Menu.demo_ops vault_keys demo_secret None).

Lemma vault_opens : match vault_unlock with
  | Some (Unlocked v, b, ps) => Ext4.block_size v = 1024 /\ Ext4.inodes_per_group v = 16 /\ ps = [cs "LUKS passphrase"]
  | _ => False end.
Proof. vm_compute. done. Qed.



Definition demo_ext4 : Ext4.Ext4Vol :=
  {| Ext4.dev := Ext4.Dio; Ext4.media_id := 1; Ext4.block_size := 1024; Ext4.inodes_per_group := 8; Ext4.inode_size := 128;
     Ext4.first_data_block := 1; Ext4.bgdt_off := 2048; Ext4.desc_size := 32; Ext4.part_handle := Some 7 |}.
Definition demo_bio (h : Z) : option ((Z -> Z -> Z -> option (list Z)) * Z) := if h =? 7 then Some (no_blocks, 1) else None.


(** [C39] A frame buffer handed to the kernel is page-aligned and above the first megabyte,
    and describes an output as it was found or after switching it to a mode that it
    offers and that is not Blt-only; none is reported only when no output has a usable
    linear frame buffer already. *)
Theorem gather_gop_usable (handles : option (list (option Gop))) :
  match gather_gop handles with
  | Some fb => fb_addr fb mod 4096 = 0 /\ 0x100000 <= fb_addr fb /\
      exists g, configured (default [] handles) g /\ fb = framebuffer_of g
  | None => forall g, Some g ∈ default [] handles -> ~ usable g
  end.
Proof.
  rewrite gather_gop_linear. destruct (scan_gops (default [] handles) None) as [g|] eqn:E; cbn [mbind option_bind].
  - destruct (linear (FrameBufferBase g)) eqn:El.
    + unfold linear in El. apply andb_true_iff in El as [E1%Z.eqb_eq E2%Z.geb_le]. cbn [fb_addr framebuffer_of].
      split; [|split; [done|]]. { rewrite <- E1. symmetry. exact (Z.land_ones _ 12 ltac:(lia)). }
      exists g. split; [|done]. apply (scan_gops_configured _ (default [] handles) None); [done|done|exact E].
    + intros g' Hin Hu. destruct (scan_gops_found _ None g' Hin Hu) as (g2 & E2 & H2). congruence.
  - intros g' Hin Hu. destruct (scan_gops_found _ None g' Hin Hu) as (g2 & E2 & H2). congruence.
Qed.

(** The boot volume: what is returned is open; it is the device the loader came from,
    or else of the enumerated volumes one with the loader's own file, failing that one
    with the configuration file, failing that any; and when the device opens or some
    volume has one of the files a boot volume is found. *)
Theorem find_boot_volume_best (has_sfs : Z -> bool) (OpenVolume : Z -> option Z) (Open : Z -> list Z -> option EfiFile)
    (device : option Z) (handles : option (list Z)) :
  let has := sfs_has_file has_sfs OpenVolume Open in
  let hs := default [] handles in
  match find_boot_volume has_sfs OpenVolume Open device handles with
  | Some (h, root) => open_root has_sfs OpenVolume h = Some root /\
      (device = Some h \/
       h ∈ hs /\ (has h BOOTX64 = true \/
         (forall x, x ∈ hs -> has x BOOTX64 = false) /\ (has h CONFIG = true \/ (forall x, x ∈ hs -> has x CONFIG = false))))
  | None => (forall d, device = Some d -> open_root has_sfs OpenVolume d = None) /\
      (forall x, x ∈ hs -> has x BOOTX64 = false /\ has x CONFIG = false)
  end.
Proof.
  cbn zeta. unfold find_boot_volume. destruct (device ≫= _) as [[h root]|] eqn:Ed.
  { apply bind_Some in Ed as (d & -> & Ed). apply bind_Some in Ed as (r & Er & [= <- <-]). split; [done|by left]. }
  assert (forall d, device = Some d -> open_root has_sfs OpenVolume d = None) as Hd.
  { intros d ->. cbn [mbind option_bind] in Ed. by destruct (open_root has_sfs OpenVolume d). }
  destruct (best_volume has_sfs OpenVolume Open (default [] handles) ≫= (fun h => r ← open_root has_sfs OpenVolume h; Some (h, r)))
    as [[h root]|] eqn:E.
  - apply bind_Some in E as (h' & Eb & E). apply bind_Some in E as (r & Er & [= <- <-]). split; [done|]. right.
    pose proof (best_volume_some _ _ _ _ _ Eb). tauto.
  - split; [exact Hd|]. intros x Hx.
    assert (forall p, p = BOOTX64 \/ p = CONFIG -> sfs_has_file has_sfs OpenVolume Open x p = false) as Hp; [|split; apply Hp; tauto].
    intros p Hp. destruct (sfs_has_file _ _ _ x p) eqn:Eh; [|done].
    destruct (best_volume_found has_sfs OpenVolume Open _ x p Hx Hp Eh) as (h & r & Eb & Er).
    rewrite Eb in E. cbn [mbind option_bind] in E. by rewrite Er in E.
Qed.

(** The last resort is the first volume with the protocol, which need not open: a later
    one that does is not tried. *)
Example last_resort_gives_up :
  find_boot_volume (fun _ => true) (fun h => if h =? 2 then Some 102 else None) (fun _ _ => None) None (Some [1; 2]) = None.
Proof. reflexivity. Qed.



End Uefi.
