(* ===== verification/Shell.v ===== *)
(** * Shell: starting the UEFI shell, [launch_uefi_shell] of [uefi/uefi_loader.c]

    From a firmware volume, by handing over to a boot option of the firmware, or from
    a file.  The firmware's services are arguments; [None] outside is behaviour C leaves
    undefined. *)

From S2P Require Import Prelude Config Efi Console Uefi.
Import Config Efi.

Module Shell.

(** ** Device paths *)

Definition EFI_DP_END_TYPE : Z := 0x7F.
Definition EFI_DP_END_SUBTYPE : Z := 0xFF.
Definition EFI_DP_MEDIA_TYPE : Z := 4.
Definition EFI_DP_FILEPATH_SUBTYPE : Z := 4.

(** The bytes in front of the end node of the path at [off]; [None] when the walk leaves
    the memory [p] or, at a node of size 0, never ends. *)
Fixpoint dp_length (fuel : nat) (p : list Z) (off : Z) : option Z :=
  match fuel with
  | O => None
  | S f =>
    t ← getb p off; s ← getb p (off + 1);
    if (t =? EFI_DP_END_TYPE) && (s =? EFI_DP_END_SUBTYPE) then Some off
    else l0 ← getb p (off + 2); l1 ← getb p (off + 3); dp_length f p (off + (l0 .| (l1 << 8)))
  end.

Definition file_path_node (wpath : list Z) : list Z :=
  let size := 4 + 2 * (zlen wpath + 1) in
  [EFI_DP_MEDIA_TYPE; EFI_DP_FILEPATH_SUBTYPE; u8 (size .& 0xFF); u8 ((size >> 8) .& 0xFF)] ++ flat_map (le_bytes 2) (wpath ++ [0]).

Definition end_node : list Z := [EFI_DP_END_TYPE; EFI_DP_END_SUBTYPE; 4; 0].

(** [hdp]: the memory at the handle's device path, if it has one. *)
Definition build_path (hdp : option (list Z)) (path : list Z) : option (list Z) :=
  prefix ← (match hdp with None => Some [] | Some p => n ← dp_length (S (length p)) p 0; sub p 0 n end);
  Some (prefix ++ file_path_node (wpath path) ++ end_node).

(** ** Images *)

Definition is_mz (buf : list Z) : bool := (zlen buf >=? 2) && (nthZ buf 0 =? 0x4D) && (nthZ buf 1 =? 0x5A).

Section Launch.
(** [LoadImage (BootPolicy, DevicePath, SourceBuffer)]: the image's handle. *)
Context (LoadImage : bool -> option (list Z) -> list Z -> option Z).
Context (has_sfs : Z -> bool) (OpenVolume : Z -> option Z) (Open : Z -> list Z -> option EfiFile) (alloc : Z -> bool).
Context (device_path : Z -> option (list Z)).
(** What memory from the pool holds. *)
Context (pool : Z -> list Z).

Definition or_else (a b : option Z) : option Z := match a with Some h => Some h | None => b end.

Definition try_load_image (buf : list Z) : option Z :=
  if negb (is_mz buf) then None else or_else (LoadImage true None buf) (LoadImage false None buf).

(** A buffer of [size] bytes after a read that delivered [d]. *)
Definition filled (size : Z) (d : list Z) : list Z := d ++ drop (length d) (take (Z.to_nat size) (pool size)).

(** The file in a buffer of its size. *)
Definition read_whole (root : Z) (path : list Z) : option (list Z) :=
  f ← Open root (wpath path);
  size ← FileSize f;
  if (size >? 0) && alloc size then d ← Read f size; Some (filled size d) else None.

(** Outside: undefined; inside: the handle. *)
Definition load_image_from_volume (h : Z) (path : list Z) : option (option Z) :=
  match root ← Uefi.open_root has_sfs OpenVolume h; read_whole root path with
  | None => Some None
  | Some buf =>
    if negb (is_mz buf) then Some None
    else
      dp ← build_path (device_path h) path;
      if negb (alloc (zlen dp)) then Some None
      else Some (or_else (LoadImage true (Some dp) buf) (or_else (LoadImage false (Some dp) buf) (LoadImage false None buf)))
  end.

(** ** Boot options *)

Definition is_hex_digit (c : Z) : bool :=
  ((48 <=? c) && (c <=? 57)) || ((65 <=? c) && (c <=? 70)) || ((97 <=? c) && (c <=? 102)).

Definition hex_digit (c : Z) : Z := if (48 <=? c) && (c <=? 57) then c - 48 else if (65 <=? c) && (c <=? 70) then c - 65 + 10 else c - 97 + 10.

(** The number of the boot option whose name the buffer [vname] holds. *)
Definition boot_number (vname : list Z) : option Z :=
  if bool_decide (take 4 vname = cs "Boot") && (nthZ vname 8 =? 0) && forallb (fun j => is_hex_digit (nthZ vname j)) [4; 5; 6; 7]
  then Some (foldl (fun num k => u16 ((num << 4) .| hex_digit (nthZ vname k))) 0 [4; 5; 6; 7])
  else None.

(** Whether the description contains the word; [None] when it runs out of the buffer. *)
Fixpoint mentions_shell (desc : list Z) : option bool :=
  match desc with
  | [] => None
  | c :: desc' =>
    if c =? 0 then Some false
    else if bool_decide (take 5 desc = cs "Shell") then Some true
    else mentions_shell desc'
  end.

(** The 16-bit units of a buffer. *)
Fixpoint units16 (l : list Z) : list Z :=
  match l with a :: b :: l' => (a .| (b << 8)) :: units16 l' | _ => [] end.

(** [vars]: the names in the order of the enumeration, as the buffer shows them, with
    their namespaces; [get_var]: the data of a variable read into the buffer of 512
    bytes, with what else it holds. *)
Definition GLOBAL : Uefi.guid := (0x8be4df61, 0x93ca, 0x11d2).

Fixpoint find_shell (vars : list (Uefi.guid * list Z)) (get_var : list Z -> option (list Z * list Z)) : option Z :=
  match vars with
  | [] => Some 0xFFFF
  | (g, vname) :: vars =>
    if negb (bool_decide (g = GLOBAL)) then find_shell vars get_var
    else
      match boot_number vname with
      | None => find_shell vars get_var
      | Some num =>
        match get_var vname with
        | None => find_shell vars get_var
        | Some (opt, rest) =>
          if zlen opt <? 8 then find_shell vars get_var
          else
            m ← mentions_shell (units16 (drop 6 (opt ++ rest)));
            if m && negb (num =? 0xFFFF) then Some num else find_shell vars get_var
        end
      end
  end.

(** ** The three ways *)

Definition paths : list (list Z) := [cs "/EFI/Shell/Shell.efi"; cs "/EFI/BOOT/Shell.efi"; cs "/shellx64.efi"].

Inductive outcome := Start (image : Z) | ExitTo (boot : Z) | ShellNotFound.

(** The first image that loads. *)
Fixpoint first_image {A} (load : A -> option (option Z)) (l : list A) : option (option Z) :=
  match l with
  | [] => Some None
  | x :: l => r ← load x; match r with Some h => Some (Some h) | None => first_image load l end
  end.

(** A path on the boot volume: [boot_handle] is 0 when it is not known. *)
Definition load_direct (boot_handle root : Z) (path : list Z) : option (option Z) :=
  match f ← Open root (wpath path); size ← FileSize f; if (size >? 0) && alloc size then Read f size else None with
  | None => Some None
  | Some sbuf =>
    if negb (is_mz sbuf) then Some None
    else
      r ← (if boot_handle =? 0 then Some None else load_image_from_volume boot_handle path);
      Some (or_else r (or_else (LoadImage true None sbuf) (LoadImage false None sbuf)))
  end.

(** The second attempt: every path on every volume, enumerated again once all controllers
    have been connected. *)
Definition scan_volumes (sfs_handles : option (list Z)) : option (option Z) :=
  first_image (fun h => first_image (load_image_from_volume h) paths) (default [] sfs_handles).

(** [sections]: the shell's section in each firmware volume that has it; [set_next]:
    whether BootNext can be set. *)
Definition launch_uefi_shell (sections : list (list Z)) (vars : list (Uefi.guid * list Z)) (get_var : list Z -> option (list Z * list Z))
    (set_next : Z -> bool) (boot_handle : Z) (root : option Z) (sfs_handles : option (list Z)) : option outcome :=
  r ← first_image (fun buf => Some (try_load_image buf)) sections;
  match r with
  | Some h => Some (Start h)
  | None =>
    found ← find_shell vars get_var;
    if negb (found =? 0xFFFF) && set_next found then Some (ExitTo found)
    else
      r ← (match root with Some root => first_image (load_direct boot_handle root) paths | None => Some None end);
      match r with
      | Some h => Some (Start h)
      | None =>
        r ← scan_volumes sfs_handles;
        Some (match r with Some h => Start h | None => ShellNotFound end)
      end
  end.
End Launch.

(** ** Nodes *)

Record node := { n_type : Z; n_subtype : Z; n_data : list Z }.

Definition encode_node (n : node) : list Z :=
  let size := 4 + zlen (n_data n) in [n_type n; n_subtype n; size mod 256; size / 256] ++ n_data n.

Definition encode (ns : list node) : list Z := flat_map encode_node ns.

Definition node_ok (n : node) : Prop :=
  (n_type n <> EFI_DP_END_TYPE \/ n_subtype n <> EFI_DP_END_SUBTYPE) /\ zlen (n_data n) + 4 < 65536.

Definition file_node (path : list Z) : node :=
  {| n_type := EFI_DP_MEDIA_TYPE; n_subtype := EFI_DP_FILEPATH_SUBTYPE; n_data := flat_map (le_bytes 2) (wpath path ++ [0]) |}.

Lemma units_length l : length (flat_map (le_bytes 2) l) = (2 * length l)%nat.
Proof. induction l as [|x l IH]; [done|]. cbn [flat_map]. rewrite length_app, le_bytes_length, IH. cbn [length]. lia. Qed.

Lemma wpath_length path : (length (wpath path) <= 255)%nat.
Proof. unfold wpath. rewrite length_map, length_take. lia. Qed.

Lemma file_path_node_encodes path : file_path_node (wpath path) = encode_node (file_node path).
Proof.
  unfold file_path_node, encode_node, file_node. cbn [n_type n_subtype n_data]. rewrite units_length, length_app. cbn [length].
  pose proof (wpath_length path). replace (4 + Z.of_nat (2 * (length (wpath path) + 1))) with (4 + 2 * (zlen (wpath path) + 1)) by lia.
  set (size := 4 + 2 * (zlen (wpath path) + 1)). assert (0 <= size < 65536) by (unfold size; lia).
  change 0xFF with (Z.ones 8). rewrite shiftr_div, !Z.land_ones by lia. unfold wrap. change (2 ^ 8) with 256.
  rewrite Z.mod_mod by lia. rewrite !(Z.mod_small (size / 256)) by div_lia. done.
Qed.

Lemma getb_at (a b : list Z) i : 0 <= i -> getb (a ++ b) (zlen a + i) = getb b i.
Proof. intros Hi. rewrite getb_skip by lia. f_equal. lia. Qed.

Lemma dp_length_encode ns pre rest fuel : Forall node_ok ns -> (length ns < fuel)%nat ->
  dp_length fuel (pre ++ encode ns ++ end_node ++ rest) (zlen pre) = Some (zlen pre + zlen (encode ns)).
Proof.
  intros Hns. revert pre fuel. induction Hns as [|n ns (Hend & Hlen) Hns IH]; intros pre fuel Hf; (destruct fuel as [|f]; [cbn in Hf; lia|]).
  - cbn [dp_length encode flat_map app]. rewrite <- (Z.add_0_r (zlen pre)) at 1. rewrite !getb_at by lia. cbn. by rewrite Z.add_0_r.
  - cbn [dp_length encode flat_map]. fold (encode ns). rewrite <- !app_assoc.
    set (size := 4 + zlen (n_data n)). set (tl := encode ns ++ end_node ++ rest).
    rewrite <- (Z.add_0_r (zlen pre)) at 1. rewrite !getb_at by lia.
    change (getb (encode_node n ++ tl) 0) with (Some (n_type n)). change (getb (encode_node n ++ tl) 1) with (Some (n_subtype n)).
    change (getb (encode_node n ++ tl) 2) with (Some (size mod 256)). change (getb (encode_node n ++ tl) 3) with (Some (size / 256)).
    cbn [mbind option_bind].
    replace ((n_type n =? EFI_DP_END_TYPE) && (n_subtype n =? EFI_DP_END_SUBTYPE)) with false
      by (symmetry; apply andb_false_iff; destruct Hend; [left|right]; by apply Z.eqb_neq).
    rewrite Z.lor_comm, lor_shiftl_add by (unfold size; div_lia). change (2 ^ 8) with 256.
    replace (zlen pre + (size / 256 * 256 + size mod 256)) with (zlen (pre ++ encode_node n))
      by (rewrite length_app; unfold encode_node; rewrite length_app; fold size; cbn [length]; unfold size; div_lia).
    specialize (IH (pre ++ encode_node n) f). rewrite <- app_assoc in IH. unfold tl. rewrite IH by (cbn in Hf; lia).
    f_equal. rewrite !length_app. lia.
Qed.

Lemma encode_length ns : (length ns <= length (encode ns))%nat.
Proof.
  induction ns as [|n ns IH]; [done|]. unfold encode. cbn [flat_map]. fold (encode ns). rewrite length_app. unfold encode_node at 1.
  rewrite length_app. cbn [length]. lia.
Qed.

(** The device path handed to the firmware for a file is the path of the volume's
    handle with one file path node for the file behind it, terminated; whatever follows
    the end node in memory is ignored. *)
Theorem build_path_appends (ns : list node) (rest path : list Z) (Hns : Forall node_ok ns) :
  build_path (Some (encode ns ++ end_node ++ rest)) path = Some (encode (ns ++ [file_node path]) ++ end_node).
Proof.
  unfold build_path. pose proof (dp_length_encode ns [] rest) as H. cbn [app length] in H. rewrite H; [|done|].
  2:{ rewrite !length_app. pose proof (encode_length ns). lia. }
  cbn [mbind option_bind]. rewrite Z.add_0_l, sub_here by done. cbn [mbind option_bind]. rewrite file_path_node_encodes.
  unfold encode at 2. rewrite flat_map_app. cbn [flat_map]. by rewrite app_nil_r, <- app_assoc.
Qed.

Definition demo_nodes : list node := [{| n_type := 2; n_subtype := 1; n_data := [1; 2; 3; 4; 5; 6; 7; 8] |}; {| n_type := 1; n_subtype := 1; n_data := [0; 4] |}].

Lemma build_path_appends_witness :
  Forall node_ok demo_nodes /\
  build_path (Some (encode demo_nodes ++ end_node ++ [9; 9])) (cs "/shellx64.efi") = Some (encode (demo_nodes ++ [file_node (cs "/shellx64.efi")]) ++ end_node).
Proof.
  assert (Forall node_ok demo_nodes) as H.
  { unfold demo_nodes, node_ok, EFI_DP_END_TYPE, EFI_DP_END_SUBTYPE. repeat constructor; cbn; lia. }
  split; [exact H|]. exact (build_path_appends demo_nodes [9; 9] (cs "/shellx64.efi") H).
Defined.

(** ** Boot options *)

Lemma hex_digit_ok c : is_hex_digit c = true -> Console.is_hex c /\ hex_digit c = Console.hex_value [c] /\ 0 <= hex_digit c < 16.
Proof.
  unfold is_hex_digit, hex_digit, Console.is_hex, Console.hex_value, Console.value. cbn [foldl]. intros H.
  repeat (match goal with |- context [?a <=? ?b] => destruct (Z.leb_spec a b) end || match goal with H : context [?a <=? ?b] |- _ => destruct (Z.leb_spec a b) end);
    cbn [andb orb] in *; try done; split_and!; lia.
Qed.

Lemma hex_digit_complete c : Console.is_hex c -> is_hex_digit c = true.
Proof. unfold is_hex_digit, Console.is_hex. lia. Qed.

Lemma shift4 num d : 0 <= num < 4096 -> 0 <= d < 16 -> u16 ((num << 4) .| d) = num * 16 + d.
Proof.
  intros Hn Hd.
  rewrite lor_shiftl_add by lia. change (2 ^ 4) with 16. apply wrap_small. lia.
Qed.

Lemma boot_number_digits a b c d stale : Forall Console.is_hex [a; b; c; d] ->
  boot_number (cs "Boot" ++ [a; b; c; d] ++ 0 :: stale) = Some (Console.hex_value [a; b; c; d]).
Proof.
  intros H. set (v := cs "Boot" ++ [a; b; c; d] ++ 0 :: stale).
  assert (nthZ v 4 = a) as E4 by done. assert (nthZ v 5 = b) as E5 by done. assert (nthZ v 6 = c) as E6 by done.
  assert (nthZ v 7 = d) as E7 by done. assert (nthZ v 8 = 0) as E8 by done. assert (take 4 v = cs "Boot") as Et by done.
  unfold boot_number. cbn [forallb foldl]. rewrite Et, E4, E5, E6, E7, E8, bool_decide_true by done. clear Et E4 E5 E6 E7 E8.
  repeat match goal with H : Forall _ (_ :: _) |- _ => apply Forall_cons in H as [?%hex_digit_complete ?] end.
  repeat match goal with H : is_hex_digit ?x = true |- _ => rewrite H; apply hex_digit_ok in H as (_ & ? & ?) end.
  cbn [Z.eqb andb]. f_equal. rewrite (shift4 0), Z.mul_0_l, Z.add_0_l by lia. rewrite (shift4 (hex_digit a)) by lia.
  rewrite (shift4 (hex_digit a * 16 + hex_digit b)) by lia. rewrite (shift4 ((hex_digit a * 16 + hex_digit b) * 16 + hex_digit c)) by lia.
  change [a; b; c; d] with (((([] ++ [a]) ++ [b]) ++ [c]) ++ [d]). rewrite !Console.hex_value_snoc. change (Console.hex_value []) with 0. lia.
Qed.

Lemma boot_number_inv nm stale n : nonzero nm -> boot_number (nm ++ 0 :: stale) = Some n ->
  exists a b c d, nm = cs "Boot" ++ [a; b; c; d] /\ Forall Console.is_hex [a; b; c; d].
Proof.
  intros Hnz H. unfold boot_number in H. case_bool_decide as Hb; [|done]. cbn [andb] in H.
  destruct (nthZ (nm ++ 0 :: stale) 8 =? 0) eqn:E8; [|done]. destruct (forallb _ _) eqn:Ef; [|done]. apply Z.eqb_eq in E8.
  cbn [forallb] in Ef. repeat (apply andb_true_iff in Ef as [?H Ef]).
  assert (is_hex_digit 0 = false) as Hz0 by done.
  (* a name that ends early shows its terminator among the digits *)
  unfold nthZ in *. change (Z.to_nat 4) with 4%nat in *. change (Z.to_nat 5) with 5%nat in *. change (Z.to_nat 6) with 6%nat in *.
  change (Z.to_nat 7) with 7%nat in *. change (Z.to_nat 8) with 8%nat in *. change (cs "Boot") with [66; 111; 111; 116] in *.
  do 4 (destruct nm as [|? nm]; [cbn in Hb; discriminate|]).
  destruct nm as [|a nm]; [cbn [app nth] in *; congruence|]. destruct nm as [|b nm]; [cbn [app nth] in *; congruence|].
  destruct nm as [|c nm]; [cbn [app nth] in *; congruence|]. destruct nm as [|d nm]; [cbn [app nth] in *; congruence|].
  cbn [app nth take] in *. injection Hb as -> -> -> ->. destruct nm as [|x nm].
  - exists a, b, c, d. split; [done|]. repeat apply Forall_cons_2; try apply Forall_nil_2; by apply hex_digit_ok.
  - cbn [app nth] in E8. subst x. exfalso. revert Hnz. rewrite !Forall_cons. tauto.
Qed.

(** The names of boot options are recognised exactly: whatever the enumeration has
    left in the rest of the buffer, a name counts if and only if it is Boot with four
    hexadecimal digits of either case, and then the number is the one they denote. *)
Theorem boot_number_decodes (nm stale : list Z) (n : Z) (Hnm : nonzero nm) :
  boot_number (nm ++ 0 :: stale) = Some n <->
  exists ds, nm = cs "Boot" ++ ds /\ length ds = 4%nat /\ Forall Console.is_hex ds /\ n = Console.hex_value ds.
Proof.
  split.
  - intros H. destruct (boot_number_inv _ _ _ Hnm H) as (a & b & c & d & -> & Hd). exists [a; b; c; d]. split_and!; try done.
    rewrite <- app_assoc, boot_number_digits in H by done. by injection H as <-.
  - intros (ds & -> & Hl & Hd & ->). do 4 (destruct ds as [|? ds]; [done|]). destruct ds; [|done]. rewrite <- app_assoc. by apply boot_number_digits.
Qed.

Lemma boot_number_decodes_witness :
  nonzero (cs "Boot00aF") /\
  (boot_number (cs "Boot00aF" ++ 0 :: cs "t") = Some 175 <->
   exists ds, cs "Boot00aF" = cs "Boot" ++ ds /\ length ds = 4%nat /\ Forall Console.is_hex ds /\ 175 = Console.hex_value ds).
Proof.
  assert (nonzero (cs "Boot00aF")) as H by (repeat constructor; done).
  split; [exact H|]. exact (boot_number_decodes (cs "Boot00aF") (cs "t") 175 H).
Defined.

(** ** What is started *)

Lemma first_image_some {A} (load : A -> option (option Z)) l h : first_image load l = Some (Some h) -> exists x, x ∈ l /\ load x = Some (Some h).
Proof.
  induction l as [|x l IH]; [done|]. cbn [first_image]. intros H. apply bind_Some in H as ([h'|] & Hx & H).
  - injection H as <-. exists x. split; [by left|done].
  - destruct (IH H) as (y & Hy & E). exists y. split; [by right|done].
Qed.

Section Laws.
Context (LoadImage : bool -> option (list Z) -> list Z -> option Z).

(** The firmware accepted a portable executable as [h]. *)
Definition accepted (h : Z) : Prop := exists policy dp buf, LoadImage policy dp buf = Some h /\ is_mz buf = true.

Lemma or_else_some a b h : or_else a b = Some h -> a = Some h \/ b = Some h.
Proof using. clear. destruct a; cbn; [intros [= ->]; by left|by right]. Qed.

Lemma try_load_accepted buf h : try_load_image LoadImage buf = Some h -> accepted h.
Proof using.
  unfold try_load_image. destruct (is_mz buf) eqn:E; [|done]. intros [H | H]%or_else_some; by eexists _, _, _.
Qed.

Context (has_sfs : Z -> bool) (OpenVolume : Z -> option Z) (Open : Z -> list Z -> option EfiFile) (alloc : Z -> bool).
Context (device_path : Z -> option (list Z)) (pool : Z -> list Z).

Lemma volume_accepted v path h :
  load_image_from_volume LoadImage has_sfs OpenVolume Open alloc device_path pool v path = Some (Some h) -> accepted h.
Proof using.
  unfold load_image_from_volume. match goal with |- context [match ?x with Some _ => _ | None => _ end] => destruct x as [buf|] end; [|done].
  destruct (is_mz buf) eqn:E; [|done]. cbn [negb]. intros H. apply bind_Some in H as (dp & _ & H). destruct (negb _); [done|].
  injection H as [H | [H | H]%or_else_some]%or_else_some; by eexists _, _, _.
Qed.

Lemma direct_accepted b root path h :
  load_direct LoadImage has_sfs OpenVolume Open alloc device_path pool b root path = Some (Some h) -> accepted h.
Proof using.
  unfold load_direct. match goal with |- context [match ?x with Some _ => _ | None => _ end] => destruct x as [buf|] end; [|done].
  destruct (is_mz buf) eqn:E; [|done]. cbn [negb]. intros H. apply bind_Some in H as (r & Hr & H).
  injection H as [-> | [H | H]%or_else_some]%or_else_some; [|by eexists _, _, _..]. destruct (b =? 0); [done|]. by eapply volume_accepted.
Qed.
End Laws.

Lemma find_shell_some vars get_var n : find_shell vars get_var = Some n -> n <> 0xFFFF ->
  exists vname opt rest, (GLOBAL, vname) ∈ vars /\ boot_number vname = Some n /\ get_var vname = Some (opt, rest) /\ 8 <= zlen opt /\
    mentions_shell (units16 (drop 6 (opt ++ rest))) = Some true.
Proof.
  induction vars as [|[g vname] vars IH]; cbn [find_shell]; [by intros [= <-]|]. intros H Hn.
  assert (find_shell vars get_var = Some n -> exists vname0 opt rest, (GLOBAL, vname0) ∈ (g, vname) :: vars /\ boot_number vname0 = Some n /\
    get_var vname0 = Some (opt, rest) /\ 8 <= zlen opt /\ mentions_shell (units16 (drop 6 (opt ++ rest))) = Some true) as Hrest.
  { intros Hv. destruct (IH Hv Hn) as (v & opt & rest & Hin & Hv'). exists v, opt, rest. split; [by right|done]. }
  destruct (decide (g = GLOBAL)) as [->|Hg]; [|rewrite bool_decide_false in H by done; by apply Hrest]. rewrite bool_decide_true in H by done.
  cbn [negb] in H. destruct (boot_number vname) as [num|] eqn:Eb; [|by apply Hrest]. destruct (get_var vname) as [[opt rest]|] eqn:Eg; [|by apply Hrest].
  destruct (Z.ltb_spec (zlen opt) 8); [by apply Hrest|]. apply bind_Some in H as ([] & Em & H); cbn [andb] in H; [|by apply Hrest].
  destruct (negb (num =? 0xFFFF)); [|by apply Hrest]. injection H as <-. exists vname, opt, rest. split; [by left|done].
Qed.

(** [C37] What takes over when the shell is chosen: an image the firmware accepted from a
    buffer that begins as a portable executable does, or, through BootNext, a boot
    option of the global namespace whose description has the word Shell; never
    anything else. *)
Theorem shell_takes_over (LoadImage : bool -> option (list Z) -> list Z -> option Z) (has_sfs : Z -> bool) (OpenVolume : Z -> option Z)
    (Open : Z -> list Z -> option EfiFile) (alloc : Z -> bool) (device_path : Z -> option (list Z)) (pool : Z -> list Z)
    (sections : list (list Z)) (vars : list (Uefi.guid * list Z)) (get_var : list Z -> option (list Z * list Z)) (set_next : Z -> bool)
    (boot_handle : Z) (root : option Z) (sfs_handles : option (list Z)) (o : outcome)
    (Hrun : launch_uefi_shell LoadImage has_sfs OpenVolume Open alloc device_path pool sections vars get_var set_next boot_handle root sfs_handles = Some o) :
  match o with
  | Start h => accepted LoadImage h
  | ExitTo n => set_next n = true /\ exists vname opt rest, (GLOBAL, vname) ∈ vars /\ boot_number vname = Some n /\
      get_var vname = Some (opt, rest) /\ mentions_shell (units16 (drop 6 (opt ++ rest))) = Some true
  | ShellNotFound => True
  end.
Proof.
  apply bind_Some in Hrun as ([h|] & H1 & Hrun).
  { injection Hrun as <-. apply first_image_some in H1 as (buf & _ & [= H]). by eapply try_load_accepted. }
  apply bind_Some in Hrun as (found & Hf & Hrun). destruct (negb (found =? 0xFFFF) && set_next found) eqn:E.
  { injection Hrun as <-. apply andb_true_iff in E as [E Es]. split; [done|].
    destruct (find_shell_some _ _ _ Hf) as (vname & opt & rest & H); [by apply Z.eqb_neq, negb_true_iff|]. exists vname, opt, rest. tauto. }
  apply bind_Some in Hrun as ([h|] & H2 & Hrun).
  { injection Hrun as <-. destruct root as [root|]; [|done]. apply first_image_some in H2 as (path & _ & H). by eapply direct_accepted. }
  apply bind_Some in Hrun as ([h|] & H3 & [= <-]); [|done].
  apply first_image_some in H3 as (v & _ & H). apply first_image_some in H as (path & _ & H). by eapply volume_accepted.
Qed.

Definition demo_image (policy : bool) (dp : option (list Z)) (buf : list Z) : option Z := if policy then None else Some (100 + zlen buf).

Lemma shell_takes_over_witness :
  launch_uefi_shell demo_image (fun _ => true) (fun h => Some (100 + h)) (fun _ _ => None) (fun _ => true) (fun _ => None) (fun _ => [])
    [cs "text"; cs "MZ.."] [] (fun _ => None) (fun _ => true) 0 None None = Some (Start 104) /\ accepted demo_image 104.
Proof.
  split; [reflexivity|].
  exact (shell_takes_over demo_image (fun _ => true) (fun h => Some (100 + h)) (fun _ _ => None) (fun _ => true) (fun _ => None) (fun _ => [])
    [cs "text"; cs "MZ.."] [] (fun _ => None) (fun _ => true) 0 None None (Start 104) eq_refl).
Defined.

End Shell.
