(* ===== verification/Boot.v ===== *)
(** * Boot: the whole of [uefi_main], [uefi/uefi_loader.c]

    The parts composed the way [uefi_main] composes them: the wait for the boot volume,
    the table, the default entry, the menu, the boot counter, unlocking, the loader,
    the end of the boot services and the jump.  The firmware is a record of what its
    services answer; what is observable of a run is a list of events.  [None] is
    behaviour C leaves undefined. *)

From stdpp Require Import gmap.
From S2P Require Import Prelude Mem Config Efi Menu BootCount Luks1 Luks2 LuksVol Ext4 LoaderEntry Elf Linux Windows Handover Scan Console Uefi Shell.
Import Mem Config Efi BootCount.

Module Boot.

(** ** The firmware *)

Record Firmware := {
  (** The loader's own device; every handle; the file system volumes at each poll of the
      wait, when they are scanned and when a shell is looked for; the block devices. *)
  fw_device : option Z;
  fw_handles : option (list Z);
  fw_polls : nat -> option (list Z);
  fw_sfs : option (list Z);
  fw_sfs2 : option (list Z);
  fw_blocks : option (list Z);
  (** File systems: the protocol, the root directory, files, directory entries. *)
  fw_has_sfs : Z -> bool;
  fw_OpenVolume : Z -> option Z;
  fw_Open : Z -> list Z -> option EfiFile;
  fw_Entries : Z -> list Z -> list (Z * list Z);
  fw_le_dir : Z -> option (list (Z * list Z));
  fw_le_read : Z -> list Z -> option (list Z);
  fw_dev : Z -> Scan.BlockDev;
  (** Memory: which sizes can be allocated, where a kernel's file is put, and what fresh
      memory holds. *)
  fw_alloc : Z -> bool;
  fw_kernel_at : Z;
  fw_pool : Z -> list Z;
  fw_heap : list Z;
  fw_stack : BootEntry;
  (** Images. *)
  fw_LoadImage : bool -> option (list Z) -> list Z -> option Z;
  fw_has_li : Z -> bool;
  fw_takes_over : Z -> bool;
  fw_device_path : Z -> option (list Z);
  fw_sections : list (list Z);
  fw_vars : list (Uefi.guid * list Z);
  fw_get_var : list Z -> option (list Z * list Z);
  fw_set_next : Z -> bool;
  (** The console's columns and rows in its mode, outputs, tables, the memory map. *)
  fw_mode : option (Z * Z);
  fw_gops : option (list (option Uefi.Gop));
  fw_tables : list (Uefi.guid * Z);
  fw_map_before : Z * Z;
  fw_map_alloc : Z -> Z + Z;
  fw_map_after : Z -> (Z * Z * Z * Z) + Z;
  fw_ExitBootServices : Z -> Z }.

(** ** Handles *)

(** The calls to [ConnectController], recursive ones. *)
Definition connect_all_controllers (handles : option (list Z)) : list Z := default [] handles.

(** The serial devices the driver is disconnected from; nothing calls it. *)
Definition detach_serial_console (handles : option (list Z)) : list Z := default [] handles.

(** ** Messages *)

Definition EFI_LIGHTRED : Z := 0x0C.
Definition EFI_LIGHTMAGENTA : Z := 0x0D.
Definition EFI_BACKGROUND_BLACK : Z := 0.
Definition EFI_TEXT_ATTR (fg bg : Z) : Z := fg .| bg.

(** [SetAttribute] and [OutputString]. *)
Inductive out := Attr (a : Z) | Str (s : list Z).

Definition puts (s : list Z) : option (list out) := map Str <$> Console.con_puts s.

(** What is printed before the wait for a key. *)
Definition con_error (msg : list Z) : option (list out) :=
  a ← puts ([13; 10] ++ cs "ERROR: ");
  b ← puts msg;
  c ← puts [13; 10];
  d ← puts (cs "Press any key to continue..." ++ [13; 10]);
  Some ([Attr (EFI_TEXT_ATTR EFI_LIGHTRED EFI_BACKGROUND_BLACK)] ++ a ++ b ++ c ++
        [Attr (EFI_TEXT_ATTR EFI_LIGHTMAGENTA EFI_BACKGROUND_BLACK)] ++ d).

(** The pauses of 10 ms until a key is there; [None] while there is none. *)
Fixpoint key_wait (polls : list (option (Z * Z))) : option nat :=
  match polls with [] => None | Some _ :: _ => Some O | None :: polls => S <$> key_wait polls end.

(** ** Status *)

Definition EFI_ERR (x : Z) : Z := 0x8000000000000000 .| x.
Definition EFI_LOAD_ERROR : Z := EFI_ERR 1.
Definition EFI_NOT_FOUND : Z := EFI_ERR 14.
Definition EFI_ACCESS_DENIED : Z := EFI_ERR 15.
Definition EFI_ERROR (s : Z) : bool := s >=? 2 ^ 63.

(** ** Boot information *)

Record BootInfo := {
  bi_map : option Uefi.MemMap; bi_fb : option Uefi.Framebuffer; bi_rsdp : Z; bi_cmdline : list Z; bi_initrd : Z * Z }.

(** ** The main function *)

(** What a run is seen to do, in order. *)
Inductive event :=
  | Connect (h : Z) | Pause (n : nat) | Show (t : list Menu.call) | SaveLast (sel : Z) | CountBoot (sel : Z)
  | Message (name : list Z) | StartShell (o : Shell.outcome) | CallLoad (l : Uefi.OSLoader) (path : list Z)
  | ReservePages (reqs : list (Z * Z)) | LinuxActions (a : list Linux.action) | WindowsActions (a : list Windows.action)
  | ExitServices (s : Z) | Error (msg : list Z).

(** How it ends: waiting for a key, back in the firmware, in an image that was started,
    or in a kernel with its boot information. *)
Inductive outcome := AtMenu | AtPassphrase | Returned (status : Z) | InShell (o : Shell.outcome) | InImage (l : Uefi.OSLoader)
  | InKernel (ep : Z) (info : BootInfo) (m : mem).

Definition lines (l : list (list Z)) (eol : list Z) : list Z := flat_map (fun s => s ++ eol) (removelast l) ++ default [] (last l).

Definition no_kernels : list Z :=
  lines [cs "No bootable kernels found on any disk."; cs "  Searched: /boot/ and /EFI/Linux/ on each FAT volume";
         cs "            /boot/ on each ext4 partition"; cs "  Note: kernels on btrfs/xfs are not yet supported."] [13; 10].

Definition no_shell : list Z :=
  lines [cs "UEFI Shell not found."; cs "  Tried: /EFI/Shell/Shell.efi, /EFI/BOOT/Shell.efi, /shellx64.efi";
         cs "  on boot volume (direct) and all SFS volumes."; cs "  Re-run write-usb.sh to add Shell.efi to the USB automatically."] [10].

Section Main.
Context (fw : Firmware) (arch : Elf.arch).
(** What the unlocking code finds in uninitialised and static memory at an attempt. *)
Context (sizeof_luks sizeof_info : Z) (junk key0 : Z -> list Z) (st1 : Z -> Luks1.scratch) (st2 : Z -> Luks2.scratch2).

Definition volume_root : Z -> option Z := Uefi.open_root (fw_has_sfs fw) (fw_OpenVolume fw).

Definition boot_volume : option (Z * Z) :=
  Uefi.find_boot_volume (fw_has_sfs fw) (fw_OpenVolume fw) (fw_Open fw) (fw_device fw) (fw_sfs fw).

Definition table : option Scan.state :=
  Uefi.discover (fw_Open fw) (fw_Entries fw) (fw_alloc fw) volume_root (fw_dev fw) (fw_le_dir fw) (fw_le_read fw) (fw_stack fw)
    boot_volume (fw_sfs fw) (fw_blocks fw).

(** The menu's callbacks and the console's width, 80 when the mode is not known. *)
Definition menu_ops : Menu.MenuOps :=
  {| Menu.has_clear := true; Menu.has_set_color := true; Menu.has_set_cursor := true; Menu.has_show_cursor := true;
     Menu.ops_cols := i32 (fst (default (80, 25) (fw_mode fw))) |}.

(** Block I/O of a handle. *)
Definition bio (h : Z) : option ((Z -> Z -> Z -> option (list Z)) * Z) :=
  m ← Scan.bd_media (fw_dev fw h); Some (Scan.bd_ReadBlocks (fw_dev fw h), Ext4.MediaId m).

(** [read_file]; [h] is the partition of the entry, whose sectors a LUKS volume reads. *)
Definition read_file (h : option Z) (c : Scan.FsCtx) (path : list Z) : option (option (list Z)) :=
  match c with
  | Scan.CtxFat root _ => Some (read_file_fat (fw_Open fw) (fw_alloc fw) root path)
  | Scan.CtxExt4 vol =>
    let d := fw_dev fw (default 0 h) in
    let raw := match h ≫= bio with Some (rb, mid) => LuksVol.efi_bio_read rb mid | None => Scan.no_luks end in
    Ext4.ext4_read_file (Scan.bd_ReadDisk d) (Scan.bd_ReadBlocks d) raw (fw_alloc fw) vol path
  end.

(** What [loader->load] comes to: an entry point, 0 on failure, with memory, or an image
    that has taken over. *)
Inductive loaded := Entry (ep : Z) (m : mem) | Image.

(** [h], [c]: partition and file system of the entry. *)
Definition load (l : Uefi.OSLoader) (e : BootEntry) (h : option Z) (c : Scan.FsCtx) (m : mem) : option (loaded * list event) :=
  match l with
  | Uefi.vios_loader =>
    k ← read_file h c (kernel e);
    r ← Elf.vios_load arch (fun _ m => d ← k; Some (fw_kernel_at fw, zlen d, write m (fw_kernel_at fw) (d ++ [0]))) m e;
    Some (Entry (fst (fst r)) (snd r), [ReservePages (snd (fst r))])
  | Uefi.linux_loader =>
    k ← read_file h c (kernel e);
    let img := k ≫= fw_LoadImage fw false None in
    let a := snd (Linux.linux_load_uefi k (match img with Some _ => true | None => false end)
                    (match img with Some i => fw_has_li fw i | None => false end)
                    (fw_alloc fw ((zlen (Linux.full_cmd (cmdline e) (initrd e)) + 1) * 2)) (Scan.get_device_handle (Some c)) e) in
    Some (match img with
          | Some i => if negb (bool_decide (a = [])) && fw_takes_over fw i then (Image, [LinuxActions (removelast a)]) else (Entry 0 m, [LinuxActions a])
          | None => (Entry 0 m, [LinuxActions a])
          end)
  | Uefi.windows_loader =>
    let a := snd (Windows.windows_load (fun h => match volume_root h with Some _ => true | None => false end)
                    (fun h p => root ← volume_root h; fw_Open fw root p) (fw_alloc fw) (fw_heap fw)
                    (fun policy buf => fw_LoadImage fw policy None buf) (fw_has_li fw)
                    (Scan.get_device_handle (Some c)) (default [] (fw_sfs2 fw)) e) in
    Some (match last a with
          | Some (Windows.UnloadImage i) => if fw_takes_over fw i then (Image, [WindowsActions (removelast a)]) else (Entry 0 m, [WindowsActions a])
          | _ => (Entry 0 m, [WindowsActions a])
          end)
  end.

(** From the loaded kernel on. *)
Definition hand_over (cmd : list Z) (ep : Z) (m : mem) : outcome * list event :=
  match Uefi.exit_boot_services (fw_map_before fw) (fw_map_alloc fw) (fw_map_after fw) (fw_ExitBootServices fw) with
  | inr s => (Returned s, [Error (cs "ExitBootServices failed")])
  | inl (mp, s) =>
    if EFI_ERROR s then (Returned s, [ExitServices s; Error (cs "ExitBootServices failed")])
    else (InKernel ep {| bi_map := Some mp; bi_fb := Uefi.gather_gop (fw_gops fw); bi_rsdp := default 0 (Uefi.gather_rsdp (fw_tables fw));
                         bi_cmdline := cmd; bi_initrd := (0, 0) |} m, [ExitServices s])
  end.

(** From the selected entry on. *)
Definition boot_selected (st : Scan.state) (sel : Z) (pass_keys : Z -> list Z) (m : mem) : option (outcome * list event) :=
  e ← entry_at (Scan.cfg st) sel;
  let ctx := Scan.ctxs st !! sel in
  let h := match ctx with Some (Scan.CtxExt4 vol) => Ext4.ext4_get_part_handle (Some vol) | _ => None end in
  let root := snd <$> boot_volume in
  l ← Uefi.boot_entry bio (fw_Open fw) (fw_alloc fw) sizeof_luks sizeof_info junk key0 st1 st2 menu_ops pass_keys e root ctx;
  r ← (match l with
       | Uefi.LaunchShell =>
         o ← Shell.launch_uefi_shell (fw_LoadImage fw) (fw_has_sfs fw) (fw_OpenVolume fw) (fw_Open fw) (fw_alloc fw) (fw_device_path fw)
               (fw_pool fw) (fw_sections fw) (fw_vars fw) (fw_get_var fw) (fw_set_next fw) (default 0 (fst <$> boot_volume)) root (fw_sfs2 fw);
         Some (match o with
               | Shell.ShellNotFound => (Returned EFI_NOT_FOUND, [StartShell o; Error no_shell])
               | _ => (InShell o, [StartShell o])
               end)
       | Uefi.AccessDenied => Some (Returned EFI_ACCESS_DENIED, [Error (cs "LUKS: failed to unlock after maximum attempts")])
       | Uefi.NoLoader => Some (Returned EFI_LOAD_ERROR, [Error (cs "No loader available for this entry type")])
       | Uefi.OutOfMemory => Some (Returned EFI_LOAD_ERROR, [Error (cs "Out of memory allocating boot info")])
       | Uefi.NoContext => Some (Returned EFI_LOAD_ERROR, [Error (cs "Kernel load failed - no filesystem context for this entry")])
       | Uefi.AtPrompt => Some (AtPassphrase, [])
       | Uefi.Load ld cmd c =>
         k ← load ld e h c m;
         let '(o, ev) := match fst k with
           | Image => (InImage ld, [])
           | Entry ep m =>
             if ep =? 0 then (Returned EFI_LOAD_ERROR, [Error (cs "Kernel load failed - check that the file exists and is valid")])
             else hand_over cmd ep m
           end in
         Some (o, CallLoad ld (kernel e) :: snd k ++ ev)
       end);
  Some (fst r, Message (name e) :: snd r).

Context `{NvStore}.

(** The whole run: how it ends, the variables afterwards and what was seen of it. *)
Definition uefi_main (s : nv) (menu_keys : list Z) (pass_keys : Z -> list Z) (m : mem) : option (outcome * nv * list event) :=
  let started := map Connect (connect_all_controllers (fw_handles fw)) ++
    [Pause (Uefi.await_boot_volume (fw_has_sfs fw) (fw_OpenVolume fw) (fw_Open fw) 20 (fw_polls fw))] in
  st ← table;
  if num_entries (Scan.cfg st) =? 0 then Some (Returned EFI_LOAD_ERROR, s, started ++ [Error no_kernels])
  else
    r ← Menu.menu_run menu_ops (restore_default s (Scan.cfg st)) menu_keys;
    match fst r with
    | Menu.Again _ => Some (AtMenu, s, started ++ [Show (snd r)])
    | Menu.Return sel =>
      b ← boot_selected st sel pass_keys m;
      Some (fst b, record_boot s sel, started ++ [Show (snd r); SaveLast (u32 sel); CountBoot (u32 sel)] ++ snd b)
    end.

(** The image's entry point, the same on both machines. *)
Definition efi_main (s : nv) (menu_keys : list Z) (pass_keys : Z -> list Z) (m : mem) : option (outcome * nv * list event) :=
  uefi_main s menu_keys pass_keys m.
End Main.

(** ** Entries with an ext4 context are not encrypted *)

(** The table and its contexts fit, and entries bound to an ext4 volume carry no
    encryption settings. *)
Record plain (st : Scan.state) : Prop := {
  pl_num : num_entries (Scan.cfg st) <= MAX_ENTRIES;
  pl_free : forall i, num_entries (Scan.cfg st) <= i -> Scan.ctxs st !! i = None;
  pl_ext4 : forall i vol e, Scan.ctxs st !! Z.of_nat i = Some (Scan.CtxExt4 vol) -> entries (Scan.cfg st) !! i = Some e -> encrypted e = 0 }.

Definition fat_ctx (c : Scan.FsCtx) : Prop := exists root h, c = Scan.CtxFat root h.

(** Growing by entries bound to FAT volumes. *)
Lemma plain_grows st st' : Scan.grows fat_ctx st st' -> plain st -> plain st'.
Proof.
  intros Hg [Hn Hf He]. destruct (Hg Hn Hf) as ((es & Hes) & Hn' & Hold & Hnew & Hf'). split; [done|done|].
  intros i vol e Hc Hi. destruct (Z.lt_ge_cases (Z.of_nat i) (num_entries (Scan.cfg st))) as [Hlt|Hge].
  - rewrite Hold in Hc by done. apply (He i vol); [done|]. rewrite Hes, lookup_app_l in Hi by (unfold num_entries in Hlt; lia). done.
  - assert (Z.of_nat i < num_entries (Scan.cfg st')) as Hlt by (apply lookup_lt_Some in Hi; unfold num_entries; lia).
    destruct (Hnew (Z.of_nat i) ltac:(lia)) as (c & Hc' & root & h & ->). congruence.
Qed.

(** Growing by one kernel, wherever it is. *)
Lemma plain_add_kernel st nm ty path ird c : plain st -> plain (Scan.add_kernel st nm ty path ird c).
Proof.
  intros [Hn Hf He]. unfold Scan.add_kernel, config_add_kernel. destruct (existsb _ _).
  { cbn [snd]. rewrite Z.gtb_ltb, Z.ltb_irrefl. by split. }
  destruct (Z.geb_spec (num_entries (Scan.cfg st)) MAX_ENTRIES); cbn [snd].
  { rewrite Z.gtb_ltb, Z.ltb_irrefl. by split. }
  rewrite Scan.num_snoc, Z.gtb_ltb, (proj2 (Z.ltb_lt _ _)) by lia. split; cbn [Scan.cfg Scan.ctxs]; rewrite ?Scan.num_snoc.
  - lia.
  - intros i Hi. rewrite lookup_insert_ne by lia. apply Hf. lia.
  - intros i vol e Hc Hi. cbn [entries set_entries] in Hi. apply lookup_app_Some in Hi as [Hi | [Hge Hi]].
    + apply (He i vol); [|done]. apply lookup_lt_Some in Hi. rewrite lookup_insert_ne in Hc by (unfold num_entries; lia). done.
    + destruct (i - length (entries (Scan.cfg st)))%nat; [|done]. by injection Hi as <-.
Qed.

Section Plain.
Context (Open : Z -> list Z -> option EfiFile) (Entries : Z -> list Z -> list (Z * list Z)) (alloc : Z -> bool).
Context (OpenVolume : Z -> option Z) (dev : Z -> Scan.BlockDev).

Lemma scan_ext4_plain st h st' : Scan.scan_ext4 alloc dev st h = Some st' -> plain st -> plain st'.
Proof using.
  unfold Scan.scan_ext4. intros H. apply bind_Some in H as ([vol|] & _ & H); [|by injection H as <-].
  assert (forall s dir s', Scan.scan_ext4_dir alloc (dev h) vol s dir = Some s' -> plain s -> plain s') as Hdir.
  { intros s dir s' Hs Hp. apply bind_Some in Hs as (l & _ & Hs). revert Hs. apply (foldlO_Some plain); [|done].
    intros t e t' _ Ht Hcb. unfold Scan.ext4_scan_cb in Hcb. destruct (snd e); [by injection Hcb as <-|].
    case_bool_decide; [by injection Hcb as <-|]. apply bind_Some in Hcb as (ird & _ & [= <-]). by apply plain_add_kernel. }
  apply bind_Some in H as (s1 & H1 & H2). intros Hp. eapply Hdir; [exact H2|]. by eapply Hdir.
Qed.

Lemma scan_all_plain st boot fats exts st' : Scan.scan_all Open Entries alloc OpenVolume dev st boot fats exts = Some st' -> plain st -> plain st'.
Proof using.
  intros H Hp. apply bind_Some in H as (s1 & H1 & H2). assert (plain s1) as Hp1.
  { unfold Scan.scan_all_filesystems in H1. destruct fats as [[|h0 hs]|]; [by injection H1 as <-| |by injection H1 as <-].
    revert H1. apply (foldlO_Some plain); [|done]. intros s h s' _ Hs Hv%Scan.scan_volume_grows. revert Hs. apply plain_grows.
    eapply Scan.grows_impl; [|exact Hv]. intros c (root & _ & ->). by exists root, h. }
  unfold Scan.scan_all_ext4 in H2. destruct exts as [hs|]; [|by injection H2 as <-].
  revert H2. apply (foldlO_Some plain); [|done]. intros s h s' _ Hs Hv. by eapply scan_ext4_plain.
Qed.

Lemma add_shell_pos stack st : 0 < num_entries (Scan.cfg (Uefi.add_shell stack st)).
Proof using.
  unfold Uefi.add_shell. destruct (Z.ltb_spec (num_entries (Scan.cfg st)) MAX_ENTRIES) as [|H]; [|unfold MAX_ENTRIES in H; lia].
  cbn [Scan.cfg]. rewrite Scan.num_snoc. unfold num_entries. lia.
Qed.

Lemma add_shell_plain stack st : plain st -> plain (Uefi.add_shell stack st).
Proof using.
  intros Hp. unfold Uefi.add_shell. destruct (Z.ltb_spec (num_entries (Scan.cfg st)) MAX_ENTRIES); [|done]. destruct Hp as [Hn Hf He].
  split; cbn [Scan.cfg Scan.ctxs]; rewrite ?Scan.num_snoc; [lia|intros i Hi; apply Hf; lia|].
  intros i vol e Hc Hi. apply (He i vol); [done|]. cbn [entries set_entries] in Hi. apply lookup_app_Some in Hi as [Hi|[Hge Hi]]; [done|].
  rewrite Hf in Hc by (unfold num_entries; lia). done.
Qed.

(** The table: volumes and shell, then unencrypted loader entries without a context. *)
Lemma discover_parts le_dir le_read stack boot fats exts st :
  Uefi.discover Open Entries alloc OpenVolume dev le_dir le_read stack boot fats exts = Some st ->
  exists s es, plain s /\ 0 < num_entries (Scan.cfg s) /\ Scan.ctxs st = Scan.ctxs s /\ entries (Scan.cfg st) = entries (Scan.cfg s) ++ es /\
    num_entries (Scan.cfg st) <= MAX_ENTRIES /\ Forall (fun e => encrypted e = 0) es.
Proof using.
  intros H. apply bind_Some in H as (s1 & H1 & H). apply bind_Some in H as (s2 & H2 & H). exists (Uefi.add_shell stack s2).
  assert (plain s2) as Hp.
  { apply scan_all_plain in H1; [|split; [done|done|intros i vol e Hc; cbn [Scan.ctxs Scan.start] in Hc; by rewrite lookup_empty in Hc]].
    destruct boot as [[h root]|]; [|by injection H2 as <-]. revert H1. apply plain_grows.
    eapply Scan.grows_impl; [|by eapply Uefi.rescan_boot_grows]. intros c ->. by exists root, h. }
  pose proof (add_shell_pos stack s2) as Hpos. apply (add_shell_plain stack) in Hp.
  destruct boot as [[h root]|]; [|injection H as <-; exists []; rewrite app_nil_r; by split_and!; try apply Hp].
  apply bind_Some in H as (cf & Hcf & [= <-]). cbn [Scan.cfg Scan.ctxs].
  unfold LoaderEntry.loader_entry_scan in Hcf. destruct (le_dir root) as [ents|];
    [|injection Hcf as <-; exists []; rewrite app_nil_r; by split_and!; try apply Hp].
  destruct (LoaderEntry.scan_loop_spec (le_read root) ents _ (pl_num _ Hp)) as (es & Es & Hl & Hs). rewrite Es in Hcf. injection Hcf as <-.
  exists es. split_and!; try done. apply (Forall_impl _ _ _ Hs). by intros e (_ & _ & _ & _ & _ & ?).
Qed.

Lemma discover_plain le_dir le_read stack boot fats exts st :
  Uefi.discover Open Entries alloc OpenVolume dev le_dir le_read stack boot fats exts = Some st -> plain st.
Proof using.
  intros (s & es & [Hn Hf He] & _ & Hc & Hes & Hn' & Hs)%discover_parts. split; [done|..]; rewrite Hc.
  - intros i Hi. apply Hf. unfold num_entries in *. rewrite Hes, length_app in Hi. lia.
  - intros i vol e Hi Hl. rewrite Hes in Hl. apply lookup_app_Some in Hl as [Hl|[_ Hl]]; [by apply (He i vol)|].
    apply list_elem_of_lookup_2 in Hl. rewrite Forall_forall in Hs. by apply Hs.
Qed.

(** The table the menu gets is never empty. *)
Lemma discover_pos le_dir le_read stack boot fats exts st :
  Uefi.discover Open Entries alloc OpenVolume dev le_dir le_read stack boot fats exts = Some st -> 0 < num_entries (Scan.cfg st) <= MAX_ENTRIES.
Proof using.
  intros (s & es & _ & Hpos & _ & Hes & Hn & _)%discover_parts. split; [|done]. unfold num_entries in *. rewrite Hes, length_app. lia.
Qed.
End Plain.

Lemma entry_at_Some cf i e : entry_at cf i = Some e -> 0 <= i < num_entries cf /\ entries cf !! Z.to_nat i = Some e.
Proof. unfold entry_at. destruct (Z.ltb_spec i 0); [done|]. intros Hl. split; [|done]. apply lookup_lt_Some in Hl. unfold num_entries. lia. Qed.

(** ** Properties *)

Section Runs.
Context (fw : Firmware) (arch : Elf.arch).

(** An entry of the table is booted from the file system it was found on as it is. *)
Lemma unlock_skipped sz Open' junk key0 st1 st2 ops keys st sel e root (Ht : table fw = Some st) (He : entry_at (Scan.cfg st) sel = Some e) :
  let c := default (Scan.CtxFat (default 0 root) 0) (Scan.ctxs st !! sel) in
  Uefi.unlock_context (bio fw) Open' (fw_alloc fw) sz junk key0 st1 st2 ops keys e root c = Some (inl c).
Proof using.
  cbn zeta. apply entry_at_Some in He as [Hs He]. unfold Uefi.unlock_context.
  destruct (Z.eqb_spec (encrypted e) 0) as [|Henc]; [done|].
  destruct (Scan.ctxs st !! sel) as [[root' h|vol]|] eqn:E; cbn [default from_option id]; [done| |done].
  exfalso. apply Henc. apply discover_plain in Ht as [_ _ Hp]. apply (Hp (Z.to_nat sel) vol); [by rewrite Z2Nat.id by lia|done].
Qed.

Section Ignore.
Context (sl sl' si : Z) (junk key0 junk' key0' : Z -> list Z) (st1 st1' : Z -> Luks1.scratch) (st2 st2' : Z -> Luks2.scratch2).

Lemma boot_entry_ignores keys keys' st sel e root : table fw = Some st -> entry_at (Scan.cfg st) sel = Some e ->
  Uefi.boot_entry (bio fw) (fw_Open fw) (fw_alloc fw) sl si junk key0 st1 st2 (menu_ops fw) keys e root (Scan.ctxs st !! sel) =
  Uefi.boot_entry (bio fw) (fw_Open fw) (fw_alloc fw) sl' si junk' key0' st1' st2' (menu_ops fw) keys' e root (Scan.ctxs st !! sel).
Proof using. intros Ht He. unfold Uefi.boot_entry. by rewrite !(unlock_skipped _ _ _ _ _ _ _ _ st sel e root Ht He). Qed.

Lemma boot_entry_not_prompt keys st sel e root l : table fw = Some st -> entry_at (Scan.cfg st) sel = Some e ->
  Uefi.boot_entry (bio fw) (fw_Open fw) (fw_alloc fw) sl si junk key0 st1 st2 (menu_ops fw) keys e root (Scan.ctxs st !! sel) = Some l ->
  l <> Uefi.AtPrompt /\ l <> Uefi.AccessDenied.
Proof using.
  intros Ht He. unfold Uefi.boot_entry. case_bool_decide; [by intros [= <-]|].
  rewrite (unlock_skipped _ _ _ _ _ _ _ _ st sel e root Ht He). cbn [mbind option_bind].
  destruct (Uefi.find_loader e); [|by intros [= <-]]. destruct (negb _); [by intros [= <-]|].
  destruct (default _ _) as [[|p|p] h|v]; by intros [= <-].
Qed.
End Ignore.
End Runs.

Section Inversion.
Context `{NvStore} (fw : Firmware) (arch : Elf.arch) (sl si : Z) (junk key0 : Z -> list Z) (st1 : Z -> Luks1.scratch) (st2 : Z -> Luks2.scratch2).

Definition before_menu (ev : event) : bool := match ev with Connect _ | Pause _ => true | _ => false end.

(** A run gets to the menu; either it stays there or the selection is counted and then
    booted. *)
Lemma uefi_main_inv s mk keys m o s' ev : uefi_main fw arch sl si junk key0 st1 st2 s mk keys m = Some (o, s', ev) ->
  exists st r t started, table fw = Some st /\ Menu.menu_run (menu_ops fw) (restore_default s (Scan.cfg st)) mk = Some (r, t) /\
    forallb before_menu started = true /\
    match r with
    | Menu.Again _ => o = AtMenu /\ s' = s /\ ev = started ++ [Show t]
    | Menu.Return sel => exists b, boot_selected fw arch sl si junk key0 st1 st2 st sel keys m = Some b /\ o = fst b /\ s' = record_boot s sel /\
        ev = started ++ [Show t; SaveLast (u32 sel); CountBoot (u32 sel)] ++ snd b
    end.
Proof using.
  unfold uefi_main. intros Hrun. apply bind_Some in Hrun as (st & Ht & Hrun). pose proof (discover_pos _ _ _ _ _ _ _ _ _ _ _ _ Ht) as [Hpos _].
  rewrite (proj2 (Z.eqb_neq _ _)) in Hrun by lia. apply bind_Some in Hrun as ([r t] & Hm & Hrun). exists st, r, t. cbn [fst snd] in Hrun.
  eexists. split; [done|]. split; [done|]. split; [|destruct r as [sel|x]].
  2:{ apply bind_Some in Hrun as (b & Hb & [= <- <- <-]). exists b. split; [done|]. split; [done|]. split; [done|]. reflexivity. }
  - rewrite forallb_app. cbn [forallb before_menu andb]. rewrite andb_true_r. apply forallb_forall.
    intros x (h & <- & _)%in_map_iff. reflexivity.
  - by injection Hrun as <- <- <-.
Qed.

Lemma boot_entry_cases keys e root ctx l :
  Uefi.boot_entry (bio fw) (fw_Open fw) (fw_alloc fw) sl si junk key0 st1 st2 (menu_ops fw) keys e root ctx = Some l ->
  match l with
  | Uefi.LaunchShell => type e = OS_TYPE_UEFI_SHELL
  | Uefi.Load ld cmd c => Uefi.find_loader e = Some ld /\ cmd = take 255 (cmdline e)
  | _ => True
  end.
Proof using.
  unfold Uefi.boot_entry. case_bool_decide as Hsh; [by intros [= <-]|]. intros Hl. apply bind_Some in Hl as (c & Hc & Hl). destruct c as [c|l'].
  - destruct (Uefi.find_loader e) as [ld|]; [|by injection Hl as <-]. destruct (negb _); [by injection Hl as <-|].
    by destruct c as [[|p|p] h|v]; injection Hl as <-.
  - injection Hl as <-. unfold Uefi.unlock_context in Hc. destruct (encrypted e =? 0); [done|]. destruct (default _ ctx) as [f h|vol]; [done|].
    destruct (_ ≫= _) as [[rb mid]|]; [|done]. apply bind_Some in Hc as (r & _ & Hc). destruct (fst (fst r)); [discriminate|by injection Hc as <-..].
Qed.

(** What can come of a selection. *)
Lemma boot_selected_inv st sel keys m b : boot_selected fw arch sl si junk key0 st1 st2 st sel keys m = Some b ->
  exists e, entry_at (Scan.cfg st) sel = Some e /\ exists post, snd b = Message (name e) :: post /\
    match fst b with
    | AtMenu => False
    | AtPassphrase => post = []
    | InShell o => type e = OS_TYPE_UEFI_SHELL /\ post = [StartShell o]
    | Returned _ => exists pre msg, post = pre ++ [Error msg]
    | InImage l => exists mid, Uefi.find_loader e = Some l /\ post = CallLoad l (kernel e) :: mid
    | InKernel ep info m' => exists l mid k mp, Uefi.find_loader e = Some l /\
        post = CallLoad l (kernel e) :: mid ++ [ExitServices k] /\ EFI_ERROR k = false /\ ep <> 0 /\
        Uefi.exit_boot_services (fw_map_before fw) (fw_map_alloc fw) (fw_map_after fw) (fw_ExitBootServices fw) = inl (mp, k) /\
        info = {| bi_map := Some mp; bi_fb := Uefi.gather_gop (fw_gops fw); bi_rsdp := default 0 (Uefi.gather_rsdp (fw_tables fw));
                  bi_cmdline := take 255 (cmdline e); bi_initrd := (0, 0) |} /\
        exists c, Uefi.boot_entry (bio fw) (fw_Open fw) (fw_alloc fw) sl si junk key0 st1 st2 (menu_ops fw) keys e (snd <$> boot_volume fw)
            (Scan.ctxs st !! sel) = Some (Uefi.Load l (take 255 (cmdline e)) c) /\
          load fw arch l e (match Scan.ctxs st !! sel with Some (Scan.CtxExt4 vol) => Ext4.ext4_get_part_handle (Some vol) | _ => None end) c m =
            Some (Entry ep m', mid)
    end.
Proof using.
  unfold boot_selected. intros Hb. apply bind_Some in Hb as (e & He & Hb). apply bind_Some in Hb as (l & Hl & Hb).
  apply bind_Some in Hb as (r & Hr & [= <-]). exists e. split; [done|]. cbn [fst snd]. exists (snd r). split; [done|].
  assert (match l with
    | Uefi.LaunchShell => type e = OS_TYPE_UEFI_SHELL
    | Uefi.Load ld cmd c => Uefi.find_loader e = Some ld /\ cmd = take 255 (cmdline e)
    | _ => True end) as Hl2.
  { by eapply boot_entry_cases. }
  destruct l as [| | | | | |ld cmd c]; try (injection Hr as <-; cbn [fst snd]; by eexists [], _); [|by injection Hr as <-|apply bind_Some in Hr as (k & Hk & Hr)].
  - apply bind_Some in Hr as (o & _ & Hr). destruct o; injection Hr as <-; cbn [fst snd]; [done|done|by eexists [_], _].
  - destruct Hl2 as [Hf ->]. destruct k as [[ep m'|] mid]; cbn [fst snd] in Hr.
    2:{ injection Hr as <-. cbn [fst snd]. rewrite app_nil_r. by exists mid. }
    destruct (Z.eqb_spec ep 0) as [|Hep]; [injection Hr as <-; cbn [fst snd]; by eexists (_ :: mid), _|].
    unfold hand_over in Hr. destruct (Uefi.exit_boot_services _ _ _ _) as [[mp x]|x] eqn:Ex; [|injection Hr as <-; cbn [fst snd]; by eexists (_ :: mid), _].
    destruct (EFI_ERROR x) eqn:Eerr; injection Hr as <-; cbn [fst snd].
    + exists (CallLoad ld (kernel e) :: mid ++ [ExitServices x]), (cs "ExitBootServices failed"). cbn [app]. by rewrite <- app_assoc.
    + exists ld, mid, x, mp. split_and!; try done. by exists c.
Qed.
End Inversion.


(** [C13] Every boot is counted before it is tried: a run that gets past the menu has first
    stored the selection and its incremented counter, and ends with exactly these two
    variables changed, whether the entry boots or not; until the menu returns none is
    changed.  Whenever control goes back to the firmware with a status a message was shown
    last. *)
Theorem uefi_main_counts `{NvStore} (fw : Firmware) (arch : Elf.arch) (sl si : Z) (junk key0 : Z -> list Z)
    (st1 : Z -> Luks1.scratch) (st2 : Z -> Luks2.scratch2) (s s' : nv) (menu_keys : list Z) (keys : Z -> list Z) (m : mem) (o : outcome) (ev : list event)
    (Hrun : uefi_main fw arch sl si junk key0 st1 st2 s menu_keys keys m = Some (o, s', ev)) :
  exists started t, forallb before_menu started = true /\
    ((o = AtMenu /\ s' = s /\ ev = started ++ [Show t]) \/
     (o <> AtMenu /\ exists st sel e post, table fw = Some st /\ entry_at (Scan.cfg st) sel = Some e /\ s' = record_boot s sel /\
        ev = started ++ [Show t; SaveLast (u32 sel); CountBoot (u32 sel); Message (name e)] ++ post /\
        forall x, o = Returned x -> exists pre msg, post = pre ++ [Error msg])).
Proof.
  apply uefi_main_inv in Hrun as (st & r & t & started & Ht & Hm & Hst & Hr). exists started, t. split; [done|].
  destruct r as [sel|x]; [right|by left]. destruct Hr as (b & Hb & -> & -> & ->). apply boot_selected_inv in Hb as (e & He & post & Hp & Hb).
  split; [by destruct (fst b)|]. exists st, sel, e, post. rewrite Hp. split_and!; try done. intros x Hx. by rewrite Hx in Hb.
Qed.

(** The partition an entry was found on. *)
Definition partition_of (c : option Scan.FsCtx) : option Z :=
  match c with Some (Scan.CtxExt4 vol) => Ext4.ext4_get_part_handle (Some vol) | _ => None end.

(** [C3] A kernel is entered only in order: the entry was chosen in the menu from the table
    found on the disks and is of the type the ViOS loader handles; the file its path
    names, read from the file system the entry was found on (the boot volume for entries
    without one) is an ELF file for this machine, entered at its entry point with its
    segments loaded; the boot was counted before; and ending the boot services was the
    last thing done and succeeded, with the memory map the kernel is told of. *)
Theorem uefi_main_enters `{NvStore} (fw : Firmware) (arch : Elf.arch) (sl si : Z) (junk key0 : Z -> list Z)
    (st1 : Z -> Luks1.scratch) (st2 : Z -> Luks2.scratch2) (s s' : nv) (menu_keys : list Z) (keys : Z -> list Z) (m m' : mem) (ep : Z) (info : BootInfo) (ev : list event)
    (Hrun : uefi_main fw arch sl si junk key0 st1 st2 s menu_keys keys m = Some (InKernel ep info m', s', ev)) :
  exists st sel t e F, table fw = Some st /\ Menu.menu_run (menu_ops fw) (restore_default s (Scan.cfg st)) menu_keys = Some (Menu.Return sel, t) /\
    entry_at (Scan.cfg st) sel = Some e /\ type e = OS_TYPE_ELF64 /\
    (let ctx := Scan.ctxs st !! sel in
     read_file fw (partition_of ctx) (default (Scan.CtxFat (default 0 (snd <$> boot_volume fw)) 0) ctx) (kernel e) = Some (Some F)) /\
    (let m1 := write m (fw_kernel_at fw) (F ++ [0]) in
     Elf.elf64_valid arch m1 (fw_kernel_at fw) (zlen F) = true /\ Elf.elf64_load arch m1 (fw_kernel_at fw) (zlen F) = Some (ep, m')) /\
    s' = record_boot s sel /\ bi_cmdline info = take 255 (cmdline e) /\
    exists pre k mp, ev = pre ++ [ExitServices k] /\ CountBoot (u32 sel) ∈ pre /\ EFI_ERROR k = false /\ bi_map info = Some mp /\
      Uefi.exit_boot_services (fw_map_before fw) (fw_map_alloc fw) (fw_map_after fw) (fw_ExitBootServices fw) = inl (mp, k).
Proof.
  apply uefi_main_inv in Hrun as (st & r & t & started & Ht & Hm & Hst & Hr). destruct r as [sel|x]; [|by destruct Hr].
  destruct Hr as (b & Hb & Ho & -> & ->). apply boot_selected_inv in Hb as (e & He & post & Hp & Hb). rewrite <- Ho in Hb.
  destruct Hb as (l & mid & k & mp & Hf & Hpost & Hk & Hep & Hex & Hinfo & c & Hl & Hload).
  unfold Uefi.boot_entry in Hl. case_bool_decide; [done|]. rewrite (unlock_skipped fw _ _ _ _ _ _ _ _ st sel e _ Ht He) in Hl.
  cbn [mbind option_bind] in Hl. rewrite Hf in Hl. destruct (negb _); [done|].
  assert (c = default (Scan.CtxFat (default 0 (snd <$> boot_volume fw)) 0) (Scan.ctxs st !! sel)) as Hc.
  { clear -Hl. destruct (default (Scan.CtxFat _ 0) (Scan.ctxs st !! sel)) as [[|p|p] h|v]; by injection Hl. }
  fold (partition_of (Scan.ctxs st !! sel)) in Hload.
  destruct l; unfold load in Hload.
  - apply bind_Some in Hload as (kb & Hkb & Hload). apply bind_Some in Hload as ([[ep1 reqs] m1] & Hv & [= -> -> _]).
    unfold Elf.vios_load in Hv. destruct kb as [F|]; cbn [mbind option_bind] in Hv; [|by injection Hv as <-].
    destruct (zlen F =? 0) eqn:E0; [by injection Hv as <-|]. apply bind_Some in Hv as ([ep2 m2] & Hv & [= <- _ <-]).
    exists st, sel, t, e, F. cbn zeta. rewrite <- Hc. split_and!; try done.
    + apply find_some in Hf as [_ Hf]. by apply bool_decide_eq_true in Hf.
    + unfold Elf.elf64_load in Hv. destruct (Elf.elf64_valid _ _ _ _); [done|]. cbn [negb] in Hv. injection Hv as <- _. done.
    + by rewrite Hinfo.
    + exists (started ++ [Show t; SaveLast (u32 sel); CountBoot (u32 sel)] ++ Message (name e) :: CallLoad Uefi.vios_loader (kernel e) :: mid), k, mp.
      rewrite Hp, Hpost, Hinfo. split_and!; try done.
      * by rewrite <- !app_assoc.
      * set_solver.
  - apply bind_Some in Hload as (kb & _ & Hload). destruct (kb ≫= _) as [i|]; [destruct (_ && _)|]; (discriminate || by injection Hload as <- _ _).
  - destruct (last _) as [[| |i]|]; [| |destruct (fw_takes_over fw i)|]; (discriminate || by injection Hload as <- _ _).
Qed.

(** *** A boot nobody attends *)

Lemma restore_default_keeps `{NvStore} s cf : timeout (restore_default s cf) = timeout cf /\ entries (restore_default s cf) = entries cf.
Proof.
  unfold restore_default, set_default. destruct (efivar_load_last_entry s) as [l|]; [destruct (_ <? _)|];
    destruct (_ && _); done.
Qed.

Lemma load_file m a F : Mem.load (write m a (F ++ [0])) a (zlen F) = F.
Proof.
  pose proof (load_write m a (F ++ [0]) (zlen F + 1) ltac:(rewrite length_app; cbn; lia)) as H.
  rewrite load_app in H by lia. apply app_inj_1 in H as [H _]; [done|]. pose proof (load_length (write m a (F ++ [0])) a (zlen F)). lia.
Qed.

Lemma load_vios (fw : Firmware) (arch : Elf.arch) (e : BootEntry) (h : option Z) (c : Scan.FsCtx) (m : mem) (F : list Z) :
  read_file fw h c (kernel e) = Some (Some F) -> bytes F -> 0 <= fw_kernel_at fw /\ fw_kernel_at fw + zlen F < 2 ^ 64 ->
  Elf.header_ok arch F = true -> (forall i, 0 <= i < Elf.field F 56 2 -> Elf.segment_ok F (fw_kernel_at fw) i) ->
  exists m' ev, load fw arch Uefi.vios_loader e h c m = Some (Entry (Elf.field F 24 8) m', ev) /\
    m' ≡ foldl (Elf.place F) (write m (fw_kernel_at fw) (F ++ [0])) (map (Elf.segment_of F) (seqZ 0 (Elf.field F 56 2))).
Proof.
  intros Hr HF Hat Hh Hs. unfold load. rewrite Hr. cbn [mbind option_bind]. unfold Elf.vios_load. cbn [mbind option_bind].
  assert (zlen F <> 0) as Hz by (unfold Elf.header_ok in Hh; destruct (Z.leb_spec 64 (zlen F)); [lia|done]).
  rewrite (proj2 (Z.eqb_neq _ _) Hz).
  destruct (Elf.elf64_load_accepts arch (write m (fw_kernel_at fw) (F ++ [0])) (fw_kernel_at fw) F HF (load_file m _ F) Hat Hh Hs) as (m' & -> & Hm').
  cbn [mbind option_bind fst snd]. by eexists m', _.
Qed.

(** [C1] Left alone the loader boots.  With nobody at the keyboard, a default entry (the last
    one selected, or entry 0 once that has failed three times) of ELF type whose file can
    be read and is an executable for this machine with its segments in the file and away
    from where it was read to, and a firmware that lets go, the run ends inside that
    kernel: after exactly the timeout's seconds, at the entry point of its header, with
    memory the file's segments placed in order, and with the boot counted. *)
Theorem unattended_boot `{NvStore} (fw : Firmware) (arch : Elf.arch) (sl si : Z) (junk key0 : Z -> list Z)
    (st1 : Z -> Luks1.scratch) (st2 : Z -> Luks2.scratch2) (s : nv) (rest : list Z) (keys : Z -> list Z) (m : mem)
    (st : Scan.state) (e : BootEntry) (F : list Z) (c : Scan.FsCtx) (mp : Uefi.MemMap) (k : Z)
    (Ht : table fw = Some st) (Htime : 0 < timeout (Scan.cfg st) < 2 ^ 31)
    (He : entry_at (Scan.cfg st) (default_entry (restore_default s (Scan.cfg st))) = Some e) (Hty : type e = OS_TYPE_ELF64)
    (Hctx : Scan.ctxs st !! default_entry (restore_default s (Scan.cfg st)) = Some c) (Hc : forall h, c <> Scan.CtxFat 0 h)
    (Hread : read_file fw (partition_of (Some c)) c (kernel e) = Some (Some F)) (HF : bytes F)
    (Hat : 0 <= fw_kernel_at fw /\ fw_kernel_at fw + zlen F < 2 ^ 64) (Hhead : Elf.header_ok arch F = true)
    (Hsegs : forall i, 0 <= i < Elf.field F 56 2 -> Elf.segment_ok F (fw_kernel_at fw) i) (Hep : Elf.field F 24 8 <> 0)
    (Halloc : fw_alloc fw si = true)
    (Hexit : Uefi.exit_boot_services (fw_map_before fw) (fw_map_alloc fw) (fw_map_after fw) (fw_ExitBootServices fw) = inl (mp, k))
    (Hk : EFI_ERROR k = false) :
  let d := default_entry (restore_default s (Scan.cfg st)) in
  exists info m' ev,
    uefi_main fw arch sl si junk key0 st1 st2 s (repeat (-1) (Z.to_nat (timeout (Scan.cfg st))) ++ rest) keys m =
      Some (InKernel (Elf.field F 24 8) info m', record_boot s d, ev) /\
    m' ≡ foldl (Elf.place F) (write m (fw_kernel_at fw) (F ++ [0])) (map (Elf.segment_of F) (seqZ 0 (Elf.field F 56 2))).
Proof.
  cbn zeta. set (cf := restore_default s (Scan.cfg st)) in *. destruct (restore_default_keeps s (Scan.cfg st)) as [Etime Eent]. fold cf in Etime, Eent.
  pose proof (entry_at_Some _ _ _ He) as [Hd _]. assert (num_entries cf = num_entries (Scan.cfg st)) as En by (unfold num_entries; by rewrite Eent).
  pose proof (discover_pos _ _ _ _ _ _ _ _ _ _ _ _ Ht) as [Hpos Hmax].
  destruct (load_vios fw arch e (partition_of (Some c)) c m F Hread HF Hat Hhead Hsegs) as (m' & mid & Hload & Hm').
  unfold uefi_main. rewrite Ht. cbn [mbind option_bind]. rewrite (proj2 (Z.eqb_neq _ _)) by lia. fold cf. rewrite <- Etime.
  destruct (Menu.menu_run_ticks (menu_ops fw) cf rest) as [t ->]; [lia|unfold MAX_ENTRIES in Hmax; lia|lia|]. cbn [mbind option_bind fst].
  unfold boot_selected. rewrite He. cbn [mbind option_bind]. unfold Uefi.boot_entry.
  rewrite bool_decide_false by (rewrite Hty; done). rewrite (unlock_skipped fw _ _ _ _ _ _ _ _ st _ e _ Ht He). rewrite Hctx.
  cbn [mbind option_bind default from_option id]. fold (partition_of (Some c)).
  assert (Uefi.find_loader e = Some Uefi.vios_loader) as ->.
  { unfold Uefi.find_loader, Uefi.loader_registry. cbn [find]. unfold Uefi.can_load, Elf.vios_can_load. by rewrite bool_decide_true. }
  rewrite Halloc. cbn [negb].
  assert (match c with Scan.CtxFat 0 _ => Some Uefi.NoContext | _ => Some (Uefi.Load Uefi.vios_loader (take 255 (cmdline e)) c) end =
    Some (Uefi.Load Uefi.vios_loader (take 255 (cmdline e)) c)) as -> by (destruct c as [[|p|p] h|v]; [by destruct (Hc h)|done..]).
  cbn [mbind option_bind]. rewrite Hload. cbn [mbind option_bind fst snd]. rewrite (proj2 (Z.eqb_neq _ _) Hep).
  unfold hand_over. rewrite Hexit, Hk. cbn [mbind option_bind fst snd]. do 3 eexists. split; [reflexivity|exact Hm'].
Qed.

(** ** A machine with one volume *)

Definition demo_cfg : list Z :=
  lines [cs "timeout = 3"; cs "[entry:Demo]"; cs "type = elf64"; cs "kernel = /kernel.elf"; cs "cmdline = quiet"; []] [10].

Definition demo_files (cfg_text : list Z) (root : Z) (p : list Z) : option EfiFile :=
  if negb (root =? 101) then None
  else if bool_decide (p = wpath (cs "/sakuru.cfg")) then Some (Scan.file_of cfg_text)
  else if bool_decide (p = wpath (cs "/kernel.elf")) then Some (Scan.file_of Elf.demo_elf)
  else if bool_decide (p = wpath (cs "/EFI/BOOT/BOOTX64.EFI")) then Some (Scan.file_of [77; 90])
  else None.

Definition demo_fw (cfg_text : list Z) : Firmware :=
  {| fw_device := Some 1; fw_handles := Some [1; 2; 3]; fw_polls := fun i => if (i <? 2)%nat then None else Some [1]; fw_sfs := Some [1]; fw_sfs2 := Some [1];
     fw_blocks := None; fw_has_sfs := fun h => h =? 1; fw_OpenVolume := fun h => Some (100 + h); fw_Open := demo_files cfg_text;
     fw_Entries := fun _ _ => []; fw_le_dir := fun _ => None; fw_le_read := fun _ _ => None; fw_dev := Scan.demo_dev;
     fw_alloc := fun _ => true; fw_kernel_at := 4096; fw_pool := fun _ => []; fw_heap := []; fw_stack := zero_entry;
     fw_LoadImage := fun _ _ _ => None; fw_has_li := fun _ => false; fw_takes_over := fun _ => false; fw_device_path := fun _ => None;
     fw_sections := []; fw_vars := []; fw_get_var := fun _ => None; fw_set_next := fun _ => false; fw_mode := Some (100, 31);
     fw_gops := None; fw_tables := [((0, 0, 0), 5); (Uefi.ACPI_20_TABLE_GUID, 0xE0000)]; fw_map_before := (4800, 48);
     fw_map_alloc := fun _ => inl 0x300000; fw_map_after := fun _ => inl (4848, 77, 48, 1); fw_ExitBootServices := fun key => if key =? 77 then 0 else 2 ^ 63 |}.

#[local] Notation demo_boot cfg_text menu_keys :=
  (@uefi_main (demo_fw cfg_text) Elf.X86_64 600 400 (fun _ => []) (fun _ => []) (fun _ => Uefi.no_scratch) (fun _ => Uefi.no_scratch2)
    BootCount.map_store BootCount.no_vars menu_keys (fun _ => []) (fun _ => 0xAA)).

Lemma demo_table : match table (demo_fw demo_cfg) with Some st => map name (entries (Scan.cfg st)) = [cs "Demo"; cs "UEFI Shell"] /\
    timeout (Scan.cfg st) = 3 /\ Scan.ctxs st !! 0 = Some (Scan.CtxFat 101 1) | None => False end.
Proof. vm_compute. done. Qed.

(** A configuration that sets a default and has no entries: the default is not limited
    by the table the scan fills afterwards, and the entry returned does not exist. *)
Example default_outside_table : demo_boot (cs "default = 9") [-1; -1; -1; -1; -1] = None.
Proof. vm_compute. reflexivity. Qed.

(** Two seconds are not enough, three are. *)
Example demo_waits : (fun r => fst (fst r)) <$> demo_boot demo_cfg [-1; -1] = Some AtMenu.
Proof. vm_compute. reflexivity. Qed.

Lemma demo_segments i : 0 <= i < Elf.field Elf.demo_elf 56 2 -> Elf.segment_ok Elf.demo_elf 4096 i.
Proof. apply Elf.demo_segments_ok. Qed.

(** What the table of the demonstration looks like from outside. *)
Lemma demo_table_facts st : table (demo_fw demo_cfg) = Some st ->
  timeout (Scan.cfg st) = 3 /\ Scan.ctxs st !! 0 = Some (Scan.CtxFat 101 1) /\
  default_entry (@restore_default BootCount.map_store BootCount.no_vars (Scan.cfg st)) = 0 /\
  exists e, entry_at (Scan.cfg st) 0 = Some e /\ type e = OS_TYPE_ELF64 /\ kernel e = cs "/kernel.elf".
Proof.
  intros Ht. assert (match table (demo_fw demo_cfg) with
    | Some st => timeout (Scan.cfg st) = 3 /\ Scan.ctxs st !! 0 = Some (Scan.CtxFat 101 1) /\
        default_entry (@restore_default BootCount.map_store BootCount.no_vars (Scan.cfg st)) = 0 /\
        match entry_at (Scan.cfg st) 0 with Some e => type e = OS_TYPE_ELF64 /\ kernel e = cs "/kernel.elf" | None => False end
    | None => False end) as H by (vm_compute; done).
  rewrite Ht in H. destruct H as (H1 & H2 & H3 & H4). split_and!; [done..|]. destruct (entry_at _ _) as [e|]; [|done]. by exists e.
Qed.

Lemma unattended_boot_witness :
  exists info m' s' ev, demo_boot demo_cfg [-1; -1; -1; 65] = Some (InKernel 0x100000 info m', s', ev) /\
    Mem.load m' 0xFFFFF 12 = [0xAA; 0xDE; 0xAD; 0xBE; 0xEF; 0; 0; 0; 0; 0; 0; 0xAA].
Proof.
  destruct (table (demo_fw demo_cfg)) as [st|] eqn:Ht; [|exfalso; pose proof demo_table as H; rewrite Ht in H; exact H].
  destruct (demo_table_facts st Ht) as (Htime & Hctx & Hd & e & He & Hty & Hke).
  destruct (@unattended_boot BootCount.map_store (demo_fw demo_cfg) Elf.X86_64 600 400 (fun _ => []) (fun _ => []) (fun _ => Uefi.no_scratch)
    (fun _ => Uefi.no_scratch2) BootCount.no_vars [65] (fun _ => []) (fun _ => 0xAA) st e Elf.demo_elf (Scan.CtxFat 101 1)
    {| Uefi.mem_map_addr := 0x300000; Uefi.mem_map_size := 4848; Uefi.mem_map_entry_size := 48; Uefi.mem_map_version := 1 |} 0 Ht)
    as (info & m' & ev & Hrun & Hm').
  - rewrite Htime. split; reflexivity.
  - rewrite Hd. exact He.
  - exact Hty.
  - rewrite Hd. exact Hctx.
  - intros h. discriminate.
  - rewrite Hke. vm_compute. reflexivity.
  - exact Elf.demo_elf_bytes.
  - vm_compute. split; [discriminate|reflexivity].
  - vm_compute. reflexivity.
  - exact demo_segments.
  - vm_compute. discriminate.
  - reflexivity.
  - reflexivity.
  - reflexivity.
  - rewrite Htime in Hrun. exists info, m'. do 2 eexists. split; [exact Hrun|]. rewrite Hm'. vm_compute. reflexivity.
Defined.

Lemma demo_runs : match (demo_boot demo_cfg [-1; 13]) with Some (InKernel _ _ _, _, _) => True | _ => False end.
Proof. vm_compute. exact I. Qed.

Lemma uefi_main_counts_witness :
  exists o s' ev, demo_boot demo_cfg [-1; 13] = Some (o, s', ev) /\
  exists started t, forallb before_menu started = true /\
    ((o = AtMenu /\ s' = BootCount.no_vars /\ ev = started ++ [Show t]) \/
     (o <> AtMenu /\ exists st sel e post, table (demo_fw demo_cfg) = Some st /\ entry_at (Scan.cfg st) sel = Some e /\
        s' = @record_boot BootCount.map_store BootCount.no_vars sel /\
        ev = started ++ [Show t; SaveLast (u32 sel); CountBoot (u32 sel); Message (name e)] ++ post /\
        forall x, o = Returned x -> exists pre msg, post = pre ++ [Error msg])).
Proof.
  destruct (demo_boot demo_cfg [-1; 13]) as [[[o s'] ev]|] eqn:E; [|exfalso; pose proof demo_runs as H; rewrite E in H; exact H].
  exists o, s', ev. split; [reflexivity|].
  exact (@uefi_main_counts BootCount.map_store (demo_fw demo_cfg) Elf.X86_64 600 400 (fun _ => []) (fun _ => []) (fun _ => Uefi.no_scratch)
    (fun _ => Uefi.no_scratch2) BootCount.no_vars s' [-1; 13] (fun _ => []) (fun _ => 0xAA) o ev E).
Defined.

Lemma uefi_main_enters_witness :
  exists ep info m' s' ev, demo_boot demo_cfg [-1; 13] = Some (InKernel ep info m', s', ev) /\
    exists pre k, ev = pre ++ [ExitServices k] /\ EFI_ERROR k = false.
Proof.
  destruct (demo_boot demo_cfg [-1; 13]) as [[[o s'] ev]|] eqn:E; [|exfalso; pose proof demo_runs as H; rewrite E in H; exact H].
  destruct o as [| | | | |ep info m']; try (exfalso; pose proof demo_runs as H; rewrite E in H; exact H).
  exists ep, info, m', s', ev. split; [reflexivity|].
  destruct (@uefi_main_enters BootCount.map_store (demo_fw demo_cfg) Elf.X86_64 600 400 (fun _ => []) (fun _ => []) (fun _ => Uefi.no_scratch)
    (fun _ => Uefi.no_scratch2) BootCount.no_vars s' [-1; 13] (fun _ => []) (fun _ => 0xAA) m' ep info ev E)
    as (st & sel & t & e & F & _ & _ & _ & _ & _ & _ & _ & _ & pre & k & mp & Hev & _ & Hk & _).
  exists pre, k. split; [exact Hev|exact Hk].
Defined.
End Boot.
