(* ===== verification/Bios.v ===== *)
(** * Bios: the second stage of the BIOS edition, [bios/stage2/main.c]

    From the partition table to loading the kernel and the jump.  The disk is the interface
    [BlockDev]; the VGA screen and the keyboard are in [Console].  [None] outside is
    behaviour C leaves undefined. *)

From S2P Require Import Prelude Iface Mem Disk Fat Config Menu Elf Linux Windows Handover Scan Uefi.
Import Mem Config.

Module Bios.

Definition FAT_MAX_PATH : Z := 256.

(** ** The partition table *)

Definition part_type (mbr : list Z) (i : Z) : Z := nthZ mbr (446 + 16 * i + 4).
Definition part_first_lba (mbr : list Z) (i : Z) : Z := le_val (take 4 (drop (Z.to_nat (446 + 16 * i + 8)) mbr)).
Definition is_fat32 (t : Z) : bool := (t =? 0x0B) || (t =? 0x0C).

(** ** Paths *)

(** The string left in an array of [max >= 1] characters. *)
Definition path_join (parent child : list Z) (max : Z) : list Z :=
  let out := take (Z.to_nat (max - 1)) parent in
  let out := if zlen out + 1 <? max then out ++ [chr "/"] else out in
  out ++ take (Z.to_nat (max - 1 - zlen out)) child.

Definition initrd_candidates : list (list Z) := [cs "initrd.img"; cs "initramfs.img"; cs "initrd"; cs "initramfs"].

(** How the second stage ends: halted with a message, at the menu, or in the [boot]
    function of a loader with an entry point and what memory holds. *)
Inductive stage := NoPartition | FatInitFailed | NoEntries | InMenu | NoLoaderFor (e : BootEntry)
  | LoadFailed (e : BootEntry) | Entering (l : Uefi.OSLoader) (ep : Z) (m : mem).

Definition find_loader (e : BootEntry) : option Uefi.OSLoader := find (fun l => Uefi.can_load l e) Uefi.loader_registry.

Section Stage2.
Context `{BlockDev}.
(** What uninitialised memory of the stack holds: the buffers of the FAT driver, and
    the two colours of the configuration. *)
Context (stack : list Z) (theme accent : Z).

(** Where the static buffers of the loaders lie. *)
Context (vios_buf linux_kbuf linux_ibuf : Z).

(** [mbr] is a static array: zeros at first; the status is ignored. *)
Definition find_fat32_partition : option Z :=
  r ← dev_read 0 1 (repeat 0 512);
  Some (match find (fun i => is_fat32 (part_type (snd r) i)) (seqZ 0 4) with Some i => part_first_lba (snd r) i | None => 0 end).

(** ** Discovery *)

(** The first candidate that opens; the handle is closed at once. *)
Fixpoint find_initrd (f : Fat.fat) (dir : list Z) (cands : list (list Z)) : option (list Z * Fat.fat) :=
  match cands with
  | [] => Some ([], f)
  | c :: cands =>
    r ← Fat.fat_open stack f (path_join dir c MAX_STR_LEN);
    match r with
    | (Some h, f) => Some (path_join dir c MAX_STR_LEN, Fat.fat_close f (Some h))
    | (None, f) => find_initrd f dir cands
    end
  end.

(** [scan_cb] on a file. *)
Definition scan_kernel (dir name : list Z) (cf : BootConfig) (f : Fat.fat) : option (BootConfig * Fat.fat) :=
  let type := config_guess_type name in
  if bool_decide (type = OS_TYPE_UNKNOWN) then Some (cf, f)
  else
    r ← (if bool_decide (type = OS_TYPE_LINUX) then find_initrd f dir initrd_candidates else Some ([], f));
    Some (snd (config_add_kernel cf (config_make_name dir name type MAX_STR_LEN) type (path_join dir name MAX_STR_LEN)
                 (if bool_decide (fst r = []) then None else Some (fst r))), snd r).

(** [levels] of subdirectories are still searched. *)
Fixpoint scan_dir (levels : nat) (dir_path : list Z) (cf : BootConfig) (f : Fat.fat) : option (BootConfig * Fat.fat) :=
  let dir := take 255 dir_path in
  r ← Fat.fat_readdir stack (fun name is_dir cf f =>
        if is_dir : bool then
          match levels with
          | O => Some (cf, f)
          | S l => scan_dir l (path_join dir name FAT_MAX_PATH) cf f
          end
        else scan_kernel dir name cf f) f dir_path cf;
  Some (snd (fst r), snd r).

(** ** The loaders of this build *)

(** [mbr] and [vbr] are static arrays of the Windows loader. *)
Definition windows_sectors : option (Z -> list Z) :=
  mbr ← dev_read 0 1 (repeat 0 512);
  let t := Windows.windows_target (snd mbr) in
  vbr ← (if t =? 0 then Some (0, repeat 0 512) else dev_read t 1 (repeat 0 512));
  Some (fun lba => if lba =? 0 then snd mbr else snd vbr).

(** The entry point, 0 on failure, and memory. *)
Definition bios_load (l : Uefi.OSLoader) (f : Fat.fat) (m : mem) (e : BootEntry) : option (Z * mem) :=
  match l with
  | Uefi.vios_loader => r ← Handover.vios_load_bios stack Elf.X86_64 vios_buf f m e; Some (fst r)
  | Uefi.linux_loader => r ← Handover.linux_load_fat stack linux_kbuf linux_ibuf f m e; Some (fst (fst r))
  | Uefi.windows_loader => sector ← windows_sectors; Some (Windows.windows_load_bios sector m)
  end.

(** ** The main function *)

Definition initial : BootConfig :=
  {| timeout := DEFAULT_TIMEOUT; default_entry := 0; theme_color := theme; accent_color := accent; entries := [] |}.

(** [sakuru.cfg], if it opens, up to 4095 bytes. *)
Definition read_config (cf : BootConfig) (f : Fat.fat) : option (BootConfig * Fat.fat) :=
  r ← Fat.fat_open stack f (cs "/sakuru.cfg");
  match r with
  | (None, f) => Some (cf, f)
  | (Some h, f) =>
    d ← Fat.fat_read f (Some h) 4095;
    c ← config_parse (cstr (fst d)) cf;
    Some (snd c, Fat.fat_close (snd d) (Some h))
  end.

(** The table built from the volume. *)
Definition bios_entries (f : Fat.fat) : option (BootConfig * Fat.fat) :=
  r ← read_config initial f;
  scan_dir 1 (cs "/boot") (fst r) (snd r).

Definition stage2_main (ops : Menu.MenuOps) (f : Fat.fat) (keys : list Z) (m : mem) : option stage :=
  lba ← find_fat32_partition;
  if lba =? 0 then Some NoPartition
  else
    i ← Fat.fat_init f lba;
    if fst i <? 0 then Some FatInitFailed
    else
      r ← bios_entries (snd i);
      if num_entries (fst r) =? 0 then Some NoEntries
      else
        t ← Menu.menu_run ops (fst r) keys;
        match fst t with
        | Menu.Again _ => Some InMenu
        | Menu.Return sel =>
          e ← entry_at (fst r) sel;
          match find_loader e with
          | None => Some (NoLoaderFor e)
          | Some l =>
            x ← bios_load l (snd r) m e;
            Some (if fst x =? 0 then LoadFailed e else Entering l (fst x) (snd x))
          end
        end.
End Stage2.

(** ** Enumerations whose callback keeps a property *)

Section Keep.
Context `{BlockDev} (stack : list Z) {T : Type} (cb : list Z -> bool -> T -> Fat.fat -> option (T * Fat.fat)) (R : T -> T -> Prop).
Context (Rrefl : forall x, R x x) (Rtrans : forall x y z, R x y -> R y z -> R x z).
Context (Hcb : forall name d x f x' f', cb name d x f = Some (x', f') -> R x x').

Lemma enum_entries_keep idx s x f x' f' o : Fat.enum_entries cb s x f idx = Some (x', f', o) -> R x x'.
Proof using Rrefl Rtrans Hcb.
  revert s x f. induction idx as [|i idx IH]; intros s x f; cbn [Fat.enum_entries]; [by intros [= <- _ _]|].
  intros Hrun. apply bind_Some in Hrun as (e & _ & Hrun). destruct (nthZ e 0 =? 0); [by injection Hrun as <- _ _|].
  destruct (Fat.skipped e); [by eapply IH|]. destruct (Fat.de_attr e =? Fat.ATTR_LFN); [by eapply IH|].
  destruct (Fat.enum_name s e) as [name s']. destruct (_ && _); [by eapply IH|].
  apply bind_Some in Hrun as ([x1 f1] & H1%Hcb & Hrun). eapply Rtrans; [exact H1|by eapply IH].
Qed.

Lemma enum_loop_keep fuel s x f visited cur x' f' : Fat.enum_loop cb fuel s x f visited cur = Some (x', f') -> R x x'.
Proof using Rrefl Rtrans Hcb.
  revert s x f visited cur. induction fuel as [|n IH]; intros s x f visited cur; cbn [Fat.enum_loop];
    (destruct (Fat.in_chain cur); [|by intros [= <- _]]); [done|]. cbv zeta.
  destruct (_ >? _); [by intros [= <- _]|]. intros Hrun. apply bind_Some in Hrun as (r & _ & Hrun).
  apply bind_Some in Hrun as ([[x1 f1] [s1|]] & H1%enum_entries_keep & Hrun); [|by injection Hrun as <- _].
  apply bind_Some in Hrun as (n1 & _ & Hrun). eapply Rtrans; [exact H1|by eapply IH].
Qed.

Lemma fat_readdir_keep f path x b x' f' : Fat.fat_readdir stack cb f path x = Some (b, x', f') -> R x x'.
Proof using Rrefl Rtrans Hcb.
  intros Hrun. apply bind_Some in Hrun as ([[cl|] f1] & _ & Hrun); [|by injection Hrun as _ <- _].
  apply bind_Some in Hrun as ([x1 f2] & H1%enum_loop_keep & [= _ <- _]). exact H1.
Qed.
End Keep.

(** ** Discovery *)

(** Entries are only added, and the table keeps its size. *)
Definition grown (cf cf' : BootConfig) : Prop :=
  num_entries cf <= MAX_ENTRIES -> exists es, cf' = set_entries cf (entries cf ++ es) /\ num_entries cf' <= MAX_ENTRIES.

Lemma grown_refl cf : grown cf cf.
Proof. intros Hn. exists []. rewrite app_nil_r. split; [by destruct cf|done]. Qed.

Lemma grown_trans a b c : grown a b -> grown b c -> grown a c.
Proof.
  intros Hab Hbc Hn. destruct (Hab Hn) as (es & -> & Hn1). destruct (Hbc Hn1) as (es' & -> & Hn2). exists (es ++ es').
  split; [|done]. by rewrite app_assoc.
Qed.

Section Scanning.
Context `{BlockDev} (stack : list Z).

Lemma scan_kernel_grown dir name cf f cf' f' : scan_kernel stack dir name cf f = Some (cf', f') -> grown cf cf'.
Proof using.
  unfold scan_kernel. case_bool_decide; [intros [= <- _]; apply grown_refl|]. intros Hrun.
  apply bind_Some in Hrun as (r & _ & [= <- _]). intros Hn.
  match goal with |- context [config_add_kernel ?c ?a ?b ?d ?e] => destruct (Scan.config_add_kernel_grow c a b d e Hn) as [E | (x & E & Hlt)]; cbn zeta in E; rewrite E end.
  - by apply grown_refl.
  - exists [x]. split; [done|]. rewrite Scan.num_snoc. lia.
Qed.

Lemma scan_dir_grown levels dir cf f cf' f' : scan_dir stack levels dir cf f = Some (cf', f') -> grown cf cf'.
Proof using.
  revert dir cf f cf' f'. induction levels as [|l IH]; intros dir cf f cf' f' Hrun; cbn [scan_dir] in Hrun;
    apply bind_Some in Hrun as ([[b c1] f1] & H1 & [= <- <-]); cbn [fst snd];
    (eapply fat_readdir_keep; [exact grown_refl|exact grown_trans| |exact H1]); intros name d x g x' g'; cbn beta.
  - destruct d; [intros [= <- _]; apply grown_refl|apply scan_kernel_grown].
  - destruct d; [apply IH|apply scan_kernel_grown].
Qed.
End Scanning.

(** ** Properties *)

(** The table of the BIOS edition: the entries of the configuration file come first
    and unchanged, kernels discovered under [/boot] follow, at most 16 in all; the
    other settings are those the file left. *)
Theorem bios_table `{BlockDev} (stack : list Z) (theme accent : Z) (f f' : Fat.fat) (cf : BootConfig)
    (Hrun : bios_entries stack theme accent f = Some (cf, f')) :
  exists c0 f0 es, read_config stack (initial theme accent) f = Some (c0, f0) /\
    cf = set_entries c0 (entries c0 ++ es) /\ num_entries cf <= MAX_ENTRIES.
Proof.
  apply bind_Some in Hrun as ([c0 f0] & H0 & H1%scan_dir_grown). exists c0, f0. cbn [fst] in H1.
  assert (num_entries c0 <= MAX_ENTRIES) as Hn.
  { unfold read_config in H0. apply bind_Some in H0 as ([[h|] f1] & _ & H0); [|injection H0 as <- _; by vm_compute].
    apply bind_Some in H0 as (d & _ & H0). apply bind_Some in H0 as ([z c] & Hp & [= <- _]). cbn [snd].
    unfold config_parse, do_parse in Hp. apply bind_Some in Hp as (c1 & Hp & [= _ <-]).
    apply Scan.parse_loop_num in Hp; [|by vm_compute]. unfold clamp_default, num_entries in *. by repeat case_match. }
  destruct (H1 Hn) as (es & E & Hn'). by exists es.
Qed.

(** A volume with [/boot] holding a directory and then a kernel. *)
Definition demo_img (kernel_first : bool) (lba : Z) : list Z :=
  let kernel := Fat.mk_dirent (cs "KERNEL  ") (cs "ELF") 0x20 4 700 in
  let sub := Fat.mk_dirent (cs "OLD     ") (cs "   ") 0x10 5 0 in
  if lba =? 1 then Fat.pad512 (flat_map (le_bytes 4) [0x0FFFFFFF; 0x0FFFFFFF; 0x0FFFFFFF; 0x0FFFFFFF; 0x0FFFFFFF; 0x0FFFFFFF])
  else if lba =? 2 then Fat.pad512 Fat.demo_boot
  else if lba =? 3 then Fat.pad512 (if kernel_first then kernel ++ sub else sub ++ kernel)
  else repeat 0 512.

Definition demo_run (kernel_first : bool) : option (list (list Z)) :=
  r ← @bios_entries (disk_dev true (Fat.serve (demo_img kernel_first)) 0x80) (repeat 0 256) 5 14 Fat.demo_fat; Some (map kernel (entries (fst r))).

(** The directory buffer is shared by nested enumerations: once a subdirectory has been
    searched, what follows it in its parent's cluster is read from the wrong directory,
    and a kernel listed behind a subdirectory is not offered. *)
Example subdirectory_hides_kernel : demo_run true = Some [cs "/boot/KERNEL.ELF"] /\ demo_run false = Some [].
Proof. vm_compute. done. Qed.

Lemma demo_completes :
  match @bios_entries (disk_dev true (Fat.serve (demo_img true)) 0x80) (repeat 0 256) 5 14 Fat.demo_fat with Some _ => true | None => false end = true.
Proof. vm_compute. reflexivity. Qed.

Lemma bios_table_witness :
  exists cf f', @bios_entries (disk_dev true (Fat.serve (demo_img true)) 0x80) (repeat 0 256) 5 14 Fat.demo_fat = Some (cf, f') /\ num_entries cf <= MAX_ENTRIES.
Proof.
  destruct (@bios_entries (disk_dev true (Fat.serve (demo_img true)) 0x80) (repeat 0 256) 5 14 Fat.demo_fat) as [[cf f']|] eqn:E;
    [|exfalso; pose proof demo_completes as Hd; rewrite E in Hd; discriminate].
  exists cf, f'. split; [reflexivity|].
  destruct (@bios_table (disk_dev true (Fat.serve (demo_img true)) 0x80) (repeat 0 256) 5 14 Fat.demo_fat f' cf E) as (c0 & f0 & es & _ & _ & Hn). exact Hn.
Defined.

(** The first partition of a FAT32 type in the four slots, 0 without one. *)
Definition first_fat32 (mbr : list Z) : Z :=
  match find (fun i => is_fat32 (part_type mbr i)) (seqZ 0 4) with Some i => part_first_lba mbr i | None => 0 end.

(** [C40] The second stage never gets as far as a menu.  In the long-mode build, whose disk
    routine reads nothing, every disk appears to have no FAT32 partition; in the build
    that reads, a disk without one halts with that message and on every other disk the
    boot sector overruns the parameter block. *)
Theorem stage2_never_reaches_menu (int13 : Z -> DAP -> option (list Z)) (drive : Z) (sector : Z -> list Z) (stack : list Z) (theme accent vios_buf linux_kbuf linux_ibuf : Z)
    (ops : Menu.MenuOps) (f : Fat.fat) (keys : list Z) (m : mem)
    (Hserve : bios_serves int13 drive sector) (Hlen : forall lba, length (sector lba) = 512%nat) (Hbytes : forall lba, bytes (sector lba))
    (Hbpb : Fat.g_bpb f = repeat 0 90) :
  @stage2_main (disk_dev false int13 drive) stack theme accent vios_buf linux_kbuf linux_ibuf ops f keys m = Some NoPartition /\
  @stage2_main (disk_dev true int13 drive) stack theme accent vios_buf linux_kbuf linux_ibuf ops f keys m =
    if first_fat32 (sector 0) =? 0 then Some NoPartition else None.
Proof.
  unfold stage2_main, find_fat32_partition. split; [by vm_compute|].
  pose proof (disk_dev_image true int13 drive sector eq_refl Hserve Hlen Hbytes) as Himg.
  rewrite (@dev_read_image sector (disk_dev true int13 drive) Himg 0 1 (repeat 0 512)) by (rewrite ?repeat_length; lia).
  change (seqZ 0 1) with [0]. cbn [flat_map mbind option_bind snd]. rewrite drop_ge by (rewrite repeat_length; lia). rewrite !app_nil_r.
  fold (first_fat32 (sector 0)). destruct (first_fat32 (sector 0) =? 0); [done|].
  destruct (Fat.fat_init_stuck int13 drive sector f (first_fat32 (sector 0)) Hserve Hlen Hbpb) as [-> _]. done.
Qed.

Lemma stage2_never_reaches_menu_witness :
  @stage2_main (disk_dev false (Fat.serve (demo_img true)) 0x80) [] 5 14 0 0 0 Menu.demo_ops (Fat.set_bpb Fat.demo_fat (repeat 0 90) 0) [] (fun _ => 0) = Some NoPartition.
Proof.
  apply (stage2_never_reaches_menu (Fat.serve (demo_img true)) 0x80 (demo_img true) [] 5 14 0 0 0 Menu.demo_ops (Fat.set_bpb Fat.demo_fat (repeat 0 90) 0) [] (fun _ => 0)).
  - apply Fat.bios_serve.
  - intros lba. unfold demo_img. repeat case_match; apply Fat.pad512_length || apply repeat_length.
  - intros lba. unfold demo_img. repeat case_match; (apply Fat.pad512_bytes; by apply (bool_decide_unpack _)) || apply zeros_bytes.
  - reflexivity.
Defined.

End Bios.
