(* ===== verification/Structs.v ===== *)
(** * Structs: the structures on disk and in boot protocols, as the sources declare them

    Each packed structure of the sources as a layout, and the proof that the models
    read and write, with the offsets written out in them, exactly the members of
    these names: the parameter block and directory entries of [Fat], the partition
    tables of [Bios] and [Windows], the ELF headers of [Elf], the LUKS1 header, the
    setup header of [Linux], the directory records of [LoaderEntry]. *)

From S2P Require Import Prelude Layout Mem Fat Luks1 Elf Linux Windows Bios.
Import Layout Mem.

Module Structs.

(** ** Declarations *)

Definition FAT32_BPB : ctype := Rec true
  [("jmp", Arr c8 3); ("oem", Arr c8 8); ("bytes_per_sector", c16); ("sectors_per_cluster", c8); ("reserved_sectors", c16);
   ("num_fats", c8); ("root_entry_count", c16); ("total_sectors16", c16); ("media_type", c8); ("fat_size16", c16);
   ("sectors_per_track", c16); ("num_heads", c16); ("hidden_sectors", c32); ("total_sectors32", c32);
   ("fat_size32", c32); ("ext_flags", c16); ("fs_version", c16); ("root_cluster", c32); ("fs_info", c16); ("backup_boot", c16);
   ("reserved", Arr c8 12); ("drive_num", c8); ("reserved1", c8); ("boot_sig", c8); ("vol_id", c32); ("vol_label", Arr c8 11);
   ("fs_type", Arr c8 8)]%string.

Definition FAT32_DirEntry : ctype := Rec true
  [("name", Arr c8 8); ("ext", Arr c8 3); ("attr", c8); ("nt_res", c8); ("crt_time_tenth", c8); ("crt_time", c16); ("crt_date", c16);
   ("acc_date", c16); ("first_cluster_hi", c16); ("wrt_time", c16); ("wrt_date", c16); ("first_cluster_lo", c16); ("file_size", c32)]%string.

Definition FAT32_LFN : ctype := Rec true
  [("ord", c8); ("name1", Arr c16 5); ("attr", c8); ("type", c8); ("chksum", c8); ("name2", Arr c16 6); ("first_cluster", c16);
   ("name3", Arr c16 2)]%string.

Definition MBRPartEntry : ctype := Rec true
  [("status", c8); ("first_chs", Arr c8 3); ("type", c8); ("last_chs", Arr c8 3); ("first_lba", c32); ("num_sectors", c32)]%string.

Definition WinMBRPart : ctype := Rec true
  [("status", c8); ("first_chs", Arr c8 3); ("type", c8); ("last_chs", Arr c8 3); ("first_lba", c32); ("num_sectors", c32)]%string.

Definition DAP : ctype := Rec true
  [("size", c8); ("reserved", c8); ("sectors", c16); ("offset", c16); ("segment", c16); ("lba", c64)]%string.

Definition Elf64_Ehdr : ctype := Rec true
  [("e_ident", Arr c8 16); ("e_type", c16); ("e_machine", c16); ("e_version", c32); ("e_entry", c64); ("e_phoff", c64);
   ("e_shoff", c64); ("e_flags", c32); ("e_ehsize", c16); ("e_phentsize", c16); ("e_phnum", c16); ("e_shentsize", c16);
   ("e_shnum", c16); ("e_shstrndx", c16)]%string.

Definition Elf64_Phdr : ctype := Rec true
  [("p_type", c32); ("p_flags", c32); ("p_offset", c64); ("p_vaddr", c64); ("p_paddr", c64); ("p_filesz", c64); ("p_memsz", c64);
   ("p_align", c64)]%string.

Definition LinuxSetupHeader : ctype := Rec true
  [("setup_sects", c8); ("root_flags", c16); ("syssize", c32); ("ram_size", c16); ("vid_mode", c16); ("root_dev", c16);
   ("boot_flag", c16); ("jump", c16); ("header", c32); ("version", c16); ("realmode_swtch", c32); ("start_sys_seg", c16);
   ("kernel_version", c16); ("type_of_loader", c8); ("loadflags", c8); ("setup_move_size", c16); ("code32_start", c32);
   ("ramdisk_image", c32); ("ramdisk_size", c32); ("bootsect_kludge", c32); ("heap_end_ptr", c16); ("ext_loader_ver", c8);
   ("ext_loader_type", c8); ("cmd_line_ptr", c32); ("initrd_addr_max", c32); ("kernel_alignment", c32); ("relocatable_kernel", c8);
   ("min_alignment", c8); ("xloadflags", c16); ("cmdline_size", c32); ("hardware_subarch", c32); ("hardware_subarch_data", c64);
   ("payload_offset", c32); ("payload_length", c32); ("setup_data", c64); ("pref_address", c64); ("init_size", c32);
   ("handover_offset", c32)]%string.

Definition Luks1KeySlot : ctype := Rec true
  [("active", c32); ("iterations", c32); ("salt", Arr c8 32); ("key_material_offset", c32); ("stripes", c32)]%string.

Definition Luks1Header : ctype := Rec true
  [("magic", Arr c8 6); ("version", c16); ("cipher_name", Arr c8 32); ("cipher_mode", Arr c8 32); ("hash_spec", Arr c8 32);
   ("payload_offset", c32); ("key_bytes", c32); ("mk_digest", Arr c8 20); ("mk_digest_salt", Arr c8 32); ("mk_digest_iter", c32);
   ("uuid", Arr c8 40); ("key_slots", Arr Luks1KeySlot 8)]%string.

(** The one of [loader_entry.c]; the name follows it. *)
Definition FileInfoHdr : ctype := Rec false
  [("Size", c64); ("FileSize", c64); ("PhysicalSize", c64); ("Times", Arr c8 48); ("Attribute", c64)]%string.

(** Sizes the formats prescribe. *)
Example struct_sizes :
  map sizeof [FAT32_BPB; FAT32_DirEntry; FAT32_LFN; MBRPartEntry; WinMBRPart; DAP; Elf64_Ehdr; Elf64_Phdr; Luks1KeySlot; Luks1Header; FileInfoHdr] =
  [90; 32; 32; 16; 16; 16; 64; 56; 48; 592; 80].
Proof. reflexivity. Qed.

(** ** Reading members *)

Lemma get_int_at t p o t' b : wf t = true -> locate t p = Some (o, t') -> sizeof t <= zlen b ->
  get_int t p b = Some (le_val (take (Z.to_nat (sizeof t')) (drop (Z.to_nat o) b))).
Proof. intros Hw Hl Hb. unfold get_int. by rewrite (get_is_Some t p o t' b). Qed.

Lemma le_val_1 b o : le_val (take 1 (drop o b)) = nthZ b (Z.of_nat o).
Proof.
  unfold nthZ. rewrite Nat2Z.id. destruct (drop o b) as [|x r] eqn:E.
  - rewrite nth_overflow; [done|]. apply (f_equal length) in E. rewrite length_drop in E. cbn in E. lia.
  - assert (b !! o = Some x) as Hx by (by rewrite <- (Nat.add_0_r o), <- lookup_drop, E).
    rewrite (nth_lookup_Some _ _ _ _ Hx). cbn. by rewrite Z.shiftl_0_l.
Qed.

(** A member's value from the layout: where it is and how long are computed. *)
Ltac member := erewrite get_int_at by (reflexivity || eassumption); cbn -[le_val take drop nthZ]; rewrite ?le_val_1.

(** The models of the FAT driver read the parameter block and the directory entries as
    the structures declare them. *)
Theorem fat_reads_structs (b e : list Z) (Hb : 90 <= zlen b) (He : 32 <= zlen e) :
  get_int FAT32_BPB [Fld "bytes_per_sector"] b = Some (Fat.bytes_per_sector b) /\
  get_int FAT32_BPB [Fld "sectors_per_cluster"] b = Some (Fat.sectors_per_cluster b) /\
  get_int FAT32_BPB [Fld "reserved_sectors"] b = Some (Fat.reserved_sectors b) /\
  get_int FAT32_BPB [Fld "num_fats"] b = Some (Fat.num_fats b) /\
  get_int FAT32_BPB [Fld "total_sectors32"] b = Some (Fat.total_sectors32 b) /\
  get_int FAT32_BPB [Fld "fat_size32"] b = Some (Fat.fat_size32 b) /\
  get_int FAT32_BPB [Fld "root_cluster"] b = Some (Fat.root_cluster b) /\
  get FAT32_DirEntry [Fld "name"] e = Some (Fat.de_name e) /\
  get FAT32_DirEntry [Fld "ext"] e = Some (Fat.de_ext e) /\
  get_int FAT32_DirEntry [Fld "attr"] e = Some (Fat.de_attr e) /\
  get_int FAT32_DirEntry [Fld "file_size"] e = Some (Fat.de_size e) /\
  (exists hi lo, get_int FAT32_DirEntry [Fld "first_cluster_hi"] e = Some hi /\ get_int FAT32_DirEntry [Fld "first_cluster_lo"] e = Some lo /\
     Fat.de_cluster e = (hi << 16) .| lo) /\
  get_int FAT32_LFN [Fld "ord"] e = Some (Fat.lfn_ord e) /\
  get_int FAT32_LFN [Fld "attr"] e = Some (Fat.de_attr e) /\
  map (fun p => get_int FAT32_LFN p e)
    (map (fun i => [Fld "name1"; Idx i]) (seqZ 0 5) ++ map (fun i => [Fld "name2"; Idx i]) (seqZ 0 6) ++ map (fun i => [Fld "name3"; Idx i]) (seqZ 0 2)) =
  map Some (Fat.lfn_units e).
Proof.
  split_and!; try (member; reflexivity).
  - rewrite (get_is_Some FAT32_DirEntry [Fld "name"] 0 (Arr c8 8)) by (reflexivity || done). cbn -[take]. by rewrite drop_0.
  - by rewrite (get_is_Some FAT32_DirEntry [Fld "ext"] 8 (Arr c8 3)) by (reflexivity || done).
  - do 2 eexists. split_and!; [member; reflexivity..|]. reflexivity.
  - cbn [map app seqZ Z.to_nat seq Pos.to_nat Pos.iter_op Nat.add]. unfold Fat.lfn_units. cbn [map].
    repeat (apply (f_equal2 cons); [member; reflexivity|]). reflexivity.
Qed.

(** *** Objects at an address *)

(** The object of type [t] at [a]. *)
Abbreviation object t m a := (Mem.load m a (sizeof t)).

Lemma get_object t p o t' m a : wf t = true -> locate t p = Some (o, t') ->
  get t p (object t m a) = Some (Mem.load m (a + o) (sizeof t')).
Proof.
  intros Hw Hl. destruct (locate_bounds _ _ _ _ Hw Hl) as (Hw' & ? & ?). pose proof (size_align_pos t' Hw') as [? _].
  unfold get. rewrite Hl. cbn [mbind option_bind]. by apply Mem.load_sub.
Qed.

Lemma get_int_object t p o t' m a : wf t = true -> locate t p = Some (o, t') ->
  get_int t p (object t m a) = Some (Elf.rd m (a + o) (sizeof t')).
Proof. intros Hw Hl. unfold get_int. by rewrite (get_object t p o t'). Qed.

Lemma load_take m a n k : 0 <= k <= n -> take (Z.to_nat k) (Mem.load m a n) = Mem.load m a k.
Proof.
  intros Hk. replace n with (k + (n - k)) by lia. rewrite Mem.load_app by lia. apply take_app_length'.
  pose proof (Mem.load_length m a k). lia.
Qed.

Lemma load_drop m a n k : 0 <= k <= n -> drop (Z.to_nat k) (Mem.load m a n) = Mem.load m (a + k) (n - k).
Proof.
  intros Hk. replace n with (k + (n - k)) at 1 by lia. rewrite Mem.load_app by lia. apply drop_app_length'.
  pose proof (Mem.load_length m a k). lia.
Qed.

(** A store to a member's address is a store to the member of the object. *)
Lemma put_object t p o t' m a v : wf t = true -> locate t p = Some (o, t') ->
  put_int t p v (object t m a) = Some (object t (Mem.write m (a + o) (le_bytes (Z.to_nat (sizeof t')) v)) a).
Proof.
  intros Hw Hl. destruct (locate_bounds _ _ _ _ Hw Hl) as (Hw' & ? & ?). pose proof (size_align_pos t' Hw') as [? _].
  set (l := le_bytes _ v). assert (zlen l = sizeof t') as El by (unfold l; rewrite le_bytes_length; lia).
  unfold put_int. rewrite Hl. cbn [mbind option_bind]. rewrite Mem.load_sub by lia. cbn [mbind option_bind]. f_equal.
  rewrite load_take, load_drop by lia. fold l.
  replace (sizeof t) with (o + (sizeof t' + (sizeof t - (o + sizeof t')))) at 2 by lia. rewrite !Mem.load_app by lia.
  f_equal; [|f_equal].
  - apply Mem.load_ext. intros x Hx. symmetry. apply Mem.write_out. lia.
  - symmetry. by apply Mem.load_write.
  - rewrite <- Z.add_assoc. apply Mem.load_ext. intros x Hx. symmetry. apply Mem.write_out. lia.
Qed.

(** *** ELF headers *)

(** The models of the ELF loader read the headers in memory as the structures declare
    them. *)
Theorem elf_reads_structs (m : Mem.mem) (buf ph : Z) :
  get_int Elf64_Ehdr [Fld "e_type"] (object Elf64_Ehdr m buf) = Some (Elf.e_type m buf) /\
  get_int Elf64_Ehdr [Fld "e_machine"] (object Elf64_Ehdr m buf) = Some (Elf.e_machine m buf) /\
  get_int Elf64_Ehdr [Fld "e_entry"] (object Elf64_Ehdr m buf) = Some (Elf.e_entry m buf) /\
  get_int Elf64_Ehdr [Fld "e_phoff"] (object Elf64_Ehdr m buf) = Some (Elf.e_phoff m buf) /\
  get_int Elf64_Ehdr [Fld "e_phentsize"] (object Elf64_Ehdr m buf) = Some (Elf.e_phentsize m buf) /\
  get_int Elf64_Ehdr [Fld "e_phnum"] (object Elf64_Ehdr m buf) = Some (Elf.e_phnum m buf) /\
  get_int Elf64_Ehdr [Fld "e_ident"; Idx 4] (object Elf64_Ehdr m buf) = Some (Elf.rd m (buf + 4) 1) /\
  get_int Elf64_Ehdr [Fld "e_ident"; Idx 5] (object Elf64_Ehdr m buf) = Some (Elf.rd m (buf + 5) 1) /\
  sizeof Elf64_Ehdr = Elf.sizeof_Ehdr /\
  get_int Elf64_Phdr [Fld "p_type"] (object Elf64_Phdr m ph) = Some (Elf.p_type m ph) /\
  get_int Elf64_Phdr [Fld "p_offset"] (object Elf64_Phdr m ph) = Some (Elf.p_offset m ph) /\
  get_int Elf64_Phdr [Fld "p_paddr"] (object Elf64_Phdr m ph) = Some (Elf.p_paddr m ph) /\
  get_int Elf64_Phdr [Fld "p_filesz"] (object Elf64_Phdr m ph) = Some (Elf.p_filesz m ph) /\
  get_int Elf64_Phdr [Fld "p_memsz"] (object Elf64_Phdr m ph) = Some (Elf.p_memsz m ph).
Proof.
  split_and!; try (erewrite get_int_object by reflexivity; reflexivity); [reflexivity|].
  erewrite get_int_object by reflexivity. unfold Elf.p_type. by rewrite Z.add_0_r.
Qed.

(** *** Partition tables *)

Lemma map_nthZ l o n : 0 <= o -> 0 <= n -> o + n <= zlen l ->
  map (nthZ l) (seqZ o n) = take (Z.to_nat n) (drop (Z.to_nat o) l).
Proof.
  intros Ho Hn Hl. apply list_eq. intros i. rewrite list_lookup_fmap. destruct (Nat.lt_ge_cases i (Z.to_nat n)).
  - rewrite lookup_seqZ_lt, lookup_take_lt, lookup_drop by lia. cbn [fmap option_fmap option_map].
    rewrite <- nthZ_lookup by lia. f_equal. lia.
  - rewrite lookup_take_ge by lia. by rewrite lookup_seqZ_ge by lia.
Qed.

(** Both readers of the partition table see entry [i] as the structures declare it. *)
Theorem mbr_reads_structs (mbr : list Z) (i : Z) (Hi : 0 <= i < 4) (Hm : zlen mbr = 512) :
  let e := drop (Z.to_nat (446 + 16 * i)) mbr in
  get_int MBRPartEntry [Fld "type"] e = Some (Bios.part_type mbr i) /\
  get_int MBRPartEntry [Fld "first_lba"] e = Some (Bios.part_first_lba mbr i) /\
  get_int WinMBRPart [Fld "status"] e = Some (Windows.status (Windows.part mbr i)) /\
  get_int WinMBRPart [Fld "type"] e = Some (Windows.ptype (Windows.part mbr i)) /\
  get_int WinMBRPart [Fld "first_lba"] e = Some (Windows.first_lba (Windows.part mbr i)).
Proof.
  cbn zeta. set (e := drop _ mbr). assert (16 <= zlen e) as He by (unfold e; rewrite length_drop; lia).
  assert (forall k, nthZ e (Z.of_nat k) = nthZ mbr (446 + 16 * i + Z.of_nat k)) as Hn.
  { intros k. unfold nthZ, e. rewrite nth_skipn. f_equal. lia. }
  assert (take 4 (drop 8 e) = take 4 (drop (Z.to_nat (446 + 16 * i + 8)) mbr)) as H4.
  { unfold e. rewrite drop_drop. do 2 f_equal. lia. }
  split_and!; member; unfold Bios.part_type, Bios.part_first_lba, Windows.part; cbn [Windows.status Windows.ptype Windows.first_lba].
  - by rewrite Hn.
  - exact (f_equal (fun x => Some (le_val x)) H4).
  - rewrite Hn. do 2 f_equal. lia.
  - rewrite Hn. do 2 f_equal. lia.
  - rewrite map_nthZ by lia. etransitivity; [exact (f_equal (fun x => Some (le_val x)) H4)|]. do 4 f_equal. lia.
Qed.

(** *** The LUKS1 header *)

Definition be_int (t : ctype) (p : list step) (b : list Z) : option Z := be_val <$> get t p b.

Lemma be32r_take b : (4 <= length b)%nat -> Luks1.be32r b = be_val (take 4 b).
Proof. intros H. do 4 (destruct b as [|? b]; [cbn in H; lia|]). unfold Luks1.be32r. rewrite be32_shifts. reflexivity. Qed.

Lemma be16r_take b : (2 <= length b)%nat -> Luks1.be16r b = be_val (take 2 b).
Proof.
  intros H. do 2 (destruct b as [|? b]; [cbn in H; lia|]). reflexivity.
Qed.

(** Where the members of the header and of key slot [i] are. *)
Lemma luks1_locate i : 0 <= i < 8 ->
  locate Luks1Header [Fld "key_slots"; Idx i; Fld "active"] = Some (208 + 48 * i, c32) /\
  locate Luks1Header [Fld "key_slots"; Idx i; Fld "iterations"] = Some (208 + 48 * i + 4, c32) /\
  locate Luks1Header [Fld "key_slots"; Idx i; Fld "salt"] = Some (208 + 48 * i + 8, Arr c8 32) /\
  locate Luks1Header [Fld "key_slots"; Idx i; Fld "key_material_offset"] = Some (208 + 48 * i + 40, c32) /\
  locate Luks1Header [Fld "key_slots"; Idx i; Fld "stripes"] = Some (208 + 48 * i + 44, c32).
Proof.
  intros Hi. assert (i = 0 \/ i = 1 \/ i = 2 \/ i = 3 \/ i = 4 \/ i = 5 \/ i = 6 \/ i = 7) as H by lia.
  destruct H as [->|[->|[->|[->|[->|[->|[->| ->]]]]]]]; repeat split.
Qed.

Lemma be_int_at o b : 0 <= o -> o + 4 <= zlen b -> Luks1.be32r (drop (Z.to_nat o) b) = be_val (take 4 (drop (Z.to_nat o) b)).
Proof. intros. apply be32r_take. rewrite length_drop. lia. Qed.

(** A string that ends in its array is what a scan from the array's start finds. *)
Lemma cstr_take n b : 0 ∈ take n b -> cstr b = cstr (take n b).
Proof.
  revert n. induction b as [|c b IH]; intros n H; [rewrite take_nil in H; by apply elem_of_nil in H|].
  destruct n as [|n]; [by apply elem_of_nil in H|]. cbn [take cstr] in *. destruct (Z.eqb_spec c 0) as [|Hc]; [done|].
  f_equal. apply IH. apply elem_of_cons in H as [|]; [congruence|done].
Qed.

(** [C34] [parse_header] reads the header and its eight key slots as the structures declare
    them, the numbers big-endian. *)
Theorem luks1_reads_structs (b : list Z) (i : nat) (Hb : 592 <= zlen b) (Hi : (i < 8)%nat) :
  let h := Luks1.parse_header b in
  let slot f := [Fld "key_slots"; Idx (Z.of_nat i); Fld f] in
  be_int Luks1Header [Fld "version"] b = Some (Luks1.version h) /\
  (forall f, get Luks1Header [Fld "cipher_mode"] b = Some f -> 0 ∈ f -> Luks1.cipher_mode h = cstr f) /\
  (forall f, get Luks1Header [Fld "hash_spec"] b = Some f -> 0 ∈ f -> Luks1.hash_spec h = cstr f) /\
  be_int Luks1Header [Fld "payload_offset"] b = Some (Luks1.payload_offset h) /\
  be_int Luks1Header [Fld "key_bytes"] b = Some (Luks1.key_bytes h) /\
  get Luks1Header [Fld "mk_digest"] b = Some (Luks1.mk_digest h) /\
  get Luks1Header [Fld "mk_digest_salt"] b = Some (Luks1.mk_digest_salt h) /\
  be_int Luks1Header [Fld "mk_digest_iter"] b = Some (Luks1.mk_digest_iter h) /\
  exists s, Luks1.key_slots h !! i = Some s /\
    be_int Luks1Header (slot "active") b = Some (Luks1.active s) /\
    be_int Luks1Header (slot "iterations") b = Some (Luks1.iterations s) /\
    get Luks1Header (slot "salt") b = Some (Luks1.salt s) /\
    be_int Luks1Header (slot "key_material_offset") b = Some (Luks1.key_material_offset s) /\
    be_int Luks1Header (slot "stripes") b = Some (Luks1.stripes s).
Proof.
  cbn zeta. destruct (luks1_locate (Z.of_nat i) ltac:(lia)) as (La & Li & Ls & Lk & Lt).
  assert (forall p o t', locate Luks1Header p = Some (o, t') -> get Luks1Header p b = Some (take (Z.to_nat (sizeof t')) (drop (Z.to_nat o) b))) as Hg
    by (intros p o t' Hp; apply (get_is_Some Luks1Header p o t'); [reflexivity|exact Hp|exact Hb]).
  assert (forall p o, locate Luks1Header p = Some (o, c32) -> 0 <= o -> o + 4 <= 592 ->
    be_int Luks1Header p b = Some (Luks1.be32r (drop (Z.to_nat o) b))) as H32.
  { intros p o Hp Ho H. unfold be_int. rewrite (Hg p o c32) by done. rewrite be_int_at by lia. reflexivity. }
  split_and!.
  - unfold be_int. rewrite (Hg _ 6 c16) by reflexivity. cbn [Luks1.version Luks1.parse_header].
    rewrite be16r_take by (rewrite length_drop; lia). reflexivity.
  - intros f. rewrite (Hg _ 40 (Arr c8 32)) by reflexivity. intros [= <-] H0. by apply cstr_take.
  - intros f. rewrite (Hg _ 72 (Arr c8 32)) by reflexivity. intros [= <-] H0. by apply cstr_take.
  - by rewrite (H32 _ 104) by (reflexivity || lia).
  - by rewrite (H32 _ 108) by (reflexivity || lia).
  - by rewrite (Hg _ 112 (Arr c8 20)) by reflexivity.
  - by rewrite (Hg _ 132 (Arr c8 32)) by reflexivity.
  - by rewrite (H32 _ 164) by (reflexivity || lia).
  - exists (Luks1.parse_slot b i). split.
    { cbn [Luks1.key_slots Luks1.parse_header]. rewrite list_lookup_fmap, lookup_seq_lt by lia. reflexivity. }
    unfold Luks1.parse_slot. cbn [Luks1.active Luks1.iterations Luks1.salt Luks1.key_material_offset Luks1.stripes].
    assert (forall k, drop k (drop (208 + 48 * i) b) = drop (Z.to_nat (208 + 48 * Z.of_nat i + Z.of_nat k)) b) as Hd
      by (intros k; rewrite drop_drop; f_equal; lia).
    unfold Luks1.field. rewrite (Hd 4%nat), (Hd 8%nat), (Hd 40%nat), (Hd 44%nat).
    rewrite (H32 _ _ La), (H32 _ _ Li), (Hg _ _ _ Ls), (H32 _ _ Lk), (H32 _ _ Lt) by lia.
    split_and!; try done. do 3 f_equal. lia.
Qed.

(** *** The Linux setup header *)

(** The header of the boot parameters at [b]. *)
Abbreviation setup_header m b := (object LinuxSetupHeader m (b + Linux.o_setup_sects)).

(** The offsets of the model are those of the members behind 0x1F1. *)
Lemma setup_locate :
  map (fun f => (fun x => Linux.o_setup_sects + fst x) <$> locate LinuxSetupHeader [Fld f])
    ["setup_sects"; "header"; "type_of_loader"; "loadflags"; "ramdisk_image"; "ramdisk_size"; "heap_end_ptr"; "ext_loader_ver"; "cmd_line_ptr"]%string =
  map Some [Linux.o_setup_sects; Linux.o_header; Linux.o_type_of_loader; Linux.o_loadflags; Linux.o_ramdisk_image; Linux.o_ramdisk_size;
            Linux.o_heap_end_ptr; Linux.o_ext_loader_ver; Linux.o_cmd_line_ptr].
Proof. reflexivity. Qed.

Lemma put_setup f o t m b v : locate LinuxSetupHeader [Fld f] = Some (o, t) ->
  put_int LinuxSetupHeader [Fld f] v (setup_header m b) =
  Some (setup_header (Mem.write m (b + (Linux.o_setup_sects + o)) (le_bytes (Z.to_nat (sizeof t)) v)) b).
Proof. intros Hl. rewrite (put_object LinuxSetupHeader [Fld f] o t) by (reflexivity || done). do 3 f_equal. lia. Qed.

Lemma flag_byte x : is_byte x -> is_byte (x .| 0x80).
Proof.
  intros Hx. assert (forall x, is_byte x -> (0 <=? x .| 0x80) && (x .| 0x80 <? 256) = true) as H by (apply byte_exhaust; by vm_compute).
  specialize (H x Hx). unfold is_byte. lia.
Qed.

Lemma rd_1 m a : Elf.rd m a 1 = m a.
Proof. transitivity (m (a + 0)); [reflexivity|f_equal; lia]. Qed.

Lemma le_bytes_1 v : is_byte v -> le_bytes 1 v = [v].
Proof. intros Hv. cbn [le_bytes]. by rewrite u8_byte. Qed.

(** The stores of [set_header], one member after the other. *)
Lemma set_header_puts m : is_byte (m (Linux.BOOT_PARAMS_ADDR + Linux.o_loadflags)) ->
  exists h1 h2 h3, let h := setup_header m Linux.BOOT_PARAMS_ADDR in
  put_int LinuxSetupHeader [Fld "type_of_loader"] 0xFF h = Some h1 /\
  put_int LinuxSetupHeader [Fld "loadflags"] (m (Linux.BOOT_PARAMS_ADDR + Linux.o_loadflags) .| 0x80) h1 = Some h2 /\
  put_int LinuxSetupHeader [Fld "heap_end_ptr"] 0xFE00 h2 = Some h3 /\
  put_int LinuxSetupHeader [Fld "ext_loader_ver"] 0 h3 = Some (setup_header (Linux.set_header m) Linux.BOOT_PARAMS_ADDR).
Proof.
  intros Hm. set (b := Linux.BOOT_PARAMS_ADDR) in *. do 3 eexists. cbn zeta.
  rewrite (put_setup "type_of_loader" 0x1F c8) by reflexivity. split; [reflexivity|].
  rewrite (put_setup "loadflags" 0x20 c8) by reflexivity. split; [reflexivity|].
  rewrite (put_setup "heap_end_ptr" 0x33 c16) by reflexivity. split; [reflexivity|].
  rewrite (put_setup "ext_loader_ver" 0x35 c8) by reflexivity. do 2 f_equal.
  unfold Linux.set_header. fold b. rewrite rd_1, Mem.write_out by (unfold Linux.o_loadflags, Linux.o_type_of_loader; cbn [length]; lia).
  change (sizeof c8) with 1. change (sizeof c16) with 2. change (Z.to_nat 1) with 1%nat. change (Z.to_nat 2) with 2%nat.
  rewrite (le_bytes_1 (_ .| 0x80)) by by apply flag_byte. reflexivity.
Qed.

(** [C28] [linux_load] fills in the header of the boot parameters: the bytes it stores are the
    members the structure names, the loader's type, the heap flag added to the flags that
    were there, the end of the heap and the loader's version, and every other member is
    left as the kernel's file has it. *)
Theorem set_header_members (m : Mem.mem) (Hm : is_byte (m (Linux.BOOT_PARAMS_ADDR + Linux.o_loadflags))) :
  let h := setup_header m Linux.BOOT_PARAMS_ADDR in
  let h' := setup_header (Linux.set_header m) Linux.BOOT_PARAMS_ADDR in
  exists flags, get_int LinuxSetupHeader [Fld "loadflags"] h = Some flags /\
  (h1 ← put_int LinuxSetupHeader [Fld "type_of_loader"] 0xFF h;
   h2 ← put_int LinuxSetupHeader [Fld "loadflags"] (flags .| 0x80) h1;
   h3 ← put_int LinuxSetupHeader [Fld "heap_end_ptr"] 0xFE00 h2;
   put_int LinuxSetupHeader [Fld "ext_loader_ver"] 0 h3) = Some h' /\
  get_int LinuxSetupHeader [Fld "type_of_loader"] h' = Some 0xFF /\
  get_int LinuxSetupHeader [Fld "loadflags"] h' = Some (flags .| 0x80) /\
  get_int LinuxSetupHeader [Fld "heap_end_ptr"] h' = Some 0xFE00 /\
  get_int LinuxSetupHeader [Fld "ext_loader_ver"] h' = Some 0 /\
  (forall f, f ∉ ["type_of_loader"; "loadflags"; "heap_end_ptr"; "ext_loader_ver"]%string ->
     get LinuxSetupHeader [Fld f] h' = get LinuxSetupHeader [Fld f] h).
Proof.
  cbn zeta. destruct (set_header_puts m Hm) as (h1 & h2 & h3 & P1 & P2 & P3 & P4). cbn zeta in P1.
  set (flags := m _) in *. set (h := setup_header m _) in *. set (h' := setup_header (Linux.set_header m) _) in *.
  exists flags. assert (wf LinuxSetupHeader = true) as Hw by reflexivity.
  split; [unfold h; rewrite (get_int_object LinuxSetupHeader _ 0x20 c8) by reflexivity; exact (f_equal Some (rd_1 m _))|].
  split; [by rewrite P1; cbn [mbind option_bind]; rewrite P2; cbn [mbind option_bind]; rewrite P3|].
  pose proof (fun f Hf => get_put_field _ f _ _ _ _ Hw Hf P1) as O1. pose proof (fun f Hf => get_put_field _ f _ _ _ _ Hw Hf P2) as O2.
  pose proof (fun f Hf => get_put_field _ f _ _ _ _ Hw Hf P3) as O3. pose proof (fun f Hf => get_put_field _ f _ _ _ _ Hw Hf P4) as O4.
  pose proof (get_put_same _ _ _ _ _ 0x1F c8 Hw P1 eq_refl) as G1. pose proof (get_put_same _ _ _ _ _ 0x20 c8 Hw P2 eq_refl) as G2.
  pose proof (get_put_same _ _ _ _ _ 0x33 c16 Hw P3 eq_refl) as G3. pose proof (get_put_same _ _ _ _ _ 0x35 c8 Hw P4 eq_refl) as G4.
  unfold get_int in *. split_and!.
  - by rewrite O4, O3, O2.
  - rewrite O4, O3 by done. rewrite G2. f_equal. apply u8_byte. by apply flag_byte.
  - by rewrite O4.
  - done.
  - intros f Hf. rewrite O4, O3, O2, O1 by set_solver. done.
Qed.

(** ** Instances *)

Lemma fat_reads_structs_witness :
  get_int FAT32_BPB [Fld "root_cluster"] (seqZ 0 90) = Some (Fat.root_cluster (seqZ 0 90)) /\ Fat.root_cluster (seqZ 0 90) = 0x2f2e2d2c.
Proof.
  split; [|reflexivity].
  destruct (fat_reads_structs (seqZ 0 90) (seqZ 0 32)) as (_ & _ & _ & _ & _ & _ & H & _); [by vm_compute|by vm_compute|]. exact H.
Defined.

Lemma mbr_reads_structs_witness :
  get_int WinMBRPart [Fld "first_lba"] (drop 462 (map u8 (seqZ 0 512))) =
    Some (Windows.first_lba (Windows.part (map u8 (seqZ 0 512)) 1)) /\ Windows.first_lba (Windows.part (map u8 (seqZ 0 512)) 1) = 0xd9d8d7d6.
Proof.
  split; [|reflexivity].
  destruct (mbr_reads_structs (map u8 (seqZ 0 512)) 1) as (_ & _ & _ & _ & H); [split; [discriminate|reflexivity]|reflexivity|]. exact H.
Defined.

Lemma luks1_reads_structs_witness :
  exists s, Luks1.key_slots (Luks1.parse_header (map u8 (seqZ 0 592))) !! 3%nat = Some s /\
    be_int Luks1Header [Fld "key_slots"; Idx 3; Fld "stripes"] (map u8 (seqZ 0 592)) = Some (Luks1.stripes s) /\ Luks1.stripes s = 0x8c8d8e8f.
Proof.
  destruct (luks1_reads_structs (map u8 (seqZ 0 592)) 3) as (_ & _ & _ & _ & _ & _ & _ & _ & s & Hs & _ & _ & _ & _ & H);
    [by vm_compute|lia|]. exists s. split; [exact Hs|]. split; [exact H|]. vm_compute in Hs. injection Hs as <-. reflexivity.
Defined.

Lemma set_header_members_witness :
  exists flags, get_int LinuxSetupHeader [Fld "loadflags"] (setup_header (fun _ => 0x21) Linux.BOOT_PARAMS_ADDR) = Some flags /\
    get_int LinuxSetupHeader [Fld "loadflags"] (setup_header (Linux.set_header (fun _ => 0x21)) Linux.BOOT_PARAMS_ADDR) = Some (flags .| 0x80).
Proof.
  destruct (set_header_members (fun _ => 0x21)) as (flags & H1 & _ & _ & H2 & _); [split; [discriminate|reflexivity]|].
  exists flags. split; [exact H1|exact H2].
Defined.

End Structs.
