(* ===== verification/EfiAbi.v ===== *)
(** * EfiAbi: the firmware's interface as [uefi/efi.h] declares it

    The tables and protocols of the header as layouts, its GUIDs, enumerations and
    constants, and the comparison with the UEFI specification: a service is called through
    the slot the firmware put it in only if the declaration puts it there too.  Also the
    partial declarations [luks_vol.c], [serial.c], [loader_entry.c] and [uefi_main] make for
    themselves. *)

From S2P Require Import Prelude Layout Config Boot Structs.
Import Layout.

Module EfiAbi.

(** ** Tables and protocols *)

Definition EFI_GUID : ctype := Rec false
  [("Data1", c32); ("Data2", c16); ("Data3", c16); ("Data4", Arr c8 8)]%string.

Definition EFI_FV2 : ctype := Rec false
  [("GetVolumeAttributes", cptr); ("SetVolumeAttributes", cptr); ("ReadFile", cptr); ("ReadSection", cptr)]%string.

Definition EFI_TABLE_HEADER : ctype := Rec false
  [("Signature", c64); ("Revision", c32); ("HeaderSize", c32); ("CRC32", c32); ("Reserved", c32)]%string.

Definition EFI_SIMPLE_TEXT_OUTPUT_MODE : ctype := Rec false
  [("MaxMode", c32); ("Mode", c32); ("Attribute", c32); ("CursorColumn", c32); ("CursorRow", c32); ("CursorVisible", c8)]%string.

Definition EFI_SIMPLE_TEXT_OUTPUT_PROTOCOL : ctype := Rec false
  [("Reset", cptr); ("OutputString", cptr); ("TestString", cptr); ("QueryMode", cptr); ("SetMode", cptr); ("SetAttribute", cptr);
   ("ClearScreen", cptr); ("SetCursorPosition", cptr); ("EnableCursor", cptr); ("Mode", cptr)]%string.

Definition EFI_INPUT_KEY : ctype := Rec false
  [("ScanCode", c16); ("UnicodeChar", c16)]%string.

Definition EFI_SIMPLE_TEXT_INPUT_PROTOCOL : ctype := Rec false
  [("Reset", cptr); ("ReadKeyStroke", cptr); ("WaitForKey", cptr)]%string.

Definition EFI_MEMORY_DESCRIPTOR : ctype := Rec false
  [("Type", c32); ("PhysicalStart", c64); ("VirtualStart", c64); ("NumberOfPages", c64); ("Attribute", c64)]%string.

Definition EFI_FILE_PROTOCOL : ctype := Rec false
  [("Revision", c64); ("Open", cptr); ("Close", cptr); ("Delete", cptr); ("Read", cptr); ("Write", cptr); ("GetPosition", cptr);
   ("SetPosition", cptr); ("GetInfo", cptr); ("SetInfo", cptr); ("Flush", cptr)]%string.

Definition EFI_FILE_INFO : ctype := Rec false
  [("Size", c64); ("FileSize", c64); ("PhysicalSize", c64); ("CreateTime", Arr c64 2); ("LastAccessTime", Arr c64 2);
   ("ModificationTime", Arr c64 2); ("Attribute", c64); ("FileName", Arr c16 1)]%string.

Definition EFI_BLOCK_IO_MEDIA : ctype := Rec false
  [("MediaId", c32); ("RemovableMedia", c8); ("MediaPresent", c8); ("LogicalPartition", c8); ("ReadOnly", c8); ("WriteCaching", c8);
   ("BlockSize", c32); ("IoAlign", c32); ("LastBlock", c64)]%string.

Definition EFI_BLOCK_IO_PROTOCOL : ctype := Rec false
  [("Revision", c64); ("Media", cptr); ("Reset", cptr); ("ReadBlocks", cptr); ("WriteBlocks", cptr); ("FlushBlocks", cptr)]%string.

Definition EFI_DISK_IO_PROTOCOL : ctype := Rec false
  [("Revision", c64); ("ReadDisk", cptr); ("WriteDisk", cptr)]%string.

Definition EFI_SIMPLE_FILE_SYSTEM_PROTOCOL : ctype := Rec false
  [("Revision", c64); ("OpenVolume", cptr)]%string.

Definition EFI_DEVICE_PATH_PROTOCOL : ctype := Rec false
  [("Type", c8); ("SubType", c8); ("Length", Arr c8 2)]%string.

Definition EFI_LOADED_IMAGE_PROTOCOL : ctype := Rec false
  [("Revision", c32); ("ParentHandle", cptr); ("SystemTable", cptr); ("DeviceHandle", cptr); ("FilePath", cptr); ("Reserved", cptr);
   ("LoadOptionsSize", c32); ("LoadOptions", cptr); ("ImageBase", cptr); ("ImageSize", c64); ("ImageCodeType", cenum);
   ("ImageDataType", cenum); ("Unload", cptr)]%string.

Definition EFI_PIXEL_BITMASK : ctype := Rec false
  [("RedMask", c32); ("GreenMask", c32); ("BlueMask", c32); ("ReservedMask", c32)]%string.

Definition EFI_GRAPHICS_OUTPUT_MODE_INFORMATION : ctype := Rec false
  [("Version", c32); ("HorizontalResolution", c32); ("VerticalResolution", c32); ("PixelFormat", cenum); ("PixelInformation", EFI_PIXEL_BITMASK); ("PixelsPerScanLine", c32)]%string.

Definition EFI_GRAPHICS_OUTPUT_PROTOCOL_MODE : ctype := Rec false
  [("MaxMode", c32); ("Mode", c32); ("Info", cptr); ("SizeOfInfo", c64); ("FrameBufferBase", c64); ("FrameBufferSize", c64)]%string.

Definition EFI_GRAPHICS_OUTPUT_PROTOCOL : ctype := Rec false
  [("QueryMode", cptr); ("SetMode", cptr); ("Blt", cptr); ("Mode", cptr)]%string.

Definition EFI_BOOT_SERVICES : ctype := Rec false
  [("Hdr", EFI_TABLE_HEADER); ("RaiseTPL", cptr); ("RestoreTPL", cptr); ("AllocatePages", cptr); ("FreePages", cptr);
   ("GetMemoryMap", cptr); ("AllocatePool", cptr); ("FreePool", cptr); ("CreateEvent", cptr); ("SetTimer", cptr); ("WaitForEvent", cptr); ("SignalEvent", cptr); ("CloseEvent", cptr); ("CheckEvent", cptr); ("InstallProtocolInterface", cptr);
   ("ReinstallProtocolInterface", cptr); ("UninstallProtocolInterface", cptr); ("HandleProtocol", cptr); ("Reserved", cptr);
   ("RegisterProtocolNotify", cptr); ("LocateHandle", cptr); ("LocateDevicePath", cptr); ("InstallConfigurationTable", cptr);
   ("LoadImage", cptr); ("StartImage", cptr); ("Exit", cptr); ("UnloadImage", cptr); ("ExitBootServices", cptr);
   ("GetNextMonotonicCount", cptr); ("Stall", cptr); ("SetWatchdogTimer", cptr); ("ConnectController", cptr);
   ("DisconnectController", cptr); ("OpenProtocol", cptr); ("CloseProtocol", cptr); ("OpenProtocolInformation", cptr);
   ("ProtocolsPerHandle", cptr); ("LocateHandleBuffer", cptr); ("LocateProtocol", cptr); ("InstallMultipleProtocolInterfaces", cptr);
   ("UninstallMultipleProtocolInterfaces", cptr); ("CalculateCrc32", cptr); ("CopyMem", cptr); ("SetMem", cptr); ("CreateEventEx", cptr)]%string.

Definition EFI_RUNTIME_SERVICES : ctype := Rec false
  [("Hdr", EFI_TABLE_HEADER); ("GetTime", cptr); ("SetTime", cptr); ("GetWakeupTime", cptr); ("SetWakeupTime", cptr);
   ("SetVirtualAddressMap", cptr); ("ConvertPointer", cptr); ("GetVariable", cptr); ("GetNextVariableName", cptr); ("SetVariable", cptr); ("GetNextHighMonotonicCount", cptr); ("ResetSystem", cptr)]%string.

Definition EFI_CONFIGURATION_TABLE : ctype := Rec false
  [("VendorGuid", EFI_GUID); ("VendorTable", cptr)]%string.

Definition EFI_SYSTEM_TABLE : ctype := Rec false
  [("Hdr", EFI_TABLE_HEADER); ("FirmwareVendor", cptr); ("FirmwareRevision", c32); ("ConsoleInHandle", cptr); ("ConIn", cptr);
   ("ConsoleOutHandle", cptr); ("ConOut", cptr); ("StandardErrorHandle", cptr); ("StdErr", cptr); ("RuntimeServices", cptr);
   ("BootServices", cptr); ("NumberOfTableEntries", c64); ("ConfigurationTable", cptr)]%string.

(** ** Declarations made elsewhere *)

(** [luks/luks_vol.c]. *)
Definition EfiBlockIO : ctype := Rec false
  [("Revision", c64); ("Media", cptr); ("Reset", cptr); ("ReadBlocks", cptr); ("WriteBlocks", cptr); ("FlushBlocks", cptr)]%string.
Definition EfiBlockMedia : ctype := Rec false [("MediaId", c32)]%string.

(** [common/serial.c]. *)
Definition EFI_SERIAL_IO : ctype := Rec false
  [("Revision", c32); ("Reset", cptr); ("SetAttributes", cptr); ("SetControl", cptr); ("GetControl", cptr); ("Write", cptr)]%string.

(** The one inside [uefi_main]. *)
Definition EFI_BIO_SIMPLE : ctype := Rec false [("Revision", cptr); ("Media", cptr); ("ReadBlocks", cptr)]%string.

(** ** GUIDs *)

(** [EFI_GUID_INIT]: the four parts of the initialiser. *)
Record GUID := { Data1 : Z; Data2 : Z; Data3 : Z; Data4 : list Z }.

Definition EFI_GUID_INIT (a b c d0 d1 d2 d3 d4 d5 d6 d7 : Z) : GUID :=
  {| Data1 := a; Data2 := b; Data3 := c; Data4 := [d0; d1; d2; d3; d4; d5; d6; d7] |}.

Definition EFI_LOADED_IMAGE_PROTOCOL_GUID := EFI_GUID_INIT 0x5b1b31a1 0x9562 0x11d2 0x8e 0x3f 0x00 0xa0 0xc9 0x69 0x72 0x3b.
Definition EFI_SIMPLE_FILE_SYSTEM_PROTOCOL_GUID := EFI_GUID_INIT 0x964e5b22 0x6459 0x11d2 0x8e 0x39 0x00 0xa0 0xc9 0x69 0x72 0x3b.
Definition EFI_GRAPHICS_OUTPUT_PROTOCOL_GUID := EFI_GUID_INIT 0x9042a9de 0x23dc 0x4a38 0x96 0xfb 0x7a 0xde 0xd0 0x80 0x51 0x6a.
Definition EFI_FIRMWARE_VOLUME2_PROTOCOL_GUID := EFI_GUID_INIT 0x220e73b6 0x6bdb 0x4413 0x84 0x05 0xb9 0x74 0xb1 0x08 0x61 0x9a.
Definition EFI_SERIAL_IO_PROTOCOL_GUID := EFI_GUID_INIT 0xBB25CF6F 0xF1D4 0x11D2 0x9A 0x0C 0x00 0x90 0x27 0x3F 0xC1 0xFD.
Definition EFI_SHELL_APP_GUID := EFI_GUID_INIT 0x7C04A583 0x9E3E 0x4F1C 0xAD 0x65 0xE0 0x52 0x68 0xD0 0xB4 0xD1.
Definition EFI_FILE_INFO_GUID := EFI_GUID_INIT 0x09576e92 0x6d3f 0x11d2 0x8e 0x39 0x00 0xa0 0xc9 0x69 0x72 0x3b.
Definition EFI_BLOCK_IO_PROTOCOL_GUID := EFI_GUID_INIT 0x964e5b21 0x6459 0x11d2 0x8e 0x39 0x00 0xa0 0xc9 0x69 0x72 0x3b.
Definition EFI_DISK_IO_PROTOCOL_GUID := EFI_GUID_INIT 0xce345171 0xba0b 0x11d2 0x8e 0x4f 0x00 0xa0 0xc9 0x69 0x72 0x3b.
Definition EFI_DEVICE_PATH_PROTOCOL_GUID := EFI_GUID_INIT 0x09576e91 0x6d3f 0x11d2 0x8e 0x39 0x00 0xa0 0xc9 0x69 0x72 0x3b.
Definition ACPI_20_TABLE_GUID := EFI_GUID_INIT 0x8868e871 0xe4f1 0x11d3 0xbc 0x22 0x00 0x80 0xc7 0x3c 0x88 0x81.

(** The GUID of Block I/O written out in [uefi_main]. *)
Definition bio_guid : GUID := {| Data1 := 0x964e5b21; Data2 := 0x6459; Data3 := 0x11d2; Data4 := [0x8e; 0x39; 0x00; 0xa0; 0xc9; 0x69; 0x72; 0x3b] |}.

(** A GUID in memory, an object of type [EFI_GUID]. *)
Definition guid_object (g : GUID) : list Z := le_bytes 4 (Data1 g) ++ le_bytes 2 (Data2 g) ++ le_bytes 2 (Data3 g) ++ Data4 g.

(** ** Enumerations and constants *)

Inductive EFI_MEMORY_TYPE := EfiReservedMemoryType | EfiLoaderCode | EfiLoaderData | EfiBootServicesCode | EfiBootServicesData
  | EfiRuntimeServicesCode | EfiRuntimeServicesData | EfiConventionalMemory | EfiUnusableMemory | EfiACPIReclaimMemory
  | EfiACPIMemoryNVS | EfiMemoryMappedIO | EfiMemoryMappedIOPortSpace | EfiPalCode | EfiPersistentMemory | EfiMaxMemoryType.

Inductive EFI_ALLOCATE_TYPE := AllocateAnyPages | AllocateMaxAddress | AllocateAddress | MaxAllocateType.

Inductive EFI_GRAPHICS_PIXEL_FORMAT := PixelRedGreenBlueReserved8BitPerColor | PixelBlueGreenRedReserved8BitPerColor | PixelBitMask
  | PixelBltOnly | PixelFormatMax.

(** Status codes, as arguments of [EFI_ERR]. *)
Definition status_codes : list (string * Z) :=
  [("EFI_LOAD_ERROR", Boot.EFI_ERR 1); ("EFI_INVALID_PARAMETER", Boot.EFI_ERR 2); ("EFI_UNSUPPORTED", Boot.EFI_ERR 3);
   ("EFI_BAD_BUFFER_SIZE", Boot.EFI_ERR 4); ("EFI_BUFFER_TOO_SMALL", Boot.EFI_ERR 5); ("EFI_NOT_READY", Boot.EFI_ERR 6);
   ("EFI_DEVICE_ERROR", Boot.EFI_ERR 7); ("EFI_WRITE_PROTECTED", Boot.EFI_ERR 8); ("EFI_OUT_OF_RESOURCES", Boot.EFI_ERR 9);
   ("EFI_NOT_FOUND", Boot.EFI_ERR 14); ("EFI_ACCESS_DENIED", Boot.EFI_ERR 15); ("EFI_TIMEOUT", Boot.EFI_ERR 18);
   ("EFI_ABORTED", Boot.EFI_ERR 21); ("EFI_SECURITY_VIOLATION", Boot.EFI_ERR 26)]%string.

Definition EFI_FILE_MODE_READ : Z := 1.
Definition EFI_FILE_MODE_WRITE : Z := 2.
Definition EFI_FILE_MODE_CREATE : Z := 0x8000000000000000.

(** Foreground and background colours of the console. *)
Definition foregrounds : list (string * Z) :=
  [("BLACK", 0x00); ("BLUE", 0x01); ("GREEN", 0x02); ("CYAN", 0x03); ("RED", 0x04); ("MAGENTA", 0x05); ("BROWN", 0x06); ("LIGHTGRAY", 0x07);
   ("BRIGHT", 0x08); ("LIGHTBLUE", 0x09); ("LIGHTGREEN", 0x0A); ("LIGHTCYAN", 0x0B); ("LIGHTRED", 0x0C); ("LIGHTMAGENTA", 0x0D);
   ("YELLOW", 0x0E); ("WHITE", 0x0F)]%string.
Definition backgrounds : list (string * Z) :=
  [("BLACK", 0x00); ("BLUE", 0x10); ("GREEN", 0x20); ("CYAN", 0x30); ("RED", 0x40); ("MAGENTA", 0x50); ("BROWN", 0x60); ("LIGHTGRAY", 0x70)]%string.

(** ** The specification *)

(** Where the UEFI specification puts the members the sources use (tables of 64-bit
    firmware; the headers of the tables have 24 bytes). *)
Definition specified : list (ctype * list (string * Z)) :=
  [(EFI_BOOT_SERVICES,
      [("AllocatePages", 0x28); ("FreePages", 0x30); ("GetMemoryMap", 0x38); ("AllocatePool", 0x40); ("FreePool", 0x48);
       ("WaitForEvent", 0x60); ("HandleProtocol", 0x98); ("LoadImage", 0xc8); ("StartImage", 0xd0); ("Exit", 0xd8);
       ("UnloadImage", 0xe0); ("ExitBootServices", 0xe8); ("Stall", 0xf8); ("ConnectController", 0x108);
       ("DisconnectController", 0x110); ("OpenProtocol", 0x118); ("LocateHandleBuffer", 0x138); ("LocateProtocol", 0x140)]%string);
   (EFI_RUNTIME_SERVICES,
      [("GetVariable", 0x48); ("GetNextVariableName", 0x50); ("SetVariable", 0x58); ("ResetSystem", 0x68)]%string);
   (EFI_SYSTEM_TABLE,
      [("ConIn", 0x30); ("ConOut", 0x40); ("StdErr", 0x50); ("RuntimeServices", 0x58); ("BootServices", 0x60);
       ("NumberOfTableEntries", 0x68); ("ConfigurationTable", 0x70)]%string);
   (EFI_CONFIGURATION_TABLE,
      [("VendorGuid", 0x0); ("VendorTable", 0x10)]%string);
   (EFI_SIMPLE_TEXT_OUTPUT_PROTOCOL,
      [("OutputString", 0x8); ("QueryMode", 0x18); ("SetAttribute", 0x28); ("ClearScreen", 0x30); ("SetCursorPosition", 0x38);
       ("EnableCursor", 0x40); ("Mode", 0x48)]%string);
   (EFI_SIMPLE_TEXT_OUTPUT_MODE,
      [("MaxMode", 0x0); ("Mode", 0x4)]%string);
   (EFI_SIMPLE_TEXT_INPUT_PROTOCOL,
      [("ReadKeyStroke", 0x8); ("WaitForKey", 0x10)]%string);
   (EFI_INPUT_KEY,
      [("ScanCode", 0x0); ("UnicodeChar", 0x2)]%string);
   (EFI_FILE_PROTOCOL,
      [("Open", 0x8); ("Close", 0x10); ("Read", 0x20); ("GetPosition", 0x30); ("SetPosition", 0x38); ("GetInfo", 0x40)]%string);
   (EFI_FILE_INFO,
      [("FileSize", 0x8); ("Attribute", 0x48); ("FileName", 0x50)]%string);
   (EFI_SIMPLE_FILE_SYSTEM_PROTOCOL,
      [("OpenVolume", 0x8)]%string);
   (EFI_BLOCK_IO_PROTOCOL,
      [("Media", 0x8); ("ReadBlocks", 0x18)]%string);
   (EFI_BLOCK_IO_MEDIA,
      [("MediaId", 0x0); ("MediaPresent", 0x5); ("LogicalPartition", 0x6); ("BlockSize", 0xc); ("LastBlock", 0x18)]%string);
   (EFI_DISK_IO_PROTOCOL,
      [("ReadDisk", 0x8)]%string);
   (EFI_LOADED_IMAGE_PROTOCOL,
      [("DeviceHandle", 0x18); ("FilePath", 0x20); ("LoadOptionsSize", 0x30); ("LoadOptions", 0x38); ("ImageBase", 0x40);
       ("ImageSize", 0x48)]%string);
   (EFI_GRAPHICS_OUTPUT_PROTOCOL,
      [("QueryMode", 0x0); ("SetMode", 0x8); ("Mode", 0x18)]%string);
   (EFI_GRAPHICS_OUTPUT_PROTOCOL_MODE,
      [("MaxMode", 0x0); ("Mode", 0x4); ("Info", 0x8); ("FrameBufferBase", 0x18); ("FrameBufferSize", 0x20)]%string);
   (EFI_GRAPHICS_OUTPUT_MODE_INFORMATION,
      [("HorizontalResolution", 0x4); ("VerticalResolution", 0x8); ("PixelFormat", 0xc); ("PixelInformation", 0x10);
       ("PixelsPerScanLine", 0x20)]%string);
   (EFI_MEMORY_DESCRIPTOR,
      [("Type", 0x0); ("PhysicalStart", 0x8); ("VirtualStart", 0x10); ("NumberOfPages", 0x18); ("Attribute", 0x20)]%string);
   (EFI_FV2,
      [("ReadSection", 0x18)]%string);
   (EFI_SERIAL_IO,
      [("Write", 0x28)]%string);
   (EfiBlockIO,
      [("Media", 0x8); ("ReadBlocks", 0x18)]%string);
   (EfiBlockMedia,
      [("MediaId", 0x0)]%string);
   (Structs.FileInfoHdr,
      [("FileSize", 0x8); ("Attribute", 0x48)]%string)].


(** The structure [uefi_main] casts Block I/O to calls the slot before: its third member
    lies where the protocol has [Reset].  The pointer is passed on to [luks_open_efi],
    whose structure is right, and never called through. *)
Theorem bio_simple_is_not_block_io :
  offset_of EFI_BIO_SIMPLE "ReadBlocks" = offset_of EFI_BLOCK_IO_PROTOCOL "Reset" /\
  offset_of EFI_BIO_SIMPLE "ReadBlocks" <> offset_of EFI_BLOCK_IO_PROTOCOL "ReadBlocks" /\
  members false [("Revision", c64); ("Media", cptr); ("Reset", cptr); ("ReadBlocks", cptr); ("WriteBlocks", cptr); ("FlushBlocks", cptr)]%string =
    match EFI_BLOCK_IO_PROTOCOL with Rec p fs => members p fs | _ => [] end.
Proof. split_and!; done. Qed.

(** *** GUIDs in their registry form *)

Definition hex_val (c : Z) : Z :=
  if (chr "0" <=? c) && (c <=? chr "9") then c - chr "0" else if (chr "a" <=? c) && (c <=? chr "f") then c - chr "a" + 10 else c - chr "A" + 10.

Fixpoint hex_pairs (s : list Z) : list Z := match s with a :: b :: s => hex_val a * 16 + hex_val b :: hex_pairs s | _ => [] end.

(** The sixteen bytes in memory of a GUID written xxxxxxxx-xxxx-xxxx-xxxx-xxxxxxxxxxxx:
    the first three groups are little-endian numbers. *)
Definition guid_of_text (s : list Z) : list Z :=
  let b := hex_pairs (filter (fun c => c <> chr "-") s) in
  rev (take 4 b) ++ rev (take 2 (drop 4 b)) ++ rev (take 2 (drop 6 b)) ++ drop 8 b.

(** The GUIDs of [efi.h] are in memory the ones the specification prints, and the one
    [uefi_main] spells out is Block I/O's. *)
Theorem guids_as_specified :
  map guid_object
    [EFI_LOADED_IMAGE_PROTOCOL_GUID; EFI_SIMPLE_FILE_SYSTEM_PROTOCOL_GUID; EFI_GRAPHICS_OUTPUT_PROTOCOL_GUID;
     EFI_FIRMWARE_VOLUME2_PROTOCOL_GUID; EFI_SERIAL_IO_PROTOCOL_GUID; EFI_SHELL_APP_GUID; EFI_FILE_INFO_GUID; EFI_BLOCK_IO_PROTOCOL_GUID;
     EFI_DISK_IO_PROTOCOL_GUID; EFI_DEVICE_PATH_PROTOCOL_GUID; ACPI_20_TABLE_GUID] =
  map guid_of_text
    [cs "5B1B31A1-9562-11d2-8E3F-00A0C969723B"; cs "964e5b22-6459-11d2-8e39-00a0c969723b"; cs "9042a9de-23dc-4a38-96fb-7aded080516a";
     cs "220e73b6-6bdb-4413-8405-b974b108619a"; cs "BB25CF6F-F1D4-11D2-9A0C-0090273FC1FD"; cs "7C04A583-9E3E-4f1c-AD65-E05268D0B4D1";
     cs "09576e92-6d3f-11d2-8e39-00a0c969723b"; cs "964e5b21-6459-11d2-8e39-00a0c969723b"; cs "CE345171-BA0B-11d2-8e4F-00A0C969723B";
     cs "09576e91-6d3f-11d2-8e39-00a0c969723b"; cs "8868e871-e4f1-11d3-bc22-0080c73c8881"] /\
  bio_guid = EFI_BLOCK_IO_PROTOCOL_GUID.
Proof. split; [by vm_compute|reflexivity]. Qed.

(** *** Colours and status codes *)

(** The names of the configuration's colours denote the console's colours, and a theme
    colour shifted left, as [uefi_main] does it, the background of that name. *)
Theorem colours_as_named :
  Forall (fun x => fst x = "BRIGHT"%string \/ Config.Config.config_parse_color (map (fun c => c + 32) (cs (fst x))) = snd x) foregrounds /\
  Forall (fun x => (Config.Config.config_parse_color (map (fun c => c + 32) (cs (fst x))) .& 7) << 4 = snd x) backgrounds.
Proof. split; repeat (apply Forall_cons; split; [(by left) || (by right; vm_compute) || by vm_compute|]); constructor. Qed.

(** [EFI_ERROR] tells every error of the header from success. *)
Theorem status_codes_are_errors : Forall (fun x => Boot.EFI_ERROR (snd x) = true /\ 2 ^ 63 < snd x < 2 ^ 64) status_codes /\ Boot.EFI_ERROR 0 = false.
Proof. split; [|done]. repeat (apply Forall_cons; split; [by vm_compute|]). constructor. Qed.

End EfiAbi.
