(* ===== verification/Tests.v ===== *)
(** * Tests: the repository's unit tests on the model, [tests/unit]

    [test_config.c] and [test_crypto.c] call the code and compare with expected values;
    here the definitions are evaluated on the same inputs.  [test_luks.c] does not call
    the code: it builds a header and reads it back itself, so what is compared here is
    its offsets and its copy of the mode parser with the code's.  The key derivations
    with 100 and 1000 iterations and the tests that only run a function twice are left
    out. *)

From S2P Require Import Prelude Layout Aes Sha Hmac Blake2b Cipher Luks1 Luks2 Config Structs.
Import Config.

Module Tests.

(** ** [test_config.c] *)

Definition text (l : list string) : list Z := flat_map (fun s => cs s ++ NL) l.
Definition parse (l : list string) : option (Z * BootConfig) := config_parse (text l) empty_cfg.

(** A fact about the configuration read. *)
Definition reads {A} (l : list string) (f : BootConfig -> A) (v : A) : Prop := f <$> (snd <$> parse l) = Some v.

Definition first_entry {A} (f : BootEntry -> A) (c : BootConfig) : option A := f <$> head (entries c).

Example GlobalTimeout : reads ["timeout = 10"]%string timeout 10.
Proof. by vm_compute. Qed.

Example GlobalDefault : reads
  ["timeout = 3"; "default = 2"; "[entry:A]"; "type=linux"; "kernel=/vmlinuz"; "[entry:B]"; "type=linux"; "kernel=/vmlinuz";
   "[entry:C]"; "type=linux"; "kernel=/vmlinuz"]%string (fun c => (default_entry c, num_entries c)) (2, 3).
Proof. by vm_compute. Qed.

Example DefaultClamped : reads ["default = 99"; "[entry:Only]"; "type=linux"; "kernel=/vmlinuz"]%string default_entry 0.
Proof. by vm_compute. Qed.

Example ThemeAndAccentColors : reads ["theme = blue"; "accent = yellow"; "[entry:X]"; "type=linux"; "kernel=/vmlinuz"]%string
  (fun c => (theme_color c, accent_color c)) (1, 14).
Proof. by vm_compute. Qed.

Example LinuxEntryParsed :
  let l := ["[entry:Arch]"; "type    = linux"; "kernel  = /vmlinuz-linux"; "initrd  = /initramfs-linux.img"; "cmdline = root=/dev/sda2 rw quiet"]%string in
  fst <$> parse l = Some 0 /\
  reads l (first_entry (fun e => (name e, kernel e, initrd e, cmdline e, type e)))
    (Some (cs "Arch", cs "/vmlinuz-linux", cs "/initramfs-linux.img", cs "root=/dev/sda2 rw quiet", OS_TYPE_LINUX)).
Proof. by vm_compute. Qed.

Example WindowsEntryParsed : reads ["[entry:Windows 11]"; "type = windows"]%string (fun c => (num_entries c, first_entry type c)) (1, Some OS_TYPE_WINDOWS).
Proof. by vm_compute. Qed.

Example EncryptedBoolVariants : Forall
  (fun x => reads ["[entry:A]"; "type=linux"; "kernel=/k"; fst x]%string (first_entry encrypted) (Some (snd x)))
  [("encrypted=yes", 1); ("encrypted=1", 1); ("encrypted=true", 1); ("encrypted=no", 0)]%string.
Proof. repeat (apply Forall_cons; split; [by vm_compute|]). constructor. Qed.

Example LuksTries : reads ["[entry:A]"; "type=linux"; "kernel=/k"; "encrypted=yes"; "luks_tries=7"]%string (first_entry luks_tries) (Some 7).
Proof. by vm_compute. Qed.

Example LuksTriesDefaultIsThree : reads ["[entry:A]"; "type=linux"; "kernel=/k"]%string (first_entry luks_tries) (Some 3).
Proof. by vm_compute. Qed.

Example ParseTypeStrings :
  map config_parse_type [cs "linux"; cs "elf64"; cs "multiboot2"; cs "windows"; cs "bogus"; []] =
  [OS_TYPE_LINUX; OS_TYPE_ELF64; OS_TYPE_MULTIBOOT2; OS_TYPE_WINDOWS; OS_TYPE_UNKNOWN; OS_TYPE_UNKNOWN].
Proof. by vm_compute. Qed.

Example ColorNames :
  map config_parse_color [cs "black"; cs "blue"; cs "cyan"; cs "magenta"; cs "yellow"; cs "white"; cs "notacolor"] = [0; 1; 3; 5; 14; 15; -1].
Proof. by vm_compute. Qed.

Example GuessTypeFromFilename :
  map config_guess_type
    [cs "vmlinuz"; cs "vmlinuz-6.12"; cs "bzImage"; cs "kernel.elf"; cs "bootmgfw.efi"; cs "bootmgr.efi"; cs "random.bin"] =
  [OS_TYPE_LINUX; OS_TYPE_LINUX; OS_TYPE_LINUX; OS_TYPE_ELF64; OS_TYPE_WINDOWS; OS_TYPE_WINDOWS; OS_TYPE_UNKNOWN].
Proof. by vm_compute. Qed.

Example MakeName :
  config_make_name (cs "/boot") (cs "vmlinuz") OS_TYPE_LINUX 64 = cs "Linux" /\
  config_make_name (cs "/boot") (cs "vmlinuz-6.12.1") OS_TYPE_LINUX 64 = cs "Linux 6.12.1" /\
  config_make_name (cs "/EFI/Microsoft/Boot") (cs "bootmgfw.efi") OS_TYPE_WINDOWS 64 = cs "Windows".
Proof. by vm_compute. Qed.

Example EmptyConfigReturnsError : fst <$> config_parse [] empty_cfg = Some (-1).
Proof. by vm_compute. Qed.

Example CommentsIgnored : reads
  ["; this is a comment"; "# also a comment"; "[entry:Test]"; "; kernel = /wrong"; "type=linux"; "kernel=/correct"]%string
  (fun c => (num_entries c, first_entry kernel c)) (1, Some (cs "/correct")).
Proof. by vm_compute. Qed.

Example MaxEntries : num_entries <$> (snd <$>
    config_parse (flat_map (fun i => cs "[entry:E" ++ show_dec i ++ cs "]" ++ NL ++ cs "type=linux" ++ NL ++ cs "kernel=/k" ++ show_dec i ++ NL)
                    (seqZ 0 18)) empty_cfg) = Some MAX_ENTRIES.
Proof. by vm_compute. Qed.

Example MergePreservesGlobals :
  (fun c => (timeout c, num_entries c)) <$> (snd <$>
    (r ← parse ["timeout = 8"; "[entry:A]"; "type=linux"; "kernel=/a"]%string;
     config_parse_merge (text ["timeout = 99"; "[entry:B]"; "type=linux"; "kernel=/b"]%string) (snd r))) = Some (8, 2).
Proof. by vm_compute. Qed.

(** ** [test_crypto.c] *)

(** [hex2bin]. *)
Definition hex (s : string) : list Z :=
  (fix go l := match l with
               | a :: b :: l => let v c := if c <=? 57 then c - 48 else c - 87 in v a * 16 + v b :: go l
               | _ => []
               end) (cs s).

Example SHA256_tests :
  sha256 [] = hex "e3b0c44298fc1c149afbf4c8996fb92427ae41e4649b934ca495991b7852b855" /\
  sha256 (cs "abcdbcdecdefdefgefghfghighijhijkijkljklmklmnlmnomnopnopq") =
    hex "248d6a61d20638b8e5c026930c3e6039a33ce45964ff2167f6ecedd419db06c1".
Proof. by vm_compute. Qed.

Example SHA512_EmptyString :
  sha512 [] = hex "cf83e1357eefb8bdf1542850d66d8007d620e4050b5715dc83f4a921d36ce9ce47d0d13c5d85f2b0ff8318d2877eec2f63b931bd47417a81a538327af927da3e".
Proof. by vm_compute. Qed.

Example HMAC_SHA256_RFC4231 :
  hmac_sha256 (repeat 0x0b 20) (cs "Hi There") = hex "b0344c61d8db38535ca8afceaf0bf12b881dc200c9833da726e9376c2e32cff7" /\
  hmac_sha256 (cs "Jefe") (cs "what do ya want for nothing?") = hex "5bdcc146bf60754e6a042426089575c75a003f089d2739839dec58b964ec3843".
Proof. by vm_compute. Qed.

Example HMAC_SHA256_DifferentKeys : hmac_sha256 [1; 2; 3; 4] (cs "hello") <> hmac_sha256 [5; 6; 7; 8] (cs "hello").
Proof. by vm_compute. Qed.

Example PBKDF2_SHA256_BasicVector :
  pbkdf2 (repeat 0 64) (repeat 0 64) HASH_SHA256 (cs "password") (cs "salt") 1 32 =
  Some (hex "120fb6cffcf8b32c43e7225256c4f837a86548c92ccc35480805987cb70be17b").
Proof. by vm_compute. Qed.

Example AES128_blocks :
  let key := hex "2b7e151628aed2a6abf7158809cf4f3c" in
  let pt := hex "6bc1bee22e409f96e93d7e117393172a" in
  let ct := hex "3ad77bb40d7a3660a89ecaf32466ef97" in
  aes_encrypt_block (aes_init_enc key 16) pt = ct /\ aes_decrypt_block (aes_init_dec key 16) ct = pt.
Proof. by vm_compute. Qed.

Example Blake2b_EmptyUnkeyed :
  Blake2b.blake2b [] [] 64 =
  hex "786a02f742015903c6c6fd852552d272912f4740e15847618a86e217f71f5419d25e1031afee585313896444934eb04b903a685b1448b755d56f701afe9be2ce".
Proof. by vm_compute. Qed.

Example Blake2b_KeyedVsUnkeyedDiffer : Blake2b.blake2b (cs "data") (repeat 0xAB 16) 64 <> Blake2b.blake2b (cs "data") [] 64.
Proof. by vm_compute. Qed.

(** ** [test_luks.c] *)

(** Where [make_luks1_header] puts the fields, and where the header has them: the number
    of iterations of the digest and the UUID are twelve bytes too early, inside
    the salt. *)
Definition make_luks1_header : list (string * Z) :=
  [("version", 6); ("cipher_name", 8); ("cipher_mode", 40); ("hash_spec", 72); ("payload_offset", 104); ("key_bytes", 108);
   ("mk_digest_iter", 152); ("uuid", 156); ("key_slots", 208)]%string.

Example luks1_test_offsets :
  filter (fun x => Layout.offset_of Structs.Luks1Header (fst x) <> Some (snd x)) make_luks1_header = [("mk_digest_iter", 152); ("uuid", 156)]%string /\
  map (fun n => Layout.offset_of Structs.Luks1Header n) ["mk_digest_salt"; "mk_digest_iter"; "uuid"]%string = [Some 132; Some 164; Some 168].
Proof. by vm_compute. Qed.

(** The tests' magic of LUKS2 is not the one the code looks for. *)
Example luks2_test_magic :
  let hdr := cs "LUKS" ++ [0xba; 0xbf; 0; 2] in
  Luks2.luks2_probe hdr = false /\ Luks1.luks1_probe hdr = false.
Proof. by vm_compute. Qed.

(** The tests' copy of the mode parser rejects what the code takes for XTS. *)
Definition test_cipher_mode_id (spec : list Z) : Z :=
  if strpfx spec (cs "xts") then 0 else if strpfx spec (cs "cbc-essiv") then 3 else if strpfx spec (cs "cbc-plain64") then 2
  else if strpfx spec (cs "cbc-plain") then 1 else -1.

Example CipherSpec :
  map test_cipher_mode_id [cs "xts-plain64"; cs "xts"; cs "cbc-plain"; cs "cbc-plain64"; cs "cbc-essiv:sha256"; cs "ecb"; []] = [0; 0; 1; 2; 3; -1; -1] /\
  map cipher_mode_id [cs "ecb"; []] = [CIPHER_XTS; CIPHER_XTS].
Proof. by vm_compute. Qed.

End Tests.
